(* ===== verification/_CoqProject ===== *)
-Q . S2P
Prelude.v
FcLib.v
Asset.v
Db.v
Block.v
ForkDb.v
Vesting.v
Objects.v
Database.v
Names.v
Ledger.v
Market.v
Trading.v
Deflation.v
Walk.v
Evaluator.v
MarketOps.v
Feeds.v
AssetOps.v
AssetFacts.v
Accounts.v
Governance.v
Capital.v
Operations.v
Frames.v
Clearing.v
Authority.v
Proposals.v
Witness.v
Transactions.v
Election.v
Budget.v
Maintenance.v
BlockDb.v
Chain.v
Node.v
Produce.v
