(* ===== verification/Prelude.v ===== *)
(** * Super-PI chain: a verification library for the C++ node

    The repository contains a blockchain node derived from Graphene/BitShares.  This
    library models its core, the state machine that every node must agree on
    ([libraries/chain]) and the object database under it ([libraries/db]), as
    executable functions, and proves what makes it correct.

    ** The program

    A node receives blocks and transactions.  [fork_database] keeps the tree of recent
    blocks and says which branch is longest; [database::push_block] extends the chain or
    switches to the longer branch, undoing and applying blocks through the undo log of
    [libraries/db].  A block is applied by [_apply_block]: header, transactions, the
    global data, every so often the maintenance, then everything that expires.  A
    transaction is checked (authorities, time, duplicates, chain) and its operations are
    evaluated one by one; an evaluator checks the operation, takes its fee and changes the
    objects.  The rules that distinguish this chain are deflations, which take a
    fraction of the core in all accounts and orders, and construction capital,
    which is locked and paid back with interest.

    ** The files, in the order in which they build on each other

    - [Prelude]: failures ([exn], [result]), lists, sums, wrapping integers, loops with
      a bound, the tactics and hint databases that all files use.
    - [FcLib]: parameters and laws of the libraries ([fc::safe], 128-bit numbers,
      [boost::rational], [log10] and others).
    - [Asset]: amounts, prices, price feeds ([protocol/asset.cpp]).
    - [Db]: indexes, undo log and sessions ([libraries/db]).
    - [Block], [ForkDb], [BlockDb]: block ids, signatures, Merkle root
      ([protocol/block.cpp]); the tree of blocks ([fork_database.cpp]); the files of
      blocks ([block_database.cpp]).
    - [Vesting], [Objects], [Database], [Names]: vesting balances and their policies
      ([vesting_balance_object.cpp]); the objects of the chain as records in typed
      tables ([*_object.hpp]); balances, statistics, lazy vesting deposits
      ([db_balance.cpp], [account_object.cpp]); account names ([protocol/account.cpp]).
    - [Ledger]: where every unit of every asset is ([holdings]), and what each primitive
      of the state does to it.
    - [Market], [Trading]: the matching engine ([db_market.cpp]) and its theorems.
    - [Deflation]: deflations ([deflation_evaluator.cpp], [db_deflation.cpp]) and
      transfers ([transfer_evaluator.cpp]); [Walk]: the walk of a deflation over many
      blocks.
    - [Evaluator]: the generic evaluator and fees ([evaluator.cpp]); the classes
      [Evaluator] (what an operation provides) and [Conserving] (what it promises).
    - [MarketOps], [Feeds], [AssetOps] with [AssetFacts], [Accounts], [Governance],
      [Capital]: the evaluators, one group per file of the source
      ([market_evaluator.cpp], [asset_object.cpp], [asset_evaluator.cpp],
      [account_evaluator.cpp], witnesses, committee, workers and withdrawals,
      construction capital and incentives).
    - [Operations]: the variant of all operations and [apply_operation]; [Frames]: what
      operations leave alone, and the invariants of accounts and votes.
    - [Clearing]: expired orders, settlements and feeds ([db_update.cpp]).
    - [Authority]: when signatures authorise a transaction ([authority.hpp],
      [protocol/transaction.cpp]).
    - [Proposals]: proposals and the operations only they may contain
      ([proposal_evaluator.cpp], [proposal_object.cpp]).
    - [Witness]: slots, schedule, dynamic global properties, irreversibility
      ([db_witness_schedule.cpp], [db_update.cpp]).
    - [Transactions]: accepting transactions, making and validating headers
      ([db_block.cpp]).
    - [Election], [Budget], [Maintenance]: the maintenance block ([db_maint.cpp]).
    - [Chain]: [apply_block]; [Node]: [push_block], [pop_block], fork switches, the
      pending session ([db_block.cpp], [db_with.hpp]).
    - [Produce]: [generate_block], with the incentives and the steps of a deflation that
      a producer adds ([db_block.cpp], [db_incentive.cpp], [db_deflation.cpp]).

    ** How the code is modelled

    Definitions have the names of the source.  A function that may throw returns a
    [result]; the constructors of [exn] tell assertions, the assertions of debug builds,
    overflow of [fc::safe] and exceptions of libraries apart.  Three of them are not
    exceptions of the code: [undefined_behaviour] (an end iterator or a dangling
    reference is dereferenced), [half_applied] (an exception is caught in the middle of
    a change whose partial state is not modelled), and [out_of_fuel].  Where the
    code catches everything, these are not caught.  Integers have the width of
    the code: [wrap32], [wrap64] and the like where it wraps, overflow exceptions where it
    uses [fc::safe].  Evaluation and application of operations pass the database as a
    value, since a failed operation is undone with its session; where exceptions leave
    changes behind ([Node]), an action returns a state in any case.

    ** Bounds

    Loops of the code are [while] with a bound; a theorem ([..._terminates], or part of
    the specification of the function) shows that the bound suffices: the size of the
    books for matching, the number of orders, settlements, proposals or transactions for
    the clearing loops, 128 halvings for the price of a call, the length of the undo stack
    for [pop_until].  Executing proposals recurses at most twice
    ([Proposals.execution_depth]).  Verification of authorities recurses to the limit
    the code itself has.

    ** Parameters

    [FcLib], [BoostLib], [NthElement]: arithmetic and algorithms of [fc], Boost and
    the C++ library, with reference instances.  [BlockLib], [KeyLib], [TransactionLib],
    [PackLib], [ProcessedLib], [ProducerLib]: hashes, signatures, addresses, packing.  [schedule]: what
    the fee schedule says of an operation.  Their laws are hypotheses of the theorems
    that need them, and every witness runs on concrete instances.

    ** What is proved

    - Value: every operation, transaction, maintenance and block conserves each asset
      up to stated exceptions in core ([operation_conserves], [transaction_conserves],
      [maintenance_conserves], [block_conserves], and the parts they rest on); a global
      settlement is fully backed.
    - Well-formedness: tables, accounts and vote ids stay sound ([accounts_stay_sound],
      [vote_ids_stay_unique]).
    - The market: books in price and time order, what a match exchanges, termination.
    - Storage: undo restores, the block files implement a map, the fork database
      accepts exactly what it should, a push is atomic and a pop undoes it.
    - Acceptance: authorities against an inductive specification, no replay, every block
      becomes the head and leaves nothing expired behind.
    - Production: a generated block is one that every node with the same head accepts,
      with the effect that its producer computed ([generated_block_accepted]); the visits
      that a deflation generates are accepted and move it on ([account_walk_progress]).
    - Elections and budgets: every stake counts once, who is elected, what is paid.

    Where the code does not do what its comments say, a theorem states what it does.

    ** What is not modelled

    The confidential transfers (their proofs are those of a library), claims of genesis
    balances, custom and assert operations; the genesis block, opening, reindexing and
    closing of the database; secondary indexes, notifications to observers and debugging
    updates; the contents of the fee schedule; networking, the APIs, plugins, wallet
    and programs around the chain. *)

From stdpp Require Export base tactics gmap strings list sorting fin_maps.
From Stdlib Require Export ZArith Lia.

#[global] Open Scope Z_scope.

(** ** Failures

    The node reports failure by throwing.  Every way the modelled code can
    stop is a constructor of [exn]. *)

Inductive exn :=
  | assert_exception (what : string)     (* FC_ASSERT, FC_THROW *)
  | graphene_exception (name : string)   (* GRAPHENE_ASSERT( _, name, _ ) *)
  | c_assert (what : string)             (* assert( _ ) in a debug build *)
  | overflow_exception                   (* fc::safe<int64_t> *)
  | bad_rational                         (* boost::rational with denominator 0 *)
  | library_exception (what : string)    (* another throw of a library call *)
  | undefined_behaviour (what : string)  (* dereference of an end iterator or null *)
  | half_applied                         (* model only: caught in the middle of a change *)
  | out_of_fuel.                         (* model only: a loop bound was reached *)

#[export] Instance exn_eq_dec : EqDecision exn.
Proof. solve_decision. Defined.

(** What [catch( const fc::exception& )] catches (what is thrown inside an evaluator is turned into
    one). *)
Definition is_fc_exception (e : exn) : bool :=
  match e with
  | assert_exception _ | graphene_exception _ | overflow_exception | bad_rational | library_exception _ => true
  | c_assert _ | undefined_behaviour _ | half_applied | out_of_fuel => false
  end.

(** ** The error monad *)

Inductive result (A : Type) :=
  | Ok (a : A)
  | Err (e : exn).
Arguments Ok {A} a.
Arguments Err {A} e.

#[export] Instance result_ret : MRet result := fun A a => Ok a.
#[export] Instance result_bind : MBind result := fun A B f m =>
  match m with Ok a => f a | Err e => Err e end.
#[export] Instance result_fmap : FMap result := fun A B f m =>
  match m with Ok a => Ok (f a) | Err e => Err e end.

#[export] Instance result_eq_dec `{EqDecision A} : EqDecision (result A).
Proof. solve_decision. Defined.

Definition is_Ok {A} (r : result A) : Prop := exists a, r = Ok a.

Definition of_option {A} (o : option A) (e : exn) : result A :=
  match o with Some a => Ok a | None => Err e end.

Definition result_ok {A} (r : result A) : bool :=
  match r with Ok _ => true | Err _ => false end.

(** [FC_ASSERT( b, what )] and its relatives. *)
Definition guard_or (e : exn) (b : bool) : result unit :=
  if b then Ok tt else Err e.
Abbreviation FC_ASSERT b what := (guard_or (assert_exception what) b) (only parsing).
Abbreviation GRAPHENE_ASSERT b name := (guard_or (graphene_exception name) b) (only parsing).
Abbreviation C_ASSERT b what := (guard_or (c_assert what) b) (only parsing).

Section Result.
Context {A B C : Type}.

Lemma bind_Ok (m : result A) (f : A -> result B) b :
  (m ≫= f) = Ok b <-> exists a, m = Ok a /\ f a = Ok b.
Proof. destruct m; simpl; naive_solver. Qed.

Lemma bind_Err (m : result A) (f : A -> result B) e :
  (m ≫= f) = Err e <-> m = Err e \/ exists a, m = Ok a /\ f a = Err e.
Proof. destruct m; simpl; naive_solver. Qed.

Lemma bind_assoc (m : result A) (f : A -> result B) (g : B -> result C) :
  ((m ≫= f) ≫= g) = (m ≫= (fun a => f a ≫= g)).
Proof. by destruct m. Qed.

Lemma of_option_Ok (o : option A) e a : of_option o e = Ok a <-> o = Some a.
Proof. destruct o; simpl; naive_solver. Qed.
End Result.

Lemma result_ok_true {A} (r : result A) : result_ok r = true -> exists a, r = Ok a.
Proof. destruct r; [eauto|done]. Qed.

Lemma guard_or_Ok e b u : guard_or e b = Ok u <-> b = true.
Proof. destruct b, u; simpl; naive_solver. Qed.

Lemma guard_or_Err e b e' : guard_or e b = Err e' <-> b = false /\ e = e'.
Proof. destruct b; simpl; naive_solver. Qed.

Lemma guard_or_true e b : b = true -> guard_or e b = Ok tt.
Proof. by intros ->. Qed.

(** ** Loops

    [while fuel cond body s] runs [body] as long as [cond] holds.  A loop of
    the source is this function at a fuel that a termination theorem shows to
    be enough. *)

Section While.
Context {S : Type} (cond : S -> bool) (body : S -> result S).

Fixpoint while (fuel : nat) (s : S) : result S :=
  if cond s then
    match fuel with
    | O => Err out_of_fuel
    | Datatypes.S n => s' ← body s; while n s'
    end
  else Ok s.

Lemma while_done fuel s : cond s = false -> while fuel s = Ok s.
Proof. destruct fuel; simpl; by intros ->. Qed.

Lemma while_step n s : cond s = true -> while (Datatypes.S n) s = (s' ← body s; while n s').
Proof. intros Hc. simpl. by rewrite Hc. Qed.

(** Partial correctness: an invariant of the body holds at the end. *)
Lemma while_inv (P : S -> Prop) :
  (forall s s', P s -> cond s = true -> body s = Ok s' -> P s') ->
  forall fuel s s', P s -> while fuel s = Ok s' -> P s' /\ cond s' = false.
Proof.
  intros Hstep fuel; induction fuel as [|n IH]; intros s s' HP; simpl;
    destruct (cond s) eqn:Hc; try naive_solver.
  intros (s1 & Hb & Hw)%bind_Ok. eauto.
Qed.

(** Total correctness: with a decreasing measure and a body that does not
    throw, fuel above the measure suffices. *)
Lemma while_total (P : S -> Prop) (m : S -> nat) :
  (forall s, P s -> cond s = true ->
     exists s', body s = Ok s' /\ P s' /\ (m s' < m s)%nat) ->
  forall fuel s, P s -> (m s <= fuel)%nat ->
    exists s', while fuel s = Ok s' /\ P s' /\ cond s' = false.
Proof.
  intros Hstep fuel; induction fuel as [|n IH]; intros s HP Hm; simpl;
    destruct (cond s) eqn:Hc; eauto;
    destruct (Hstep s HP Hc) as (s1 & Hb & HP1 & Hlt); [lia|].
  rewrite Hb; simpl. apply IH; [done|lia].
Qed.

(** With a decreasing measure the fuel is enough, whatever else may fail. *)
Lemma while_fuel (P : S -> Prop) (m : S -> nat) :
  (forall s s', P s -> cond s = true -> body s = Ok s' -> P s' /\ (m s' < m s)%nat) ->
  (forall s, P s -> body s <> Err out_of_fuel) ->
  forall fuel s, P s -> (m s < fuel)%nat -> while fuel s <> Err out_of_fuel.
Proof.
  intros Hstep Herr fuel; induction fuel as [|n IH]; intros s HP Hm; [lia|].
  simpl. destruct (cond s) eqn:Hc; [|done].
  specialize (Herr s HP). destruct (body s) as [s'|e] eqn:Hb; simpl; [|done].
  destruct (Hstep s s') as [HP' Hlt]; [done..|]. apply IH; [done|lia].
Qed.

(** With a decreasing measure, more fuel makes no difference. *)
Lemma while_enough (P : S -> Prop) (m : S -> nat) :
  (forall s s', P s -> cond s = true -> body s = Ok s' -> P s' /\ (m s' < m s)%nat) ->
  forall fuel fuel' s, P s -> (m s < fuel)%nat -> (m s < fuel')%nat -> while fuel s = while fuel' s.
Proof.
  intros Hstep fuel. induction fuel as [|n IH]; intros [|n'] s HP Hm Hm'; try lia. simpl.
  destruct (cond s) eqn:Hc; [|done]. destruct (body s) as [s'|e] eqn:Hb; simpl; [|done].
  destruct (Hstep s s' HP Hc Hb) as [HP' Hlt]. apply IH; [done|lia|lia].
Qed.
End While.
#[global] Arguments while {S} cond body fuel s : simpl never.

(** *** Fuel

    [terminates r]: [r] is not the result of a loop that ran out of fuel.  The
    tactic [terminate] shows it for straight-line code. *)

Definition terminates {A} (r : result A) : Prop := r <> Err out_of_fuel.

Section Terminates.
Context {A B : Type}.

Lemma terminates_Ok (a : A) : terminates (Ok a).
Proof. done. Qed.

Lemma terminates_Err e : e <> out_of_fuel -> terminates (A := A) (Err e).
Proof. unfold terminates. congruence. Qed.

Lemma terminates_bind (m : result A) (f : A -> result B) :
  terminates m -> (forall a, m = Ok a -> terminates (f a)) -> terminates (m ≫= f).
Proof. unfold terminates. destruct m; simpl; [auto|congruence]. Qed.

Lemma terminates_of_option (o : option A) e : e <> out_of_fuel -> terminates (of_option o e).
Proof. unfold terminates. destruct o; simpl; congruence. Qed.
End Terminates.

Lemma terminates_guard e b : e <> out_of_fuel -> terminates (guard_or e b).
Proof. unfold terminates. destruct b; simpl; congruence. Qed.

(** [for( x : l ) s = f( s, x )] with a body that may throw. *)
Fixpoint foldM {A S} (f : S -> A -> result S) (s : S) (l : list A) : result S :=
  match l with
  | [] => Ok s
  | x :: l => s' ← f s x; foldM f s' l
  end.

Lemma foldM_app {A S} (f : S -> A -> result S) s l1 l2 :
  foldM f s (l1 ++ l2) = (s' ← foldM f s l1; foldM f s' l2).
Proof.
  revert s; induction l1 as [|x l1 IH]; intros s; simpl; [done|].
  destruct (f s x); simpl; auto.
Qed.

Lemma foldM_terminates {A S} (f : S -> A -> result S) l :
  (forall s x, terminates (f s x)) -> forall s, terminates (foldM f s l).
Proof.
  intros Hf. induction l as [|x l IH]; intros s; simpl; [done|].
  apply terminates_bind; [apply Hf|auto].
Qed.

Lemma foldM_ext {A S} (f g : S -> A -> result S) l : (forall s x, x ∈ l -> f s x = g s x) -> forall s, foldM f s l = foldM g s l.
Proof.
  induction l as [|x l IH]; intros E s; cbn [foldM]; [done|]. rewrite (E s x) by left.
  destruct (g s x); [|done]. apply IH. intros. apply E. by right.
Qed.

Lemma foldM_terminates_inv {A S} (f : S -> A -> result S) (P : S -> Prop) l :
  (forall s x, P s -> terminates (f s x)) -> (forall s x s', P s -> f s x = Ok s' -> P s') ->
  forall s, P s -> terminates (foldM f s l).
Proof.
  intros Ht Hp. induction l as [|x l IH]; intros s Hs; cbn [foldM]; [done|].
  apply terminates_bind; [auto|]. intros s' H. apply IH. eauto.
Qed.

Lemma foldM_inv {A S} (f : S -> A -> result S) (P : S -> Prop) l :
  (forall s x s', P s -> x ∈ l -> f s x = Ok s' -> P s') ->
  forall s s', P s -> foldM f s l = Ok s' -> P s'.
Proof.
  induction l as [|x l IH]; simpl; intros Hf s s' HP; [naive_solver|].
  intros (s1 & H1 & H2)%bind_Ok.
  eapply IH; [|eapply Hf|exact H2]; eauto using list_elem_of_here, list_elem_of_further.
Qed.

(** ** Machine integers *)

Definition INT64_MIN : Z := - 2 ^ 63.
Definition INT64_MAX : Z := 2 ^ 63 - 1.
Definition UINT64_MAX : Z := 2 ^ 64 - 1.
Definition UINT128_MOD : Z := 2 ^ 128.

Definition in_int64 (z : Z) : Prop := INT64_MIN <= z <= INT64_MAX.
Definition in_uint64 (z : Z) : Prop := 0 <= z <= UINT64_MAX.
Definition in_uint128 (z : Z) : Prop := 0 <= z < UINT128_MOD.

#[export] Instance in_int64_dec z : Decision (in_int64 z).
Proof. unfold in_int64. apply _. Defined.
#[export] Instance in_uint64_dec z : Decision (in_uint64 z).
Proof. unfold in_uint64. apply _. Defined.
#[export] Instance in_uint128_dec z : Decision (in_uint128 z).
Proof. unfold in_uint128. apply _. Defined.

(** Unsigned wrap-around of the built-in types. *)
Definition wrap16 (z : Z) : Z := z mod 2 ^ 16.
Definition wrap32 (z : Z) : Z := z mod 2 ^ 32.
Definition wrap64 (z : Z) : Z := z mod 2 ^ 64.

(** Conversion of an unsigned 64-bit value to [int64_t] (two's complement). *)
Definition to_int64 (z : Z) : Z :=
  let w := z mod 2 ^ 64 in if w <? 2 ^ 63 then w else w - 2 ^ 64.

(** Built-in signed arithmetic. *)
Definition int64_or_ub (z : Z) : result Z :=
  if decide (in_int64 z) then Ok z else Err (undefined_behaviour "signed overflow").
Definition add_int64 (x y : Z) : result Z := int64_or_ub (x + y).
Definition sub_int64 (x y : Z) : result Z := int64_or_ub (x - y).

Ltac unfold_bounds :=
  unfold in_int64, in_uint64, in_uint128, INT64_MIN, INT64_MAX, UINT64_MAX,
    UINT128_MOD, wrap16, wrap32, wrap64 in *.

(** [lia] with the machine bounds unfolded. *)
Ltac blia := unfold_bounds; lia.

Lemma wrap32_small z : 0 <= z < 2 ^ 32 -> wrap32 z = z.
Proof. apply Z.mod_small. Qed.

Lemma to_int64_small z : 0 <= z <= INT64_MAX -> to_int64 z = z.
Proof.
  intros Hz. unfold to_int64. rewrite Z.mod_small by blia.
  destruct (Z.ltb_spec z (2 ^ 63)); blia.
Qed.

Lemma to_int64_id z : in_int64 z -> to_int64 z = z.
Proof.
  intros Hz. unfold to_int64. destruct (Z.le_gt_cases 0 z) as [H|H].
  - rewrite Z.mod_small by blia. destruct (Z.ltb_spec z (2 ^ 63)); blia.
  - replace (z mod 2 ^ 64) with (z + 2 ^ 64).
    + destruct (Z.ltb_spec (z + 2 ^ 64) (2 ^ 63)); blia.
    + apply (Z.mod_unique_pos _ _ (-1)); blia.
Qed.

(** Scaling by a fraction at most one: the shape of every percentage cut. *)
Lemma scale_down_bounds a num den :
  0 <= a -> 0 <= num <= den -> 0 < den -> 0 <= a * num / den <= a.
Proof.
  intros Ha Hn Hd. split; [apply Z.div_pos; nia|].
  apply Z.div_le_upper_bound; nia.
Qed.

Lemma scale_down_mono a b num den :
  a <= b -> 0 <= num -> 0 < den -> a * num / den <= b * num / den.
Proof. intros. apply Z.div_le_mono; nia. Qed.

(** The head of an index is its least entry. *)
Lemma merge_sort_head {A} (R : relation A) `{forall x y, Decision (R x y), !Transitive R, !Total R} (l : list A) x :
  head (merge_sort R l) = Some x -> x ∈ l /\ forall y, y ∈ l -> R x y.
Proof.
  intros Hh. assert (Hp : merge_sort R l ≡ₚ l) by apply merge_sort_Permutation.
  assert (Hs : StronglySorted R (merge_sort R l)) by (apply StronglySorted_merge_sort; apply _).
  destruct (merge_sort R l) as [|z l']; [done|]. injection Hh as ->. split; [rewrite <-Hp; apply list_elem_of_here|].
  intros y. rewrite <-Hp. intros [->|Hy]%elem_of_cons; [by destruct (total R x x)|].
  apply StronglySorted_inv in Hs as [_ Hf]. by eapply Forall_forall in Hf.
Qed.

Lemma merge_sort_head_None {A} (R : relation A) `{forall x y, Decision (R x y)} (l : list A) :
  head (merge_sort R l) = None -> l = [].
Proof. intros Hh%head_None. apply Permutation_nil_r. by rewrite <-Hh, merge_sort_Permutation. Qed.

(** A map with fewer keys is smaller. *)
Lemma map_size_no_more `{Countable K} {A B} (m : gmap K A) (m' : gmap K B) :
  (forall j, m !! j = None -> m' !! j = None) -> (size m' <= size m)%nat.
Proof.
  intros Hsub. rewrite <-!size_dom. apply subseteq_size. intros j.
  rewrite !elem_of_dom, <-!not_eq_None_Some. naive_solver.
Qed.

Lemma map_size_fewer `{Countable K} {A B} (m : gmap K A) (m' : gmap K B) k :
  (forall j, m !! j = None -> m' !! j = None) -> is_Some (m !! k) -> m' !! k = None -> (size m' < size m)%nat.
Proof.
  intros Hsub Hk Hk'. rewrite <-!size_dom. apply subset_size. split.
  - intros j. rewrite !elem_of_dom, <-!not_eq_None_Some. naive_solver.
  - intros Hd. apply elem_of_dom, Hd, elem_of_dom in Hk. rewrite Hk' in Hk. by destruct Hk.
Qed.

(** ** Sums over maps

    The totals of the chain state: [map_sum f m] adds [f k x] over the entries
    of [m]. *)

Section MapSum.
Context {K A : Type} `{Countable K}.
Implicit Types (m : gmap K A) (f g : K -> A -> Z).

Definition map_sum f m : Z := map_fold (fun k x s => f k x + s) 0 m.

(** The contribution of an optional entry. *)
Definition at_key f (k : K) (o : option A) : Z :=
  match o with Some x => f k x | None => 0 end.

Lemma map_sum_empty f : map_sum f ∅ = 0.
Proof. apply map_fold_empty. Qed.

Lemma map_sum_insert_new f m k x : m !! k = None -> map_sum f (<[k := x]> m) = f k x + map_sum f m.
Proof. intros Hk. unfold map_sum. rewrite map_fold_insert_L; [done|intros; lia|done]. Qed.

Lemma map_sum_delete f m k : map_sum f (delete k m) = map_sum f m - at_key f k (m !! k).
Proof.
  destruct (m !! k) as [x|] eqn:Hk; simpl.
  - rewrite <-(insert_delete_id m k x) at 2 by done.
    rewrite map_sum_insert_new; [lia|apply lookup_delete_eq].
  - rewrite delete_id by done. lia.
Qed.

Lemma map_sum_insert f m k x :
  map_sum f (<[k := x]> m) = map_sum f m + f k x - at_key f k (m !! k).
Proof.
  rewrite <-insert_delete_eq, map_sum_insert_new, map_sum_delete; [lia|apply lookup_delete_eq].
Qed.

Lemma map_sum_alter f m k (g : A -> A) :
  map_sum f (alter g k m)
  = map_sum f m + at_key f k (g <$> m !! k) - at_key f k (m !! k).
Proof.
  destruct (m !! k) as [x|] eqn:Hk; simpl.
  - assert (alter g k m = <[k := g x]> m) as ->.
    { apply map_eq. intros j. destruct (decide (j = k)) as [->|].
      - by rewrite lookup_alter_eq, lookup_insert_eq, Hk.
      - by rewrite lookup_alter_ne, lookup_insert_ne. }
    rewrite map_sum_insert, Hk. simpl. lia.
  - assert (alter g k m = m) as ->; [|lia].
    apply map_eq. intros j. destruct (decide (j = k)) as [->|].
    + by rewrite lookup_alter_eq, Hk.
    + by rewrite lookup_alter_ne.
Qed.

Lemma map_sum_fmap f m (g : A -> A) :
  (forall k x, f k (g x) = f k x) -> map_sum f (g <$> m) = map_sum f m.
Proof.
  intros Hg. induction m as [|k x m Hk IH] using map_ind; [by rewrite fmap_empty|].
  rewrite fmap_insert, !map_sum_insert_new by (by rewrite ?lookup_fmap, Hk). by rewrite IH, Hg.
Qed.

Lemma map_sum_nonneg f m :
  (forall k x, m !! k = Some x -> 0 <= f k x) -> 0 <= map_sum f m.
Proof.
  induction m as [|k x m Hk IH] using map_ind; [by rewrite map_sum_empty|].
  intros Hf. rewrite map_sum_insert_new by done.
  assert (0 <= f k x) by (apply Hf, lookup_insert_eq).
  assert (0 <= map_sum f m); [|lia].
  apply IH. intros j y Hj. apply Hf. rewrite lookup_insert_ne; [done|congruence].
Qed.

Lemma map_sum_ext f g m :
  (forall k x, m !! k = Some x -> f k x = g k x) -> map_sum f m = map_sum g m.
Proof.
  induction m as [|k x m Hk IH] using map_ind; [by rewrite !map_sum_empty|].
  intros Hf. rewrite !map_sum_insert_new by done. f_equal; [apply Hf, lookup_insert_eq|].
  apply IH. intros j y Hj. apply Hf. rewrite lookup_insert_ne; [done|congruence].
Qed.
End MapSum.

(** ** Record update

    [x <| f := v |>] and [x <| f ::= g |>] for records with a [Settable]
    instance (the eta expansion of the record). *)

Class Settable (R : Type) := eta_record : R -> R.

Class Updater {R E : Type} (proj : R -> E) := update : (E -> E) -> R -> R.
Arguments update {R E} proj {Updater} _ _ /.

Ltac derive_updater :=
  match goal with
  | |- @Updater ?R ?E ?proj =>
      let inst := constr:(_ : Settable R) in
      let inst := eval hnf in inst in
      let e := eval pattern proj in inst in
      match e with
      | ?h _ => let h := eval cbv beta in (fun (g : E -> E) => h (fun x => g (proj x))) in
                exact h
      end
  end.
#[global] Hint Extern 1 (@Updater _ _ _) => derive_updater : typeclass_instances.

Notation "x <| proj ::= f |>" := (update proj f x)
  (at level 1, left associativity, proj at level 9, f at level 200, format "x  <| proj  ::=  f |>").
Notation "x <| proj := v |>" := (update proj (fun _ => v) x)
  (at level 1, left associativity, proj at level 9, v at level 200, format "x  <| proj  :=  v |>").

(** ** Tactics *)

Create HintDb chain.
Create Rewrite HintDb chain.

Ltac inv_result_step :=
  match goal with
  | H : Ok _ = Ok _ |- _ => injection H; clear H; intros; subst
  | H : Err _ = Err _ |- _ => injection H; clear H; intros; subst
  | H : Ok _ = Err _ |- _ => discriminate H
  | H : Err _ = Ok _ |- _ => discriminate H
  | H : mret _ = _ |- _ => unfold mret, result_ret in H
  | H : (_ ≫= _) = Ok _ |- _ =>
      let a := fresh "a" in let Ha := fresh "H" in
      apply bind_Ok in H; destruct H as (a & Ha & H); cbv beta in H
  | H : guard_or _ _ = Ok ?u |- _ =>
      apply guard_or_Ok in H; try clear u
  | H : of_option _ _ = Ok _ |- _ => apply of_option_Ok in H
  | H : (if ?b then _ else Err _) = Ok _ |- _ => destruct b eqn:?; [|discriminate H]
  | H : (if ?b then Err _ else _) = Ok _ |- _ => destruct b eqn:?; [discriminate H|]
  end.

(** Decompose a successful run of monadic code into its steps. *)
Ltac inv_result := repeat inv_result_step.

(** The same through results that are pairs. *)
Ltac inv_results :=
  repeat (inv_result_step ||
    match goal with H : (let '(_, _) := ?p in _) = Ok _ |- _ => destruct p end).

Ltac bool_to_prop_step :=
  match goal with
  | H : _ && _ = true |- _ => apply andb_true_iff in H; destruct H
  | H : _ || _ = false |- _ => apply orb_false_iff in H; destruct H
  | H : negb _ = true |- _ => apply negb_true_iff in H
  | H : negb _ = false |- _ => apply negb_false_iff in H
  | H : (_ <=? _) = true |- _ => apply Z.leb_le in H
  | H : (_ <=? _) = false |- _ => apply Z.leb_gt in H
  | H : (_ <? _) = true |- _ => apply Z.ltb_lt in H
  | H : (_ <? _) = false |- _ => apply Z.ltb_ge in H
  | H : (_ =? _) = true |- _ => apply Z.eqb_eq in H
  | H : (_ =? _) = false |- _ => apply Z.eqb_neq in H
  | H : bool_decide _ = true |- _ => apply bool_decide_eq_true in H
  | H : bool_decide _ = false |- _ => apply bool_decide_eq_false in H
  end.

(** Boolean tests of the code as the propositions they decide. *)
Ltac bool_to_prop := repeat bool_to_prop_step.

Create HintDb fuel.

Ltac terminate_step :=
  match goal with
  | |- terminates (Ok _) => apply terminates_Ok
  | |- terminates (Err _) => apply terminates_Err; discriminate
  | |- terminates (guard_or _ _) => apply terminates_guard; discriminate
  | |- terminates (of_option _ _) => apply terminates_of_option; discriminate
  | |- terminates (_ ≫= _) => apply terminates_bind; [|intros]
  | |- terminates (let '(_, _) := ?p in _) => destruct p
  | |- terminates (if ?b then _ else _) => destruct b eqn:?
  | |- terminates (match ?o with _ => _ end) => destruct o eqn:?
  end.

Ltac terminate :=
  repeat (cbv zeta; first [solve [eauto with fuel nocore] | terminate_step]).

(** Close a decidable fact about concrete values by evaluation. *)
Ltac ground := repeat split; vm_compute; congruence.

#[export] Hint Resolve guard_or_true scale_down_bounds : chain.
#[export] Hint Rewrite @bind_assoc : chain.
