(* ===== verification/FcLib.v ===== *)
(** * Interface to the libraries the node is built on

    The repository uses the [fc] library (a git submodule) and Boost.  Their
    code is not part of it, so the model takes them as parameters: [FcLib]
    collects the operations the modelled code calls, [FcLaws] states the
    documented behaviour that the theorems rely on.  [fc_ref] is a reference
    instance on which concrete runs are evaluated. *)

From S2P Require Import Prelude.

(** [fc::safe<int64_t>]: 64-bit arithmetic that throws on overflow. *)
Record safe_ops := {
  safe_add : Z -> Z -> result Z;
  safe_sub : Z -> Z -> result Z;
  safe_neg : Z -> result Z;
  safe_div : Z -> Z -> result Z;
}.

(** A 128-bit unsigned type: [fc::uint128] or
    [boost::multiprecision::uint128_t].  [u128_to_uint64] is [to_uint64()],
    respectively [convert_to<int64_t>()] of a value that fits. *)
Record uint128_ops := {
  u128_of : Z -> Z;
  u128_add : Z -> Z -> Z;
  u128_sub : Z -> Z -> Z;
  u128_mul : Z -> Z -> Z;
  u128_div : Z -> Z -> Z;
  u128_shl : Z -> Z -> Z;
  u128_shr : Z -> Z -> Z;
  u128_popcount : Z -> Z;
  u128_to_uint64 : Z -> result Z;
}.

(** [boost::rational<int128_t>] as (numerator, denominator), and the operations
    on [int128_t] that rounding uses: [n >> 1], [n & 1] and
    [convert_to<int64_t>()]. *)
Record rational_ops := {
  rat_make : Z -> Z -> result (Z * Z);
  rat_mul : Z * Z -> Z * Z -> result (Z * Z);
  i128_shr1 : Z -> Z;
  i128_and1 : Z -> Z;
  i128_to_int64 : Z -> Z;
}.

(** [fc::real128]: an abstract number type. *)
Record real128_ops := {
  real128 : Type;
  real_of : Z -> real128;
  real_add : real128 -> real128 -> real128;
  real_mul : real128 -> real128 -> result real128;
  real_div : real128 -> real128 -> result real128;
  real_to_uint64 : real128 -> result Z;
}.

Class FcLib := {
  fc_safe : safe_ops;
  fc_u128 : uint128_ops;
  boost_u128 : uint128_ops;
  boost_rat : rational_ops;
  fc_real : real128_ops;
  fc_now : Z;                      (* [fc::time_point::now()], in microseconds *)
  fc_to_base36 : Z -> string;      (* of the bytes of a key *)
}.

Definition in_int128 (z : Z) : Prop := - 2 ^ 127 <= z < 2 ^ 127.

(** ** Documented behaviour *)

Record safe_laws (o : safe_ops) : Prop := {
  safe_add_ok a b : in_int64 (a + b) -> safe_add o a b = Ok (a + b);
  safe_add_throws a b : ~ in_int64 (a + b) -> safe_add o a b = Err overflow_exception;
  safe_sub_ok a b : in_int64 (a - b) -> safe_sub o a b = Ok (a - b);
  safe_sub_throws a b : ~ in_int64 (a - b) -> safe_sub o a b = Err overflow_exception;
  safe_neg_ok a : in_int64 (- a) -> safe_neg o a = Ok (- a);
  safe_neg_throws a : ~ in_int64 (- a) -> safe_neg o a = Err overflow_exception;
  safe_div_ok a b : 0 <= a -> 0 < b -> safe_div o a b = Ok (a / b);
}.

(** Arithmetic is exact as long as the exact result is representable. *)
Record uint128_laws (o : uint128_ops) : Prop := {
  u128_of_ok z : in_uint64 z -> u128_of o z = z;
  u128_add_ok a b : 0 <= a -> 0 <= b -> a + b < UINT128_MOD -> u128_add o a b = a + b;
  u128_sub_ok a b : 0 <= b -> b <= a -> a < UINT128_MOD -> u128_sub o a b = a - b;
  u128_mul_ok a b : 0 <= a -> 0 <= b -> a * b < UINT128_MOD -> u128_mul o a b = a * b;
  u128_div_ok a b : in_uint128 a -> 0 < b -> u128_div o a b = a / b;
  u128_shl_ok a n : in_uint128 a -> 0 <= n < 128 -> u128_shl o a n = Z.shiftl a n mod UINT128_MOD;
  u128_shr_ok a n : in_uint128 a -> 0 <= n < 128 -> u128_shr o a n = Z.shiftr a n;
  u128_popcount_range a : in_uint128 a -> 0 <= u128_popcount o a <= 128;
  u128_to_uint64_ok a : in_uint64 a -> u128_to_uint64 o a = Ok a;
  u128_to_uint64_exact a r : a <= UINT64_MAX -> u128_to_uint64 o a = Ok r -> r = a /\ 0 <= a;
}.

(** A rational is kept in lowest terms with a positive denominator; a zero
    denominator throws [boost::bad_rational]. *)
Record rational_laws (o : rational_ops) : Prop := {
  rat_make_ok n d : 0 <= n -> 0 < d -> in_int128 n -> in_int128 d ->
    rat_make o n d = Ok (n / Z.gcd n d, d / Z.gcd n d);
  rat_make_zero n : rat_make o n 0 = Err bad_rational;
  rat_mul_ok n1 d1 n2 d2 : 0 <= n1 -> 0 < d1 -> 0 <= n2 -> 0 < d2 ->
    in_int128 (n1 * n2) -> in_int128 (d1 * d2) ->
    rat_mul o (n1, d1) (n2, d2) = rat_make o (n1 * n2) (d1 * d2);
  i128_shr1_ok n : 0 <= n -> i128_shr1 o n = n / 2;
  i128_and1_ok n : 0 <= n -> i128_and1 o n = n mod 2;
  i128_to_int64_ok n : in_int64 n -> i128_to_int64 o n = n;
}.

Record real128_laws (o : real128_ops) : Prop := {
  real_to_uint64_range r z : real_to_uint64 o r = Ok z -> in_uint64 z;
}.

(** No library call reports the model's own failure. *)
Record library_calls (FC : FcLib) : Prop := {
  fc_to_uint64_terminates a : terminates (u128_to_uint64 fc_u128 a);
  boost_to_uint64_terminates a : terminates (u128_to_uint64 boost_u128 a);
  real_mul_terminates a b : terminates (real_mul fc_real a b);
  real_div_terminates a b : terminates (real_div fc_real a b);
  real_to_uint64_terminates a : terminates (real_to_uint64 fc_real a);
}.

Class FcLaws (FC : FcLib) : Prop := {
  fc_library_calls : library_calls FC;
  fc_safe_laws : safe_laws fc_safe;
  fc_u128_laws : uint128_laws fc_u128;
  boost_u128_laws : uint128_laws boost_u128;
  boost_rat_laws : rational_laws boost_rat;
  fc_real_laws : real128_laws fc_real;
}.

(** ** Consequences used by every component *)

Section Laws.
Context `{FC : FcLib, !FcLaws FC}.

Lemma safe_add_inv a b c :
  safe_add fc_safe a b = Ok c -> c = a + b /\ in_int64 (a + b).
Proof.
  destruct (decide (in_int64 (a + b))) as [Hin|Hout].
  - rewrite (safe_add_ok _ fc_safe_laws) by done. naive_solver.
  - rewrite (safe_add_throws _ fc_safe_laws) by done. naive_solver.
Qed.

Lemma safe_sub_inv a b c :
  safe_sub fc_safe a b = Ok c -> c = a - b /\ in_int64 (a - b).
Proof.
  destruct (decide (in_int64 (a - b))) as [Hin|Hout].
  - rewrite (safe_sub_ok _ fc_safe_laws) by done. naive_solver.
  - rewrite (safe_sub_throws _ fc_safe_laws) by done. naive_solver.
Qed.

Lemma safe_neg_inv a c : safe_neg fc_safe a = Ok c -> c = - a /\ in_int64 (- a).
Proof.
  destruct (decide (in_int64 (- a))) as [Hin|Hout].
  - rewrite (safe_neg_ok _ fc_safe_laws) by done. naive_solver.
  - rewrite (safe_neg_throws _ fc_safe_laws) by done. naive_solver.
Qed.

Lemma safe_add_terminates a b : terminates (safe_add fc_safe a b).
Proof.
  destruct (decide (in_int64 (a + b))).
  - by rewrite (safe_add_ok _ fc_safe_laws).
  - by rewrite (safe_add_throws _ fc_safe_laws).
Qed.

Lemma safe_sub_terminates a b : terminates (safe_sub fc_safe a b).
Proof.
  destruct (decide (in_int64 (a - b))).
  - by rewrite (safe_sub_ok _ fc_safe_laws).
  - by rewrite (safe_sub_throws _ fc_safe_laws).
Qed.

Lemma safe_neg_terminates a : terminates (safe_neg fc_safe a).
Proof.
  destruct (decide (in_int64 (- a))).
  - by rewrite (safe_neg_ok _ fc_safe_laws).
  - by rewrite (safe_neg_throws _ fc_safe_laws).
Qed.

Section Scale.
Context {o : uint128_ops} (L : uint128_laws o).

(** [uint128( a ) * num / den] is exact on 64-bit operands. *)
Lemma u128_scale a num den :
  in_uint64 a -> in_uint64 num -> 0 < den -> in_uint64 den ->
  u128_div o (u128_mul o (u128_of o a) (u128_of o num)) (u128_of o den) = a * num / den.
Proof.
  intros Ha Hn Hd Hd'. rewrite !(u128_of_ok _ L) by done.
  assert (0 <= a * num < UINT128_MOD) by (unfold_bounds; nia).
  rewrite (u128_mul_ok _ L), (u128_div_ok _ L); blia.
Qed.

(** A cut by a fraction of at most one stays in range and converts back. *)
Lemma u128_cut a num den :
  in_uint64 a -> 0 <= num <= den -> 0 < den -> in_uint64 den ->
  u128_to_uint64 o (u128_div o (u128_mul o (u128_of o a) (u128_of o num)) (u128_of o den))
  = Ok (a * num / den).
Proof.
  intros Ha Hn Hd Hd'. assert (in_uint64 num) by blia. rewrite u128_scale by done.
  apply (u128_to_uint64_ok _ L).
  pose proof (scale_down_bounds a num den). blia.
Qed.
End Scale.
End Laws.

(** ** Boost *)

(** [boost::multiprecision::detail::find_msb], the sum of a [boost::gregorian::date]
    (days since 1970) and a number of [months], and products and quotients of
    [int128_t]. *)
Class BoostLib := {
  find_msb : Z -> Z;
  date_add_months : Z -> Z -> Z;
  i128_mul : Z -> Z -> Z;
  i128_div : Z -> Z -> Z;
}.

Class BoostLaws (B : BoostLib) : Prop := {
  find_msb_ok v : 0 < v <= UINT64_MAX -> find_msb v = Z.log2 v;
  date_add_months_later d m : 0 <= d -> 0 < m -> d < date_add_months d m;
  i128_mul_ok a b : in_int128 (a * b) -> i128_mul a b = a * b;
  i128_div_ok a b : in_int128 a -> b <> 0 -> i128_div a b = Z.quot a b;
}.

(** In the reference instance a month is a twelfth of 365 days. *)
Definition boost_ref : BoostLib := {|
  find_msb := Z.log2;
  date_add_months d m := d + m * 365 / 12;
  i128_mul := Z.mul;
  i128_div := Z.quot;
|}.

#[export] Instance boost_ref_laws : BoostLaws boost_ref.
Proof.
  split; intros; simpl; try done. pose proof (Z.div_le_lower_bound (m * 365) 12 1). lia.
Qed.

(** ** A reference instance *)

Definition checked64 (z : Z) : result Z :=
  if decide (in_int64 z) then Ok z else Err overflow_exception.

Definition ref_safe : safe_ops := {|
  safe_add a b := checked64 (a + b);
  safe_sub a b := checked64 (a - b);
  safe_neg a := checked64 (- a);
  safe_div a b := if b =? 0 then Err (library_exception "divide by zero") else Ok (a / b);
|}.

Definition ref_u128 : uint128_ops := {|
  u128_of z := z mod UINT128_MOD;
  u128_add a b := (a + b) mod UINT128_MOD;
  u128_sub a b := (a - b) mod UINT128_MOD;
  u128_mul a b := (a * b) mod UINT128_MOD;
  u128_div a b := a / b;
  u128_shl a n := Z.shiftl a n mod UINT128_MOD;
  u128_shr a n := Z.shiftr a n;
  u128_popcount a := Z.of_nat (length (filter (fun i => Is_true (Z.testbit a (Z.of_nat i))) (seq 0 128)));
  u128_to_uint64 a :=
    if decide (in_uint64 a) then Ok a else Err (library_exception "to_uint64");
|}.

Definition ref_rat_make (n d : Z) : result (Z * Z) :=
  if d =? 0 then Err bad_rational
  else let g := Z.gcd n d in Ok (Z.sgn d * n / g, Z.abs d / g).

Definition ref_rat : rational_ops := {|
  rat_make := ref_rat_make;
  rat_mul p q := ref_rat_make (p.1 * q.1) (p.2 * q.2);
  i128_shr1 n := Z.shiftr n 1;
  i128_and1 n := Z.land n 1;
  i128_to_int64 n := to_int64 n;
|}.

(** Fixed point with 18 decimals. *)
Definition real_precision : Z := 10 ^ 18.

Definition ref_real : real128_ops := {|
  real128 := Z;
  real_of z := z * real_precision;
  real_add a b := a + b;
  real_mul a b := Ok (a * b / real_precision);
  real_div a b :=
    if b =? 0 then Err (library_exception "divide by zero") else Ok (a * real_precision / b);
  real_to_uint64 a :=
    if decide (in_uint64 (a / real_precision)) then Ok (a / real_precision)
    else Err (library_exception "to_uint64");
|}.

(** The clock stands still in 2020. *)
Definition ref_now : Z := 1577836800 * 1000000.

Fixpoint base36 (fuel : nat) (z : Z) (s : string) : string :=
  match fuel with
  | O => s
  | S fuel =>
      let d := z mod 36 in
      let s := String (Ascii.ascii_of_nat (Z.to_nat (if d <? 10 then 48 + d else 87 + d))) s in
      if z <? 36 then s else base36 fuel (z / 36) s
  end.

Definition fc_ref : FcLib := {|
  fc_safe := ref_safe;
  fc_u128 := ref_u128;
  boost_u128 := ref_u128;
  boost_rat := ref_rat;
  fc_real := ref_real;
  fc_now := ref_now;
  fc_to_base36 z := base36 64 z EmptyString;
|}.

Lemma ref_safe_laws : safe_laws ref_safe.
Proof.
  split; intros; simpl; unfold checked64; try (case_decide; done).
  destruct (Z.eqb_spec b 0); [lia|done].
Qed.

Lemma ref_u128_laws : uint128_laws ref_u128.
Proof.
  split; intros; cbn [ref_u128 u128_of u128_add u128_sub u128_mul u128_div u128_shl u128_shr u128_popcount u128_to_uint64] in *;
    try (rewrite Z.mod_small; blia); [done|done|done| |by case_decide|].
  { split; [lia|]. pose proof (length_filter (fun i => Is_true (Z.testbit a (Z.of_nat i))) (seq 0 128)) as Hf.
    rewrite length_seq in Hf. lia. }
  case_decide as Hd; [|done]. inv_result. blia.
Qed.

Lemma ref_rat_laws : rational_laws ref_rat.
Proof.
  split; intros; simpl; unfold ref_rat_make; simpl; try done.
  - destruct (Z.eqb_spec d 0); [lia|].
    by rewrite Z.sgn_pos, Z.abs_eq, Z.mul_1_l by lia.
  - by rewrite Z.shiftr_div_pow2 by lia.
  - change 1 with (Z.ones 1). by rewrite Z.land_ones by lia.
  - by apply to_int64_id.
Qed.

Lemma ref_real_laws : real128_laws ref_real.
Proof. split. intros r z; simpl. case_decide; naive_solver. Qed.

Lemma ref_library_calls : library_calls fc_ref.
Proof. split; intros; simpl; repeat case_match; done. Qed.

#[export] Instance fc_ref_laws : FcLaws fc_ref.
Proof.
  split; simpl; auto using ref_library_calls, ref_safe_laws, ref_u128_laws, ref_rat_laws, ref_real_laws.
Qed.

#[export] Hint Resolve safe_add_terminates safe_sub_terminates safe_neg_terminates
  fc_to_uint64_terminates boost_to_uint64_terminates real_mul_terminates real_div_terminates
  real_to_uint64_terminates fc_library_calls : fuel.

(** Replace the checked additions and subtractions of a successful run by
    their exact results. *)
Ltac inv_safe :=
  repeat match goal with
  | H : safe_add fc_safe _ _ = Ok _ |- _ =>
      apply safe_add_inv in H; let Hr := fresh "Hrange" in destruct H as [-> Hr]
  | H : safe_sub fc_safe _ _ = Ok _ |- _ =>
      apply safe_sub_inv in H; let Hr := fresh "Hrange" in destruct H as [-> Hr]
  | H : safe_neg fc_safe _ = Ok _ |- _ =>
      apply safe_neg_inv in H; let Hr := fresh "Hrange" in destruct H as [-> Hr]
  end.
