(* ===== verification/Asset.v ===== *)
(** * Assets, prices and price feeds

    Models [libraries/chain/protocol/asset.cpp] and
    [libraries/chain/include/graphene/chain/protocol/asset.hpp]: amounts tagged
    with an asset id, prices as ratios of two assets, the rounding and
    saturation of [call_price] and [max_short_squeeze_price], and the price
    feed checks. *)

From S2P Require Import Prelude FcLib.

(** Instance numbers of object ids. *)
Abbreviation asset_id_type := N (only parsing).
Definition CORE_ASSET : asset_id_type := 0%N.

Definition GRAPHENE_MAX_SHARE_SUPPLY : Z := 1000000000000.
Definition GRAPHENE_COLLATERAL_RATIO_DENOM : Z := 1000.
Definition GRAPHENE_MIN_COLLATERAL_RATIO : Z := 1001.
Definition GRAPHENE_MAX_COLLATERAL_RATIO : Z := 32000.

(** ** Data *)

Record asset := Asset { amount : Z; asset_id : asset_id_type }.

Record price := Price { base : asset; quote : asset }.

Record price_feed := Price_feed {
  settlement_price : price;
  core_exchange_rate : price;
  maintenance_collateral_ratio : Z;
  maximum_short_squeeze_ratio : Z;
}.

#[export] Instance asset_eq_dec : EqDecision asset.
Proof. solve_decision. Defined.
#[export] Instance price_eq_dec : EqDecision price.
Proof. solve_decision. Defined.

#[export] Instance settable_price_feed : Settable price_feed :=
  fun f => Price_feed (settlement_price f) (core_exchange_rate f)
             (maintenance_collateral_ratio f) (maximum_short_squeeze_ratio f).

(** The default-constructed values [asset()] and [price()]. *)
Definition null_asset : asset := Asset 0 CORE_ASSET.
Definition null_price : price := Price null_asset null_asset.

Section Operations.
Context `{FC : FcLib}.

(** ** [struct asset] *)

Definition asset_add (a b : asset) : result asset :=
  _ ← FC_ASSERT (asset_id a =? asset_id b)%N "asset_id == o.asset_id";
  s ← safe_add fc_safe (amount a) (amount b);
  Ok (Asset s (asset_id a)).

Definition asset_sub (a b : asset) : result asset :=
  _ ← FC_ASSERT (asset_id a =? asset_id b)%N "asset_id == o.asset_id";
  s ← safe_sub fc_safe (amount a) (amount b);
  Ok (Asset s (asset_id a)).

Definition asset_neg (a : asset) : result asset :=
  s ← safe_neg fc_safe (amount a); Ok (Asset s (asset_id a)).

Definition asset_eqb (a b : asset) : bool :=
  (asset_id a =? asset_id b)%N && (amount a =? amount b).

Definition asset_ltb (a b : asset) : result bool :=
  _ ← FC_ASSERT (asset_id a =? asset_id b)%N "a.asset_id == b.asset_id";
  Ok (amount a <? amount b).

Definition asset_leb (a b : asset) : result bool :=
  if asset_eqb a b then Ok true else asset_ltb a b.

Definition asset_gtb (a b : asset) : result bool :=
  r ← asset_leb a b; Ok (negb r).

Definition asset_geb (a b : asset) : result bool :=
  r ← asset_ltb a b; Ok (negb r).

(** [std::min( a, b )] on assets. *)
Definition asset_min (a b : asset) : result asset :=
  r ← asset_ltb b a; Ok (if r : bool then b else a).

(** ** [struct price]: comparison by cross multiplication *)

Definition cross_mult (x y : Z) : Z :=
  u128_mul boost_u128 (u128_of boost_u128 x) (u128_of boost_u128 y).

Definition price_eqb (a b : price) : bool :=
  (asset_id (base a) =? asset_id (base b))%N &&
  (asset_id (quote a) =? asset_id (quote b))%N &&
  (cross_mult (amount (quote b)) (amount (base a)) =?
   cross_mult (amount (quote a)) (amount (base b))).

Definition price_ltb (a b : price) : bool :=
  if (asset_id (base a) <? asset_id (base b))%N then true
  else if (asset_id (base b) <? asset_id (base a))%N then false
  else if (asset_id (quote a) <? asset_id (quote b))%N then true
  else if (asset_id (quote b) <? asset_id (quote a))%N then false
  else cross_mult (amount (quote b)) (amount (base a)) <?
       cross_mult (amount (quote a)) (amount (base b)).

Definition price_leb (a b : price) : bool := price_eqb a b || price_ltb a b.
Definition price_gtb (a b : price) : bool := negb (price_leb a b).
Definition price_geb (a b : price) : bool := negb (price_ltb a b).

(** [price operator / ( const asset& base, const asset& quote )] *)
Definition asset_div (b q : asset) : result price :=
  _ ← FC_ASSERT (negb (asset_id b =? asset_id q)%N) "base.asset_id != quote.asset_id";
  Ok (Price b q).

(** [operator~] *)
Definition price_inv (p : price) : price := Price (quote p) (base p).

Definition price_max (b q : asset_id_type) : result price :=
  asset_div (Asset GRAPHENE_MAX_SHARE_SUPPLY b) (Asset 1 q).

Definition price_min (b q : asset_id_type) : result price :=
  asset_div (Asset 1 b) (Asset GRAPHENE_MAX_SHARE_SUPPLY q).

Definition unit_price (a : asset_id_type) : price := Price (Asset 1 a) (Asset 1 a).

Definition is_null (p : price) : bool := price_eqb p null_price.

Definition price_validate (p : price) : result unit :=
  _ ← FC_ASSERT (0 <? amount (base p)) "base.amount > share_type(0)";
  _ ← FC_ASSERT (0 <? amount (quote p)) "quote.amount > share_type(0)";
  FC_ASSERT (negb (asset_id (base p) =? asset_id (quote p))%N)
    "base.asset_id != quote.asset_id".

(** [asset operator * ( const asset& a, const price& b )] *)
Definition asset_mul_price (a : asset) (b : price) : result asset :=
  if (asset_id a =? asset_id (base b))%N then
    _ ← FC_ASSERT (0 <? amount (base b)) "b.base.amount.value > 0";
    let r := u128_div boost_u128 (cross_mult (amount a) (amount (quote b)))
               (u128_of boost_u128 (amount (base b))) in
    _ ← FC_ASSERT (r <=? GRAPHENE_MAX_SHARE_SUPPLY) "result <= GRAPHENE_MAX_SHARE_SUPPLY";
    v ← u128_to_uint64 boost_u128 r;
    Ok (Asset v (asset_id (quote b)))
  else if (asset_id a =? asset_id (quote b))%N then
    _ ← FC_ASSERT (0 <? amount (quote b)) "b.quote.amount.value > 0";
    let r := u128_div boost_u128 (cross_mult (amount a) (amount (base b)))
               (u128_of boost_u128 (amount (quote b))) in
    _ ← FC_ASSERT (r <=? GRAPHENE_MAX_SHARE_SUPPLY) "result <= GRAPHENE_MAX_SHARE_SUPPLY";
    v ← u128_to_uint64 boost_u128 r;
    Ok (Asset v (asset_id (base b)))
  else Err (assert_exception "invalid asset * price").

(** The loop condition shared by [call_price] and [max_short_squeeze_price]. *)
Definition exceeds_max (cp : Z * Z) : bool :=
  (GRAPHENE_MAX_SHARE_SUPPLY <? cp.1) || (GRAPHENE_MAX_SHARE_SUPPLY <? cp.2).

Definition call_price_step (cp : Z * Z) : result (Z * Z) :=
  rat_make boost_rat (i128_shr1 boost_rat cp.1 + 1) (i128_shr1 boost_rat cp.2 + 1).

(** Iterations that suffice for any 64-bit operands (see [call_price_total]). *)
Definition halving_fuel : nat := 128.

Definition call_price (debt collateral : asset) (collateral_ratio : Z) : result price :=
  swan ← rat_make boost_rat (amount debt) (amount collateral);
  ratio ← rat_make boost_rat collateral_ratio GRAPHENE_COLLATERAL_RATIO_DENOM;
  cp ← rat_mul boost_rat swan ratio;
  cp ← while exceeds_max call_price_step halving_fuel cp;
  p ← asset_div (Asset (i128_to_int64 boost_rat cp.1) (asset_id debt))
        (Asset (i128_to_int64 boost_rat cp.2) (asset_id collateral));
  Ok (price_inv p).

(** ** [struct price_feed] *)

Definition squeeze_step (cp : Z * Z) : result (Z * Z) :=
  rat_make boost_rat (i128_shr1 boost_rat cp.1 + i128_and1 boost_rat cp.1)
    (i128_shr1 boost_rat cp.2 + i128_and1 boost_rat cp.2).

Definition max_short_squeeze_price (f : price_feed) : result price :=
  let stl := settlement_price f in
  sp ← rat_make boost_rat (amount (base stl)) (amount (quote stl));
  ratio ← rat_make boost_rat GRAPHENE_COLLATERAL_RATIO_DENOM (maximum_short_squeeze_ratio f);
  cp ← rat_mul boost_rat sp ratio;
  cp ← while exceeds_max squeeze_step halving_fuel cp;
  asset_div (Asset (i128_to_int64 boost_rat cp.1) (asset_id (base stl)))
    (Asset (i128_to_int64 boost_rat cp.2) (asset_id (quote stl))).

Definition price_feed_validate (f : price_feed) : result unit :=
  _ ← (if negb (is_null (settlement_price f))
       then price_validate (settlement_price f) else Ok tt);
  _ ← FC_ASSERT (GRAPHENE_MIN_COLLATERAL_RATIO <=? maximum_short_squeeze_ratio f)
        "maximum_short_squeeze_ratio >= GRAPHENE_MIN_COLLATERAL_RATIO";
  _ ← FC_ASSERT (maximum_short_squeeze_ratio f <=? GRAPHENE_MAX_COLLATERAL_RATIO)
        "maximum_short_squeeze_ratio <= GRAPHENE_MAX_COLLATERAL_RATIO";
  _ ← FC_ASSERT (GRAPHENE_MIN_COLLATERAL_RATIO <=? maintenance_collateral_ratio f)
        "maintenance_collateral_ratio >= GRAPHENE_MIN_COLLATERAL_RATIO";
  _ ← FC_ASSERT (maintenance_collateral_ratio f <=? GRAPHENE_MAX_COLLATERAL_RATIO)
        "maintenance_collateral_ratio <= GRAPHENE_MAX_COLLATERAL_RATIO";
  _ ← max_short_squeeze_price f;
  Ok tt.

Definition is_for (f : price_feed) (a : asset_id_type) : bool :=
  if negb (is_null (settlement_price f)) then (asset_id (base (settlement_price f)) =? a)%N
  else if negb (is_null (core_exchange_rate f)) then
    (asset_id (base (core_exchange_rate f)) =? a)%N
  else true.
End Operations.

(** ** The table of powers of ten *)

Fixpoint p10 (n : nat) : Z := match n with O => 1 | S n => 10 * p10 n end.

Definition scaled_precision_lut : list Z := p10 <$> seq 0 19.

Definition scaled_precision (precision : Z) : result Z :=
  _ ← FC_ASSERT (precision <? 19) "precision < 19";
  of_option (scaled_precision_lut !! Z.to_nat precision)
    (undefined_behaviour "scaled_precision_lut out of range").

(** ** Properties *)

(** An amount as the node stores it: a non-negative [int64_t]. *)
Definition nonneg64 (z : Z) : Prop := 0 <= z <= INT64_MAX.

(** A price both of whose amounts are positive, as [price::validate] requires. *)
Record pos_price (p : price) : Prop := {
  pos_base : 0 < amount (base p) <= INT64_MAX;
  pos_quote : 0 < amount (quote p) <= INT64_MAX;
}.

#[export] Hint Resolve pos_base pos_quote : chain.

Section Facts.
Context `{FC : FcLib, !FcLaws FC}.

Lemma cross_mult_exact x y : nonneg64 x -> nonneg64 y -> cross_mult x y = x * y.
Proof.
  unfold nonneg64, cross_mult. intros Hx Hy.
  rewrite !(u128_of_ok _ boost_u128_laws) by blia.
  apply (u128_mul_ok _ boost_u128_laws); unfold_bounds; nia.
Qed.

Lemma nonneg64_pos z : 0 < z <= INT64_MAX -> nonneg64 z.
Proof. unfold nonneg64; lia. Qed.
Local Hint Resolve nonneg64_pos : core.

(** On positive prices the comparison operators compare the ids
    lexicographically and then the ratios. *)
Lemma price_ltb_spec a b : pos_price a -> pos_price b ->
  price_ltb a b = true <->
    (asset_id (base a) < asset_id (base b))%N \/
    asset_id (base a) = asset_id (base b) /\
    ((asset_id (quote a) < asset_id (quote b))%N \/
     asset_id (quote a) = asset_id (quote b) /\
     amount (base a) * amount (quote b) < amount (base b) * amount (quote a)).
Proof.
  intros [] []. unfold price_ltb. rewrite !cross_mult_exact by auto.
  repeat match goal with |- context [(?x <? ?y)%N] => destruct (N.ltb_spec x y) end;
    rewrite ?Z.ltb_lt; split; intros; try discriminate; lia.
Qed.

Lemma price_eqb_spec a b : pos_price a -> pos_price b ->
  price_eqb a b = true <->
    asset_id (base a) = asset_id (base b) /\ asset_id (quote a) = asset_id (quote b) /\
    amount (base a) * amount (quote b) = amount (base b) * amount (quote a).
Proof.
  intros [] []. unfold price_eqb. rewrite !cross_mult_exact by auto.
  rewrite !andb_true_iff, !N.eqb_eq, Z.eqb_eq. lia.
Qed.

(** Ratios compare transitively: [x1/y1 < x2/y2 < x3/y3]. *)
Lemma ratio_lt_trans x1 y1 x2 y2 x3 y3 :
  0 < y1 -> 0 < y2 -> 0 < y3 ->
  x1 * y2 < x2 * y1 -> x2 * y3 < x3 * y2 -> x1 * y3 < x3 * y1.
Proof.
  intros. apply (Z.mul_lt_mono_pos_r y2); [done|].
  transitivity (x2 * y1 * y3); nia.
Qed.

(** [asset * price] multiplies by one side and divides, rounding down, by
    the other. *)
Definition converted (a num den : Z) (id : asset_id_type) : result asset :=
  if a * num / den <=? GRAPHENE_MAX_SHARE_SUPPLY then Ok (Asset (a * num / den) id)
  else Err (assert_exception "result <= GRAPHENE_MAX_SHARE_SUPPLY").

Lemma convert_exact a num den id :
  nonneg64 a -> nonneg64 num -> 0 < den <= INT64_MAX ->
  (_ ← FC_ASSERT (0 <? den) "pos";
   let r := u128_div boost_u128 (cross_mult a num) (u128_of boost_u128 den) in
   _ ← FC_ASSERT (r <=? GRAPHENE_MAX_SHARE_SUPPLY) "result <= GRAPHENE_MAX_SHARE_SUPPLY";
   v ← u128_to_uint64 boost_u128 r; Ok (Asset v id)) = converted a num den id.
Proof.
  intros Ha Hn Hd. unfold converted, cross_mult.
  rewrite (u128_scale boost_u128_laws) by (unfold nonneg64 in *; blia).
  destruct (Z.ltb_spec 0 den); [simpl|lia].
  destruct (Z.leb_spec (a * num / den) GRAPHENE_MAX_SHARE_SUPPLY) as [Hle|]; [simpl|done].
  rewrite (u128_to_uint64_ok _ boost_u128_laws); [done|].
  unfold GRAPHENE_MAX_SHARE_SUPPLY, nonneg64 in *.
  assert (0 <= a * num / den) by (apply Z.div_pos; nia). blia.
Qed.

Lemma asset_mul_price_base a p : pos_price p -> nonneg64 (amount a) ->
  asset_id a = asset_id (base p) ->
  asset_mul_price a p =
    converted (amount a) (amount (quote p)) (amount (base p)) (asset_id (quote p)).
Proof.
  intros [? ?] Ha Hid. unfold asset_mul_price. rewrite Hid, N.eqb_refl.
  rewrite <- (convert_exact _ _ _ _) by auto. simpl.
  by destruct (Z.ltb_spec 0 (amount (base p))); [|lia].
Qed.

Lemma asset_mul_price_quote a p : pos_price p -> nonneg64 (amount a) ->
  asset_id a = asset_id (quote p) -> asset_id a <> asset_id (base p) ->
  asset_mul_price a p =
    converted (amount a) (amount (base p)) (amount (quote p)) (asset_id (base p)).
Proof.
  intros [? ?] Ha Hid Hne. unfold asset_mul_price.
  rewrite (proj2 (N.eqb_neq _ _) Hne), Hid, N.eqb_refl.
  rewrite <- (convert_exact _ _ _ _) by auto. simpl.
  by destruct (Z.ltb_spec 0 (amount (quote p))); [|lia].
Qed.

Lemma converted_Ok a num den id r :
  converted a num den id = Ok r ->
  r = Asset (a * num / den) id /\ a * num / den <= GRAPHENE_MAX_SHARE_SUPPLY.
Proof.
  unfold converted. intros H. inv_result. bool_to_prop. done.
Qed.

(** *** The halving loops *)

Definition ratio_ok (cp : Z * Z) : Prop :=
  0 < cp.1 /\ 0 < cp.2 /\ cp.1 + cp.2 < 2 ^ 120.

Definition halving_measure (cp : Z * Z) : nat := Z.to_nat (1 + Z.log2 (cp.1 + cp.2 - 4)).

Lemma rat_make_ratio n d : 0 < n -> 0 < d -> n < 2 ^ 120 -> d < 2 ^ 120 ->
  exists n' d', rat_make boost_rat n d = Ok (n', d') /\
    0 < n' <= n /\ 0 < d' <= d /\ n' * d = n * d'.
Proof.
  intros Hn Hd Hn' Hd'.
  rewrite (rat_make_ok _ boost_rat_laws) by (unfold in_int128; lia).
  assert (0 < Z.gcd n d) as Hg.
  { pose proof (Z.gcd_nonneg n d).
    enough (Z.gcd n d <> 0) by lia. intros H0%Z.gcd_eq_0_l; lia. }
  destruct (Z.gcd_divide_l n d) as [x Hx], (Z.gcd_divide_r n d) as [y Hy].
  set (g := Z.gcd n d) in *. clearbody g. subst n d.
  rewrite !Z.div_mul by lia. exists x, y. repeat split; nia.
Qed.

(** A step that at most halves and rounds up by two makes progress. *)
Lemma halving_progress (step : Z * Z -> result (Z * Z)) :
  (forall cp, ratio_ok cp -> exists n d,
     step cp = rat_make boost_rat n d /\
     0 < n /\ 0 < d /\ n + d <= (cp.1 + cp.2) / 2 + 2) ->
  forall cp, ratio_ok cp -> exceeds_max cp = true ->
    exists cp', step cp = Ok cp' /\ ratio_ok cp' /\
      (halving_measure cp' < halving_measure cp)%nat.
Proof.
  intros Hstep cp Hok Hex. destruct (Hstep cp Hok) as (n & d & -> & Hn & Hd & Hs).
  destruct Hok as (H1 & H2 & H3).
  assert (n + d < 2 ^ 119 + 2).
  { assert ((cp.1 + cp.2) / 2 < 2 ^ 119) by (apply Z.div_lt_upper_bound; lia). lia. }
  destruct (rat_make_ratio n d) as (n' & d' & -> & Hn' & Hd' & _); [lia..|].
  exists (n', d'). split; [done|]. split; [split; simpl; lia|].
  unfold halving_measure; simpl.
  assert (GRAPHENE_MAX_SHARE_SUPPLY < cp.1 + cp.2) as Hbig.
  { unfold exceeds_max in Hex. apply orb_true_iff in Hex as [?%Z.ltb_lt|?%Z.ltb_lt]; lia. }
  unfold GRAPHENE_MAX_SHARE_SUPPLY in Hbig.
  assert (Z.log2 (n' + d' - 4) <= Z.log2 ((cp.1 + cp.2 - 4) / 2)) as Hle.
  { apply Z.log2_le_mono.
    replace (cp.1 + cp.2) with ((cp.1 + cp.2 - 4) + 2 * 2) in Hs by lia.
    rewrite Z.div_add in Hs by lia. lia. }
  replace ((cp.1 + cp.2 - 4) / 2) with (Z.shiftr (cp.1 + cp.2 - 4) 1) in Hle
    by (rewrite Z.shiftr_div_pow2; [done|lia]).
  rewrite Z.log2_shiftr in Hle by lia.
  assert (39 <= Z.log2 (cp.1 + cp.2 - 4)) by (apply Z.log2_le_pow2; lia).
  pose proof (Z.log2_nonneg (n' + d' - 4)). lia.
Qed.

Lemma halving_terminates step :
  (forall cp, ratio_ok cp -> exceeds_max cp = true ->
    exists cp', step cp = Ok cp' /\ ratio_ok cp' /\
      (halving_measure cp' < halving_measure cp)%nat) ->
  forall cp, ratio_ok cp -> exists cp',
    while exceeds_max step halving_fuel cp = Ok cp' /\ ratio_ok cp' /\
    exceeds_max cp' = false.
Proof.
  intros Hstep cp Hok. apply (while_total _ _ ratio_ok halving_measure); auto.
  unfold halving_measure, halving_fuel. destruct Hok as (? & ? & ?).
  assert (Z.log2 (cp.1 + cp.2 - 4) <= Z.log2 (2 ^ 120)) by (apply Z.log2_le_mono; lia).
  rewrite Z.log2_pow2 in * by lia. lia.
Qed.

Lemma half_bounds x : 0 <= x -> 2 * (x / 2) <= x < 2 * (x / 2) + 2.
Proof. pose proof (Z.div_mod x 2). pose proof (Z.mod_pos_bound x 2). lia. Qed.

Lemma call_price_step_halves cp : ratio_ok cp -> exists n d,
  call_price_step cp = rat_make boost_rat n d /\
  0 < n /\ 0 < d /\ n + d <= (cp.1 + cp.2) / 2 + 2.
Proof.
  intros (H1 & H2 & H3). unfold call_price_step.
  rewrite !(i128_shr1_ok _ boost_rat_laws) by lia.
  eexists _, _; split; [done|].
  pose proof (half_bounds cp.1). pose proof (half_bounds cp.2).
  pose proof (half_bounds (cp.1 + cp.2)). lia.
Qed.

Lemma squeeze_step_halves cp : ratio_ok cp -> exists n d,
  squeeze_step cp = rat_make boost_rat n d /\
  0 < n /\ 0 < d /\ n + d <= (cp.1 + cp.2) / 2 + 2.
Proof.
  intros (H1 & H2 & H3). unfold squeeze_step.
  rewrite !(i128_shr1_ok _ boost_rat_laws), !(i128_and1_ok _ boost_rat_laws) by lia.
  eexists _, _; split; [done|].
  pose proof (Z.div_mod cp.1 2). pose proof (Z.div_mod cp.2 2).
  pose proof (Z.mod_pos_bound cp.1 2). pose proof (Z.mod_pos_bound cp.2 2).
  pose proof (half_bounds (cp.1 + cp.2)). lia.
Qed.

(** The product both functions start from. *)
Lemma rat_product a b c d :
  0 < a <= INT64_MAX -> 0 < b <= INT64_MAX -> 0 < c < 2 ^ 16 -> 0 < d < 2 ^ 16 ->
  exists cp, (p ← rat_make boost_rat a b; q ← rat_make boost_rat c d;
              rat_mul boost_rat p q) = Ok cp /\
    ratio_ok cp /\ cp.1 * (b * d) = a * c * cp.2 /\ cp.1 <= a * c /\ cp.2 <= b * d.
Proof.
  intros Ha Hb Hc Hd. unfold INT64_MAX in *.
  destruct (rat_make_ratio a b) as (a' & b' & -> & ? & ? & E1); [lia..|].
  destruct (rat_make_ratio c d) as (c' & d' & -> & ? & ? & E2); [lia..|].
  assert (a' * c' < 2 ^ 80 /\ b' * d' < 2 ^ 80) as [? ?] by (split; nia).
  simpl. rewrite (rat_mul_ok _ boost_rat_laws) by (unfold in_int128; nia).
  destruct (rat_make_ratio (a' * c') (b' * d')) as (n & m & -> & ? & ? & E3);
    [nia | nia | lia | lia |].
  assert (a' * c' <= a * c /\ b' * d' <= b * d) as [? ?]
    by (split; apply Z.mul_le_mono_nonneg; lia).
  exists (n, m). split; [done|]. unfold ratio_ok; simpl. repeat split; try lia.
  apply (Z.mul_reg_r _ _ (b' * d')); [nia|].
  replace (n * (b * d) * (b' * d')) with (n * (b' * d') * (b * d)) by ring.
  rewrite E3.
  replace (a * c * m * (b' * d')) with ((a * b') * (c * d') * m) by ring.
  rewrite <- E1, <- E2. ring.
Qed.

(** The conversion of the final ratio back to [int64_t] amounts. *)
Lemma ratio_to_int64 cp : ratio_ok cp -> exceeds_max cp = false ->
  (0 < cp.1 <= GRAPHENE_MAX_SHARE_SUPPLY /\ 0 < cp.2 <= GRAPHENE_MAX_SHARE_SUPPLY) /\
  i128_to_int64 boost_rat cp.1 = cp.1 /\ i128_to_int64 boost_rat cp.2 = cp.2.
Proof.
  intros (H1 & H2 & H3) Hex. unfold exceeds_max in Hex. bool_to_prop.
  rewrite !(i128_to_int64_ok _ boost_rat_laws);
    unfold GRAPHENE_MAX_SHARE_SUPPLY in *; blia.
Qed.

(** While neither side exceeds the maximum, the loop does nothing. *)
Lemma while_not_exceeding step cp : exceeds_max cp = false ->
  while exceeds_max step halving_fuel cp = Ok cp.
Proof. apply while_done. Qed.
End Facts.

Section Properties.
Context `{FC : FcLib, !FcLaws FC}.

(** On prices with positive amounts [operator <] is a strict total order
    (irreflexive, transitive, and exactly one of [a < b], [a == b], [b < a])
    although it is computed by 128-bit cross multiplication. *)
Theorem price_order_total (a b c : price) :
  pos_price a -> pos_price b -> pos_price c ->
  price_ltb a a = false /\
  (price_ltb a b = true -> price_ltb b c = true -> price_ltb a c = true) /\
  ((price_ltb a b = true /\ price_eqb a b = false /\ price_ltb b a = false) \/
   (price_ltb a b = false /\ price_eqb a b = true /\ price_ltb b a = false) \/
   (price_ltb a b = false /\ price_eqb a b = false /\ price_ltb b a = true)).
Proof.
  intros Ha Hb Hc. rewrite <- !not_true_iff_false, !price_ltb_spec, !price_eqb_spec by done.
  destruct Ha, Hb, Hc.
  split; [lia|]. split; [|lia].
  intros [?|(? & [?|[? ?]])] [?|(? & [?|[? ?]])]; try lia.
  right; split; [congruence|]. right; split; [congruence|].
  eapply (ratio_lt_trans _ _ (amount (base b)) (amount (quote b))); lia.
Qed.

(** C21: [asset * price] converts in either direction, rounding down, and
    throws exactly when the result exceeds the maximum share supply. *)
Theorem asset_mul_price_spec (a : asset) (p : price) :
  pos_price p -> nonneg64 (amount a) -> asset_id (base p) <> asset_id (quote p) ->
  asset_mul_price a p =
    if decide (asset_id a = asset_id (base p)) then
      converted (amount a) (amount (quote p)) (amount (base p)) (asset_id (quote p))
    else if decide (asset_id a = asset_id (quote p)) then
      converted (amount a) (amount (base p)) (amount (quote p)) (asset_id (base p))
    else Err (assert_exception "invalid asset * price").
Proof.
  intros Hp Ha Hne. case_decide; [by apply asset_mul_price_base|].
  case_decide; [by apply asset_mul_price_quote|].
  unfold asset_mul_price.
  by rewrite !(proj2 (N.eqb_neq _ _)) by done.
Qed.

(** Converting an amount at a price and back never yields more than was
    put in. *)
Theorem asset_mul_price_no_gain (a r a' : asset) (p : price) :
  pos_price p -> nonneg64 (amount a) -> asset_id (base p) <> asset_id (quote p) ->
  asset_mul_price a p = Ok r -> asset_mul_price r p = Ok a' ->
  asset_id a' = asset_id a /\ amount a' <= amount a.
Proof.
  assert (forall a x y : Z, nonneg64 a -> 0 < x <= INT64_MAX -> 0 < y <= INT64_MAX ->
    a * x / y <= GRAPHENE_MAX_SHARE_SUPPLY ->
    nonneg64 (a * x / y) /\ (a * x / y) * y / x <= a) as Hback.
  { intros n x y Hn Hx Hy Hle. unfold nonneg64, GRAPHENE_MAX_SHARE_SUPPLY in *.
    assert (0 <= n * x / y) by (apply Z.div_pos; nia).
    split; [blia|]. apply Z.div_le_upper_bound; [lia|].
    rewrite Z.mul_comm. pose proof (Z.mul_div_le (n * x) y). nia. }
  intros Hp Ha Hne H1 H2. destruct (Hp) as [Hb Hq].
  destruct (decide (asset_id a = asset_id (base p))) as [Eb|Nb].
  - rewrite asset_mul_price_base in H1 by done. apply converted_Ok in H1 as [-> Hle].
    destruct (Hback (amount a) (amount (quote p)) (amount (base p))); auto.
    rewrite asset_mul_price_quote in H2 by (simpl; congruence || done).
    apply converted_Ok in H2 as [-> _]. simpl. auto.
  - destruct (decide (asset_id a = asset_id (quote p))) as [Eq|Nq].
    + rewrite asset_mul_price_quote in H1 by done. apply converted_Ok in H1 as [-> Hle].
      destruct (Hback (amount a) (amount (base p)) (amount (quote p))); auto.
      rewrite asset_mul_price_base in H2 by (simpl; congruence || done).
      apply converted_Ok in H2 as [-> _]. simpl. auto.
    + unfold asset_mul_price in H1. by rewrite !(proj2 (N.eqb_neq _ _)) in H1 by done.
Qed.

(** C29: [call_price] terminates with a price between the two assets whose
    amounts are positive and at most the maximum share supply, for every
    positive debt and collateral; and when the products fit, the price is
    exactly [debt * ratio / (collateral * 1000)]. *)
Theorem call_price_total (debt collateral : asset) (cr : Z) :
  0 < amount debt <= INT64_MAX -> 0 < amount collateral <= INT64_MAX ->
  0 < cr < 2 ^ 16 -> asset_id debt <> asset_id collateral ->
  exists p, call_price debt collateral cr = Ok p /\
    asset_id (base p) = asset_id collateral /\ asset_id (quote p) = asset_id debt /\
    0 < amount (base p) <= GRAPHENE_MAX_SHARE_SUPPLY /\
    0 < amount (quote p) <= GRAPHENE_MAX_SHARE_SUPPLY /\
    (amount debt * cr <= GRAPHENE_MAX_SHARE_SUPPLY ->
     amount collateral * GRAPHENE_COLLATERAL_RATIO_DENOM <= GRAPHENE_MAX_SHARE_SUPPLY ->
     amount (quote p) * (amount collateral * GRAPHENE_COLLATERAL_RATIO_DENOM) =
     amount (base p) * (amount debt * cr)).
Proof.
  intros Hd Hc Hr Hne. unfold GRAPHENE_COLLATERAL_RATIO_DENOM.
  destruct (rat_product (amount debt) (amount collateral) cr 1000)
    as (cp & Hcp & Hok & Hval & Hl1 & Hl2); try lia.
  destruct (halving_terminates call_price_step
              (halving_progress _ call_price_step_halves) cp Hok)
    as (cp' & Hw & Hok' & Hex).
  destruct (ratio_to_int64 cp' Hok' Hex) as ((B1 & B2) & C1 & C2).
  exists (Price (Asset cp'.2 (asset_id collateral)) (Asset cp'.1 (asset_id debt))).
  split; [|repeat split; simpl; try lia].
  - unfold call_price, GRAPHENE_COLLATERAL_RATIO_DENOM.
    apply bind_Ok in Hcp as (x & -> & Hcp). apply bind_Ok in Hcp as (y & Hy & Hcp).
    simpl. rewrite Hy. simpl. rewrite Hcp. simpl. rewrite Hw. simpl. rewrite C1, C2.
    unfold asset_div; simpl. by rewrite (proj2 (N.eqb_neq _ _) Hne).
  - intros Hm1 Hm2. rewrite while_not_exceeding in Hw
      by (unfold exceeds_max; apply orb_false_iff; rewrite !Z.ltb_ge; lia).
    injection Hw as <-. lia.
Qed.

Lemma max_short_squeeze_price_ok (f : price_feed) :
  pos_price (settlement_price f) ->
  asset_id (base (settlement_price f)) <> asset_id (quote (settlement_price f)) ->
  0 < maximum_short_squeeze_ratio f < 2 ^ 16 ->
  exists p, max_short_squeeze_price f = Ok p /\
    asset_id (base p) = asset_id (base (settlement_price f)) /\
    asset_id (quote p) = asset_id (quote (settlement_price f)) /\
    0 < amount (base p) <= GRAPHENE_MAX_SHARE_SUPPLY /\
    0 < amount (quote p) <= GRAPHENE_MAX_SHARE_SUPPLY.
Proof.
  intros [Hb Hq] Hne Hr.
  destruct (rat_product (amount (base (settlement_price f)))
              (amount (quote (settlement_price f))) 1000 (maximum_short_squeeze_ratio f))
    as (cp & Hcp & Hok & Hval & Hl1 & Hl2); try lia.
  destruct (halving_terminates squeeze_step
              (halving_progress _ squeeze_step_halves) cp Hok)
    as (cp' & Hw & Hok' & Hex).
  destruct (ratio_to_int64 cp' Hok' Hex) as ((B1 & B2) & C1 & C2).
  eexists. split; [|split; [|split; [|split]]].
  - unfold max_short_squeeze_price, GRAPHENE_COLLATERAL_RATIO_DENOM.
    apply bind_Ok in Hcp as (x & -> & Hcp). apply bind_Ok in Hcp as (y & Hy & Hcp).
    simpl. rewrite Hy. simpl. rewrite Hcp. simpl. rewrite Hw. simpl. rewrite C1, C2.
    unfold asset_div; simpl. by rewrite (proj2 (N.eqb_neq _ _) Hne).
  - done.
  - done.
  - simpl; lia.
  - simpl; lia.
Qed.

(** For a positive settlement price, [max_short_squeeze_price]
    terminates with a price between the same assets whose amounts are
    positive and at most the maximum share supply. *)
Theorem max_short_squeeze_price_total (f : price_feed) :
  pos_price (settlement_price f) ->
  asset_id (base (settlement_price f)) <> asset_id (quote (settlement_price f)) ->
  0 < maximum_short_squeeze_ratio f < 2 ^ 16 ->
  exists p, max_short_squeeze_price f = Ok p /\
    asset_id (base p) = asset_id (base (settlement_price f)) /\
    asset_id (quote p) = asset_id (quote (settlement_price f)) /\
    0 < amount (base p) <= GRAPHENE_MAX_SHARE_SUPPLY /\
    0 < amount (quote p) <= GRAPHENE_MAX_SHARE_SUPPLY.
Proof. apply max_short_squeeze_price_ok. Qed.

(** C17: [is_null] does not test for the default price: it holds of every
    price, whatever its amounts, whose two assets are the core asset; and a
    feed whose settlement price is the default price never passes
    [price_feed::validate], because the short squeeze price divides by it. *)
Theorem null_price_semantics (p : price) (f : price_feed) :
  nonneg64 (amount (base p)) -> nonneg64 (amount (quote p)) ->
  (is_null p = true <->
     asset_id (base p) = CORE_ASSET /\ asset_id (quote p) = CORE_ASSET) /\
  (settlement_price f = null_price -> price_feed_validate f <> Ok tt).
Proof.
  intros Hb Hq. split.
  - unfold is_null, price_eqb, null_price, null_asset; simpl.
    rewrite !cross_mult_exact by (done || unfold nonneg64; blia).
    rewrite !andb_true_iff, !N.eqb_eq, Z.eqb_eq, Z.mul_0_l, Z.mul_0_r. naive_solver.
  - intros Hf H. unfold price_feed_validate in H. inv_result.
    unfold max_short_squeeze_price in *. rewrite Hf in *. simpl in *.
    rewrite (rat_make_zero _ boost_rat_laws) in *. discriminate.
Qed.
End Properties.

(** ** Concrete runs *)

Definition usd_core : price := Price (Asset 20 1) (Asset 1000 CORE_ASSET).
Definition dear_price : price := Price (Asset 3 1) (Asset 100 CORE_ASSET).

Lemma pos_usd_core : pos_price usd_core.
Proof. ground. Qed.
Lemma pos_dear_price : pos_price dear_price.
Proof. ground. Qed.

Lemma price_order_total_witness :
  price_ltb (FC := fc_ref) usd_core usd_core = false /\
  price_ltb (FC := fc_ref) usd_core dear_price = true.
Proof.
  destruct (price_order_total (FC := fc_ref) usd_core dear_price dear_price
              pos_usd_core pos_dear_price pos_dear_price) as (H & _ & _).
  split; [exact H | vm_compute; reflexivity].
Defined.

Lemma asset_mul_price_spec_witness :
  asset_mul_price (FC := fc_ref) (Asset 7 1) usd_core = Ok (Asset 350 CORE_ASSET).
Proof.
  rewrite (asset_mul_price_spec (FC := fc_ref)).
  - vm_compute; reflexivity.
  - exact pos_usd_core.
  - ground.
  - discriminate.
Defined.

Lemma asset_mul_price_no_gain_witness :
  asset_mul_price (FC := fc_ref) (Asset 149 CORE_ASSET) usd_core = Ok (Asset 2 1) /\
  amount (Asset 100 CORE_ASSET) <= 149.
Proof.
  split; [vm_compute; reflexivity|].
  apply (asset_mul_price_no_gain (FC := fc_ref) (Asset 149 CORE_ASSET) (Asset 2 1)
           (Asset 100 CORE_ASSET) usd_core).
  - exact pos_usd_core.
  - ground.
  - discriminate.
  - vm_compute; reflexivity.
  - vm_compute; reflexivity.
Defined.

Lemma call_price_total_witness :
  exists p, call_price (FC := fc_ref) (Asset 100 1) (Asset 4000 CORE_ASSET) 1750 = Ok p /\
    p = Price (Asset 160 CORE_ASSET) (Asset 7 1) /\ 0 < amount (base p).
Proof.
  destruct (call_price_total (FC := fc_ref) (Asset 100 1) (Asset 4000 CORE_ASSET) 1750)
    as (p & Hp & _ & _ & Hb & _); [ground|ground|lia|discriminate|].
  exists p. split; [exact Hp|]. split; [|exact (proj1 Hb)].
  vm_compute in Hp. injection Hp as <-. reflexivity.
Defined.

Definition usd_feed : price_feed := Price_feed usd_core usd_core 1750 1500.

Lemma max_short_squeeze_price_total_witness :
  exists p, max_short_squeeze_price (FC := fc_ref) usd_feed = Ok p /\
    p = Price (Asset 1 1) (Asset 75 CORE_ASSET).
Proof.
  destruct (max_short_squeeze_price_total (FC := fc_ref) usd_feed) as (p & Hp & _);
    [exact pos_usd_core|discriminate|vm_compute; split; reflexivity|].
  exists p. split; [exact Hp|]. vm_compute in Hp. injection Hp as <-. reflexivity.
Defined.

Lemma null_price_semantics_witness :
  is_null (FC := fc_ref) (Price (Asset 5 CORE_ASSET) (Asset 9 CORE_ASSET)) = true /\
  price_feed_validate (FC := fc_ref) (Price_feed null_price null_price 1750 1500)
    <> Ok tt.
Proof.
  destruct (null_price_semantics (FC := fc_ref) (Price (Asset 5 CORE_ASSET) (Asset 9 CORE_ASSET))
              (Price_feed null_price null_price 1750 1500)) as [H1 H2]; [ground|ground|].
  split; [apply H1; split; reflexivity | apply H2; reflexivity].
Defined.
