(* ===== verification/Db.v ===== *)
(** * The object database and its undo log

    Models [libraries/db]: the indexes of the object database
    ([generic_index], [primary_index], [object_database]) and
    [undo_database.cpp], which records enough of every change to restore the
    state at the start of a session.

    An object is a value of an arbitrary type [A]; its id is
    (space, type, instance), and (space, type) names its index.  Only the
    primary key of an index is modelled, as for [sparse_index]. *)

From S2P Require Import Prelude.

Abbreviation index_id := (N * N)%type (only parsing).
Abbreviation object_id_type := ((N * N) * N)%type (only parsing).

(** [object_database::_index]: the objects of all indexes, and the next id of
    every index that exists. *)
Record object_store (A : Type) := Object_store {
  objects : gmap object_id_type A;
  next_ids : gmap index_id N;
}.
Arguments Object_store {A} _ _.
Arguments objects {A} _.
Arguments next_ids {A} _.

(** [struct undo_state] *)
Record undo_state (A : Type) := Undo_state {
  old_values : gmap object_id_type A;
  old_index_next_ids : gmap index_id N;
  new_ids : gset object_id_type;
  removed : gmap object_id_type A;
}.
Arguments Undo_state {A} _ _ _ _.
Arguments old_values {A} _.
Arguments old_index_next_ids {A} _.
Arguments new_ids {A} _.
Arguments removed {A} _.

(** [class undo_database]; the head of [stack] is [_stack.back()]. *)
Record undo_database (A : Type) := Undo_database {
  active_sessions : Z;
  disabled : bool;
  stack : list (undo_state A);
  max_size : nat;
}.
Arguments Undo_database {A} _ _ _ _.
Arguments active_sessions {A} _.
Arguments disabled {A} _.
Arguments stack {A} _.
Arguments max_size {A} _.

(** [class object_database] *)
Record object_database (A : Type) := Object_database {
  store : object_store A;
  undo_db : undo_database A;
}.
Arguments Object_database {A} _ _.
Arguments store {A} _.
Arguments undo_db {A} _.

#[export] Instance settable_object_store A : Settable (object_store A) :=
  fun s => Object_store (objects s) (next_ids s).
#[export] Instance settable_undo_state A : Settable (undo_state A) :=
  fun s => Undo_state (old_values s) (old_index_next_ids s) (new_ids s) (removed s).
#[export] Instance settable_undo_database A : Settable (undo_database A) :=
  fun u => Undo_database (active_sessions u) (disabled u) (stack u) (max_size u).
#[export] Instance settable_object_database A : Settable (object_database A) :=
  fun d => Object_database (store d) (undo_db d).

Section Operations.
Context {A : Type}.
Implicit Types (s : object_store A) (st : undo_state A) (u : undo_database A)
  (d : object_database A) (id : object_id_type) (ix : index_id).

Definition empty_undo_state : undo_state A := Undo_state ∅ ∅ ∅ ∅.

(** ** Indexes *)

(** [object_database::get_mutable_index]: the index must exist. *)
Definition get_index s ix : result N :=
  of_option (next_ids s !! ix) (assert_exception "idx").

Definition find_object s id : result (option A) :=
  _ ← get_index s id.1; Ok (objects s !! id).

Definition get_object s id : result A :=
  o ← find_object s id; of_option o (assert_exception "Unable to find Object").

(** [generic_index::insert] *)
Definition index_insert s id (a : A) : result (object_store A) :=
  _ ← get_index s id.1;
  _ ← FC_ASSERT (bool_decide (objects s !! id = None)) "Could not insert object";
  Ok (s <| objects ::= <[id := a]> |>).

(** [generic_index::create]: the object gets the next id of its index. *)
Definition index_create s ix (a : A) : result (object_id_type * object_store A) :=
  n ← get_index s ix;
  _ ← FC_ASSERT (bool_decide (objects s !! (ix, n) = None)) "Could not create object!";
  Ok ((ix, n), s <| objects ::= <[(ix, n) := a]> |> <| next_ids ::= <[ix := N.succ n]> |>).

(** [generic_index::modify] and [remove] take a reference to an object of
    the index; without one their behaviour is undefined. *)
Definition index_modify s id (m : A -> A) : result (object_store A) :=
  _ ← get_index s id.1;
  a ← of_option (objects s !! id) (undefined_behaviour "iterator_to");
  Ok (s <| objects ::= <[id := m a]> |>).

Definition index_remove s id : result (object_store A) :=
  _ ← get_index s id.1;
  _ ← of_option (objects s !! id) (undefined_behaviour "iterator_to");
  Ok (s <| objects ::= delete id |>).

Definition set_next_id s ix (n : N) : result (object_store A) :=
  _ ← get_index s ix; Ok (s <| next_ids ::= <[ix := n]> |>).

(** ** The undo log *)

Definition enable u : undo_database A := u <| disabled := false |>.
Definition disable u : undo_database A := u <| disabled := true |>.

(** [while( size() > max_size() ) _stack.pop_front();] *)
Definition pop_front_to (n : nat) (l : list (undo_state A)) : list (undo_state A) :=
  take n l.

(** The two fields of [undo_database::session]. *)
Record session := Session { apply_undo : bool; disable_on_exit : bool }.

Definition start_undo_session u (force_enable : bool) : undo_database A * session :=
  if disabled u && negb force_enable then (u, Session true false)
  else
    let exit_disabled := disabled u && force_enable in
    let u := if force_enable then u <| disabled := false |> else u in
    let stk := empty_undo_state :: pop_front_to (max_size u) (stack u) in
    let stk := if bool_decide (length stk = 1%nat) then empty_undo_state :: stk else stk in
    (u <| stack := stk |> <| active_sessions ::= fun n => wrap32 (n + 1) |>,
     Session true exit_disabled).

(** The top of the stack, created when the stack is empty. *)
Definition with_back u (f : undo_state A -> undo_state A) : undo_database A :=
  match stack u with
  | [] => u <| stack := [f empty_undo_state] |>
  | st :: stk => u <| stack := f st :: stk |>
  end.

Definition on_create_state (id : object_id_type) st : undo_state A :=
  let st := match old_index_next_ids st !! id.1 with
            | None => st <| old_index_next_ids ::= <[id.1 := id.2]> |>
            | Some _ => st
            end in
  st <| new_ids ::= union {[id]} |>.

Definition on_modify_state (id : object_id_type) (a : A) st : undo_state A :=
  if decide (id ∈ new_ids st) then st
  else match old_values st !! id with
       | Some _ => st
       | None => st <| old_values ::= <[id := a]> |>
       end.

Definition on_remove_state (id : object_id_type) (a : A) st : undo_state A :=
  if decide (id ∈ new_ids st) then st <| new_ids ::= fun n => n ∖ {[id]} |>
  else match old_values st !! id with
       | Some v => st <| removed ::= <[id := v]> |> <| old_values ::= delete id |>
       | None => match removed st !! id with
                 | Some _ => st
                 | None => st <| removed ::= <[id := a]> |>
                 end
       end.

Definition on_create u id : undo_database A :=
  if disabled u then u else with_back u (on_create_state id).
Definition on_modify u id (a : A) : undo_database A :=
  if disabled u then u else with_back u (on_modify_state id a).
Definition on_remove u id (a : A) : undo_database A :=
  if disabled u then u else with_back u (on_remove_state id a).

(** The four loops that [undo] and [pop_commit] share.  The containers are
    unordered; the model visits them in the order of [map_to_list]. *)
Definition restore_state st s : result (object_store A) :=
  s ← foldM (fun s item => _ ← get_object s item.1;
                           index_modify s item.1 (fun _ => item.2)) s
        (map_to_list (old_values st));
  s ← foldM (fun s id => _ ← get_object s id; index_remove s id) s
        (elements (new_ids st));
  s ← foldM (fun s item => set_next_id s item.1 item.2) s
        (map_to_list (old_index_next_ids st));
  foldM (fun s item => index_insert s item.1 item.2) s (map_to_list (removed st)).

Definition undo d : result (object_database A) :=
  let u := undo_db d in
  _ ← FC_ASSERT (negb (disabled u)) "!_disabled";
  _ ← FC_ASSERT (0 <? active_sessions u) "_active_sessions > 0";
  match stack u with
  | [] => Err (undefined_behaviour "_stack.back()")
  | st :: stk =>
      s ← restore_state st (store d);
      let stk := match stk with [] => [empty_undo_state] | _ => stk end in
      Ok (Object_database s
            (enable u <| stack := stk |> <| active_sessions ::= fun n => n - 1 |>))
  end.

(** [undo_database::merge]: the state becomes part of its predecessor. *)
Definition merge_old_value (prev : undo_state A) (item : object_id_type * A)
  : result (undo_state A) :=
  if decide (item.1 ∈ new_ids prev) then Ok prev
  else match old_values prev !! item.1 with
       | Some _ => Ok prev
       | None =>
           _ ← C_ASSERT (bool_decide (removed prev !! item.1 = None)) "del+upd";
           Ok (prev <| old_values ::= <[item.1 := item.2]> |>)
       end.

Definition merge_next_id (prev : undo_state A) (item : index_id * N) : undo_state A :=
  match old_index_next_ids prev !! item.1 with
  | None => prev <| old_index_next_ids ::= <[item.1 := item.2]> |>
  | Some _ => prev
  end.

Definition merge_removed (prev : undo_state A) (item : object_id_type * A)
  : result (undo_state A) :=
  if decide (item.1 ∈ new_ids prev) then Ok (prev <| new_ids ::= fun n => n ∖ {[item.1]} |>)
  else match old_values prev !! item.1 with
       | Some v => Ok (prev <| removed ::= <[item.1 := v]> |>
                            <| old_values ::= delete item.1 |>)
       | None =>
           _ ← C_ASSERT (bool_decide (removed prev !! item.1 = None)) "del + del";
           Ok (prev <| removed ::= <[item.1 := item.2]> |>)
       end.

Definition merge_states (prev st : undo_state A) : result (undo_state A) :=
  prev ← foldM merge_old_value prev (map_to_list (old_values st));
  let prev := prev <| new_ids ::= union (new_ids st) |> in
  let prev := foldl merge_next_id prev (map_to_list (old_index_next_ids st)) in
  foldM merge_removed prev (map_to_list (removed st)).

Definition merge u : result (undo_database A) :=
  _ ← FC_ASSERT (0 <? active_sessions u) "_active_sessions > 0";
  _ ← FC_ASSERT (2 <=? Z.of_nat (length (stack u))) "_stack.size() >=2";
  match stack u with
  | st :: prev :: stk =>
      prev ← merge_states prev st;
      Ok (u <| stack := prev :: stk |> <| active_sessions ::= fun n => n - 1 |>)
  | _ => Err (undefined_behaviour "_stack[_stack.size()-2]")
  end.

Definition commit u : result (undo_database A) :=
  _ ← FC_ASSERT (0 <? active_sessions u) "_active_sessions > 0";
  Ok (u <| active_sessions ::= fun n => n - 1 |>).

Definition pop_commit d : result (object_database A) :=
  let u := undo_db d in
  _ ← FC_ASSERT (active_sessions u =? 0) "_active_sessions == 0";
  match stack u with
  | [] => Err (assert_exception "!_stack.empty()")
  | st :: stk =>
      s ← restore_state st (store d);
      Ok (Object_database s (enable u <| stack := stk |>))
  end.

(** ** Mutators of the database: the index operation and its log entry *)

Definition db_create d ix (a : A) : result (object_id_type * object_database A) :=
  '(id, s) ← index_create (store d) ix a;
  Ok (id, Object_database s (on_create (undo_db d) id)).

Definition db_modify d id (m : A -> A) : result (object_database A) :=
  a ← get_object (store d) id;
  s ← index_modify (store d) id m;
  Ok (Object_database s (on_modify (undo_db d) id a)).

Definition db_remove d id : result (object_database A) :=
  a ← get_object (store d) id;
  s ← index_remove (store d) id;
  Ok (Object_database s (on_remove (undo_db d) id a)).

(** One mutation, as issued by the code that runs inside a session. *)
Inductive mutation :=
  | MCreate (ix : index_id) (a : A)
  | MModify (id : object_id_type) (m : A -> A)
  | MRemove (id : object_id_type).

Definition apply_mutation d (c : mutation) : result (object_database A) :=
  match c with
  | MCreate ix a => '(_, d) ← db_create d ix a; Ok d
  | MModify id m => db_modify d id m
  | MRemove id => db_remove d id
  end.
End Operations.

(** ** What an undo state remembers *)

Section Tracking.
Context {A : Type}.
Implicit Types (s : object_store A) (st : undo_state A) (id : object_id_type).

(** Ids are allocated below the next id of an existing index. *)
Definition wf_store s : Prop :=
  forall id a, objects s !! id = Some a ->
    exists n, next_ids s !! id.1 = Some n /\ (id.2 < n)%N.

(** The relationship of an object to an undo state: the legend of the table
    in [undo_database::merge]. *)
Inductive tracked s0 st s id : Prop :=
  | tracked_new :
      id ∈ new_ids st -> old_values st !! id = None -> removed st !! id = None ->
      objects s0 !! id = None -> is_Some (objects s !! id) ->
      (forall n, next_ids s0 !! id.1 = Some n -> (n <= id.2)%N) -> tracked s0 st s id
  | tracked_upd v :
      id ∉ new_ids st -> old_values st !! id = Some v -> removed st !! id = None ->
      objects s0 !! id = Some v -> is_Some (objects s !! id) -> tracked s0 st s id
  | tracked_del v :
      id ∉ new_ids st -> old_values st !! id = None -> removed st !! id = Some v ->
      objects s0 !! id = Some v -> objects s !! id = None -> tracked s0 st s id
  | tracked_nop :
      id ∉ new_ids st -> old_values st !! id = None -> removed st !! id = None ->
      objects s0 !! id = objects s !! id -> tracked s0 st s id.

Definition tracked_next s0 st s (ix : index_id) : Prop :=
  match old_index_next_ids st !! ix with
  | Some n => next_ids s0 !! ix = Some n /\ exists m, next_ids s !! ix = Some m /\ (n <= m)%N
  | None => next_ids s0 !! ix = next_ids s !! ix
  end.

(** [st] records how to get from [s] back to [s0]. *)
Record tracks s0 st s : Prop := {
  tracks_wf0 : wf_store s0;
  tracks_wf : wf_store s;
  tracks_obj : forall id, tracked s0 st s id;
  tracks_next : forall ix, tracked_next s0 st s ix;
}.

Lemma tracks_refl s : wf_store s -> tracks s empty_undo_state s.
Proof.
  intros Hwf. split; try done. intros id. apply tracked_nop; [set_solver|done..].
Qed.

(** An id at or above the next id is unknown to both states. *)
Lemma tracks_fresh s0 st s ix n : tracks s0 st s ->
  next_ids s !! ix = Some n -> objects s0 !! (ix, n) = None /\ objects s !! (ix, n) = None.
Proof.
  intros [H0 H Ho Hn] Hix. split; apply eq_None_not_Some; intros [a Ha].
  - destruct (H0 _ _ Ha) as (n0 & Hn0 & Hlt); simpl in *. specialize (Hn ix).
    unfold tracked_next in Hn. destruct (old_index_next_ids st !! ix).
    + destruct Hn as (? & m & ? & ?). simplify_eq. lia.
    + assert (n0 = n) as -> by congruence. lia.
  - destruct (H _ _ Ha) as (n0 & Hn0 & Hlt); simpl in *. assert (n0 = n) as -> by congruence. lia.
Qed.

(** Next ids never decrease. *)
Lemma tracked_next_mono s0 st s ix n : tracked_next s0 st s ix ->
  next_ids s0 !! ix = Some n -> exists m, next_ids s !! ix = Some m /\ (n <= m)%N.
Proof.
  unfold tracked_next. intros H H0. destruct (old_index_next_ids st !! ix).
  - destruct H as (? & m & ? & ?). exists m. split; [done|]. simplify_eq. lia.
  - exists n. split; [congruence|lia].
Qed.

Lemma index_exists s id a : wf_store s -> objects s !! id = Some a ->
  exists n, next_ids s !! id.1 = Some n.
Proof. intros H Ha. destruct (H _ _ Ha) as (n & ? & _). eauto. Qed.

Lemma get_index_Ok s ix n : get_index s ix = Ok n <-> next_ids s !! ix = Some n.
Proof. apply of_option_Ok. Qed.

Lemma get_object_Ok s id a :
  get_object s id = Ok a <-> is_Some (next_ids s !! id.1) /\ objects s !! id = Some a.
Proof.
  unfold get_object, find_object, get_index.
  destruct (next_ids s !! id.1), (objects s !! id); simpl; split; intros H;
    try naive_solver; destruct H as [[? ?] ?]; done.
Qed.

(** *** Every mutation keeps the log up to date *)

Lemma tracks_create s0 st s ix a id s' :
  tracks s0 st s -> index_create s ix a = Ok (id, s') ->
  tracks s0 (on_create_state id st) s'.
Proof.
  intros Ht Hc. unfold index_create in Hc. inv_result. bool_to_prop.
  rename a0 into n. apply get_index_Ok in H.
  destruct (tracks_fresh _ _ _ _ _ Ht H) as [Hf0 Hf]. destruct Ht as [W0 W Ho Hn].
  set (st' := on_create_state (ix, n) st).
  assert (new_ids st' = {[(ix, n)]} ∪ new_ids st) as En
    by (unfold st', on_create_state; simpl; by destruct (old_index_next_ids st !! ix)).
  assert (old_values st' = old_values st /\ removed st' = removed st) as [Ev Er]
    by (unfold st', on_create_state; simpl; by destruct (old_index_next_ids st !! ix)).
  split; simpl.
  - done.
  - intros id b. simpl. rewrite lookup_insert. case_decide as Heq.
    + subst id. intros _. exists (N.succ n). rewrite lookup_insert_eq. simpl. split; [done|lia].
    + intros Hb. destruct (W _ _ Hb) as (m & Hm & Hlt).
      rewrite lookup_insert. case_decide as Hix; [|by eauto].
      assert (m = n) as -> by congruence. eexists; split; [done|lia].
  - intros id. destruct (decide (id = (ix, n))) as [->|Hne].
    + destruct (Ho (ix, n)) as [? ? ? ? [] ?|?|?|]; [congruence..|].
      apply tracked_new; rewrite ?En, ?Ev, ?Er; simpl; rewrite ?lookup_insert_eq;
        [set_solver|eauto..].
      intros n0 Hn0. destruct (tracked_next_mono _ _ _ _ _ (Hn ix) Hn0) as (m & ? & ?).
      by simplify_eq.
    + destruct (Ho id); [eapply tracked_new|eapply tracked_upd|eapply tracked_del|apply tracked_nop];
        rewrite ?En, ?Ev, ?Er; simpl; rewrite ?lookup_insert_ne by done; eauto; set_solver.
  - intros jx. specialize (Hn jx). unfold tracked_next in *. unfold st', on_create_state; simpl.
    destruct (old_index_next_ids st !! ix) as [n0|] eqn:E; simpl.
    + destruct (decide (ix = jx)) as [->|Hne].
      * rewrite E in *. destruct Hn as (? & m & ? & ?). simplify_eq.
        split; [done|]. rewrite lookup_insert_eq. eexists; split; [done|lia].
      * by rewrite lookup_insert_ne by done.
    + destruct (decide (ix = jx)) as [->|Hne].
      * rewrite E in Hn. rewrite !lookup_insert_eq. split; [congruence|].
        eexists; split; [done|lia].
      * by rewrite !lookup_insert_ne by done.
Qed.

(** Replacing or deleting an existing object keeps the store well formed. *)
Lemma wf_store_insert s id a n : wf_store s ->
  next_ids s !! id.1 = Some n -> (id.2 < n)%N ->
  wf_store (Object_store (<[id := a]> (objects s)) (next_ids s)).
Proof.
  intros W Hn Hlt k b; simpl. rewrite lookup_insert. case_decide as E; [subst|]; eauto.
Qed.

Lemma wf_store_delete s id : wf_store s ->
  wf_store (Object_store (delete id (objects s)) (next_ids s)).
Proof. intros W k b; simpl. intros [_ H]%lookup_delete_Some. eauto. Qed.

Lemma tracks_modify s0 st s id a m s' :
  tracks s0 st s -> objects s !! id = Some a -> index_modify s id m = Ok s' ->
  tracks s0 (on_modify_state id a st) s'.
Proof.
  intros [W0 W Ho Hn] Ha Hc. unfold index_modify in Hc. inv_result. simpl.
  destruct (W _ _ Ha) as (n & Hix & Hlt).
  split; [done|by eapply wf_store_insert| |].
  - intros k. unfold on_modify_state. destruct (decide (k = id)) as [->|Hne].
    + destruct (Ho id) as [? ? ? ? ? ?|v ? Hv ? ? ?|v ? ? ? ? ?|? Hv ? ?]; [| |congruence|].
      * rewrite decide_True by done. apply tracked_new; simpl; rewrite ?lookup_insert_eq; eauto.
      * rewrite decide_False by done. rewrite Hv.
        apply (tracked_upd _ _ _ _ v); simpl; rewrite ?lookup_insert_eq; eauto.
      * rewrite decide_False by done. rewrite Hv.
        apply (tracked_upd _ _ _ _ a); simpl; rewrite ?lookup_insert_eq; eauto; congruence.
    + case_decide; [|destruct (old_values st !! id)];
        (destruct (Ho k); [eapply tracked_new|eapply tracked_upd|eapply tracked_del|apply tracked_nop]);
        simpl; rewrite ?lookup_insert_ne by done; eauto.
  - intros ix. specialize (Hn ix). unfold tracked_next, on_modify_state in *.
    case_decide; [|destruct (old_values st !! id)]; done.
Qed.

Lemma tracks_remove s0 st s id a s' :
  tracks s0 st s -> objects s !! id = Some a -> index_remove s id = Ok s' ->
  tracks s0 (on_remove_state id a st) s'.
Proof.
  intros [W0 W Ho Hn] Ha Hc. unfold index_remove in Hc. inv_result. simpl.
  split; [done|by apply wf_store_delete| |].
  - intros k. unfold on_remove_state. destruct (decide (k = id)) as [->|Hne].
    + destruct (Ho id) as [? ? ? ? ? ?|v ? Hv ? ? ?|v ? ? ? ? ?|? Hv Hr ?]; [| |congruence|].
      * rewrite decide_True by done. apply tracked_nop; simpl; rewrite ?lookup_delete_eq; auto.
        set_solver.
      * rewrite decide_False by done. rewrite Hv.
        apply (tracked_del _ _ _ _ v); simpl; rewrite ?lookup_delete_eq, ?lookup_insert_eq; eauto.
      * rewrite decide_False by done. rewrite Hv, Hr.
        apply (tracked_del _ _ _ _ a); simpl; rewrite ?lookup_delete_eq, ?lookup_insert_eq; eauto;
          congruence.
    + case_decide; [|destruct (old_values st !! id); [|destruct (removed st !! id)]];
        (destruct (Ho k); [eapply tracked_new|eapply tracked_upd|eapply tracked_del|apply tracked_nop]);
        simpl; rewrite ?lookup_insert_ne, ?lookup_delete_ne by done; eauto; set_solver.
  - intros ix. specialize (Hn ix). unfold tracked_next, on_remove_state in *.
    case_decide; [|destruct (old_values st !! id); [|destruct (removed st !! id)]]; done.
Qed.

(** *** Restoring *)

Lemma get_object_Some s id a n :
  next_ids s !! id.1 = Some n -> objects s !! id = Some a -> get_object s id = Ok a.
Proof. intros. apply get_object_Ok. eauto. Qed.

Lemma index_modify_Some s id a n m :
  next_ids s !! id.1 = Some n -> objects s !! id = Some a ->
  index_modify s id m = Ok (Object_store (<[id := m a]> (objects s)) (next_ids s)).
Proof. intros Hn Ha. unfold index_modify, get_index. rewrite Hn; simpl. by rewrite Ha. Qed.

Lemma index_remove_Some s id a n :
  next_ids s !! id.1 = Some n -> objects s !! id = Some a ->
  index_remove s id = Ok (Object_store (delete id (objects s)) (next_ids s)).
Proof. intros Hn Ha. unfold index_remove, get_index. rewrite Hn; simpl. by rewrite Ha. Qed.

Lemma set_next_id_Some s ix n m : next_ids s !! ix = Some n ->
  set_next_id s ix m = Ok (Object_store (objects s) (<[ix := m]> (next_ids s))).
Proof. intros Hn. unfold set_next_id, get_index. by rewrite Hn. Qed.

Lemma index_insert_None s id a n :
  next_ids s !! id.1 = Some n -> objects s !! id = None ->
  index_insert s id a = Ok (Object_store (<[id := a]> (objects s)) (next_ids s)).
Proof.
  intros Hn Ha. unfold index_insert, get_index. rewrite Hn; simpl.
  by rewrite bool_decide_eq_true_2.
Qed.

Lemma foldM_modify l s : NoDup l.*1 ->
  (forall x, x ∈ l -> is_Some (next_ids s !! x.1.1) /\ is_Some (objects s !! x.1)) ->
  foldM (fun s item => _ ← get_object s item.1; index_modify s item.1 (fun _ => item.2)) s l
  = Ok (Object_store (list_to_map l ∪ objects s) (next_ids s)).
Proof.
  revert s; induction l as [|[k v] l IH]; intros [o nx] Hnd Hex; cbn [foldM].
  { cbn. by rewrite (left_id_L ∅ (∪)). }
  rewrite fmap_cons in Hnd. apply NoDup_cons in Hnd as [Hk Hnd].
  destruct (Hex (k, v)) as [[n Hn] [w Hw]]; [set_solver|]; cbn [fst snd] in *.
  rewrite (get_object_Some _ _ w n) by done; cbn [mbind result_bind].
  rewrite (index_modify_Some _ _ w n) by done; cbn [mbind result_bind].
  rewrite IH; [|done|].
  - cbn. by rewrite <- insert_union_l, insert_union_r by by apply not_elem_of_list_to_map_1.
  - intros x Hx. destruct (Hex x) as [? ?]; [set_solver|]. split; [done|].
    cbn. rewrite lookup_insert. case_decide; eauto.
Qed.

Lemma foldM_remove l s : NoDup l ->
  (forall id, id ∈ l -> is_Some (next_ids s !! id.1) /\ is_Some (objects s !! id)) ->
  foldM (fun s id => _ ← get_object s id; index_remove s id) s l
  = Ok (Object_store (foldr delete (objects s) l) (next_ids s)).
Proof.
  revert s; induction l as [|k l IH]; intros [o nx] Hnd Hex; cbn [foldM]; [done|].
  apply NoDup_cons in Hnd as [Hk Hnd].
  destruct (Hex k) as [[n Hn] [w Hw]]; [set_solver|].
  rewrite (get_object_Some _ _ w n) by done; cbn [mbind result_bind].
  rewrite (index_remove_Some _ _ w n) by done; cbn [mbind result_bind].
  rewrite IH; [|done|].
  - cbn. by rewrite delete_foldr_delete.
  - intros x Hx. destruct (Hex x) as [? ?]; [set_solver|]. split; [done|].
    cbn. rewrite lookup_delete_ne by set_solver. done.
Qed.

Lemma foldM_next l s : NoDup l.*1 -> (forall x, x ∈ l -> is_Some (next_ids s !! x.1)) ->
  foldM (fun s item => set_next_id s item.1 item.2) s l
  = Ok (Object_store (objects s) (list_to_map l ∪ next_ids s)).
Proof.
  revert s; induction l as [|[k v] l IH]; intros [o nx] Hnd Hex; cbn [foldM].
  { cbn. by rewrite (left_id_L ∅ (∪)). }
  rewrite fmap_cons in Hnd. apply NoDup_cons in Hnd as [Hk Hnd].
  destruct (Hex (k, v)) as [n Hn]; [set_solver|]; cbn [fst snd] in *.
  rewrite (set_next_id_Some _ _ n) by done; cbn [mbind result_bind].
  rewrite IH; [|done|].
  - cbn. by rewrite <- insert_union_l, insert_union_r by by apply not_elem_of_list_to_map_1.
  - intros x Hx. cbn. rewrite lookup_insert. case_decide; [eauto|]. apply Hex. set_solver.
Qed.

Lemma foldM_insert l s : NoDup l.*1 ->
  (forall x, x ∈ l -> is_Some (next_ids s !! x.1.1) /\ objects s !! x.1 = None) ->
  foldM (fun s item => index_insert s item.1 item.2) s l
  = Ok (Object_store (list_to_map l ∪ objects s) (next_ids s)).
Proof.
  revert s; induction l as [|[k v] l IH]; intros [o nx] Hnd Hex; cbn [foldM].
  { cbn. by rewrite (left_id_L ∅ (∪)). }
  rewrite fmap_cons in Hnd. apply NoDup_cons in Hnd as [Hk Hnd].
  destruct (Hex (k, v)) as [[n Hn] Hw]; [set_solver|]; cbn [fst snd] in *.
  rewrite (index_insert_None _ _ _ n) by done; cbn [mbind result_bind].
  rewrite IH; [|done|].
  - cbn. by rewrite <- insert_union_l, insert_union_r by by apply not_elem_of_list_to_map_1.
  - intros x Hx. destruct (Hex x) as [? ?]; [set_solver|]. split; [done|].
    cbn. rewrite lookup_insert_ne; [done|]. intros ->. apply Hk. apply list_elem_of_fmap. eauto.
Qed.

(** The four loops bring back exactly the tracked state. *)
Lemma restore_state_tracks s0 st s : tracks s0 st s -> restore_state st s = Ok s0.
Proof.
  intros [W0 W Ho Hn]. unfold restore_state.
  assert (forall id, is_Some (objects s0 !! id) \/ is_Some (objects s !! id) ->
    is_Some (next_ids s !! id.1)) as Hix.
  { intros id [[a Ha]|[a Ha]]; [destruct (W0 _ _ Ha) as (n & Hi & _)|
      destruct (W _ _ Ha) as (n & Hi & _); eauto].
    specialize (Hn id.1). unfold tracked_next in Hn.
    destruct (old_index_next_ids st !! id.1); [naive_solver|]. rewrite <- Hn. eauto. }
  rewrite foldM_modify; [|apply NoDup_fst_map_to_list|].
  2: { intros [k v] Hk%elem_of_map_to_list; cbn [fst].
       destruct (Ho k); try congruence. split; [apply Hix|]; auto. }
  cbn [mbind result_bind]. rewrite foldM_remove; [|apply NoDup_elements|].
  2: { intros k Hk%elem_of_elements. cbn. rewrite list_to_map_to_list.
       destruct (Ho k); try done. split; [apply Hix; auto|]. rewrite lookup_union_r; auto. }
  cbn [mbind result_bind]. rewrite foldM_next; [|apply NoDup_fst_map_to_list|].
  2: { intros [k v] Hk%elem_of_map_to_list; cbn. specialize (Hn k).
       unfold tracked_next in Hn. rewrite Hk in Hn. naive_solver. }
  cbn [mbind result_bind objects next_ids]. rewrite !list_to_map_to_list.
  assert (forall k, foldr delete (old_values st ∪ objects s) (elements (new_ids st)) !! k =
    if decide (k ∈ new_ids st) then None else (old_values st ∪ objects s) !! k) as Hdel.
  { intros k. case_decide as Hk.
    - apply lookup_foldr_delete. by apply elem_of_elements.
    - apply lookup_foldr_delete_not_elem_of. by rewrite elem_of_elements. }
  rewrite foldM_insert; [|apply NoDup_fst_map_to_list|].
  2: { intros [k v] Hk%elem_of_map_to_list; cbn.
       destruct (Ho k) as [| |v' ? ? ? ? ?|]; try congruence. split.
       - rewrite lookup_union_is_Some. right. apply Hix. eauto.
       - rewrite Hdel. rewrite decide_False by done. by rewrite lookup_union_None. }
  f_equal. destruct s0 as [o0 n0]; cbn in *. rewrite list_to_map_to_list. f_equal.
  - apply map_eq. intros k. destruct (Ho k) as [? ? Hr| | |]; cbn in *.
    + rewrite lookup_union_r, Hdel, decide_True by done. congruence.
    + rewrite lookup_union_r, Hdel, decide_False by done.
      erewrite lookup_union_Some_l by done. congruence.
    + erewrite lookup_union_Some_l by done. congruence.
    + rewrite lookup_union_r, Hdel, decide_False, lookup_union_r by done. congruence.
  - apply map_eq. intros k. specialize (Hn k). unfold tracked_next in Hn.
    destruct (old_index_next_ids st !! k) eqn:E; cbn in *.
    + erewrite lookup_union_Some_l by done. naive_solver.
    + rewrite lookup_union_r by done. congruence.
Qed.
(** *** Merging *)

(** The value a key has after a loop over [l] of first-wins insertions. *)
Lemma merge_old_values_spec l (p : undo_state A) : NoDup l.*1 ->
  (forall x, x ∈ l -> x.1 ∈ new_ids p \/ is_Some (old_values p !! x.1) \/
     removed p !! x.1 = None) ->
  exists p', foldM merge_old_value p l = Ok p' /\
    new_ids p' = new_ids p /\ removed p' = removed p /\
    old_index_next_ids p' = old_index_next_ids p /\
    forall k, old_values p' !! k =
      if decide (k ∈ new_ids p) then old_values p !! k
      else match old_values p !! k with Some v => Some v | None => (list_to_map l : gmap _ A) !! k end.
Proof.
  revert p; induction l as [|[k v] l IH]; intros p Hnd Hex.
  { exists p. repeat split; try done. intros k. case_decide; [done|]. cbn.
    by destruct (old_values p !! k). }
  rewrite fmap_cons in Hnd. apply NoDup_cons in Hnd as [Hk Hnd]. cbn [foldM fst] in *.
  assert (exists p1, merge_old_value p (k, v) = Ok p1 /\
    new_ids p1 = new_ids p /\ removed p1 = removed p /\
    old_index_next_ids p1 = old_index_next_ids p /\
    forall j, old_values p1 !! j =
      if decide (j ∈ new_ids p) then old_values p !! j
      else match old_values p !! j with
           | Some w => Some w | None => if decide (j = k) then Some v else None end)
    as (p1 & -> & E1 & E2 & E3 & E4).
  { unfold merge_old_value; cbn [fst snd]. destruct (Hex (k, v)) as [H|H]; [set_solver|..].
    - exists p. rewrite decide_True by done. repeat split. intros j. case_decide; [done|].
      destruct (old_values p !! j); [done|]. rewrite decide_False; [done|set_solver].
    - case_decide as Hn.
      { exists p. repeat split. intros j. case_decide; [done|].
        destruct (old_values p !! j); [done|]. rewrite decide_False; [done|set_solver]. }
      cbn [fst] in H. destruct (old_values p !! k) as [w|] eqn:Ek.
      { exists p. repeat split. intros j. case_decide; [done|].
        destruct (old_values p !! j) eqn:Ej; [done|]. rewrite decide_False; congruence. }
      destruct H as [[? ?]|H]; [done|]. rewrite bool_decide_eq_true_2 by done.
      cbn [guard_or mbind result_bind]. eexists; split; [done|]. repeat split.
      intros j; cbn. rewrite lookup_insert. repeat case_decide; simplify_eq; try done.
      + by rewrite Ek.
      + by destruct (old_values p !! j). }
  cbn [mbind result_bind].
  destruct (IH p1) as (p2 & -> & F1 & F2 & F3 & F4); [done| |].
  { intros x Hx. rewrite E1, E2. destruct (Hex x) as [|[[w Hw]|]]; [set_solver|auto| |auto].
    right; left. rewrite E4, Hw. case_decide; eauto. }
  exists p2. repeat split; try congruence.
  intros j. rewrite F4, E1, E4. case_decide; [done|].
  destruct (old_values p !! j); [done|]. cbn. rewrite lookup_insert.
  destruct (decide (k = j)) as [->|]; [by rewrite decide_True|].
  by rewrite decide_False by done.
Qed.

Lemma merge_next_ids_spec l (p : undo_state A) : NoDup l.*1 ->
  let p' := foldl merge_next_id p l in
  new_ids p' = new_ids p /\ removed p' = removed p /\ old_values p' = old_values p /\
  forall ix, old_index_next_ids p' !! ix =
    match old_index_next_ids p !! ix with Some n => Some n | None => (list_to_map l : gmap _ N) !! ix end.
Proof.
  revert p; induction l as [|[k n] l IH]; intros p Hnd.
  { repeat split. intros ix. cbn. by destruct (old_index_next_ids p !! ix). }
  rewrite fmap_cons in Hnd. apply NoDup_cons in Hnd as [Hk Hnd]. cbn [foldl].
  destruct (IH (merge_next_id p (k, n)) Hnd) as (E1 & E2 & E3 & E4). cbv zeta.
  rewrite E1, E2, E3.
  assert (new_ids (merge_next_id p (k, n)) = new_ids p /\
    removed (merge_next_id p (k, n)) = removed p /\
    old_values (merge_next_id p (k, n)) = old_values p) as (-> & -> & ->)
    by (unfold merge_next_id; cbn; by destruct (old_index_next_ids p !! k)).
  repeat split. intros ix. rewrite E4. unfold merge_next_id; cbn [fst snd].
  cbn [list_to_map foldr fst snd]. rewrite lookup_insert.
  destruct (old_index_next_ids p !! k) eqn:Ek; cbn; rewrite ?lookup_insert;
    (destruct (decide (k = ix)) as [->|]; [by rewrite ?Ek|done]).
Qed.

Lemma merge_removed_spec l (p : undo_state A) : NoDup l.*1 ->
  (forall x, x ∈ l -> x.1 ∈ new_ids p \/ is_Some (old_values p !! x.1) \/
     removed p !! x.1 = None) ->
  exists p', foldM merge_removed p l = Ok p' /\
    old_index_next_ids p' = old_index_next_ids p /\
    forall k,
      ((k ∈ new_ids p') <-> (k ∈ new_ids p) /\ (list_to_map l : gmap _ A) !! k = None) /\
      match (list_to_map l : gmap _ A) !! k with
      | None => removed p' !! k = removed p !! k /\ old_values p' !! k = old_values p !! k
      | Some v =>
          if decide (k ∈ new_ids p) then
            removed p' !! k = removed p !! k /\ old_values p' !! k = old_values p !! k
          else removed p' !! k = Some (default v (old_values p !! k)) /\ old_values p' !! k = None
      end.
Proof.
  revert p; induction l as [|[k v] l IH]; intros p Hnd Hex.
  { exists p. repeat split; cbn; naive_solver. }
  rewrite fmap_cons in Hnd. apply NoDup_cons in Hnd as [Hk Hnd]. cbn [foldM fst] in *.
  assert ((list_to_map l : gmap _ A) !! k = None) as Hlk by by apply not_elem_of_list_to_map_1.
  assert (exists p1, merge_removed p (k, v) = Ok p1 /\
    old_index_next_ids p1 = old_index_next_ids p /\ (k ∉ new_ids p1) /\
    (if decide (k ∈ new_ids p) then
       removed p1 !! k = removed p !! k /\ old_values p1 !! k = old_values p !! k
     else removed p1 !! k = Some (default v (old_values p !! k)) /\ old_values p1 !! k = None) /\
    forall j, j <> k -> (j ∈ new_ids p1 <-> j ∈ new_ids p) /\
      removed p1 !! j = removed p !! j /\ old_values p1 !! j = old_values p !! j)
    as (p1 & -> & E0 & E1 & E2 & E3).
  { unfold merge_removed; cbn [fst snd]. case_decide as Hn.
    { eexists; split; [done|]. cbn. repeat split; set_solver. }
    destruct (Hex (k, v)) as [?|H]; [set_solver|done|]. cbn [fst] in H.
    destruct (old_values p !! k) as [w|] eqn:Ek.
    { eexists; split; [done|]. cbn. rewrite lookup_insert_eq, lookup_delete_eq.
      repeat split; try done. all: by rewrite ?lookup_insert_ne, ?lookup_delete_ne. }
    destruct H as [[? ?]|H]; [done|]. rewrite bool_decide_eq_true_2 by done.
    eexists; split; [done|]. cbn. rewrite lookup_insert_eq.
    repeat split; try done. all: by rewrite ?lookup_insert_ne, ?lookup_delete_ne. }
  cbn [mbind result_bind].
  destruct (IH p1) as (p2 & -> & F0 & F); [done| |].
  { intros x Hx. assert (x.1 <> k).
    { intros <-. apply Hk. apply list_elem_of_fmap. eauto. }
    destruct (E3 x.1) as (-> & -> & ->); [done|]. apply Hex. set_solver. }
  exists p2. split; [done|]. split; [congruence|]. intros j. specialize (F j) as [F1 F2].
  cbn [list_to_map foldr]. rewrite lookup_insert. cbn [fst snd].
  destruct (decide (k = j)) as [<-|Hne].
  - rewrite Hlk in *. split; [set_solver|].
    case_decide; destruct E2 as [<- <-]; tauto.
  - destruct (E3 j) as (G1 & G2 & G3); [done|]. split; [set_solver|].
    destruct ((list_to_map l : gmap _ A) !! j).
    + rewrite <- G2, <- G3. destruct (decide (j ∈ new_ids p1)), (decide (j ∈ new_ids p)); tauto.
    + rewrite <- G2, <- G3. done.
Qed.
Lemma list_to_map_to_list_gmap {K} `{Countable K} {B} (m : gmap K B) k :
  (list_to_map (map_to_list m) : gmap K B) !! k = m !! k.
Proof. by rewrite list_to_map_to_list. Qed.

(** The three loops together, key by key. *)
Lemma merge_states_spec (p q : undo_state A) :
  (forall k, is_Some (old_values q !! k) \/ is_Some (removed q !! k) ->
     k ∈ new_ids p \/ is_Some (old_values p !! k) \/ removed p !! k = None) ->
  exists r, merge_states p q = Ok r /\
    (forall ix, old_index_next_ids r !! ix =
       match old_index_next_ids p !! ix with
       | Some n => Some n | None => old_index_next_ids q !! ix end) /\
    forall k,
      let n1 := (k ∈ new_ids p) \/ (k ∈ new_ids q) in
      let o1 := if decide (k ∈ new_ids p) then old_values p !! k
                else match old_values p !! k with
                     | Some v => Some v | None => old_values q !! k end in
      (k ∈ new_ids r <-> n1 /\ removed q !! k = None) /\
      match removed q !! k with
      | None => removed r !! k = removed p !! k /\ old_values r !! k = o1
      | Some v =>
          if decide ((k ∈ new_ids p) \/ (k ∈ new_ids q))
          then removed r !! k = removed p !! k /\ old_values r !! k = o1
          else removed r !! k = Some (default v o1) /\ old_values r !! k = None
      end.
Proof.
  intros Hex. unfold merge_states.
  destruct (merge_old_values_spec (map_to_list (old_values q)) p)
    as (p1 & -> & E1 & E2 & E3 & E4); [apply NoDup_fst_map_to_list| |].
  { intros [k v] Hk%elem_of_map_to_list; cbn. apply Hex. eauto. }
  cbn [mbind result_bind].
  destruct (merge_next_ids_spec (map_to_list (old_index_next_ids q))
              (p1 <| new_ids ::= union (new_ids q) |>)) as (F1 & F2 & F3 & F4);
    [apply NoDup_fst_map_to_list|].
  set (p2 := foldl merge_next_id _ _) in *. clearbody p2. cbn in F1, F2, F3, F4.
  destruct (merge_removed_spec (map_to_list (removed q)) p2)
    as (r & -> & G1 & G2); [apply NoDup_fst_map_to_list| |].
  { intros [k v] Hk%elem_of_map_to_list; cbn. rewrite F1, F2, F3, E1, E2, E4.
    destruct (Hex k) as [|[[w Hw]|]]; [eauto|set_solver| |auto].
    destruct (decide (k ∈ new_ids p)); [set_solver|]. rewrite Hw. eauto. }
  exists r. split; [done|]. split.
  - intros ix. by rewrite G1, F4, E3, list_to_map_to_list_gmap.
  - intros k. destruct (G2 k) as [H1 H2]. rewrite list_to_map_to_list_gmap in *.
    rewrite F1, E1 in H1. rewrite F1, F2, F3, E1, E2, E4, list_to_map_to_list_gmap in H2.
    cbv zeta. split; [set_solver|].
    destruct (removed q !! k); [|done].
    destruct (decide (k ∈ new_ids q ∪ new_ids p)), (decide ((k ∈ new_ids p) \/ (k ∈ new_ids q)));
      set_solver.
Qed.

(** The table of [undo_database::merge]: if [p] leads from [s1] back to [s0]
    and [q] from [s2] back to [s1], the merged state leads from [s2] to [s0]. *)
Lemma merge_states_tracks s0 p s1 q s2 : tracks s0 p s1 -> tracks s1 q s2 ->
  exists r, merge_states p q = Ok r /\ tracks s0 r s2.
Proof.
  intros [W0 W1 Ho1 Hn1] [_ W2 Ho2 Hn2].
  destruct (merge_states_spec p q) as (r & Hr & Hx & Hk).
  { intros k H. destruct (Ho1 k), (Ho2 k); eauto; destruct H as [[? ?]|[? ?]];
      try congruence; match goal with H : is_Some (objects s1 !! k) |- _ => destruct H end;
      congruence. }
  exists r. split; [done|]. split; [done..| |].
  - intros k. specialize (Hk k). cbv zeta in Hk. destruct Hk as [Kn Km].
    destruct (removed q !! k) as [v|] eqn:Rq.
    + assert (k ∉ new_ids r) as Kr by (intros [_ ?]%Kn; congruence).
      destruct (Ho2 k) as [|?|w N2 O2 R2 S2 T2|]; try congruence.
      assert (w = v) as -> by congruence.
      destruct (Ho1 k) as [N1 O1 R1 S1 T1|v1 N1 O1 R1 S1 T1|v1 N1 O1 R1 S1 T1|N1 O1 R1 S1].
      * rewrite !decide_True in Km by auto. apply tracked_nop; naive_solver congruence.
      * rewrite !decide_False in Km by tauto. rewrite O1 in Km. cbn in Km.
        apply (tracked_del _ _ _ _ v1); tauto.
      * congruence.
      * rewrite !decide_False in Km by tauto. rewrite O1, O2 in Km. cbn in Km.
        apply (tracked_del _ _ _ _ v); [tauto..|congruence|done].
    + assert (k ∈ new_ids r <-> (k ∈ new_ids p) \/ (k ∈ new_ids q)) as Kr by naive_solver.
      clear Kn. destruct Km as [Km1 Km2].
      destruct (Ho1 k) as [N1 O1 R1 S1 T1 F1|v1 N1 O1 R1 S1 T1|v1 N1 O1 R1 S1 T1|N1 O1 R1 S1];
        [rewrite decide_True in Km2 by done|rewrite decide_False in Km2 by done..];
        rewrite ?O1 in Km2;
        (destruct (Ho2 k) as [N2 O2 R2 S2 T2 F2|v2 N2 O2 R2 S2 T2|v2 N2 O2 R2 S2 T2|N2 O2 R2 S2]);
        try congruence; try (destruct T1; congruence).
      * apply tracked_new; [tauto|congruence..|done|done].
      * apply tracked_new; [tauto|congruence..|by rewrite <- S2|done].
      * apply (tracked_upd _ _ _ _ v1); [tauto|congruence..|done].
      * apply (tracked_upd _ _ _ _ v1); [tauto|congruence..|]. by rewrite <- S2.
      * exfalso. destruct (W0 k v1 S1) as (n & Hn & Hlt).
        destruct (tracked_next_mono _ _ _ _ _ (Hn1 k.1) Hn) as (m & Hm & Hle).
        specialize (F2 m Hm). lia.
      * apply (tracked_del _ _ _ _ v1); [tauto|congruence..].
      * apply tracked_new; [tauto|congruence..|done|].
        intros n Hn. destruct (tracked_next_mono _ _ _ _ _ (Hn1 k.1) Hn) as (m & Hm & Hle).
        specialize (F2 m Hm). lia.
      * apply (tracked_upd _ _ _ _ v2); [tauto|congruence..|done].
      * apply tracked_nop; [tauto|congruence..].
  - intros ix. specialize (Hn1 ix); specialize (Hn2 ix); unfold tracked_next in *.
    rewrite Hx. destruct (old_index_next_ids p !! ix), (old_index_next_ids q !! ix).
    + destruct Hn1 as (? & m & ? & ?), Hn2 as (? & m' & ? & ?).
      split; [done|]. exists m'. split; [done|]. assert (n0 = m) by congruence. lia.
    + rewrite <- Hn2. done.
    + rewrite Hn1. done.
    + congruence.
Qed.
End Tracking.

(** ** Sessions *)

Section Sessions.
Context {A : Type}.
Implicit Types (d : object_database A) (u : undo_database A) (cs : list (@mutation A)).

(** The mutations of a session, in order. *)
Definition run d cs : result (object_database A) := foldM apply_mutation d cs.

(** Opening a session on a database. *)
Definition begin_session d : object_database A :=
  Object_database (store d) (start_undo_session (undo_db d) false).1.

(** The database is inside [n] sessions, the innermost of which began at [s0]
    above the states [below]. *)
Record in_session (s0 : object_store A) (below : list (undo_state A)) (n : Z) (m : nat)
    d : Prop := {
  ses_enabled : disabled (undo_db d) = false;
  ses_active : active_sessions (undo_db d) = n;
  ses_max : max_size (undo_db d) = m;
  ses_top : exists st, stack (undo_db d) = st :: below /\ tracks s0 st (store d);
}.

Lemma begin_session_in d : wf_store (store d) -> disabled (undo_db d) = false ->
  0 <= active_sessions (undo_db d) < 2 ^ 32 - 1 ->
  exists below, in_session (store d) below (active_sessions (undo_db d) + 1)
                  (max_size (undo_db d)) (begin_session d) /\
    (stack (undo_db d) = [] -> below = [empty_undo_state]) /\
    (stack (undo_db d) <> [] -> (1 <= max_size (undo_db d))%nat ->
       below = take (max_size (undo_db d)) (stack (undo_db d))).
Proof.
  intros Hwf Hen Hact. destruct d as [s [n b l m]]; cbn in *. subst b.
  unfold begin_session, start_undo_session, pop_front_to; cbn.
  assert (wrap32 (n + 1) = n + 1) as Hw by (unfold wrap32; rewrite Z.mod_small; lia).
  rewrite length_take. case_bool_decide as Hlen.
  - exists [empty_undo_state]. split; [|split; [done|]].
    + split; cbn; auto. exists empty_undo_state. split.
      * f_equal. f_equal. apply length_zero_iff_nil. rewrite length_take. lia.
      * by apply tracks_refl.
    + intros Hne Hm. destruct l; [done|]. cbn in Hlen. lia.
  - exists (take m l). split; [|split; [|done]].
    + split; cbn; auto. exists empty_undo_state. split; [done|by apply tracks_refl].
    + intros ->. cbn in Hlen. lia.
Qed.

Lemma mutation_in_session s0 below n m d c d' :
  in_session s0 below n m d -> apply_mutation d c = Ok d' -> in_session s0 below n m d'.
Proof.
  intros [Hen Hact Hmax (st & Hst & Ht)] Hc.
  destruct d as [s [n0 b l m0]]; cbn in *; subst.
  destruct c as [ix a|id f|id]; cbn in Hc.
  - unfold db_create in Hc; cbn in Hc. destruct (index_create s ix a) as [[id s']|] eqn:E;
      cbn in Hc; inv_result. cbn. split; cbn; auto.
    eexists; split; [done|]. by eapply tracks_create.
  - unfold db_modify in Hc; cbn in Hc. inv_result. apply get_object_Ok in H as [_ H].
    split; cbn; auto. eexists; split; [done|]. by eapply tracks_modify.
  - unfold db_remove in Hc; cbn in Hc. inv_result. apply get_object_Ok in H as [_ H].
    split; cbn; auto. eexists; split; [done|]. by eapply tracks_remove.
Qed.

Lemma run_in_session s0 below n m cs d d' :
  in_session s0 below n m d -> run d cs = Ok d' -> in_session s0 below n m d'.
Proof.
  intros H Hr. eapply (foldM_inv _ (in_session s0 below n m)); [|exact H|exact Hr].
  intros ???? _. by apply mutation_in_session.
Qed.

Lemma undo_in_session s0 below n m d : 0 < n -> in_session s0 below n m d ->
  undo d = Ok (Object_database s0
    (Undo_database (n - 1) false (match below with [] => [empty_undo_state] | _ => below end) m)).
Proof.
  intros Hn [Hen Hact Hmax (st & Hst & Ht)]. destruct d as [s [n0 b l m0]]; cbn in *; subst.
  unfold undo; cbn. rewrite (proj2 (Z.ltb_lt 0 n)) by lia. cbn.
  by rewrite (restore_state_tracks _ _ _ Ht).
Qed.
End Sessions.

Section Properties.
Context {A : Type}.
Implicit Types (d : object_database A).

(** C5: undoing a session after any sequence of creations, modifications and
    removals succeeds and restores every object and every next id to what
    they were when the session began. *)
Theorem undo_restores (d : object_database A) (cs : list mutation) (d' : object_database A) :
  wf_store (store d) -> disabled (undo_db d) = false ->
  0 <= active_sessions (undo_db d) < 2 ^ 32 - 1 ->
  run (begin_session d) cs = Ok d' ->
  exists d'', undo d' = Ok d'' /\ store d'' = store d /\
    active_sessions (undo_db d'') = active_sessions (undo_db d).
Proof.
  intros Hwf Hen Hact Hr. destruct (begin_session_in d Hwf Hen Hact) as (below & Hin & _).
  pose proof (run_in_session _ _ _ _ _ _ _ Hin Hr) as Hin'.
  pose proof (fun H => undo_in_session _ _ _ _ _ H Hin') as Hu.
  eexists. split; [apply Hu; lia|]. split; [done|]. cbn. lia.
Qed.

(** Merging an inner session into the outer one composes the two logs:
    whatever is done before, inside and after the inner session, undoing the
    outer session still restores the state at its beginning. *)
Theorem merge_then_undo_restores (d : object_database A) (cs1 cs2 cs3 : list mutation)
    (d1 d2 d3 : object_database A) :
  wf_store (store d) -> disabled (undo_db d) = false ->
  0 <= active_sessions (undo_db d) < 2 ^ 32 - 2 -> (1 <= max_size (undo_db d))%nat ->
  run (begin_session d) cs1 = Ok d1 ->
  run (begin_session d1) cs2 = Ok d2 ->
  exists u, merge (undo_db d2) = Ok u /\
    (run (Object_database (store d2) u) cs3 = Ok d3 ->
     exists d4, undo d3 = Ok d4 /\ store d4 = store d).
Proof.
  intros Hwf Hen Hact Hmax Hr1 Hr2.
  destruct (begin_session_in d Hwf Hen ltac:(lia)) as (below & Hin & _).
  pose proof (run_in_session _ _ _ _ _ _ _ Hin Hr1) as [E1 A1 M1 (p & S1 & T1)].
  destruct (begin_session_in d1 (tracks_wf _ _ _ T1) E1 ltac:(lia)) as (below1 & Hin1 & _ & Hb1).
  rewrite Hb1 in Hin1 by (rewrite ?S1, ?M1; done). rewrite M1, S1 in Hin1.
  destruct (max_size (undo_db d)) as [|m] eqn:Em; [lia|]. cbn [take] in Hin1.
  pose proof (run_in_session _ _ _ _ _ _ _ Hin1 Hr2) as [E2 A2 M2 (q & S2 & T2)].
  destruct (merge_states_tracks _ _ _ _ _ T1 T2) as (r & Hmerge & T3).
  eexists. split.
  - unfold merge. rewrite A2, A1, S2. rewrite (proj2 (Z.ltb_lt _ _)) by lia. cbn.
    rewrite (proj2 (Z.leb_le _ _)) by lia. cbn. rewrite Hmerge. done.
  - intros Hr3.
    assert (in_session (store d) (take m below) (active_sessions (undo_db d) + 1) (S m)
      (Object_database (store d2)
         (Undo_database (active_sessions (undo_db d2) - 1) (disabled (undo_db d2))
            (r :: take m below) (max_size (undo_db d2))))) as Hin3.
    { split; cbn; [done|rewrite A2, A1; lia|done|]. exists r. done. }
    pose proof (run_in_session _ _ _ _ _ _ _ Hin3 Hr3) as Hin4.
    pose proof (fun H => undo_in_session _ _ _ _ _ H Hin4) as Hu.
    eexists. split; [apply Hu; lia|done].
Qed.

(** A committed session can still be popped: [pop_commit] brings back
    the state at the beginning of the last committed session. *)
Theorem pop_commit_restores (d : object_database A) (cs : list mutation)
    (d' : object_database A) :
  wf_store (store d) -> disabled (undo_db d) = false -> active_sessions (undo_db d) = 0 ->
  run (begin_session d) cs = Ok d' ->
  exists u d'', commit (undo_db d') = Ok u /\
    pop_commit (Object_database (store d') u) = Ok d'' /\ store d'' = store d.
Proof.
  intros Hwf Hen Hact Hr. destruct (begin_session_in d Hwf Hen ltac:(lia)) as (below & Hin & _).
  destruct (run_in_session _ _ _ _ _ _ _ Hin Hr) as [E A1 M (st & S & T)].
  rewrite Hact in A1. unfold commit. rewrite A1. cbn.
  eexists _, _. split; [done|]. unfold pop_commit; cbn. rewrite A1, S. cbn.
  rewrite (restore_state_tracks _ _ _ T). done.
Qed.
End Properties.

(** *** Concrete runs *)

Definition ex_index : N * N := (1%N, 2%N).
Definition ex_db : object_database Z :=
  Object_database (Object_store {[ (ex_index, 0%N) := 10; (ex_index, 1%N) := 11 ]}
                     {[ ex_index := 2%N ]})
    (Undo_database 0 false [] 256).

Definition ex_mutations : list (@mutation Z) :=
  [MCreate ex_index 12; MModify (ex_index, 0%N) (fun z => z + 5); MRemove (ex_index, 1%N);
   MModify (ex_index, 2%N) (fun z => z * 2); MRemove (ex_index, 0%N)].

Lemma ex_db_wf : wf_store (store ex_db).
Proof.
  intros id a. cbn. intros H.
  apply lookup_insert_Some in H as [[<- <-]|[_ H]]; [by exists 2%N|].
  apply lookup_singleton_Some in H as [<- <-]. by exists 2%N.
Qed.

Definition ok_or {X} (r : result X) (x : X) : X := match r with Ok y => y | Err _ => x end.

Lemma undo_restores_witness : exists d'',
  undo (ok_or (run (begin_session ex_db) ex_mutations) ex_db) = Ok d'' /\
  store d'' = store ex_db.
Proof.
  destruct (undo_restores ex_db ex_mutations
              (ok_or (run (begin_session ex_db) ex_mutations) ex_db)) as (d'' & H & Hs & _).
  - exact ex_db_wf.
  - reflexivity.
  - ground.
  - vm_compute; reflexivity.
  - exists d''. split; [exact H|exact Hs].
Defined.

Definition ex_d1 : object_database Z := ok_or (run (begin_session ex_db) ex_mutations) ex_db.
Definition ex_inner : list (@mutation Z) :=
  [MRemove (ex_index, 2%N); MCreate ex_index 13].
Definition ex_d2 : object_database Z := ok_or (run (begin_session ex_d1) ex_inner) ex_d1.
Definition ex_d3 : object_database Z :=
  Object_database (store ex_d2) (ok_or (merge (undo_db ex_d2)) (undo_db ex_d2)).

Lemma merge_then_undo_restores_witness : exists u d4,
  merge (undo_db ex_d2) = Ok u /\ undo (Object_database (store ex_d2) u) = Ok d4 /\
  store d4 = store ex_db.
Proof.
  destruct (merge_then_undo_restores ex_db ex_mutations ex_inner [] ex_d1 ex_d2 ex_d3)
    as (u & Hu & H).
  - exact ex_db_wf.
  - reflexivity.
  - ground.
  - vm_compute. lia.
  - vm_compute; reflexivity.
  - vm_compute; reflexivity.
  - assert (u = undo_db ex_d3) as -> by (vm_compute in Hu; injection Hu as <-; reflexivity).
    destruct (H ltac:(vm_compute; reflexivity)) as (d4 & Hd4 & Hs).
    exists (undo_db ex_d3), d4. split; [exact Hu|]. split; [exact Hd4|exact Hs].
Defined.

Lemma pop_commit_restores_witness : exists u d'',
  commit (undo_db ex_d1) = Ok u /\
  pop_commit (Object_database (store ex_d1) u) = Ok d'' /\ store d'' = store ex_db.
Proof.
  apply (pop_commit_restores ex_db ex_mutations ex_d1).
  - exact ex_db_wf.
  - reflexivity.
  - reflexivity.
  - vm_compute; reflexivity.
Defined.
