(* ===== verification/Block.v ===== *)
(** * Blocks

    Models [libraries/chain/protocol/block.cpp]: the number a block id carries,
    the id of a block, the signature check of a block header, and the Merkle
    root of its transactions.

    Hashes and signatures come from [fc]; they are the parameters [BlockLib].
    A digest is the integer its bytes spell. *)

From S2P Require Import Prelude.

(** [fc::ripemd160] as a block id: the first 32-bit word holds the block number. *)
Record block_id_type := Block_id { hash_0 : Z; hash_1_4 : list Z }.

#[export] Instance block_id_eq_dec : EqDecision block_id_type.
Proof. solve_decision. Defined.
#[export] Instance block_id_countable : Countable block_id_type.
Proof.
  refine (inj_countable' (fun i => (hash_0 i, hash_1_4 i))
            (fun p => Block_id p.1 p.2) _); by intros [].
Defined.

(** [block_id_type()] *)
Definition null_block_id : block_id_type := Block_id 0 [0; 0; 0; 0].

Record block_header := Block_header {
  previous : block_id_type;
  timestamp : Z;
  witness : N;
  transaction_merkle_root : Z;
}.

Record signed_block_header := Signed_block_header {
  header : block_header;
  witness_signature : Z;
}.

Record signed_block (T : Type) := Signed_block {
  signed_header : signed_block_header;
  transactions : list T;
}.
Arguments Signed_block {T} _ _.
Arguments signed_header {T} _.
Arguments transactions {T} _.

#[export] Instance block_header_eq_dec : EqDecision block_header.
Proof. solve_decision. Defined.
#[export] Instance signed_block_header_eq_dec : EqDecision signed_block_header.
Proof. solve_decision. Defined.
#[export] Instance settable_signed_block_header : Settable signed_block_header :=
  fun h => Signed_block_header (header h) (witness_signature h).

Definition in_uint32 (z : Z) : Prop := 0 <= z < 2 ^ 32.

(** Keys are the integers that their bytes spell. *)
Abbreviation public_key := Z (only parsing).

(** The calls into [fc]: byte order, the seven words of [sha224], the digests,
    and compact signatures. *)
Class BlockLib := {
  processed_transaction : Type;
  merkle_digest : processed_transaction -> Z;
  endian_reverse_u32 : Z -> Z;
  sha224_hash : signed_block_header -> list Z;
  header_hash : block_header -> Z;
  pair_hash : Z * Z -> Z;
  checksum_hash : Z -> Z;
  private_key : Type;
  recover_key : Z -> Z -> result public_key;   (* signature, digest *)
  sign_compact : private_key -> Z -> Z;
  key_of : private_key -> public_key;
}.

(** Reversing the bytes of a word twice gives the word; [sha224] has seven
    words; recovery inverts signing. *)
Class BlockLaws (BL : BlockLib) : Prop := {
  endian_reverse_range z : in_uint32 z -> in_uint32 (endian_reverse_u32 z);
  endian_reverse_involutive z : in_uint32 z -> endian_reverse_u32 (endian_reverse_u32 z) = z;
  sha224_words h : length (sha224_hash h) = 7%nat;
  recover_sign k d : recover_key (sign_compact k d) d = Ok (key_of k);
}.

Section Block.
Context `{BL : BlockLib}.
Abbreviation block := (signed_block processed_transaction).
Implicit Types (h : signed_block_header) (b : block).

Definition digest (h : block_header) : Z := header_hash h.

Definition num_from_id (i : block_id_type) : Z := endian_reverse_u32 (hash_0 i).

Definition block_num h : Z := wrap32 (num_from_id (previous (header h)) + 1).

(** [signed_block_header::id]: the words of the hash with the block number in
    place of the first; five of the seven words are kept. *)
Definition block_id h : block_id_type :=
  let tmp := <[0%nat := endian_reverse_u32 (block_num h)]> (sha224_hash h) in
  match take 5 tmp with
  | w :: ws => Block_id w ws
  | [] => null_block_id
  end.

Definition signee h : result public_key :=
  recover_key (witness_signature h) (digest (header h)).

Definition sign (k : private_key) h : signed_block_header :=
  h <| witness_signature := sign_compact k (digest (header h)) |>.

Definition validate_signee h (expected : public_key) : result bool :=
  k ← signee h; Ok (bool_decide (k = expected)).

(** One level of [calculate_merkle_root]: [ids[k++] = hash( ids[i], ids[i+1] )]
    for the pairs below [i_max], in place; the state is ([ids], [k], [i]). *)
Definition pair_step (i_max : nat) (st : list Z * nat * nat) : result (list Z * nat * nat) :=
  let '(ids, k, i) := st in
  x ← of_option (ids !! i) (undefined_behaviour "ids[i]");
  y ← of_option (ids !! S i) (undefined_behaviour "ids[i+1]");
  Ok (<[k := pair_hash (x, y)]> ids, S k, (i + 2)%nat).

(** The body of the outer loop, on ([ids], [current_number_of_hashes]). *)
Definition merkle_level (st : list Z * nat) : result (list Z * nat) :=
  let '(ids, n) := st in
  let i_max := Z.to_nat (wrap32 (Z.of_nat (n - Nat.b2n (Nat.odd n)))) in
  '(ids, k, _) ← while (fun st => (st.2 <? i_max)%nat) (pair_step i_max) i_max (ids, 0%nat, 0%nat);
  if Nat.odd n then
    x ← of_option (ids !! i_max) (undefined_behaviour "ids[i_max]");
    Ok (<[k := x]> ids, S k)
  else Ok (ids, k).

Definition calculate_merkle_root b : result Z :=
  match transactions b with
  | [] => Ok 0
  | _ =>
      let ids := merkle_digest <$> transactions b in
      '(ids, _) ← while (fun st => (1 <? st.2)%nat) merkle_level (length ids) (ids, length ids);
      x ← of_option (ids !! 0%nat) (undefined_behaviour "ids[0]");
      Ok (checksum_hash x)
  end.

(** ** Reference definition of the root *)

(** The next level: neighbours are hashed, an odd last element is kept. *)
Fixpoint pair_up (l : list Z) : list Z :=
  match l with
  | x :: y :: l => pair_hash (x, y) :: pair_up l
  | _ => l
  end.

Fixpoint merkle_tree (depth : nat) (l : list Z) : Z :=
  match l, depth with
  | [x], _ => x
  | _, O => 0
  | _, S d => merkle_tree d (pair_up l)
  end.

Definition merkle_root (l : list Z) : Z :=
  match l with
  | [] => 0
  | _ => checksum_hash (merkle_tree (length l) l)
  end.
End Block.

(** ** The Merkle loops compute the tree *)

Section Merkle.
Context `{BL : BlockLib}.

Lemma pair_up_app l1 l2 k :
  length l1 = (2 * k)%nat -> pair_up (l1 ++ l2) = pair_up l1 ++ pair_up l2.
Proof.
  revert l1; induction k as [|k IH]; intros l1 Hl.
  - by rewrite (nil_length_inv l1) by lia.
  - destruct l1 as [|x [|y l1]]; simpl in Hl; try lia. simpl. f_equal. apply IH. lia.
Qed.

Lemma pair_up_length l : length (pair_up l) = Nat.div2 (S (length l)).
Proof.
  revert l. fix IH 1. intros [|x [|y l]]; [reflexivity|reflexivity|]. simpl. f_equal. apply IH.
Qed.

Lemma pair_up_shorter l : (2 <= length l)%nat -> (length (pair_up l) < length l)%nat.
Proof.
  intros. rewrite pair_up_length. rewrite Nat.div2_div.
  apply Nat.Div0.div_lt_upper_bound; lia.
Qed.

Lemma pair_up_nonempty l : (1 <= length l)%nat -> (1 <= length (pair_up l))%nat.
Proof. destruct l as [|x [|y l]]; simpl; lia. Qed.

Lemma merkle_tree_depth d1 d2 l :
  (1 <= length l)%nat -> (length l <= d1)%nat -> (length l <= d2)%nat ->
  merkle_tree d1 l = merkle_tree d2 l.
Proof.
  revert d2 l; induction d1 as [|d1 IH]; intros d2 l; [lia|].
  intros H0 H1 H2. destruct l as [|x [|y l]]; [simpl in H0; lia|by destruct d2|].
  destruct d2 as [|d2]; [simpl in H2; lia|].
  pose proof (pair_up_shorter (x :: y :: l)). pose proof (pair_up_nonempty (x :: y :: l)).
  cbn [merkle_tree]. apply IH; simpl in *; lia.
Qed.

(** The state of the inner loop after [k] pairs. *)
Definition paired (ids : list Z) (m : nat) (st : list Z * nat * nat) : Prop :=
  let '(l, k, i) := st in
  i = (2 * k)%nat /\ (k <= m)%nat /\ length l = length ids /\
  take k l = pair_up (take i ids) /\ drop i l = drop i ids.

Lemma lookup_drop_eq (l l' : list Z) i j :
  drop i l = drop i l' -> (i <= j)%nat -> l !! j = l' !! j.
Proof.
  intros Hd Hj. replace j with (i + (j - i))%nat by lia.
  by rewrite <-!lookup_drop, Hd.
Qed.

Lemma pair_step_ok ids m st :
  (2 * m <= length ids)%nat -> paired ids m st -> (st.2 <? 2 * m)%nat = true ->
  exists st', pair_step (2 * m) st = Ok st' /\ paired ids m st' /\
    (2 * m - st'.2 < 2 * m - st.2)%nat.
Proof.
  destruct st as [[l k] i]. intros Hm (-> & Hk & Hl & Ht & Hd) Hi%Nat.ltb_lt.
  cbn [snd fst] in *.
  destruct (lookup_lt_is_Some_2 ids (2 * k)) as [x Hx]; [lia|].
  destruct (lookup_lt_is_Some_2 ids (S (2 * k))) as [y Hy]; [lia|].
  unfold pair_step.
  rewrite (lookup_drop_eq _ _ _ (2 * k) Hd), Hx by lia; cbn [of_option mbind result_bind].
  rewrite (lookup_drop_eq _ _ _ (S (2 * k)) Hd), Hy by lia; cbn [of_option mbind result_bind].
  eexists; split; [reflexivity|]. split; [|simpl; lia].
  repeat split; try (simpl; lia).
  - by rewrite length_insert.
  - rewrite (take_S_r _ _ (pair_hash (x, y))) by (apply list_lookup_insert_eq; lia).
    rewrite take_insert_ge by lia. rewrite Ht.
    replace (2 * k + 2)%nat with (S (S (2 * k))) by lia.
    rewrite (take_S_r ids (S (2 * k)) y), (take_S_r ids (2 * k) x) by done.
    rewrite <-app_assoc, (pair_up_app _ _ k); [done|].
    rewrite length_take. lia.
  - rewrite drop_insert_lt by lia.
    by rewrite <-!drop_drop, Hd.
Qed.

Lemma merkle_level_ok ids n :
  (2 <= n <= length ids)%nat -> Z.of_nat n < 2 ^ 32 ->
  exists ids' n', merkle_level (ids, n) = Ok (ids', n') /\ length ids' = length ids /\
    n' = length (pair_up (take n ids)) /\ take n' ids' = pair_up (take n ids).
Proof.
  intros Hn H32. set (m := Nat.div2 n).
  assert (Hnm : n = (2 * m + Nat.b2n (Nat.odd n))%nat) by (unfold m; apply Nat.div2_odd).
  assert (Himax : Z.to_nat (wrap32 (Z.of_nat (n - Nat.b2n (Nat.odd n)))) = (2 * m)%nat).
  { unfold wrap32. rewrite Z.mod_small by lia. lia. }
  unfold merkle_level. rewrite Himax.
  destruct (while_total (fun st => (st.2 <? 2 * m)%nat) (pair_step (2 * m))
              (paired ids m) (fun st => (2 * m - st.2)%nat)) with (fuel := (2 * m)%nat)
    (s := (ids, 0%nat, 0%nat)) as ([[l k] i] & -> & (-> & Hk & Hl & Ht & Hd) & Hc).
  { intros st HP Hc. apply pair_step_ok; [lia|done|done]. }
  { repeat split; try done. lia. }
  { simpl; lia. }
  apply Nat.ltb_ge in Hc; cbn [snd] in Hc. assert (k = m) as -> by lia.
  cbn [mbind result_bind].
  destruct (Nat.odd n) eqn:Ho; cbn [Nat.b2n] in Hnm.
  - destruct (lookup_lt_is_Some_2 ids (2 * m)) as [x Hx]; [lia|].
    rewrite (lookup_drop_eq _ _ _ (2 * m) Hd), Hx by lia; cbn [of_option mbind result_bind].
    exists (<[m := x]> l), (S m).
    assert (Hp : pair_up (take n ids) = take m l ++ [x]).
    { rewrite Hnm. replace (2 * m + 1)%nat with (S (2 * m)) by lia.
      rewrite (take_S_r _ _ x) by done. rewrite (pair_up_app _ _ m); [by rewrite Ht|].
      rewrite length_take; lia. }
    repeat split.
    + by rewrite length_insert.
    + rewrite Hp, length_app, length_take; simpl; lia.
    + rewrite Hp. rewrite (take_S_r _ _ x) by (apply list_lookup_insert_eq; lia).
      by rewrite take_insert_ge by lia.
  - exists l, m. repeat split; [done| |].
    + rewrite Hnm, Nat.add_0_r, <-Ht, length_take. lia.
    + rewrite Ht. f_equal. f_equal. lia.
Qed.

Lemma merkle_loop_ok fuel ids n :
  (1 <= n <= length ids)%nat -> (n <= fuel)%nat -> Z.of_nat n < 2 ^ 32 ->
  exists ids' n', while (fun st => (1 <? st.2)%nat) merkle_level fuel (ids, n) = Ok (ids', n') /\
    ids' !! 0%nat = Some (merkle_tree n (take n ids)).
Proof.
  revert ids n; induction fuel as [|fuel IH]; intros ids n Hn Hf H32; [lia|].
  destruct (decide (n = 1%nat)) as [->|Hne].
  - exists ids, 1%nat. split; [by rewrite while_done|].
    destruct ids as [|x ids]; simpl in *; [lia|done].
  - destruct (merkle_level_ok ids n) as (ids' & n' & Hlev & Hlen & Hn' & Ht); [lia|lia|].
    assert (Hl : length (take n ids) = n) by (rewrite length_take; lia).
    pose proof (pair_up_shorter (take n ids)). pose proof (pair_up_nonempty (take n ids)).
    destruct (IH ids' n') as (ids'' & n'' & Hw & Hx); [|lia|lia|].
    { rewrite Hlen. lia. }
    exists ids'', n''. split.
    + unfold while; fold (while (fun st : list Z * nat => (1 <? st.2)%nat) merkle_level).
      cbn [snd]. destruct (Nat.ltb_spec 1 n); [|lia]. rewrite Hlev. simpl. exact Hw.
    + rewrite Hx, Ht. f_equal.
      destruct n as [|n0]; [lia|]. destruct (take (S n0) ids) as [|x [|y l]] eqn:E;
        [simpl in Hl; lia|simpl in Hl; lia|].
      cbn [merkle_tree]. apply merkle_tree_depth; lia.
Qed.

Lemma calculate_merkle_root_ok (b : signed_block processed_transaction) :
  Z.of_nat (length (transactions b)) < 2 ^ 32 ->
  calculate_merkle_root b = Ok (merkle_root (merkle_digest <$> transactions b)).
Proof.
  intros H32. unfold calculate_merkle_root, merkle_root.
  destruct (transactions b) as [|t ts] eqn:E; [done|].
  set (ids := merkle_digest <$> t :: ts).
  assert (Hl : length ids = S (length ts)) by (unfold ids; by rewrite length_fmap).
  destruct (merkle_loop_ok (length ids) ids (length ids)) as (ids' & n' & Hw & Hx);
    [lia|lia|rewrite Hl; simpl in H32; lia|].
  rewrite Hw. simpl. rewrite Hx. simpl. by rewrite firstn_all.
Qed.

(** A hash with two preimages of one value. *)
Definition collision {X} (f : X -> Z) : Prop := exists x y, x <> y /\ f x = f y.

Lemma pair_up_binding l1 l2 :
  length l1 = length l2 -> pair_up l1 = pair_up l2 -> l1 = l2 \/ collision pair_hash.
Proof.
  revert l1 l2. fix IH 1. intros [|x1 [|y1 l1]] [|x2 [|y2 l2]] Hl Heq;
    simpl in *; try (discriminate Hl); [by left|by left|].
  injection Heq as Hh Hp. destruct (IH l1 l2) as [->|?]; [lia|done| |by right].
  destruct (decide ((x1, y1) = (x2, y2))) as [E|E]; [|right; by exists (x1, y1), (x2, y2)].
  left. by injection E as -> ->.
Qed.

Lemma merkle_tree_binding d l1 l2 :
  (1 <= length l1 <= d)%nat -> length l1 = length l2 ->
  merkle_tree d l1 = merkle_tree d l2 -> l1 = l2 \/ collision pair_hash.
Proof.
  revert l1 l2; induction d as [|d IH]; intros l1 l2 Hd Hl; [lia|].
  destruct l1 as [|x1 [|y1 l1]], l2 as [|x2 [|y2 l2]]; simpl in Hl, Hd; try lia.
  - intros [= ->]. by left.
  - pose proof (pair_up_shorter (x1 :: y1 :: l1)).
    pose proof (pair_up_nonempty (x1 :: y1 :: l1)).
    cbn [merkle_tree]. intros Heq. apply IH in Heq as [Heq|?]; [|by right| |].
    + apply pair_up_binding; [simpl; lia|done].
    + cbn [length] in *. lia.
    + rewrite !pair_up_length. cbn [length]. by rewrite Hl.
Qed.
End Merkle.

(** ** Properties *)

(** C38: the id of a block carries its number: [num_from_id] of the id is the
    block number, which is one more than the number in the id of the previous
    block. *)
Theorem block_id_roundtrip `{BL : BlockLib, !BlockLaws BL} (h : signed_block_header) :
  num_from_id (block_id h) = wrap32 (num_from_id (previous (header h)) + 1).
Proof.
  unfold block_id. pose proof (sha224_words h) as Hl.
  destruct (sha224_hash h) as [|w ws]; [done|]. simpl.
  unfold num_from_id at 1; simpl. apply endian_reverse_involutive.
  unfold block_num, wrap32, in_uint32. apply Z.mod_pos_bound. lia.
Qed.

(** C19: for a block of fewer than 2^32 transactions the in-place pairing loops
    of [calculate_merkle_root] terminate within their index bounds and compute
    the Merkle tree of the transaction digests. *)
Theorem calculate_merkle_root_spec `{BL : BlockLib} (b : signed_block processed_transaction) :
  Z.of_nat (length (transactions b)) < 2 ^ 32 ->
  calculate_merkle_root b = Ok (merkle_root (merkle_digest <$> transactions b)).
Proof.
  apply calculate_merkle_root_ok.
Qed.

(** C39: the root commits to the transactions: two blocks with the same number
    of transactions and the same root hold the same transaction digests, unless
    one of the two hash functions has a collision. *)
Theorem merkle_root_binding `{BL : BlockLib} (b1 b2 : signed_block processed_transaction) r :
  Z.of_nat (length (transactions b1)) < 2 ^ 32 ->
  length (transactions b1) = length (transactions b2) ->
  calculate_merkle_root b1 = Ok r -> calculate_merkle_root b2 = Ok r ->
  merkle_digest <$> transactions b1 = merkle_digest <$> transactions b2
  \/ collision pair_hash \/ collision checksum_hash.
Proof.
  intros H32 Hl. rewrite !calculate_merkle_root_ok by lia.
  intros [= <-] [= Heq].
  destruct (transactions b1) as [|t1 ts1], (transactions b2) as [|t2 ts2]; try done; [by left|].
  set (l1 := merkle_digest <$> t1 :: ts1) in *. set (l2 := merkle_digest <$> t2 :: ts2) in *.
  assert (Hl' : length l1 = length l2) by (unfold l1, l2; by rewrite !length_fmap).
  change (checksum_hash (merkle_tree (length l2) l2) = checksum_hash (merkle_tree (length l1) l1))
    in Heq.
  destruct (decide (merkle_tree (length l2) l2 = merkle_tree (length l1) l1)) as [E|E];
    [|right; right; by do 2 eexists].
  rewrite Hl' in E. destruct (merkle_tree_binding (length l2) l1 l2) as [->|?]; auto.
  rewrite Hl'. unfold l2; simpl; lia.
Qed.

(** ** A reference instance *)

Definition byte_swap_u32 (z : Z) : Z :=
  (z mod 2 ^ 8) * 2 ^ 24 + (z / 2 ^ 8 mod 2 ^ 8) * 2 ^ 16
  + (z / 2 ^ 16 mod 2 ^ 8) * 2 ^ 8 + z / 2 ^ 24.

Definition mix (l : list Z) : Z := foldl (fun h x => (h * 1000003 + x) mod 2 ^ 61) 97 l.

Definition mix_header (h : block_header) : Z :=
  mix (hash_0 (previous h) :: hash_1_4 (previous h)
       ++ [timestamp h; Z.of_N (witness h); transaction_merkle_root h]).

Definition block_ref : BlockLib := {|
  processed_transaction := Z;
  merkle_digest t := mix [t];
  endian_reverse_u32 := byte_swap_u32;
  sha224_hash h :=
    (fun i => wrap32 (mix [i; mix_header (header h); witness_signature h])) <$> seqZ 0 7;
  header_hash := mix_header;
  pair_hash p := mix [p.1; p.2];
  checksum_hash x := mix [x; 1];
  private_key := Z;
  recover_key s d := Ok (s - d);
  sign_compact k d := k + d;
  key_of k := k;
|}.

Lemma byte_swap_bytes a b c d :
  0 <= a < 2 ^ 8 -> 0 <= b < 2 ^ 8 -> 0 <= c < 2 ^ 8 -> 0 <= d < 2 ^ 8 ->
  byte_swap_u32 (d * 2 ^ 24 + c * 2 ^ 16 + b * 2 ^ 8 + a)
  = a * 2 ^ 24 + b * 2 ^ 16 + c * 2 ^ 8 + d.
Proof.
  intros. unfold byte_swap_u32.
  change (2 ^ 8) with 256 in *. change (2 ^ 16) with 65536. change (2 ^ 24) with 16777216.
  Z.to_euclidean_division_equations. lia.
Qed.

Lemma bytes_of_u32 z : in_uint32 z ->
  exists a b c d, (0 <= a < 2 ^ 8 /\ 0 <= b < 2 ^ 8 /\ 0 <= c < 2 ^ 8 /\ 0 <= d < 2 ^ 8)
    /\ z = d * 2 ^ 24 + c * 2 ^ 16 + b * 2 ^ 8 + a.
Proof.
  unfold in_uint32. intros Hz.
  exists (z mod 2 ^ 8), (z / 2 ^ 8 mod 2 ^ 8), (z / 2 ^ 16 mod 2 ^ 8), (z / 2 ^ 24).
  change (2 ^ 8) with 256 in *. change (2 ^ 16) with 65536. change (2 ^ 24) with 16777216.
  change (2 ^ 32) with 4294967296 in *.
  Z.to_euclidean_division_equations. lia.
Qed.

#[export] Instance block_ref_laws : BlockLaws block_ref.
Proof.
  split; cbn -[byte_swap_u32 Z.pow].
  - intros z (a & b & c & d & (Ha & Hb & Hc & Hd) & ->)%bytes_of_u32.
    rewrite byte_swap_bytes by done. unfold in_uint32. lia.
  - intros z (a & b & c & d & (Ha & Hb & Hc & Hd) & ->)%bytes_of_u32.
    by rewrite !byte_swap_bytes.
  - done.
  - intros. f_equal. lia.
Qed.

(** ** Witnesses *)

Definition ex_header : signed_block_header :=
  Signed_block_header (Block_header (Block_id (byte_swap_u32 258) [7; 8; 9; 10]) 1500000000 3 0) 5.

Lemma block_id_roundtrip_witness :
  num_from_id (BL := block_ref) (block_id (BL := block_ref) ex_header) = 259.
Proof.
  rewrite (@block_id_roundtrip block_ref block_ref_laws ex_header). reflexivity.
Defined.

Definition ex_block (ts : list Z) : signed_block Z := Signed_block ex_header ts.

Lemma calculate_merkle_root_spec_witness :
  calculate_merkle_root (BL := block_ref) (ex_block [1; 2; 3; 4; 5])
  = Ok (mix [mix [mix [mix [mix [1]; mix [2]]; mix [mix [3]; mix [4]]]; mix [5]]; 1]).
Proof.
  rewrite (@calculate_merkle_root_spec block_ref (ex_block [1; 2; 3; 4; 5])); reflexivity.
Defined.

Lemma merkle_root_binding_witness :
  mix <$> [[1]; [2]; [3]] = mix <$> [[1]; [2]; [3]]
  \/ collision (pair_hash (BlockLib := block_ref))
  \/ collision (checksum_hash (BlockLib := block_ref)).
Proof.
  eapply (@merkle_root_binding block_ref (ex_block [1; 2; 3]) (ex_block [1; 2; 3]));
    reflexivity.
Defined.
