(* ===== verification/ForkDb.v ===== *)
(** * The fork database

    Models [libraries/chain/fork_database.cpp]: the tree of recent blocks from
    which the node chooses its chain.

    Items are shared objects: the indexes and [_head] hold [shared_ptr]s to
    them and an item holds a [weak_ptr] to its predecessor, which locks as
    long as an index or [_head] still holds the predecessor.  The model has a
    heap of items and stores addresses; [lock] decides liveness.  Callers that
    hold a [shared_ptr] of their own across calls are not modelled. *)

From S2P Require Import Prelude Block.

Abbreviation addr := N (only parsing).

(** [struct fork_item] *)
Record fork_item (B : Type) := Fork_item {
  prev : option addr;
  num : Z;
  invalid : bool;
  id : block_id_type;
  data : B;
}.
Arguments Fork_item {B} _ _ _ _ _.
Arguments prev {B} _.
Arguments num {B} _.
Arguments invalid {B} _.
Arguments id {B} _.
Arguments data {B} _.

(** [class fork_database], with the heap of the items it has allocated. *)
Record fork_database (B : Type) := Fork_database {
  heap : gmap addr (fork_item B);
  next_addr : addr;
  _max_size : Z;
  _unlinked_index : gmap block_id_type addr;
  _index : gmap block_id_type addr;
  _head : option addr;
}.
Arguments Fork_database {B} _ _ _ _ _ _.
Arguments heap {B} _.
Arguments next_addr {B} _.
Arguments _max_size {B} _.
Arguments _unlinked_index {B} _.
Arguments _index {B} _.
Arguments _head {B} _.

#[export] Instance settable_fork_item B : Settable (fork_item B) :=
  fun i => Fork_item (prev i) (num i) (invalid i) (id i) (data i).
#[export] Instance settable_fork_database B : Settable (fork_database B) :=
  fun f => Fork_database (heap f) (next_addr f) (_max_size f) (_unlinked_index f)
             (_index f) (_head f).

Section Operations.
Context `{BL : BlockLib}.
Abbreviation block := (signed_block processed_transaction).
Abbreviation item := (fork_item block).
Abbreviation fdb := (fork_database block).
Implicit Types (b : block) (it : item) (f : fdb) (a : addr) (i : block_id_type).

Definition block_previous b : block_id_type := previous (header (signed_header b)).

Definition previous_id it : block_id_type := block_previous (data it).

(** [fork_item( signed_block )] *)
Definition make_item b : item :=
  Fork_item None (block_num (signed_header b)) false (block_id (signed_header b)) b.

Definition empty_fork_database : fdb := Fork_database ∅ 0 1024 ∅ ∅ None.

(** ** The heap *)

Definition deref f a : result item :=
  of_option (heap f !! a) (undefined_behaviour "null fork_item").

Definition holds (ix : gmap block_id_type addr) a : bool :=
  bool_decide (a ∈ (map_to_list ix).*2).

(** Some [shared_ptr] to the item exists. *)
Definition held f a : bool :=
  bool_decide (_head f = Some a) || holds (_index f) a || holds (_unlinked_index f) a.

(** [it->prev.lock()] *)
Definition lock f it : option addr :=
  p ← prev it; if held f p then Some p else None.

Definition locked_item f it : option item := p ← lock f it; heap f !! p.

Definition head_item f : option item := a ← _head f; heap f !! a.

(** [multi_index_container::insert] of an item: rejected, without an error,
    when the block id is present. *)
Definition insert_item (ix : gmap block_id_type addr) i a : gmap block_id_type addr :=
  match ix !! i with Some _ => ix | None => <[i := a]> ix end.

Definition num_satisfies f (p : Z -> bool) a : bool :=
  match heap f !! a with Some it => p (num it) | None => false end.

(** [while( num_idx.begin()->num < n ) num_idx.erase( num_idx.begin() )]:
    the items below [n] leave the index. *)
Definition erase_below f (n : Z) (ix : gmap block_id_type addr) : gmap block_id_type addr :=
  filter (fun e => num_satisfies f (fun m => n <=? m) e.2 = true) ix.

(** [num_idx.erase( n )] *)
Definition erase_num f (n : Z) (ix : gmap block_id_type addr) : gmap block_id_type addr :=
  filter (fun e => num_satisfies f (fun m => negb (m =? n)) e.2 = true) ix.

(** ** Operations *)

Definition reset f : fdb := f <| _head := None |> <| _index := ∅ |>.

Definition pop_block f : result fdb :=
  a ← of_option (_head f) (assert_exception "no blocks to pop");
  it ← deref f a;
  p ← of_option (lock f it) (assert_exception "poping block would leave head block null");
  Ok (f <| _head := Some p |>).

(** Allocation of an item; [prev] is set later. *)
Definition alloc f it : addr * fdb :=
  (next_addr f, f <| heap ::= <[next_addr f := it]> |> <| next_addr ::= N.succ |>).

Definition start_block f b : fdb :=
  let '(a, f) := alloc f (make_item b) in
  f <| _index ::= fun ix => insert_item ix (block_id (signed_header b)) a |>
    <| _head := Some a |>.

(** The three parts of [_push_block( item )], for the item at [a]: the range
    check, the link to the previous block, the insertion. *)
Definition check_range f it : result unit :=
  match head_item f with
  | Some h =>
      FC_ASSERT (Z.max 0 (num h - _max_size f) <? num it)
        "attempting to push a block that is too old"
  | None => Ok tt
  end.

Definition link_item f a it : result fdb :=
  if bool_decide (_head f <> None) && bool_decide (previous_id it <> null_block_id) then
    p ← of_option (_index f !! previous_id it)
          (graphene_exception "unlinkable_block_exception");
    pit ← deref f p;
    _ ← FC_ASSERT (negb (invalid pit)) "!itr->invalid";
    Ok (f <| heap ::= <[a := it <| prev := Some p |>]> |>)
  else Ok f.

Definition index_item f a it : fdb :=
  let f := f <| _index ::= fun ix => insert_item ix (id it) a |> in
  match head_item f with
  | None => f <| _head := Some a |>
  | Some h =>
      if num h <? num it then
        let min_num := num it - Z.min (_max_size f) (num it) in
        f <| _head := Some a |>
          <| _index ::= erase_below f min_num |>
          <| _unlinked_index ::= erase_num f (wrap32 (num it - _max_size f)) |>
      else f
  end.

Definition _push_block f a : result fdb :=
  it ← deref f a;
  _ ← check_range f it;
  f ← link_item f a it;
  Ok (index_item f a it).

(** The result is the new head. *)
Definition push_block f b : result (option item * fdb) :=
  let '(a, f) := alloc f (make_item b) in
  f ← _push_block f a;
  Ok (head_item f, f).

Definition set_max_size f (s : Z) : fdb :=
  let f := f <| _max_size := s |> in
  match head_item f with
  | None => f
  | Some h =>
      f <| _index ::= erase_below f (Z.max 0 (num h - s)) |>
        <| _unlinked_index ::= erase_below f (Z.max 0 (num h - s)) |>
  end.

Definition is_known_block f i : bool :=
  bool_decide (is_Some (_index f !! i)) || bool_decide (is_Some (_unlinked_index f !! i)).

Definition fetch_block f i : option item :=
  match _index f !! i with
  | Some a => heap f !! a
  | None => a ← _unlinked_index f !! i; heap f !! a
  end.

(** The items with the number, in the order of the index. *)
Definition fetch_block_by_number f (n : Z) : list item :=
  filter (fun it => num it = n) (omap (fun a => heap f !! a) (map_to_list (_index f)).*2).

Definition set_head f (h : option addr) : fdb := f <| _head := h |>.

Definition remove f i : fdb := f <| _index ::= delete i |>.

(** ** fetch_branch_from *)

Record branches := Branches {
  first_branch : item;
  second_branch : item;
  result_first : list item;
  result_second : list item;
}.

#[export] Instance settable_branches : Settable branches :=
  fun w => Branches (first_branch w) (second_branch w) (result_first w) (result_second w).

Definition item_num it : Z := block_num (signed_header (data it)).

Definition step_first f (w : branches) : result branches :=
  p ← of_option (locked_item f (first_branch w)) (assert_exception "first_branch");
  Ok (w <| result_first ::= fun l => l ++ [first_branch w] |> <| first_branch := p |>).

Definition step_second f (w : branches) : result branches :=
  p ← of_option (locked_item f (second_branch w)) (assert_exception "second_branch");
  Ok (w <| result_second ::= fun l => l ++ [second_branch w] |> <| second_branch := p |>).

Definition step_both f (w : branches) : result branches :=
  w ← step_first f w; step_second f w.

(** The three loops; a side that goes down by one block loses one in height,
    so the sum of the heights bounds every loop. *)
Definition walk f (fuel : nat) it1 it2 : result branches :=
  w ← while (fun w => item_num (second_branch w) <? item_num (first_branch w))
        (step_first f) fuel (Branches it1 it2 [] []);
  w ← while (fun w => item_num (first_branch w) <? item_num (second_branch w))
        (step_second f) fuel w;
  while (fun w => bool_decide (previous_id (first_branch w) <> previous_id (second_branch w)))
    (step_both f) fuel w.

Definition fetch_branch_from f (first second : block_id_type)
  : result (list item * list item) :=
  a1 ← of_option (_index f !! first) (assert_exception "first_branch_itr");
  it1 ← deref f a1;
  a2 ← of_option (_index f !! second) (assert_exception "second_branch_itr");
  it2 ← deref f a2;
  w ← walk f (S (Z.to_nat (item_num it1 + item_num it2))) it1 it2;
  Ok (result_first w ++ [first_branch w], result_second w ++ [second_branch w]).
End Operations.

#[global] Arguments locked_item {BL} f it : simpl never.
#[global] Arguments head_item {BL} f : simpl never.

(** ** The well-formed fork database *)

Section Invariant.
Context `{BL : BlockLib}.
Abbreviation block := (signed_block processed_transaction).
Abbreviation item := (fork_item block).
Abbreviation fdb := (fork_database block).
Implicit Types (b : block) (it : item) (f : fdb) (a : addr) (i : block_id_type).

(** [num] and [id] agree with the block, and a linked predecessor is the
    block this one names, one number lower. *)
Record item_ok f it : Prop := {
  item_ok_num : num it = item_num it;
  item_ok_id : id it = block_id (signed_header (data it));
  item_ok_prev p : prev it = Some p ->
    exists pit, heap f !! p = Some pit /\ id pit = previous_id it /\ num it = num pit + 1;
}.

Record fork_ok f : Prop := {
  ok_next a it : heap f !! a = Some it -> (a < next_addr f)%N;
  ok_item a it : heap f !! a = Some it -> item_ok f it;
  ok_index i a : _index f !! i = Some a -> exists it, heap f !! a = Some it /\ id it = i;
  ok_unlinked : _unlinked_index f = ∅;
  ok_head a : _head f = Some a -> is_Some (heap f !! a);
  ok_max_size : 0 <= _max_size f;
}.

Lemma item_num_range it : 0 <= item_num it < 2 ^ 32.
Proof. unfold item_num, block_num, wrap32. apply Z.mod_pos_bound. lia. Qed.

Lemma num_from_block_id `{!BlockLaws BL} (h : signed_block_header) :
  num_from_id (block_id h) = block_num h.
Proof.
  unfold block_id. pose proof (sha224_words h) as Hl.
  destruct (sha224_hash h) as [|w ws]; [done|]. simpl.
  unfold num_from_id at 1; simpl. apply endian_reverse_involutive.
  unfold block_num, wrap32, in_uint32. apply Z.mod_pos_bound. lia.
Qed.

(** Linking to the block that is named links to the number below. *)
Lemma linked_num `{!BlockLaws BL} f it pit :
  item_ok f pit -> id pit = previous_id it -> 0 < item_num it ->
  item_num it = item_num pit + 1.
Proof.
  intros [Hn Hi _] Hp Hpos. rewrite Hi in Hp.
  assert (item_num it = wrap32 (item_num pit + 1)) as E.
  { unfold item_num at 1, block_num. unfold previous_id, block_previous in Hp.
    rewrite <-Hp. by rewrite num_from_block_id. }
  rewrite E in Hpos |- *. pose proof (item_num_range pit). unfold wrap32 in *.
  destruct (decide (item_num pit + 1 = 2 ^ 32)) as [E'|]; [by rewrite E' in Hpos|].
  rewrite Z.mod_small; lia.
Qed.

(** Items only gain facts when the heap grows. *)
Lemma item_ok_mono f f' it :
  (forall a x, heap f !! a = Some x -> exists y, heap f' !! a = Some y /\ id y = id x /\ num y = num x) ->
  item_ok f it -> item_ok f' it.
Proof.
  intros Hm [Hn Hi Hp]. split; [done..|].
  intros p (pit & Hpit & Hid & Hnum)%Hp. destruct (Hm _ _ Hpit) as (y & Hy & Hyi & Hyn).
  exists y. rewrite Hyi, Hyn. done.
Qed.

Lemma insert_item_lookup ix i a j x :
  insert_item ix i a !! j = Some x -> ix !! j = Some x \/ (j = i /\ x = a).
Proof.
  unfold insert_item. destruct (ix !! i) eqn:E; [by left|].
  rewrite lookup_insert_Some. naive_solver.
Qed.

Lemma erase_below_lookup f n (ix : gmap block_id_type addr) j x :
  erase_below f n ix !! j = Some x <->
  ix !! j = Some x /\ exists it, heap f !! x = Some it /\ n <= num it.
Proof.
  unfold erase_below, num_satisfies. rewrite map_lookup_filter_Some. simpl.
  destruct (heap f !! x) as [it|]; [rewrite Z.leb_le|]; naive_solver.
Qed.

Lemma erase_num_empty f n : erase_num f n ∅ = ∅.
Proof. unfold erase_num. apply map_filter_empty. Qed.

Lemma erase_below_empty f n : erase_below f n ∅ = ∅.
Proof. unfold erase_below. apply map_filter_empty. Qed.

Lemma fork_ok_empty : fork_ok empty_fork_database.
Proof. split; simpl; intros *; rewrite ?lookup_empty; done. Qed.

Lemma fork_ok_reset f : fork_ok f -> fork_ok (reset f).
Proof.
  intros [H1 H2 H3 H4 H5 H6]. split; simpl; try done.
  intros a it Hit. apply (item_ok_mono f); [naive_solver|eauto].
Qed.

Lemma fork_ok_set_head f h :
  fork_ok f -> (forall a, h = Some a -> is_Some (heap f !! a)) -> fork_ok (set_head f h).
Proof.
  intros [H1 H2 H3 H4 H5 H6] Hh. split; simpl; try done.
  intros a it Hit. apply (item_ok_mono f); [naive_solver|eauto].
Qed.

(** Shrinking the index and moving the head keep the invariant. *)
Lemma fork_ok_shrink f s u ix hd :
  fork_ok f -> 0 <= s -> u = ∅ ->
  (forall j a, ix !! j = Some a -> _index f !! j = Some a) ->
  (forall a, hd = Some a -> is_Some (heap f !! a)) ->
  fork_ok (Fork_database (heap f) (next_addr f) s u ix hd).
Proof.
  intros [H1 H2 H3 H4 H5 H6] Hs Hu Hix Hhd. split; simpl; try done; [|by eauto].
  intros a it Hit. apply (item_ok_mono f); [naive_solver|eauto].
Qed.

Lemma fork_ok_remove f i : fork_ok f -> fork_ok (remove f i).
Proof.
  intros Hf. apply (fork_ok_shrink f); [done|apply Hf..| |apply Hf].
  intros j a [_ ?]%lookup_delete_Some. done.
Qed.

Lemma fork_ok_set_max_size f s : fork_ok f -> 0 <= s -> fork_ok (set_max_size f s).
Proof.
  intros Hf Hs. pose proof (ok_unlinked f Hf) as Hu. unfold set_max_size. simpl.
  pose proof (ok_head f Hf). case_match; [|by apply fork_ok_shrink].
  apply (fork_ok_shrink f s); [done|done|by rewrite Hu, erase_below_empty| |done]. intros j a [? _]%erase_below_lookup. done.
Qed.

Lemma lock_Some f it p : lock f it = Some p -> prev it = Some p.
Proof. unfold lock. destruct (prev it); simpl; [case_match|]; naive_solver. Qed.

Lemma fork_ok_pop_block f f' : fork_ok f -> pop_block f = Ok f' -> fork_ok f'.
Proof.
  intros Hf Hpop. unfold pop_block, deref in Hpop. inv_result.
  apply (fork_ok_set_head f); [done|]. intros p' [= <-].
  destruct (item_ok_prev _ _ (ok_item _ Hf _ _ H0) a1) as (pit & Hpit & _); [by eapply lock_Some|].
  eauto.
Qed.

Lemma heap_alloc f it a x :
  fork_ok f -> heap f !! a = Some x -> heap (alloc f it).2 !! a = Some x.
Proof.
  intros Hf Ha. simpl. rewrite lookup_insert_ne; [done|].
  apply (ok_next f Hf) in Ha. lia.
Qed.

Lemma fork_ok_alloc f b : fork_ok f -> fork_ok (alloc f (make_item b)).2.
Proof.
  intros Hf. assert (Hm := fun a x => heap_alloc f (make_item b) a x Hf).
  destruct (Hf) as [H1 H2 H3 H4 H5 H6]. split.
  - simpl. intros a it [[<- <-]|[_ Ha%H1]]%lookup_insert_Some; lia.
  - intros a it Ha. simpl in Ha. apply lookup_insert_Some in Ha as [[<- <-]|[_ Ha]]; [by split|].
    apply (item_ok_mono f); [naive_solver|eauto].
  - intros i a (x & Hx & ?)%H3. eauto.
  - done.
  - intros a [x Hx]%H5. eauto.
  - done.
Qed.

Lemma fork_ok_start_block f b : fork_ok f -> fork_ok (start_block f b).
Proof.
  intros Hf. destruct (fork_ok_alloc f b Hf) as [H1 H2 H3 H4 H5 H6].
  unfold start_block. cbn [alloc fst snd] in *. split; simpl; try done.
  - intros a it Hit. eapply item_ok_mono; [|by eapply H2]. naive_solver.
  - intros j x [Hj|[-> ->]]%insert_item_lookup; [by apply H3|].
    rewrite lookup_insert_eq. eauto.
  - intros x [= <-]. rewrite lookup_insert_eq. eauto.
Qed.

Lemma head_item_heap f h :
  fork_ok f -> head_item f = Some h ->
  exists a, _head f = Some a /\ heap f !! a = Some h.
Proof. intros Hf. unfold head_item. destruct (_head f) as [a|]; simpl; naive_solver. Qed.

Lemma head_item_None f : fork_ok f -> head_item f = None <-> _head f = None.
Proof.
  intros Hf. pose proof (ok_head f Hf). unfold head_item.
  destruct (_head f) as [a|]; simpl; [|done].
  destruct (H a) as [x ->]; done.
Qed.

(** The result of [link_item]: the predecessor is set, nothing else changes. *)
Lemma link_item_Ok f a it f' :
  link_item f a it = Ok f' ->
  f' = f \/ exists p pit, _index f !! previous_id it = Some p /\ heap f !! p = Some pit /\
            invalid pit = false /\ _head f <> None /\
            f' = f <| heap ::= <[a := it <| prev := Some p |>]> |>.
Proof.
  unfold link_item. case_match eqn:E; [|intros; inv_result; by left].
  unfold deref. intros. inv_result. bool_to_prop. right. eauto 10.
Qed.

Lemma fork_ok_link `{!BlockLaws BL} f a it f' :
  fork_ok f -> heap f !! a = Some it -> prev it = None ->
  (_head f <> None -> 0 < num it) ->
  link_item f a it = Ok f' -> fork_ok f'.
Proof.
  intros Hf Ha Hnone Hpos [->|(p & pit & Hp & Hpit & _ & Hhd & ->)]%link_item_Ok; [done|].
  destruct (ok_index f Hf _ _ Hp) as (pit' & Hpit' & Hid). simplify_eq.
  set (f' := f <| heap ::= _ |>).
  assert (Hm : forall x y, heap f !! x = Some y ->
             exists z, heap f' !! x = Some z /\ id z = id y /\ num z = num y).
  { intros x y Hx. destruct (decide (x = a)) as [->|Hne].
    - simplify_eq. exists (it <| prev := Some p |>).
      split; [apply lookup_insert_eq|done].
    - exists y. split; [|done]. unfold f'; simpl. by rewrite lookup_insert_ne. }
  assert (Hl : forall x y, heap f' !! x = Some y ->
             (a = x /\ it <| prev := Some p |> = y) \/ (a <> x /\ heap f !! x = Some y)).
  { intros x y Hx. by apply lookup_insert_Some. }
  destruct (ok_item f Hf _ _ Ha) as [Hn Hi _].
  assert (Hlink : num it = num pit + 1).
  { rewrite Hn, (item_ok_num f) by eauto using ok_item.
    apply (linked_num f); [by eapply ok_item|done|]. rewrite <-Hn. auto. }
  destruct (Hf) as [H1 H2 H3 H4 H5 H6]. split; try done.
  - intros x y [[<- <-]|[_ Hx]]%Hl; [by apply H1 in Ha|by eauto].
  - intros x y [[<- <-]|[Hne Hx]]%Hl; [|by eapply item_ok_mono; eauto].
    split; [done..|]. simpl. intros ? [= <-].
    destruct (Hm _ _ Hpit) as (z & Hz & Hzi & Hzn). exists z.
    split; [exact Hz|]. rewrite Hzi, Hzn. done.
  - intros i x (y & Hy & <-)%H3. destruct (Hm _ _ Hy) as (z & Hz & Hzi & _). eauto.
  - intros x [y Hy]%H5. destruct (Hm _ _ Hy) as (z & Hz & _). eauto.
Qed.

Lemma fork_ok_index_item f a it it' :
  fork_ok f -> heap f !! a = Some it' -> id it' = id it -> fork_ok (index_item f a it).
Proof.
  intros Hf Ha Hid.
  assert (Hins : fork_ok (f <| _index ::= fun ix => insert_item ix (id it) a |>)).
  { destruct (Hf) as [H1 H2 H3 H4 H5 H6]. split; simpl; try done.
    - intros x y Hx. eapply item_ok_mono; [|by eapply H2]. naive_solver.
    - intros j x [Hj|[-> ->]]%insert_item_lookup; [by apply H3|]. eauto. }
  unfold index_item. case_match; [case_match; [|done]|].
  - simpl. rewrite (ok_unlinked f Hf), erase_num_empty.
    pose proof (fork_ok_shrink (f <| _index ::= fun ix => insert_item ix (id it) a |>)
      (_max_size f) ∅) as Hs; simpl in Hs.
    apply Hs; [done|apply Hf|done| |naive_solver].
    intros j x [? _]%erase_below_lookup. done.
  - apply (fork_ok_set_head (f <| _index ::= fun ix => insert_item ix (id it) a |>)); [done|].
    simpl. naive_solver.
Qed.

(** ** push_block *)

Definition b_num b : Z := block_num (signed_header b).
Definition b_id b : block_id_type := block_id (signed_header b).

(** What [push_block] demands of a block. *)
Definition acceptable f b : Prop :=
  forall h, head_item f = Some h ->
    Z.max 0 (num h - _max_size f) < b_num b /\
    (block_previous b <> null_block_id ->
     exists a pit, _index f !! block_previous b = Some a /\ heap f !! a = Some pit /\
                   invalid pit = false).

Lemma check_range_Ok f it u :
  check_range f it = Ok u <->
  forall h, head_item f = Some h -> Z.max 0 (num h - _max_size f) < num it.
Proof.
  unfold check_range. destruct u, (head_item f) as [h|]; [|naive_solver].
  rewrite guard_or_Ok, Z.ltb_lt. naive_solver.
Qed.

Lemma link_item_accepts f a it :
  fork_ok f ->
  (exists f', link_item f a it = Ok f') <->
  (_head f <> None -> previous_id it <> null_block_id ->
   exists x pit, _index f !! previous_id it = Some x /\ heap f !! x = Some pit /\
                 invalid pit = false).
Proof.
  intros Hf. split.
  - intros [f' Hl] Hhd Hp. unfold link_item, deref in Hl.
    rewrite !bool_decide_eq_true_2 in Hl by done. simpl in Hl. inv_result.
    bool_to_prop. eauto.
  - intros H. unfold link_item, deref.
    destruct (decide (_head f <> None)) as [Hhd|Hhd]; [|rewrite bool_decide_eq_false_2 by done; simpl; eauto].
    destruct (decide (previous_id it <> null_block_id)) as [Hp|Hp];
      [|rewrite (bool_decide_eq_false_2 (previous_id it <> null_block_id)) by done;
        rewrite andb_false_r; eauto].
    rewrite !bool_decide_eq_true_2 by done.
    destruct H as (x & pit & Hx & Hpit & Hinv); [done..|].
    rewrite Hx. simpl. rewrite Hpit. simpl. rewrite Hinv. simpl. eauto.
Qed.

Lemma push_block_accepts f b :
  fork_ok f -> (exists o f', push_block f b = Ok (o, f')) <-> acceptable f b.
Proof.
  intros Hf. pose proof (fork_ok_alloc f b Hf) as Hf1.
  set (f1 := (alloc f (make_item b)).2) in *. set (it := make_item b).
  assert (Hh1 : head_item f1 = head_item f).
  { unfold head_item; simpl. destruct (_head f) as [a|] eqn:Ha; simpl; [|done].
    destruct (ok_head f Hf a Ha) as [x Hx]. rewrite Hx.
    by apply (heap_alloc f (make_item b)). }
  assert (Hpush : push_block f b =
            (_ ← check_range f1 it; f2 ← link_item f1 (next_addr f) it;
             Ok (head_item (index_item f2 (next_addr f) it), index_item f2 (next_addr f) it))).
  { unfold push_block. change (alloc f (make_item b)) with (next_addr f, f1).
    cbv beta iota. unfold _push_block, deref.
    assert (heap f1 !! next_addr f = Some it) as -> by apply lookup_insert_eq.
    simpl. destruct (check_range f1 it); simpl; [|done].
    by destruct (link_item f1 (next_addr f) it). }
  rewrite Hpush. unfold acceptable. rewrite <-Hh1. split.
  - intros (o & f' & ([] & Hc & (f2 & Hl & _)%bind_Ok)%bind_Ok) h Hh. split.
    + by eapply (proj1 (check_range_Ok f1 it tt)).
    + intros Hp. destruct (proj1 (link_item_accepts f1 (next_addr f) it Hf1)) as (x & pit & Hx & Hpit & Hi);
        [by eauto| |done|].
      * intros Hn. unfold head_item in Hh. by rewrite Hn in Hh.
      * exists x. destruct (ok_index f Hf _ _ Hx) as (y & Hy & _).
        change (heap (alloc f it).2 !! x = Some pit) in Hpit.
        rewrite (heap_alloc f it _ _ Hf Hy) in Hpit. simplify_eq. eauto.
  - intros H. assert (check_range f1 it = Ok tt) as ->.
    { apply check_range_Ok. intros h Hh. by apply (H h). }
    simpl. destruct (proj2 (link_item_accepts f1 (next_addr f) it Hf1)) as [f2 ->]; [|simpl; eauto].
    intros Hhd Hp. destruct (head_item f1) as [h|] eqn:Hh;
      [|by apply (head_item_None f1 Hf1) in Hh].
    destruct (H h eq_refl) as [_ (x & pit & Hx & Hpit & Hi)]; [done|].
    exists x, pit. split; [done|]. split; [|done]. by apply (heap_alloc f it).
Qed.

(** A successful push is an allocation, a link and an insertion. *)
Lemma push_block_inv f b o f' :
  push_block f b = Ok (o, f') ->
  exists f1 f2 a it, (a, f1) = alloc f (make_item b) /\ it = make_item b /\
    check_range f1 it = Ok tt /\ link_item f1 a it = Ok f2 /\
    f' = index_item f2 a it /\ o = head_item f'.
Proof.
  unfold push_block. intros H.
  destruct (alloc f (make_item b)) as [a f1] eqn:E.
  unfold _push_block, deref in H.
  assert (heap f1 !! a = Some (make_item b)) as Ha
    by (injection E as <- <-; apply lookup_insert_eq).
  rewrite Ha in H. simpl in H. destruct (check_range f1 (make_item b)) as [[]|] eqn:Hc; [|done].
  destruct (link_item f1 a (make_item b)) as [f2|] eqn:Hl; [|done].
  simpl in H. injection H as <- <-. exists f1, f2, a, (make_item b). done.
Qed.

(** The index after the link is the index before it; heap entries keep their
    numbers. *)
Lemma link_item_frame f a it f' :
  heap f !! a = Some it -> link_item f a it = Ok f' ->
  _index f' = _index f /\ _head f' = _head f /\ _max_size f' = _max_size f /\
  forall x y, heap f !! x = Some y -> exists z, heap f' !! x = Some z /\ num z = num y /\ id z = id y.
Proof.
  intros Ha [->|(p & pit & _ & _ & _ & _ & ->)]%link_item_Ok; [naive_solver|].
  repeat split; try done. simpl. intros x y Hx.
  destruct (decide (x = a)) as [->|Hne].
  - simplify_eq. rewrite lookup_insert_eq. eauto.
  - rewrite lookup_insert_ne by done. eauto.
Qed.

Lemma insert_item_keeps ix i a j x : ix !! j = Some x -> insert_item ix i a !! j = Some x.
Proof.
  intros Hj. unfold insert_item. destruct (ix !! i) eqn:E; [done|].
  rewrite lookup_insert_ne; [done|]. congruence.
Qed.

Lemma insert_item_present ix i a : is_Some (insert_item ix i a !! i).
Proof.
  unfold insert_item. destruct (ix !! i) eqn:E; [by rewrite E|].
  rewrite lookup_insert_eq. eauto.
Qed.

(** What an index entry means: the id of an indexed item fixes its number. *)
Lemma indexed_num `{!BlockLaws BL} f i a it :
  fork_ok f -> _index f !! i = Some a -> heap f !! a = Some it ->
  num it = num_from_id i.
Proof.
  intros Hf Hi Ha. destruct (ok_index f Hf _ _ Hi) as (y & Hy & <-). simplify_eq.
  destruct (ok_item f Hf _ _ Ha) as [Hn -> _]. by rewrite num_from_block_id.
Qed.

Lemma index_item_post `{!BlockLaws BL} f a it it' :
  fork_ok f -> heap f !! a = Some it' -> id it' = id it -> num it' = num it ->
  let f' := index_item f a it in
  exists h', head_item f' = Some h' /\ _max_size f' = _max_size f /\ heap f' = heap f /\
    num h' = match head_item f with None => num it | Some h => Z.max (num h) (num it) end /\
    is_Some (_index f' !! id it) /\
    (forall i x y, _index f !! i = Some x -> heap f !! x = Some y ->
       num h' - _max_size f <= num y -> _index f' !! i = Some x) /\
    (forall h, head_item f = Some h -> num h < num it ->
       forall i x y, _index f' !! i = Some x -> heap f' !! x = Some y ->
         num it - _max_size f <= num y).
Proof.
  intros Hf Ha Hid Hnum f'. pose proof (ok_max_size f Hf) as Hmax.
  assert (Hge : 0 <= num it).
  { rewrite <-Hnum, (item_ok_num f) by eauto using ok_item. apply item_num_range. }
  set (ix' := insert_item (_index f) (id it) a).
  assert (Hraise : match head_item f with None => True | Some h => num h < num it end ->
                   head_item (f <| _head := Some a |>) = Some it') by done.
  subst f'. unfold index_item.
  change (head_item (f <| _index ::= fun ix => insert_item ix (id it) a |>)) with (head_item f).
  destruct (head_item f) as [h|] eqn:Hh.
  - destruct (Z.ltb_spec (num h) (num it)) as [Hlt|Hle].
    + exists it'. simpl. fold ix'. split; [done|]. do 2 (split; [done|]).
      split; [lia|]. split.
      * destruct (insert_item_present (_index f) (id it) a) as [x Hx]. exists x.
        apply erase_below_lookup. split; [done|]. simpl.
        destruct (insert_item_lookup _ _ _ _ _ Hx) as [Hi|[_ ->]];
          [|exists it'; split; [done|lia]].
        destruct (ok_index f Hf _ _ Hi) as (y & Hy & Hyi). exists y. split; [done|].
        rewrite (indexed_num f _ _ _ Hf Hi Hy), <-Hid, (item_ok_id f) by eauto using ok_item.
        rewrite num_from_block_id. fold (item_num it').
        rewrite <-(item_ok_num f) by eauto using ok_item. lia.
      * split.
        -- intros i x y Hi Hy Hn. apply erase_below_lookup.
           split; [by apply insert_item_keeps|]. exists y. split; [done|].
           destruct (Z.min_spec (_max_size f) (num it)) as [[_ ->]|[_ ->]]; [lia|].
           rewrite (item_ok_num f y) by eauto using ok_item. pose proof (item_num_range y). lia.
        -- intros h0 [= <-] _ i x y [_ (y' & Hy' & Hn)]%erase_below_lookup Hy. simplify_eq.
           simpl in Hy'. simplify_eq. lia.
    + exists h. simpl. fold ix'. split; [exact Hh|]. do 2 (split; [done|]).
      split; [lia|]. split; [apply insert_item_present|]. split.
      * intros. by apply insert_item_keeps.
      * intros h0 [= <-]. lia.
  - exists it'. simpl. split; [exact Ha|]. do 2 (split; [done|]). split; [done|].
    split; [apply insert_item_present|]. split; [|done].
    intros. by apply insert_item_keeps.
Qed.

Lemma push_block_post `{!BlockLaws BL} f b o f' :
  fork_ok f -> push_block f b = Ok (o, f') ->
  fork_ok f' /\ exists h', o = Some h' /\ head_item f' = Some h' /\ _max_size f' = _max_size f /\
    num h' = match head_item f with None => b_num b | Some h => Z.max (num h) (b_num b) end /\
    is_known_block f' (b_id b) = true /\
    (forall i x y, _index f !! i = Some x -> heap f !! x = Some y ->
       num h' - _max_size f <= num y -> _index f' !! i = Some x) /\
    (forall h, head_item f = Some h -> num h < b_num b ->
       forall i x y, _index f' !! i = Some x -> heap f' !! x = Some y ->
         b_num b - _max_size f <= num y).
Proof.
  intros Hf (f1 & f2 & a & it & Hal & -> & Hc & Hl & -> & ->)%push_block_inv.
  pose proof (fork_ok_alloc f b Hf) as Hf1. pose proof (heap_alloc f (make_item b)) as Hk.
  assert (Hh1 : head_item f1 = head_item f).
  { injection Hal as -> ->. unfold head_item; simpl.
    destruct (_head f) as [x|] eqn:Hx; simpl; [|done].
    destruct (ok_head f Hf x Hx) as [y Hy]. rewrite Hy. by apply (heap_alloc f (make_item b)). }
  rewrite <-Hal in Hf1, Hk; simpl in Hf1, Hk.
  assert (Ha : heap f1 !! a = Some (make_item b))
    by (injection Hal as -> ->; apply lookup_insert_eq).
  assert (Hix : _index f1 = _index f /\ _max_size f1 = _max_size f) by (by injection Hal as -> ->).
  destruct Hix as [Hix Hms].
  destruct (link_item_frame _ _ _ _ Ha Hl) as (Hix2 & Hhd2 & Hms2 & Hheap2).
  assert (Hf2 : fork_ok f2).
  { eapply (fork_ok_link f1); eauto. intros Hhd.
    destruct (head_item f1) as [h|] eqn:E; [|by apply head_item_None in E].
    pose proof (proj1 (check_range_Ok f1 (make_item b) tt) Hc h E). lia. }
  destruct (Hheap2 _ _ Ha) as (it' & Ha2 & Hn' & Hi').
  destruct (index_item_post f2 a (make_item b) it' Hf2 Ha2 Hi' Hn')
    as (h' & Hh' & Hms' & Hheap' & Hnum' & Hknown & Hkeep & Hwin).
  assert (Hh2 : num <$> head_item f2 = num <$> head_item f).
  { rewrite <-Hh1. unfold head_item. rewrite Hhd2. destruct (_head f1) as [x|] eqn:Hx; simpl; [|done].
    destruct (ok_head f1 Hf1 x Hx) as [y Hy]. rewrite Hy. destruct (Hheap2 _ _ Hy) as (z & -> & Hz & _).
    simpl. by rewrite Hz. }
  split; [by eapply fork_ok_index_item|].
  exists h'. split; [done|]. split; [done|]. rewrite Hms', Hms2, Hms. split; [done|]. split.
  { rewrite Hnum'. destruct (head_item f2), (head_item f); simplify_eq/=; [by rewrite Hh2|done]. }
  split; [unfold is_known_block; by rewrite bool_decide_eq_true_2|]. split.
  - intros i x y Hi Hy Hn. rewrite <-Hix, <-Hix2 in Hi.
    destruct (Hheap2 x y) as (z & Hz & Hzn & _); [by apply Hk|].
    apply (Hkeep i x z); [done|done|]. rewrite Hzn, Hms2, Hms. done.
  - intros h Hh Hlt i x y Hi Hy. rewrite <-Hms, <-Hms2.
    destruct (head_item f2) as [h2|] eqn:E2; rewrite Hh in Hh2; simplify_eq/=.
    eapply (Hwin h2 eq_refl); eauto. rewrite Hh2. done.
Qed.
End Invariant.
(** ** Branches *)

Section Branch.
Context `{BL : BlockLib}.
Abbreviation block := (signed_block processed_transaction).
Abbreviation item := (fork_item block).
Abbreviation fdb := (fork_database block).
Implicit Types (b : block) (it : item) (f : fdb) (a : addr) (i : block_id_type) (l : list item).

(** Each item of the list is the live predecessor of the one before it. *)
Fixpoint linked f l : Prop :=
  match l with
  | x :: (y :: _) as l' => locked_item f x = Some y /\ linked f l'
  | _ => True
  end.

Definition in_heap f it : Prop := exists a, heap f !! a = Some it.

Definition indexed f i it : Prop := exists a, _index f !! i = Some a /\ heap f !! a = Some it.

(** The two branches down to their common ancestor: [l1] leads back from the
    block [first], [l2] from [second]; their last items have the same
    predecessor, and no earlier pair of items of equal height has. *)
Record fork_branches f (first second : block_id_type) l1 l2 : Prop := {
  fb_first : exists it r, l1 = it :: r /\ indexed f first it;
  fb_second : exists it r, l2 = it :: r /\ indexed f second it;
  fb_linked1 : linked f l1;
  fb_linked2 : linked f l2;
  fb_common : exists r1 x r2 y, l1 = r1 ++ [x] /\ l2 = r2 ++ [y] /\
    item_num x = item_num y /\ previous_id x = previous_id y /\
    forall x' y', x' ∈ r1 -> y' ∈ r2 -> item_num x' = item_num y' ->
      previous_id x' <> previous_id y';
}.

Lemma locked_item_spec f it it' :
  fork_ok f -> in_heap f it -> locked_item f it = Some it' ->
  in_heap f it' /\ item_num it = item_num it' + 1 /\ id it' = previous_id it.
Proof.
  intros Hf [a Ha] Hl. unfold locked_item in Hl.
  destruct (lock f it) as [p|] eqn:Hp; simpl in Hl; [|done].
  destruct (ok_item f Hf _ _ Ha) as [Hn _ Hprev].
  destruct (Hprev p (lock_Some _ _ _ Hp)) as (pit & Hpit & Hid & Hnum). simplify_eq.
  rewrite (item_ok_num f it') in Hnum by eauto using ok_item. rewrite <-Hn.
  split; [by exists p|]. done.
Qed.

Lemma linked_snoc f l x y :
  linked f (l ++ [x]) -> locked_item f x = Some y -> linked f (l ++ [x; y]).
Proof.
  induction l as [|z l IH]; simpl; [done|].
  destruct l as [|z' l]; simpl in *; naive_solver.
Qed.

Lemma linked_mid f l x y r : linked f (l ++ x :: y :: r) -> locked_item f x = Some y.
Proof.
  induction l as [|z l IH]; simpl; [naive_solver|].
  destruct l as [|z' l]; simpl in *; naive_solver.
Qed.

Lemma linked_app_r f l r : linked f (l ++ r) -> linked f r.
Proof.
  induction l as [|z l IH]; simpl; [done|]. intros H. apply IH.
  destruct (l ++ r); [done|]. naive_solver.
Qed.

(** Heights along a linked list. *)
Lemma linked_above f l x :
  fork_ok f -> linked f (l ++ [x]) -> (forall z, z ∈ l ++ [x] -> in_heap f z) ->
  forall z, z ∈ l -> item_num x < item_num z.
Proof.
  intros Hf. induction l as [|w l IH]; simpl; intros Hl Hin z Hz; [set_solver|].
  assert (Hl' : linked f (l ++ [x])) by (destruct (l ++ [x]); [done|naive_solver]).
  assert (Hrest : forall z, z ∈ l -> item_num x < item_num z)
    by (apply IH; [done|set_solver]).
  apply elem_of_cons in Hz as [->|Hz]; [|by apply Hrest].
  assert (Hw : in_heap f w) by set_solver.
  destruct l as [|w' l]; destruct Hl as [Hl _];
    destruct (locked_item_spec f _ _ Hf Hw Hl) as (_ & Hn & _); [lia|].
  specialize (Hrest w' ltac:(set_solver)). lia.
Qed.

(** ** Soundness of the three loops *)

Definition trail f it0 l it : Prop :=
  linked f (l ++ [it]) /\ (forall z, z ∈ l ++ [it] -> in_heap f z) /\
  exists r, l ++ [it] = it0 :: r.

Lemma trail_start f it : in_heap f it -> trail f it [] it.
Proof. intros. split; [done|]. split; [set_solver|]. by exists []. Qed.

Lemma trail_step f it0 l it it' :
  fork_ok f -> trail f it0 l it -> locked_item f it = Some it' ->
  trail f it0 (l ++ [it]) it' /\ item_num it = item_num it' + 1.
Proof.
  intros Hf (Hl & Hin & r & Hr) Hs.
  destruct (locked_item_spec f it it') as (Hh & Hn & _); [done|set_solver|done|].
  split; [|done]. split; [|split].
  - rewrite <-app_assoc. by apply linked_snoc.
  - intros z. rewrite elem_of_app, list_elem_of_singleton. intros [?| ->]; auto.
  - exists (r ++ [it']). by rewrite Hr.
Qed.

Lemma trail_above f it0 l it z :
  fork_ok f -> trail f it0 l it -> z ∈ l -> item_num it < item_num z.
Proof. intros Hf (Hl & Hin & _). by apply (linked_above f). Qed.

(** The invariant of the walk from [it1] and [it2]: two trails, and no pair of
    equal height behind them has the same predecessor. *)
Record walking f it1 it2 (w : branches) : Prop := {
  walk_first : trail f it1 (result_first w) (first_branch w);
  walk_second : trail f it2 (result_second w) (second_branch w);
  walk_apart x y : x ∈ result_first w -> y ∈ result_second w ->
    item_num x = item_num y -> previous_id x <> previous_id y;
}.

Lemma step_first_inv f w w' :
  step_first f w = Ok w' ->
  exists p, locked_item f (first_branch w) = Some p /\
    w' = Branches p (second_branch w) (result_first w ++ [first_branch w]) (result_second w).
Proof. unfold step_first. destruct (locked_item f _); simpl; naive_solver. Qed.

Lemma step_second_inv f w w' :
  step_second f w = Ok w' ->
  exists p, locked_item f (second_branch w) = Some p /\
    w' = Branches (first_branch w) p (result_first w) (result_second w ++ [second_branch w]).
Proof. unfold step_second. destruct (locked_item f _); simpl; naive_solver. Qed.

Lemma walking_first f it1 it2 w w' :
  fork_ok f -> walking f it1 it2 w -> step_first f w = Ok w' -> result_second w = [] ->
  walking f it1 it2 w' /\ item_num (first_branch w) = item_num (first_branch w') + 1 /\
  second_branch w' = second_branch w /\ result_second w' = [].
Proof.
  intros Hf [H1 H2 H3] (p & Hp & ->)%step_first_inv Hnil. simpl.
  destruct (trail_step f _ _ _ _ Hf H1 Hp) as [H1' Hn]. split; [|done].
  split; simpl; [done|done|]. rewrite Hnil. set_solver.
Qed.

Lemma walking_second f it1 it2 w w' :
  fork_ok f -> walking f it1 it2 w -> step_second f w = Ok w' -> result_first w = [] ->
  walking f it1 it2 w' /\ item_num (second_branch w) = item_num (second_branch w') + 1 /\
  first_branch w' = first_branch w /\ result_first w' = [].
Proof.
  intros Hf [H1 H2 H3] (p & Hp & ->)%step_second_inv Hnil. simpl.
  destruct (trail_step f _ _ _ _ Hf H2 Hp) as [H2' Hn]. split; [|done].
  split; simpl; [done|done|]. rewrite Hnil. set_solver.
Qed.

Lemma walking_both f it1 it2 w w' :
  fork_ok f -> walking f it1 it2 w -> item_num (first_branch w) = item_num (second_branch w) ->
  previous_id (first_branch w) <> previous_id (second_branch w) ->
  step_both f w = Ok w' ->
  walking f it1 it2 w' /\ item_num (first_branch w') = item_num (second_branch w') /\
  item_num (first_branch w) = item_num (first_branch w') + 1.
Proof.
  intros Hf [H1 H2 H3] Heq Hne (w1 & (p & Hp & ->)%step_first_inv & (q & Hq & ->)%step_second_inv)%bind_Ok.
  simpl in *.
  destruct (trail_step f _ _ _ _ Hf H1 Hp) as [H1' Hn1].
  destruct (trail_step f _ _ _ _ Hf H2 Hq) as [H2' Hn2].
  split; [|lia]. split; simpl; [done|done|].
  intros x y [Hx|Hx%list_elem_of_singleton]%elem_of_app [Hy|Hy%list_elem_of_singleton]%elem_of_app Hxy; subst.
  - by apply H3.
  - pose proof (trail_above f _ _ _ x Hf H1 Hx). lia.
  - pose proof (trail_above f _ _ _ y Hf H2 Hy). lia.
  - done.
Qed.

(** The state between the loops: at most one side has moved. *)
Definition leveled (w : branches) : Prop :=
  item_num (first_branch w) <= item_num (second_branch w) /\
  (result_first w = [] \/
   (result_second w = [] /\ item_num (first_branch w) = item_num (second_branch w))).

Definition loop1_inv f it1 it2 (w : branches) : Prop :=
  walking f it1 it2 w /\ result_second w = [] /\
  (result_first w = [] \/ item_num (second_branch w) <= item_num (first_branch w)).

Lemma loop1_step f it1 it2 w w' :
  fork_ok f -> loop1_inv f it1 it2 w ->
  (item_num (second_branch w) <? item_num (first_branch w)) = true ->
  step_first f w = Ok w' ->
  loop1_inv f it1 it2 w' /\
  (Z.to_nat (item_num (first_branch w')) < Z.to_nat (item_num (first_branch w)))%nat.
Proof.
  intros Hf (Hw & Hnil & Hr) Hc Hs. bool_to_prop.
  destruct (walking_first f it1 it2 w w' Hf Hw Hs Hnil) as (Hw' & Hn & Hsb & Hnil').
  pose proof (item_num_range (first_branch w')). rewrite Hn.
  split; [|lia]. split; [done|]. split; [done|]. right. rewrite Hsb. lia.
Qed.

Definition loop2_inv f it1 it2 (w : branches) : Prop := walking f it1 it2 w /\ leveled w.

Lemma loop2_step f it1 it2 w w' :
  fork_ok f -> loop2_inv f it1 it2 w ->
  (item_num (first_branch w) <? item_num (second_branch w)) = true ->
  step_second f w = Ok w' ->
  loop2_inv f it1 it2 w' /\
  (Z.to_nat (item_num (second_branch w')) < Z.to_nat (item_num (second_branch w)))%nat.
Proof.
  intros Hf (Hw & Hle & Hr) Hc Hs. bool_to_prop.
  assert (Hnil : result_first w = []) by (destruct Hr as [|[_ ?]]; [done|lia]).
  destruct (walking_second f it1 it2 w w' Hf Hw Hs Hnil) as (Hw' & Hn & Hsb & Hnil').
  pose proof (item_num_range (second_branch w')). rewrite Hn.
  split; [|lia]. split; [done|]. unfold leveled. rewrite Hsb, Hnil'. split; [lia|by left].
Qed.

Definition loop3_inv f it1 it2 (w : branches) : Prop :=
  walking f it1 it2 w /\ item_num (first_branch w) = item_num (second_branch w).

Lemma loop3_step f it1 it2 w w' :
  fork_ok f -> loop3_inv f it1 it2 w ->
  bool_decide (previous_id (first_branch w) <> previous_id (second_branch w)) = true ->
  step_both f w = Ok w' ->
  loop3_inv f it1 it2 w' /\
  (Z.to_nat (item_num (first_branch w')) < Z.to_nat (item_num (first_branch w)))%nat.
Proof.
  intros Hf (Hw & Heq) Hc Hs. bool_to_prop.
  destruct (walking_both f it1 it2 w w' Hf Hw Heq Hc Hs) as (Hw' & Hn & Hd).
  pose proof (item_num_range (first_branch w')). rewrite Hd. split; [done|lia].
Qed.

Lemma walk_start f it1 it2 :
  in_heap f it1 -> in_heap f it2 -> loop1_inv f it1 it2 (Branches it1 it2 [] []).
Proof.
  intros H1 H2. split; [|split; [done|by left]].
  split; simpl; [by apply trail_start..|set_solver].
Qed.

Lemma loop1_loop2 f it1 it2 w :
  loop1_inv f it1 it2 w -> (item_num (second_branch w) <? item_num (first_branch w)) = false ->
  loop2_inv f it1 it2 w.
Proof.
  intros (Hw & Hnil & Hr) Hc. bool_to_prop. split; [done|]. split; [done|].
  destruct Hr as [|Hr]; [by left|]. right. split; [done|lia].
Qed.

Lemma loop2_loop3 f it1 it2 w :
  loop2_inv f it1 it2 w -> (item_num (first_branch w) <? item_num (second_branch w)) = false ->
  loop3_inv f it1 it2 w.
Proof. intros (Hw & Hle & _) Hc. bool_to_prop. split; [done|lia]. Qed.

Lemma trail_below f it0 l it : fork_ok f -> trail f it0 l it -> item_num it <= item_num it0.
Proof.
  intros Hf Ht. pose proof Ht as (_ & _ & r & Hr).
  destruct l as [|z l]; simplify_eq/=; [lia|].
  pose proof (trail_above f _ _ _ it0 Hf Ht ltac:(set_solver)). lia.
Qed.

Lemma walk_sound f fuel it1 it2 w :
  fork_ok f -> in_heap f it1 -> in_heap f it2 -> walk f fuel it1 it2 = Ok w ->
  loop3_inv f it1 it2 w /\ previous_id (first_branch w) = previous_id (second_branch w).
Proof.
  intros Hf H1 H2 (w1 & Hw1 & (w2 & Hw2 & Hw3)%bind_Ok)%bind_Ok.
  apply (while_inv _ _ (loop1_inv f it1 it2)) in Hw1 as [Hi1 Hc1];
    [|by intros; eapply loop1_step|by apply walk_start].
  apply (while_inv _ _ (loop2_inv f it1 it2)) in Hw2 as [Hi2 Hc2];
    [|by intros; eapply loop2_step|by apply loop1_loop2].
  apply (while_inv _ _ (loop3_inv f it1 it2)) in Hw3 as [Hi3 Hc3];
    [|by intros; eapply loop3_step|by apply loop2_loop3].
  split; [done|]. apply bool_decide_eq_false in Hc3. by apply dec_stable.
Qed.

Lemma step_first_fuel f w : step_first f w <> Err out_of_fuel.
Proof. unfold step_first. by destruct (locked_item f _). Qed.

Lemma step_second_fuel f w : step_second f w <> Err out_of_fuel.
Proof. unfold step_second. by destruct (locked_item f _). Qed.

Lemma step_both_fuel f w : step_both f w <> Err out_of_fuel.
Proof.
  unfold step_both. pose proof (step_first_fuel f w).
  destruct (step_first f w) as [w1|]; simpl; [apply step_second_fuel|congruence].
Qed.

Lemma walk_fuel f it1 it2 :
  fork_ok f -> in_heap f it1 -> in_heap f it2 ->
  walk f (S (Z.to_nat (item_num it1 + item_num it2))) it1 it2 <> Err out_of_fuel.
Proof.
  intros Hf H1 H2. unfold walk.
  pose proof (item_num_range it1). pose proof (item_num_range it2).
  assert (Hm : forall w, walking f it1 it2 w ->
            item_num (first_branch w) <= item_num it1 /\ item_num (second_branch w) <= item_num it2)
    by (intros w [Hw1 Hw2 _]; split; by eapply trail_below).
  set (fuel := S _).
  destruct (while _ (step_first f) _ _) as [w1|e] eqn:E1; simpl.
  2:{ intros [= ->]. revert E1.
      apply (while_fuel _ _ (loop1_inv f it1 it2) (fun w => Z.to_nat (item_num (first_branch w))));
        [by intros; eapply loop1_step|intros; apply step_first_fuel|by apply walk_start|].
      simpl. lia. }
  apply (while_inv _ _ (loop1_inv f it1 it2)) in E1 as [Hi1 Hc1];
    [|by intros; eapply loop1_step|by apply walk_start].
  apply loop1_loop2 in Hi1; [|done]. destruct (Hm w1) as [_ Hb]; [apply Hi1|].
  destruct (while _ (step_second f) _ _) as [w2|e] eqn:E2; simpl.
  2:{ intros [= ->]. revert E2.
      apply (while_fuel _ _ (loop2_inv f it1 it2) (fun w => Z.to_nat (item_num (second_branch w))));
        [by intros; eapply loop2_step|intros; apply step_second_fuel|done|].
      lia. }
  apply (while_inv _ _ (loop2_inv f it1 it2)) in E2 as [Hi2 Hc2];
    [|by intros; eapply loop2_step|done].
  apply loop2_loop3 in Hi2; [|done]. destruct (Hm w2) as [Ha _]; [apply Hi2|].
  apply (while_fuel _ _ (loop3_inv f it1 it2) (fun w => Z.to_nat (item_num (first_branch w))));
    [by intros; eapply loop3_step|intros; apply step_both_fuel|done|lia].
Qed.

(** ** Completeness: where a branch can still be *)

Lemma linked_in_heap f l it :
  fork_ok f -> in_heap f it -> linked f (it :: l) -> forall z, z ∈ it :: l -> in_heap f z.
Proof.
  intros Hf. revert it; induction l as [|y l IH]; intros it Hit Hl z Hz.
  - by apply list_elem_of_singleton in Hz as ->.
  - destruct Hl as [Hs Hl]. apply elem_of_cons in Hz as [->|Hz]; [done|].
    apply (IH y); [by eapply locked_item_spec|done|done].
Qed.

Lemma branch_position f r x p z rest :
  fork_ok f -> linked f (r ++ [x]) -> (forall y, y ∈ r ++ [x] -> in_heap f y) ->
  r ++ [x] = p ++ z :: rest ->
  (rest = [] /\ z = x /\ p = r) \/
  (z ∈ r /\ item_num x < item_num z /\
   exists z' rest', rest = z' :: rest' /\ locked_item f z = Some z').
Proof.
  intros Hf Hl Hin Heq. destruct rest as [|z' rest].
  - apply app_inj_tail in Heq as [-> ->]. by left.
  - right. assert (Hz : z ∈ r).
    { destruct (exists_last (l := z' :: rest)) as (rest' & y & E); [done|].
      rewrite E in Heq. rewrite app_comm_cons, app_assoc in Heq.
      apply app_inj_tail in Heq as [-> _]. set_solver. }
    split; [done|]. split; [by apply (linked_above f r x)|].
    exists z', rest. split; [done|]. rewrite Heq in Hl. by apply linked_mid in Hl.
Qed.

Section Complete.
Context (f : fdb) (Hf : fork_ok f) (r1 r2 : list item) (x y : item).
Context (Hl1 : linked f (r1 ++ [x])) (Hl2 : linked f (r2 ++ [y])).
Context (Hin1 : forall z, z ∈ r1 ++ [x] -> in_heap f z).
Context (Hin2 : forall z, z ∈ r2 ++ [y] -> in_heap f z).
Context (Hxy : item_num x = item_num y) (Hprev : previous_id x = previous_id y).
Context (Hapart : forall x' y', x' ∈ r1 -> y' ∈ r2 -> item_num x' = item_num y' ->
           previous_id x' <> previous_id y').

(** The walk has covered a prefix of each branch. *)
Definition on_branches (w : branches) : Prop :=
  (exists rest, r1 ++ [x] = result_first w ++ first_branch w :: rest) /\
  (exists rest, r2 ++ [y] = result_second w ++ second_branch w :: rest).

Lemma on_first w :
  on_branches w ->
  (first_branch w = x /\ result_first w = r1) \/
  (first_branch w ∈ r1 /\ item_num x < item_num (first_branch w) /\
   exists w', step_first f w = Ok w' /\ on_branches w' /\ second_branch w' = second_branch w).
Proof.
  intros [[rest Hr] H2].
  destruct (branch_position f _ _ _ _ _ Hf Hl1 Hin1 Hr)
    as [(_ & -> & ->)|(Hz & Hn & z' & rest' & -> & Hs)]; [by left|].
  right. split; [done|]. split; [done|]. unfold step_first. rewrite Hs. simpl.
  eexists; split; [done|]. split; [|done]. split; [|done]. simpl.
  exists rest'. by rewrite Hr, <-app_assoc.
Qed.

Lemma on_second w :
  on_branches w ->
  (second_branch w = y /\ result_second w = r2) \/
  (second_branch w ∈ r2 /\ item_num y < item_num (second_branch w) /\
   exists w', step_second f w = Ok w' /\ on_branches w' /\ first_branch w' = first_branch w).
Proof.
  intros [H1 [rest Hr]].
  destruct (branch_position f _ _ _ _ _ Hf Hl2 Hin2 Hr)
    as [(_ & -> & ->)|(Hz & Hn & z' & rest' & -> & Hs)]; [by left|].
  right. split; [done|]. split; [done|]. unfold step_second. rewrite Hs. simpl.
  eexists; split; [done|]. split; [|done]. split; [done|]. simpl.
  exists rest'. by rewrite Hr, <-app_assoc.
Qed.

Lemma loop1_complete it1 it2 fuel w :
  loop1_inv f it1 it2 w -> on_branches w -> (Z.to_nat (item_num (first_branch w)) <= fuel)%nat ->
  exists w', while (fun w => item_num (second_branch w) <? item_num (first_branch w))
               (step_first f) fuel w = Ok w' /\ loop2_inv f it1 it2 w' /\ on_branches w'.
Proof.
  intros Hi Ho Hfuel.
  destruct (while_total (fun w => item_num (second_branch w) <? item_num (first_branch w))
              (step_first f) (fun w => loop1_inv f it1 it2 w /\ on_branches w)
              (fun w => Z.to_nat (item_num (first_branch w)))) with (fuel := fuel) (s := w)
    as (w1 & Hw & [Hi1 Ho1] & Hc1); [|done..|].
  - clear w Hi Ho Hfuel. intros w [Hi Ho] Hc.
    destruct (on_first w Ho) as [[Hx _]|(_ & _ & w' & Hs & Ho' & _)].
    + bool_to_prop. rewrite Hx in *.
      destruct (on_second w Ho) as [[Hy _]|(_ & Hn & _)]; [rewrite Hy in *|]; lia.
    + destruct (loop1_step _ _ _ _ _ Hf Hi Hc Hs) as [Hi' Hd]. eauto.
  - exists w1. split; [done|]. split; [by apply loop1_loop2|done].
Qed.

Lemma loop2_complete it1 it2 fuel w :
  loop2_inv f it1 it2 w -> on_branches w -> (Z.to_nat (item_num (second_branch w)) <= fuel)%nat ->
  exists w', while (fun w => item_num (first_branch w) <? item_num (second_branch w))
               (step_second f) fuel w = Ok w' /\ loop3_inv f it1 it2 w' /\ on_branches w'.
Proof.
  intros Hi Ho Hfuel.
  destruct (while_total (fun w => item_num (first_branch w) <? item_num (second_branch w))
              (step_second f) (fun w => loop2_inv f it1 it2 w /\ on_branches w)
              (fun w => Z.to_nat (item_num (second_branch w)))) with (fuel := fuel) (s := w)
    as (w1 & Hw & [Hi1 Ho1] & Hc1); [|done..|].
  - clear w Hi Ho Hfuel. intros w [Hi Ho] Hc.
    destruct (on_second w Ho) as [[Hy _]|(_ & _ & w' & Hs & Ho' & _)].
    + bool_to_prop. rewrite Hy in *.
      destruct (on_first w Ho) as [[Hx _]|(_ & Hn & _)]; [rewrite Hx in *|]; lia.
    + destruct (loop2_step _ _ _ _ _ Hf Hi Hc Hs) as [Hi' Hd]. eauto.
  - exists w1. split; [done|]. split; [by apply loop2_loop3|done].
Qed.

(** At equal heights both sides can go on, or both are at their ends. *)
Lemma on_both w :
  on_branches w -> item_num (first_branch w) = item_num (second_branch w) ->
  (first_branch w = x /\ second_branch w = y /\ result_first w = r1 /\ result_second w = r2) \/
  (first_branch w ∈ r1 /\ second_branch w ∈ r2 /\
   exists w', step_both f w = Ok w' /\ on_branches w').
Proof.
  intros Ho Heq.
  destruct (on_first w Ho) as [[Hx Hr1]|(Hx & Hnx & w1 & Hs1 & Ho1 & Hsec)].
  - destruct (on_second w Ho) as [[Hy Hr2]|(_ & Hn & _)]; [by left|]. rewrite Hx in Heq. lia.
  - destruct (on_second w1 Ho1) as [[Hy _]|(Hy & Hn & w' & Hs & Ho' & _)];
      rewrite Hsec in Hy; [rewrite Hy in Heq; lia|].
    right. split; [done|]. split; [done|]. exists w'. unfold step_both. by rewrite Hs1.
Qed.

Lemma loop3_complete it1 it2 fuel w :
  loop3_inv f it1 it2 w -> on_branches w -> (Z.to_nat (item_num (first_branch w)) <= fuel)%nat ->
  exists w', while
      (fun w => bool_decide (previous_id (first_branch w) <> previous_id (second_branch w)))
      (step_both f) fuel w = Ok w' /\
    result_first w' ++ [first_branch w'] = r1 ++ [x] /\
    result_second w' ++ [second_branch w'] = r2 ++ [y].
Proof.
  intros Hi Ho Hfuel.
  destruct (while_total
              (fun w => bool_decide (previous_id (first_branch w) <> previous_id (second_branch w)))
              (step_both f) (fun w => loop3_inv f it1 it2 w /\ on_branches w)
              (fun w => Z.to_nat (item_num (first_branch w)))) with (fuel := fuel) (s := w)
    as (w3 & Hw & [Hi3 Ho3] & Hc3); [|done..|].
  - clear w Hi Ho Hfuel. intros w [Hi Ho] Hc.
    pose proof (proj1 (bool_decide_eq_true _) Hc) as Hne.
    destruct (on_both w Ho (proj2 Hi)) as [(Hx & Hy & _)|(_ & _ & w' & Hs & Ho')].
    + by rewrite Hx, Hy in Hne.
    + destruct (loop3_step _ _ _ _ _ Hf Hi Hc Hs) as [Hi' Hd]. eauto.
  - exists w3. split; [done|]. bool_to_prop. apply dec_stable in Hc3.
    destruct (on_both w3 Ho3 (proj2 Hi3)) as [(-> & -> & -> & ->)|(Hx & Hy & _)]; [done|].
    exfalso. by apply (Hapart _ _ Hx Hy (proj2 Hi3)).
Qed.

Lemma walk_complete it1 it2 :
  in_heap f it1 -> in_heap f it2 -> on_branches (Branches it1 it2 [] []) ->
  exists w, walk f (S (Z.to_nat (item_num it1 + item_num it2))) it1 it2 = Ok w /\
    result_first w ++ [first_branch w] = r1 ++ [x] /\
    result_second w ++ [second_branch w] = r2 ++ [y].
Proof.
  intros H1 H2 Hon. unfold walk.
  pose proof (item_num_range it1). pose proof (item_num_range it2).
  assert (Hm : forall w, walking f it1 it2 w ->
            item_num (first_branch w) <= item_num it1 /\ item_num (second_branch w) <= item_num it2)
    by (intros w [Hw1 Hw2 _]; split; by eapply trail_below).
  destruct (loop1_complete it1 it2 (S (Z.to_nat (item_num it1 + item_num it2)))
              (Branches it1 it2 [] [])) as (w1 & -> & Hi1 & Ho1);
    [by apply walk_start|done|simpl; lia|].
  cbn [mbind result_bind]. destruct (Hm w1) as [_ Hb]; [apply Hi1|].
  destruct (loop2_complete it1 it2 (S (Z.to_nat (item_num it1 + item_num it2))) w1)
    as (w2 & -> & Hi2 & Ho2); [done|done|lia|].
  cbn [mbind result_bind]. destruct (Hm w2) as [Ha _]; [apply Hi2|].
  apply (loop3_complete it1 it2); [done|done|lia].
Qed.
End Complete.

Lemma fetch_branch_from_walk f first second :
  fork_ok f ->
  fetch_branch_from f first second =
    match a ← _index f !! first; heap f !! a, a ← _index f !! second; heap f !! a with
    | Some it1, Some it2 =>
        w ← walk f (S (Z.to_nat (item_num it1 + item_num it2))) it1 it2;
        Ok (result_first w ++ [first_branch w], result_second w ++ [second_branch w])
    | None, _ => Err (assert_exception "first_branch_itr")
    | _, None => Err (assert_exception "second_branch_itr")
    end.
Proof.
  intros Hf. unfold fetch_branch_from, deref.
  destruct (_index f !! first) as [a1|] eqn:E1; simpl; [|done].
  destruct (ok_index f Hf _ _ E1) as (it1 & -> & _). simpl.
  destruct (_index f !! second) as [a2|] eqn:E2; simpl; [|done].
  by destruct (ok_index f Hf _ _ E2) as (it2 & -> & _).
Qed.

Lemma indexed_lookup f i it :
  indexed f i it <-> (a ← _index f !! i; heap f !! a) = Some it.
Proof. unfold indexed. destruct (_index f !! i); simpl; naive_solver. Qed.
End Branch.

(** ** Histories *)

Section Properties.
Context `{BL : BlockLib, !BlockLaws BL}.
Abbreviation block := (signed_block processed_transaction).
Abbreviation fdb := (fork_database block).
Implicit Types (f : fdb) (b : block).

(** One call of the class. *)
Inductive fork_step f : fdb -> Prop :=
  | step_reset : fork_step f (reset f)
  | step_start b : fork_step f (start_block f b)
  | step_push b o f' : push_block f b = Ok (o, f') -> fork_step f f'
  | step_pop f' : pop_block f = Ok f' -> fork_step f f'
  | step_max_size s : 0 <= s -> fork_step f (set_max_size f s)
  | step_remove i : fork_step f (remove f i)
  | step_set_head a it : heap f !! a = Some it -> fork_step f (set_head f (Some a)).

Inductive reachable : fdb -> Prop :=
  | reach_empty : reachable empty_fork_database
  | reach_step f f' : reachable f -> fork_step f f' -> reachable f'.

Lemma reachable_ok f : reachable f -> fork_ok f.
Proof.
  induction 1 as [|f f' _ IH Hs]; [apply fork_ok_empty|].
  inversion Hs; subst; eauto using fork_ok_reset, fork_ok_start_block, fork_ok_pop_block,
    fork_ok_set_max_size, fork_ok_remove.
  - by eapply push_block_post.
  - apply fork_ok_set_head; [done|]. intros x [= <-]. eauto.
Qed.

(** C30: every state the calls of the class can reach is well formed: the
    indexes hold live items under their own ids, numbers and ids agree with
    the blocks, a linked predecessor is the block named by [previous] and one
    number lower, nothing waits in the unlinked index, and the head exists. *)
Theorem fork_db_invariant f : reachable f -> fork_ok f.
Proof. apply reachable_ok. Qed.

(** C8: [push_block] accepts exactly the blocks in the cached range whose
    predecessor is known and not invalid.  The head it returns is the higher
    of the old head and the block; the block is known afterwards; indexed
    items within the range stay; and when the head moves up, nothing below
    the range remains. *)
Theorem push_block_spec f b :
  reachable f ->
  ((exists o f', push_block f b = Ok (o, f')) <-> acceptable f b) /\
  forall o f', push_block f b = Ok (o, f') ->
    exists h', o = Some h' /\ head_item f' = Some h' /\
      num h' = match head_item f with None => b_num b | Some h => Z.max (num h) (b_num b) end /\
      is_known_block f' (b_id b) = true /\
      (forall i x y, _index f !! i = Some x -> heap f !! x = Some y ->
         num h' - _max_size f <= num y -> _index f' !! i = Some x) /\
      (forall h, head_item f = Some h -> num h < b_num b ->
         forall i x y, _index f' !! i = Some x -> heap f' !! x = Some y ->
           b_num b - _max_size f <= num y).
Proof.
  intros Hr%reachable_ok. split; [by apply push_block_accepts|].
  intros o f' Hp. destruct (push_block_post f b o f' Hr Hp) as (_ & h' & ? & ? & _ & ?). eauto.
Qed.

(** C31: [fetch_branch_from] terminates and returns exactly the two branches
    from the given blocks down to the children of their most recent common
    ancestor; it fails exactly when the database does not hold such branches. *)
Theorem fetch_branch_from_spec f first second :
  reachable f ->
  (forall l1 l2, fetch_branch_from f first second = Ok (l1, l2) <->
                 fork_branches f first second l1 l2) /\
  fetch_branch_from f first second <> Err out_of_fuel.
Proof.
  intros Hf%reachable_ok. rewrite fetch_branch_from_walk by done. split.
  - intros l1 l2. split.
    + destruct (_ ≫= _) as [it1|] eqn:E1; [|done].
      destruct (a ← _index f !! second; heap f !! a) as [it2|] eqn:E2; [|done].
      apply indexed_lookup in E1 as H1. apply indexed_lookup in E2 as H2.
      intros (w & Hw & [= <- <-])%bind_Ok.
      apply walk_sound in Hw as [[Hwk Heq] Hprev]; [|done| |];
        [|destruct H1 as (a & _ & ?); by exists a|destruct H2 as (a & _ & ?); by exists a].
      destruct Hwk as [(Hl1 & _ & r1 & Hr1) (Hl2 & _ & r2 & Hr2) Hap].
      split; eauto 10.
    + intros [(it1 & r1 & E1 & H1) (it2 & r2 & E2 & H2) Hl1 Hl2 (q1 & x & q2 & y & -> & -> & Hxy & Hp & Hap)].
      assert (Hh1 : in_heap f it1) by (destruct H1 as (a & _ & ?); by exists a).
      assert (Hh2 : in_heap f it2) by (destruct H2 as (a & _ & ?); by exists a).
      apply indexed_lookup in H1 as ->. apply indexed_lookup in H2 as ->.
      destruct (walk_complete f Hf q1 q2 x y) with (it1 := it1) (it2 := it2)
        as (w & -> & Hw1 & Hw2); try done.
      * rewrite E1 in *. by apply linked_in_heap.
      * rewrite E2 in *. by apply linked_in_heap.
      * split; simpl; eauto.
      * simpl. by rewrite Hw1, Hw2.
  - destruct (_ ≫= _) as [it1|] eqn:E1; [|done].
    destruct (a ← _index f !! second; heap f !! a) as [it2|] eqn:E2; [|done].
    apply indexed_lookup in E1 as (a1 & _ & H1). apply indexed_lookup in E2 as (a2 & _ & H2).
    pose proof (walk_fuel f it1 it2 Hf ltac:(by exists a1) ltac:(by exists a2)) as Hfuel.
    destruct (walk _ _ _ _); simpl; congruence.
Qed.
End Properties.

(** ** Witnesses

    A chain 1 - 2 - 3 with a fork 2' - 3' above block 1. *)

Section Example.
#[local] Existing Instance block_ref.

Definition mk_block (prev : block_id_type) (tag : Z) : signed_block Z :=
  Signed_block (Signed_block_header (Block_header prev tag 0 0) 0) [].
Definition ex_id (b : signed_block Z) : block_id_type := block_id (BL := block_ref) (signed_header b).

Definition b1 := mk_block null_block_id 1.
Definition b2 := mk_block (ex_id b1) 2.
Definition b3 := mk_block (ex_id b2) 3.
Definition b2' := mk_block (ex_id b1) 4.
Definition b3' := mk_block (ex_id b2') 5.

Abbreviation ex_push := (push_block (BL := block_ref)).
Abbreviation ex_reachable := (reachable (BL := block_ref)).

Definition pushed (f : fork_database (signed_block Z)) (b : signed_block Z)
  : fork_database (signed_block Z) :=
  match ex_push f b with Ok (_, f) => f | Err _ => f end.

Lemma pushed_reachable f b :
  ex_reachable f -> result_ok (ex_push f b) = true -> ex_reachable (pushed f b).
Proof.
  intros Hr [[o f'] Hp]%result_ok_true. unfold pushed. rewrite Hp.
  eapply reach_step; [exact Hr|]. by eapply step_push.
Qed.

Definition ex_f1 := start_block (BL := block_ref) (empty_fork_database (BL := block_ref)) b1.
Definition ex_f2 := pushed ex_f1 b2.
Definition ex_f3 := pushed ex_f2 b3.
Definition ex_f4 := pushed ex_f3 b2'.
Definition ex_fork := pushed ex_f4 b3'.

Lemma ex_fork_reachable : ex_reachable ex_fork.
Proof.
  assert (H1 : ex_reachable ex_f1) by (eapply reach_step; [apply reach_empty|apply step_start]).
  assert (H2 : ex_reachable ex_f2) by (apply pushed_reachable; [done|by vm_compute]).
  assert (H3 : ex_reachable ex_f3) by (apply pushed_reachable; [done|by vm_compute]).
  assert (H4 : ex_reachable ex_f4) by (apply pushed_reachable; [done|by vm_compute]).
  apply pushed_reachable; [done|by vm_compute].
Qed.

Lemma fork_db_invariant_witness : fork_ok (BL := block_ref) ex_fork.
Proof. apply (@fork_db_invariant block_ref block_ref_laws), ex_fork_reachable. Defined.

Lemma ex_push_Ok f b : result_ok (ex_push f b) = true -> exists o f', ex_push f b = Ok (o, f').
Proof. intros [[o f'] H]%result_ok_true. eauto. Qed.

Lemma push_block_spec_witness :
  acceptable (BL := block_ref) ex_fork (mk_block (ex_id b3') 6) /\
  ~ acceptable (BL := block_ref) ex_fork (mk_block (Block_id 0 [1]) 6).
Proof.
  pose proof (fun b => proj1 (@push_block_spec block_ref block_ref_laws _ b ex_fork_reachable)) as H.
  split.
  - apply H, ex_push_Ok. by vm_compute.
  - intros (o & f' & Hp)%H.
    assert (Hf : result_ok (ex_push ex_fork (mk_block (Block_id 0 [1]) 6)) = false) by (by vm_compute).
    by rewrite Hp in Hf.
Defined.

Definition tags (l : list (fork_item (signed_block Z))) : list Z :=
  (fun it => timestamp (header (signed_header (data it)))) <$> l.

Definition ex_branches := fetch_branch_from (BL := block_ref) ex_fork (ex_id b3) (ex_id b3').

Lemma fetch_branch_from_spec_witness :
  exists l1 l2,
    fork_branches (BL := block_ref) ex_fork (ex_id b3) (ex_id b3') l1 l2 /\
    (tags l1, tags l2) = ([3; 2], [5; 4]).
Proof.
  assert (Hok : result_ok ex_branches = true) by (by vm_compute).
  apply result_ok_true in Hok as [[l1 l2] Hp]. exists l1, l2. split.
  - by apply (@fetch_branch_from_spec block_ref block_ref_laws _ _ _ ex_fork_reachable).
  - assert (Ht : match ex_branches with
                 | Ok p => (tags p.1, tags p.2)
                 | Err _ => ([], [])
                 end = ([3; 2], [5; 4])) by (by vm_compute).
    rewrite Hp in Ht. exact Ht.
Defined.
End Example.
