(* ===== verification/Vesting.v ===== *)
(** * Vesting balances

    Models [vesting_balance_object.cpp]: balances locked by the chain under a
    linear policy with a cliff, or under a coin-seconds policy, and what they
    allow to be withdrawn over time.

    The [assert]s of the code are kept (as in a debug build), so the theorems
    show that they cannot fail. *)

From S2P Require Import Prelude FcLib Asset.

Record linear_vesting_policy := Linear_vesting_policy {
  begin_timestamp : Z;
  vesting_cliff_seconds : Z;
  vesting_duration_seconds : Z;
  begin_balance : Z;
}.

Record cdd_vesting_policy := Cdd_vesting_policy {
  vesting_seconds : Z;
  coin_seconds_earned : Z;
  start_claim : Z;
  coin_seconds_earned_last_update : Z;
}.

Inductive vesting_policy :=
  | linear_policy (p : linear_vesting_policy)
  | cdd_policy (p : cdd_vesting_policy).

Record vesting_balance_object := Vesting_balance_object {
  vbo_owner : N;
  vbo_balance : asset;
  policy : vesting_policy;
}.

Record vesting_policy_context := Vesting_policy_context {
  ctx_balance : asset;
  ctx_now : Z;
  ctx_amount : asset;
}.

#[export] Instance linear_policy_eq_dec : EqDecision linear_vesting_policy.
Proof. solve_decision. Defined.
#[export] Instance cdd_policy_eq_dec : EqDecision cdd_vesting_policy.
Proof. solve_decision. Defined.
#[export] Instance vesting_policy_eq_dec : EqDecision vesting_policy.
Proof. solve_decision. Defined.

#[export] Instance settable_cdd : Settable cdd_vesting_policy :=
  fun p => Cdd_vesting_policy (vesting_seconds p) (coin_seconds_earned p) (start_claim p)
             (coin_seconds_earned_last_update p).
#[export] Instance settable_vbo : Settable vesting_balance_object :=
  fun v => Vesting_balance_object (vbo_owner v) (vbo_balance v) (policy v).

Section Operations.
Context `{FC : FcLib}.
Implicit Types (ctx : vesting_policy_context) (v : vesting_balance_object) (now : Z) (a : asset).

Definition sum_below_max_shares (a b : asset) : result bool :=
  if (amount a <=? GRAPHENE_MAX_SHARE_SUPPLY) && (amount b <=? GRAPHENE_MAX_SHARE_SUPPLY) then
    s ← safe_add fc_safe (amount a) (amount b);
    Ok (s <=? GRAPHENE_MAX_SHARE_SUPPLY)
  else Ok false.

(** ** [linear_vesting_policy] *)

Definition linear_get_allowed_withdraw (p : linear_vesting_policy) ctx : result asset :=
  let id := asset_id (ctx_balance ctx) in
  if begin_timestamp p <? ctx_now ctx then
    let elapsed_seconds := ctx_now ctx - begin_timestamp p in
    _ ← C_ASSERT (0 <? elapsed_seconds) "elapsed_seconds > 0";
    if vesting_cliff_seconds p <=? elapsed_seconds then
      total_vested ←
        (if elapsed_seconds <? vesting_duration_seconds p then
           u128_to_uint64 fc_u128
             (u128_div fc_u128
                (u128_mul fc_u128 (u128_of fc_u128 (begin_balance p)) (u128_of fc_u128 elapsed_seconds))
                (u128_of fc_u128 (vesting_duration_seconds p)))
         else Ok (begin_balance p));
      _ ← C_ASSERT (0 <=? total_vested) "total_vested >= 0";
      withdrawn_already ← safe_sub fc_safe (begin_balance p) (amount (ctx_balance ctx));
      _ ← C_ASSERT (0 <=? withdrawn_already) "withdrawn_already >= 0";
      allowed_withdraw ← safe_sub fc_safe total_vested withdrawn_already;
      _ ← C_ASSERT (0 <=? allowed_withdraw) "allowed_withdraw >= 0";
      Ok (Asset allowed_withdraw id)
    else Ok (Asset 0 id)
  else Ok (Asset 0 id).

Definition linear_is_deposit_allowed (p : linear_vesting_policy) ctx : result bool :=
  if (asset_id (ctx_amount ctx) =? asset_id (ctx_balance ctx))%N then
    sum_below_max_shares (ctx_amount ctx) (ctx_balance ctx)
  else Ok false.

Definition linear_is_withdraw_allowed (p : linear_vesting_policy) ctx : result bool :=
  if (asset_id (ctx_amount ctx) =? asset_id (ctx_balance ctx))%N then
    w ← linear_get_allowed_withdraw p ctx; asset_leb (ctx_amount ctx) w
  else Ok false.

(** ** [cdd_vesting_policy] *)

(** [std::max( vesting_seconds, 1u )] *)
Definition seconds_or_one (p : cdd_vesting_policy) : Z := Z.max (vesting_seconds p) 1.

Definition compute_coin_seconds_earned (p : cdd_vesting_policy) ctx : result Z :=
  _ ← C_ASSERT (coin_seconds_earned_last_update p <=? ctx_now ctx)
        "ctx.now >= coin_seconds_earned_last_update";
  let delta_seconds := ctx_now ctx - coin_seconds_earned_last_update p in
  _ ← C_ASSERT (0 <=? delta_seconds) "delta_seconds >= 0";
  let delta_coin_seconds :=
    u128_mul fc_u128 (u128_of fc_u128 (amount (ctx_balance ctx))) (u128_of fc_u128 delta_seconds) in
  let coin_seconds_earned_cap :=
    u128_mul fc_u128 (u128_of fc_u128 (amount (ctx_balance ctx))) (u128_of fc_u128 (seconds_or_one p)) in
  Ok (Z.min (u128_add fc_u128 (coin_seconds_earned p) delta_coin_seconds) coin_seconds_earned_cap).

Definition update_coin_seconds_earned (p : cdd_vesting_policy) ctx : result cdd_vesting_policy :=
  cs ← compute_coin_seconds_earned p ctx;
  Ok (p <| coin_seconds_earned := cs |> <| coin_seconds_earned_last_update := ctx_now ctx |>).

Definition cdd_get_allowed_withdraw (p : cdd_vesting_policy) ctx : result asset :=
  let id := asset_id (ctx_balance ctx) in
  if ctx_now ctx <=? start_claim p then Ok (Asset 0 id)
  else
    cs_earned ← compute_coin_seconds_earned p ctx;
    let withdraw_available :=
      u128_div fc_u128 cs_earned (u128_of fc_u128 (seconds_or_one p)) in
    _ ← C_ASSERT (withdraw_available <=? amount (ctx_balance ctx))
          "withdraw_available <= ctx.balance.amount.value";
    w ← u128_to_uint64 fc_u128 withdraw_available;
    Ok (Asset w id).

Definition cdd_on_deposit (p : cdd_vesting_policy) ctx : result cdd_vesting_policy :=
  update_coin_seconds_earned p ctx.

(** [ctx.amount.amount.value * std::max( vesting_seconds, 1u )] is a product of
    64-bit integers. *)
Definition mul_int64 (x y : Z) : result Z :=
  if decide (in_int64 (x * y)) then Ok (x * y)
  else Err (undefined_behaviour "signed overflow").

Definition cdd_on_deposit_vested (p : cdd_vesting_policy) ctx : result cdd_vesting_policy :=
  p ← cdd_on_deposit p ctx;
  m ← mul_int64 (amount (ctx_amount ctx)) (seconds_or_one p);
  Ok (p <| coin_seconds_earned := u128_add fc_u128 (coin_seconds_earned p) (u128_of fc_u128 m) |>).

Definition cdd_on_withdraw (p : cdd_vesting_policy) ctx : result cdd_vesting_policy :=
  p ← update_coin_seconds_earned p ctx;
  let coin_seconds_needed :=
    u128_mul fc_u128 (u128_of fc_u128 (amount (ctx_amount ctx))) (u128_of fc_u128 (seconds_or_one p)) in
  _ ← C_ASSERT (coin_seconds_needed <=? coin_seconds_earned p)
        "coin_seconds_needed <= coin_seconds_earned";
  Ok (p <| coin_seconds_earned := u128_sub fc_u128 (coin_seconds_earned p) coin_seconds_needed |>).

Definition cdd_is_deposit_allowed (p : cdd_vesting_policy) ctx : result bool :=
  if (asset_id (ctx_amount ctx) =? asset_id (ctx_balance ctx))%N then
    sum_below_max_shares (ctx_amount ctx) (ctx_balance ctx)
  else Ok false.

Definition cdd_is_deposit_vested_allowed (p : cdd_vesting_policy) ctx : result bool :=
  cdd_is_deposit_allowed p ctx.

Definition cdd_is_withdraw_allowed (p : cdd_vesting_policy) ctx : result bool :=
  w ← cdd_get_allowed_withdraw p ctx; asset_leb (ctx_amount ctx) w.

(** ** The visitors: dispatch on the policy *)

Definition on_deposit (p : vesting_policy) ctx : result vesting_policy :=
  match p with
  | linear_policy p => Ok (linear_policy p)
  | cdd_policy p => p ← cdd_on_deposit p ctx; Ok (cdd_policy p)
  end.

Definition on_deposit_vested (p : vesting_policy) ctx : result vesting_policy :=
  match p with
  | linear_policy p =>
      Err (assert_exception "May not deposit vested into a linear vesting balance.")
  | cdd_policy p => p ← cdd_on_deposit_vested p ctx; Ok (cdd_policy p)
  end.

Definition on_withdraw (p : vesting_policy) ctx : result vesting_policy :=
  match p with
  | linear_policy p => Ok (linear_policy p)
  | cdd_policy p => p ← cdd_on_withdraw p ctx; Ok (cdd_policy p)
  end.

(** ** [vesting_balance_object] *)

Definition is_deposit_allowed v now a : result bool :=
  let ctx := Vesting_policy_context (vbo_balance v) now a in
  match policy v with
  | linear_policy p => linear_is_deposit_allowed p ctx
  | cdd_policy p => cdd_is_deposit_allowed p ctx
  end.

Definition is_deposit_vested_allowed v now a : result bool :=
  let ctx := Vesting_policy_context (vbo_balance v) now a in
  match policy v with
  | linear_policy _ => Ok false
  | cdd_policy p => cdd_is_deposit_vested_allowed p ctx
  end.

Definition is_withdraw_allowed v now a : result bool :=
  let ctx := Vesting_policy_context (vbo_balance v) now a in
  r ← match policy v with
      | linear_policy p => linear_is_withdraw_allowed p ctx
      | cdd_policy p => cdd_is_withdraw_allowed p ctx
      end;
  _ ← (le ← asset_leb a (vbo_balance v);
       C_ASSERT (le || negb r) "(amount <= balance) || (!result)");
  Ok r.

Definition deposit v now a : result vesting_balance_object :=
  p ← on_deposit (policy v) (Vesting_policy_context (vbo_balance v) now a);
  b ← asset_add (vbo_balance v) a;
  Ok (v <| policy := p |> <| vbo_balance := b |>).

Definition deposit_vested v now a : result vesting_balance_object :=
  p ← on_deposit_vested (policy v) (Vesting_policy_context (vbo_balance v) now a);
  b ← asset_add (vbo_balance v) a;
  Ok (v <| policy := p |> <| vbo_balance := b |>).

Definition withdraw v now a : result vesting_balance_object :=
  _ ← (le ← asset_leb a (vbo_balance v); C_ASSERT le "amount <= balance");
  p ← on_withdraw (policy v) (Vesting_policy_context (vbo_balance v) now a);
  b ← asset_sub (vbo_balance v) a;
  Ok (v <| policy := p |> <| vbo_balance := b |>).

Definition get_allowed_withdraw v now : result asset :=
  let ctx := Vesting_policy_context (vbo_balance v) now null_asset in
  match policy v with
  | linear_policy p => linear_get_allowed_withdraw p ctx
  | cdd_policy p => cdd_get_allowed_withdraw p ctx
  end.
End Operations.

(** ** The amount a balance allows, in exact arithmetic *)

Definition linear_vested (p : linear_vesting_policy) (now : Z) : Z :=
  let elapsed := now - begin_timestamp p in
  if (0 <? elapsed) && (vesting_cliff_seconds p <=? elapsed) then
    if elapsed <? vesting_duration_seconds p
    then begin_balance p * elapsed / vesting_duration_seconds p
    else begin_balance p
  else 0.

Definition cdd_earned (p : cdd_vesting_policy) (bal now : Z) : Z :=
  Z.min (coin_seconds_earned p + bal * (now - coin_seconds_earned_last_update p))
        (bal * seconds_or_one p).

Definition allowed (v : vesting_balance_object) (now : Z) : Z :=
  let bal := amount (vbo_balance v) in
  match policy v with
  | linear_policy p =>
      if (0 <? now - begin_timestamp p) && (vesting_cliff_seconds p <=? now - begin_timestamp p)
      then linear_vested p now - (begin_balance p - bal)
      else 0
  | cdd_policy p =>
      if now <=? start_claim p then 0 else cdd_earned p bal now / seconds_or_one p
  end.

Definition in_u32 (z : Z) : Prop := 0 <= z < 2 ^ 32.

(** A vesting balance as the chain keeps it, at time [now]. *)
Record vbo_ok (now : Z) (v : vesting_balance_object) : Prop := {
  vbo_ok_now : in_u32 now;
  vbo_ok_balance : 0 <= amount (vbo_balance v) <= INT64_MAX;
  vbo_ok_policy :
    match policy v with
    | linear_policy p =>
        0 <= begin_balance p <= INT64_MAX /\ amount (vbo_balance v) <= begin_balance p /\
        in_u32 (begin_timestamp p) /\ in_u32 (vesting_cliff_seconds p) /\
        in_u32 (vesting_duration_seconds p) /\
        begin_balance p - amount (vbo_balance v) <= linear_vested p now
    | cdd_policy p =>
        in_u32 (vesting_seconds p) /\ in_u32 (start_claim p) /\
        0 <= coin_seconds_earned_last_update p <= now /\
        0 <= coin_seconds_earned p <= amount (vbo_balance v) * seconds_or_one p
    end;
}.

Section Lemmas.
Context `{FC : FcLib, !FcLaws FC}.
Implicit Types (v : vesting_balance_object) (now : Z).

Lemma seconds_or_one_range (p : cdd_vesting_policy) :
  in_u32 (vesting_seconds p) -> 1 <= seconds_or_one p < 2 ^ 32.
Proof. unfold in_u32, seconds_or_one. lia. Qed.

Lemma linear_vested_range p now :
  0 <= begin_balance p -> in_u32 (vesting_duration_seconds p) ->
  0 <= linear_vested p now <= begin_balance p.
Proof.
  intros Hb Hd. unfold linear_vested. case_match eqn:E; [|lia]. bool_to_prop.
  case_match; bool_to_prop; [|lia]. apply scale_down_bounds; lia.
Qed.

Lemma linear_vested_mono p now now' :
  0 <= begin_balance p -> in_u32 (vesting_duration_seconds p) -> now <= now' ->
  linear_vested p now <= linear_vested p now'.
Proof.
  intros Hb Hd Hn. pose proof (linear_vested_range p now' Hb Hd) as Hr.
  destruct (decide (0 < now - begin_timestamp p /\
                    vesting_cliff_seconds p <= now - begin_timestamp p)) as [[H1 H2]|H].
  - unfold linear_vested in *.
    replace (0 <? now - begin_timestamp p) with true by (symmetry; apply Z.ltb_lt; lia).
    replace (0 <? now' - begin_timestamp p) with true in * by (symmetry; apply Z.ltb_lt; lia).
    replace (vesting_cliff_seconds p <=? now - begin_timestamp p) with true
      by (symmetry; apply Z.leb_le; lia).
    replace (vesting_cliff_seconds p <=? now' - begin_timestamp p) with true in *
      by (symmetry; apply Z.leb_le; lia). cbn [andb] in *.
    destruct (Z.ltb_spec (now' - begin_timestamp p) (vesting_duration_seconds p)).
    + destruct (Z.ltb_spec (now - begin_timestamp p) (vesting_duration_seconds p)); [|lia].
      apply Z.div_le_mono; nia.
    + case_match; bool_to_prop; [|lia].
      apply (scale_down_bounds (begin_balance p)); lia.
  - replace (linear_vested p now) with 0; [lia|].
    unfold linear_vested. case_match eqn:E; [|done]. bool_to_prop. lia.
Qed.

Lemma vbo_ok_mono now now' v : vbo_ok now v -> now <= now' -> in_u32 now' -> vbo_ok now' v.
Proof.
  intros [H1 H2 H3] Hn Hn'. split; [done..|]. destruct (policy v) as [p|p].
  - destruct H3 as (Hb & ? & ? & ? & Hd & Hw). repeat (split; [done|]).
    pose proof (linear_vested_mono p now now' (proj1 Hb) Hd Hn). lia.
  - destruct H3 as (? & ? & ? & ?). repeat (split; [done|]). split; [lia|done].
Qed.

Lemma cdd_earned_range p bal now :
  0 <= bal -> in_u32 (vesting_seconds p) -> coin_seconds_earned_last_update p <= now ->
  0 <= coin_seconds_earned p ->
  0 <= cdd_earned p bal now <= bal * seconds_or_one p.
Proof.
  intros Hb Hv Hl Hc. pose proof (seconds_or_one_range p Hv). unfold cdd_earned.
  assert (0 <= bal * (now - coin_seconds_earned_last_update p)) by nia.
  assert (0 <= bal * seconds_or_one p) by nia. lia.
Qed.

Lemma allowed_range now v : vbo_ok now v -> 0 <= allowed v now <= amount (vbo_balance v).
Proof.
  intros [H1 H2 H3]. unfold allowed. destruct (policy v) as [p|p].
  - destruct H3 as (Hb & Hle & _ & _ & Hd & Hw).
    pose proof (linear_vested_range p now (proj1 Hb) Hd). case_match; lia.
  - destruct H3 as (Hv & _ & Hl & Hc). case_match; [lia|].
    pose proof (cdd_earned_range p (amount (vbo_balance v)) now (proj1 H2) Hv (proj2 Hl) (proj1 Hc)) as Hr.
    pose proof (seconds_or_one_range p Hv).
    split; [apply Z.div_pos; lia|]. apply Z.div_le_upper_bound; lia.
Qed.

Lemma linear_get_allowed_ok now v p a :
  vbo_ok now v -> policy v = linear_policy p ->
  linear_get_allowed_withdraw p (Vesting_policy_context (vbo_balance v) now a)
  = Ok (Asset (allowed v now) (asset_id (vbo_balance v))).
Proof.
  intros Hok Hp. pose proof (allowed_range now v Hok) as Hal. destruct Hok as [H1 H2 H3].
  unfold allowed in *. rewrite Hp in *.
  destruct H3 as (Hb & Hle & Hbt & Hcl & Hd & Hw).
  pose proof (linear_vested_range p now (proj1 Hb) Hd) as Hr.
  unfold linear_get_allowed_withdraw, in_u32 in *; simpl.
  replace (0 <? now - begin_timestamp p) with (begin_timestamp p <? now) in *
    by (destruct (Z.ltb_spec (begin_timestamp p) now), (Z.ltb_spec 0 (now - begin_timestamp p)); lia).
  destruct (Z.ltb_spec (begin_timestamp p) now) as [Ht|Ht]; cbn [andb] in *; [|done].
  cbn [guard_or mbind result_bind].
  destruct (Z.leb_spec (vesting_cliff_seconds p) (now - begin_timestamp p)) as [Hc|Hc]; [|done].
  match goal with |- (?r ≫= _) = _ => assert (r = Ok (linear_vested p now)) as -> end.
  { unfold linear_vested.
    destruct (Z.ltb_spec 0 (now - begin_timestamp p)); [|lia].
    destruct (Z.leb_spec (vesting_cliff_seconds p) (now - begin_timestamp p)); [|lia].
    cbn [andb].
    case_match; bool_to_prop; [|done].
    rewrite (u128_cut fc_u128_laws); [done|blia|lia|lia|blia]. }
  cbn [mbind result_bind]. rewrite guard_or_true by (apply Z.leb_le; lia). cbn [mbind result_bind].
  rewrite (safe_sub_ok _ fc_safe_laws) by blia. cbn [mbind result_bind].
  rewrite guard_or_true by (apply Z.leb_le; lia). cbn [mbind result_bind].
  rewrite (safe_sub_ok _ fc_safe_laws) by blia. cbn [mbind result_bind].
  rewrite guard_or_true by (apply Z.leb_le; lia). done.
Qed.

Lemma compute_coin_seconds_ok now v p a :
  vbo_ok now v -> policy v = cdd_policy p ->
  compute_coin_seconds_earned p (Vesting_policy_context (vbo_balance v) now a)
  = Ok (cdd_earned p (amount (vbo_balance v)) now).
Proof.
  intros [H1 H2 H3] Hp. rewrite Hp in H3. destruct H3 as (Hv & Hs & Hl & Hc).
  pose proof (seconds_or_one_range p Hv). unfold in_u32 in *.
  unfold compute_coin_seconds_earned; simpl.
  rewrite guard_or_true by (apply Z.leb_le; lia). cbn [mbind result_bind].
  rewrite guard_or_true by (apply Z.leb_le; lia). cbn [mbind result_bind].
  rewrite !(u128_of_ok _ fc_u128_laws) by blia.
  rewrite !(u128_mul_ok _ fc_u128_laws) by (unfold_bounds; nia).
  rewrite (u128_add_ok _ fc_u128_laws) by (unfold_bounds; nia). done.
Qed.

Lemma cdd_get_allowed_ok now v p a :
  vbo_ok now v -> policy v = cdd_policy p ->
  cdd_get_allowed_withdraw p (Vesting_policy_context (vbo_balance v) now a)
  = Ok (Asset (allowed v now) (asset_id (vbo_balance v))).
Proof.
  intros Hok Hp. pose proof (allowed_range now v Hok) as Hal.
  pose proof (compute_coin_seconds_ok now v p a Hok Hp) as Hcs.
  destruct Hok as [H1 H2 H3]. unfold allowed in *. rewrite Hp in *.
  destruct H3 as (Hv & Hs & Hl & Hc). unfold cdd_get_allowed_withdraw. simpl.
  destruct (now <=? start_claim p); [done|].
  rewrite Hcs. cbn [mbind result_bind]. pose proof (seconds_or_one_range p Hv).
  pose proof (cdd_earned_range p (amount (vbo_balance v)) now (proj1 H2) Hv (proj2 Hl) (proj1 Hc)).
  rewrite (u128_of_ok _ fc_u128_laws) by blia.
  rewrite (u128_div_ok _ fc_u128_laws) by (unfold_bounds; nia).
  rewrite guard_or_true by (apply Z.leb_le; lia). cbn [mbind result_bind].
  rewrite (u128_to_uint64_ok _ fc_u128_laws) by blia. done.
Qed.

Lemma get_allowed_withdraw_ok now v :
  vbo_ok now v ->
  get_allowed_withdraw v now = Ok (Asset (allowed v now) (asset_id (vbo_balance v))).
Proof.
  intros Hok. unfold get_allowed_withdraw. destruct (policy v) eqn:Hp;
    eauto using linear_get_allowed_ok, cdd_get_allowed_ok.
Qed.

Lemma asset_leb_same x y id : asset_leb (Asset x id) (Asset y id) = Ok (x <=? y).
Proof.
  unfold asset_leb, asset_ltb, asset_eqb. simpl. rewrite N.eqb_refl. simpl.
  destruct (Z.eqb_spec x y), (Z.ltb_spec x y), (Z.leb_spec x y); simpl; try lia; done.
Qed.

Lemma is_withdraw_allowed_ok now v x :
  vbo_ok now v ->
  is_withdraw_allowed v now (Asset x (asset_id (vbo_balance v))) = Ok (x <=? allowed v now).
Proof.
  intros Hok. pose proof (allowed_range now v Hok) as Hal. unfold is_withdraw_allowed.
  match goal with |- (?r ≫= _) = _ => assert (r = Ok (x <=? allowed v now)) as -> end.
  { destruct (policy v) eqn:Hp; unfold linear_is_withdraw_allowed, cdd_is_withdraw_allowed.
    - cbn [ctx_amount ctx_balance asset_id]. rewrite N.eqb_refl.
      rewrite (linear_get_allowed_ok now v p) by done. apply asset_leb_same.
    - rewrite (cdd_get_allowed_ok now v p) by done. apply asset_leb_same. }
  cbn [mbind result_bind]. destruct (vbo_balance v) as [b id] eqn:Hb. cbn [asset_id amount] in *.
  rewrite asset_leb_same. cbn [mbind result_bind]. rewrite guard_or_true; [done|].
  destruct (Z.leb_spec x b), (Z.leb_spec x (allowed v now)); simpl; lia.
Qed.

Lemma asset_add_same x y id :
  in_int64 (x + y) -> asset_add (Asset x id) (Asset y id) = Ok (Asset (x + y) id).
Proof.
  intros H. unfold asset_add. simpl. rewrite N.eqb_refl. simpl.
  by rewrite (safe_add_ok _ fc_safe_laws).
Qed.

Lemma asset_sub_same x y id :
  in_int64 (x - y) -> asset_sub (Asset x id) (Asset y id) = Ok (Asset (x - y) id).
Proof.
  intros H. unfold asset_sub. simpl. rewrite N.eqb_refl. simpl.
  by rewrite (safe_sub_ok _ fc_safe_laws).
Qed.

(** Withdrawing an allowed amount from a coin-seconds balance. *)
Lemma cdd_withdraw_ok now v p x :
  vbo_ok now v -> policy v = cdd_policy p -> 0 <= x <= allowed v now ->
  exists p', cdd_on_withdraw p (Vesting_policy_context (vbo_balance v) now
                                 (Asset x (asset_id (vbo_balance v)))) = Ok p' /\
    p' = p <| coin_seconds_earned := cdd_earned p (amount (vbo_balance v)) now - x * seconds_or_one p |>
           <| coin_seconds_earned_last_update := now |> /\
    x * seconds_or_one p <= cdd_earned p (amount (vbo_balance v)) now.
Proof.
  intros Hok Hp Hx. pose proof (compute_coin_seconds_ok now v p (Asset x (asset_id (vbo_balance v))) Hok Hp) as Hcs.
  pose proof (allowed_range now v Hok) as Hal.
  destruct Hok as [H1 H2 H3]. rewrite Hp in H3. destruct H3 as (Hv & Hs & Hl & Hc).
  pose proof (seconds_or_one_range p Hv).
  pose proof (cdd_earned_range p (amount (vbo_balance v)) now (proj1 H2) Hv (proj2 Hl) (proj1 Hc)) as Her.
  assert (Hneed : x * seconds_or_one p <= cdd_earned p (amount (vbo_balance v)) now).
  { unfold allowed in Hx. rewrite Hp in Hx. case_match; [nia|].
    pose proof (Z.mul_div_le (cdd_earned p (amount (vbo_balance v)) now) (seconds_or_one p)). nia. }
  unfold cdd_on_withdraw, update_coin_seconds_earned. rewrite Hcs. cbn -[Z.mul Z.sub].
  change (seconds_or_one (Cdd_vesting_policy _ _ _ _)) with (seconds_or_one p).
  rewrite !(u128_of_ok _ fc_u128_laws) by blia.
  rewrite (u128_mul_ok _ fc_u128_laws) by (unfold_bounds; nia).
  rewrite guard_or_true by (apply Z.leb_le; lia). cbn [mbind result_bind].
  rewrite (u128_sub_ok _ fc_u128_laws) by (unfold_bounds; nia). eauto.
Qed.

Lemma withdraw_ok now v x :
  vbo_ok now v -> 0 <= x <= allowed v now ->
  exists v', withdraw v now (Asset x (asset_id (vbo_balance v))) = Ok v' /\ vbo_ok now v' /\
    vbo_owner v' = vbo_owner v /\
    vbo_balance v' = Asset (amount (vbo_balance v) - x) (asset_id (vbo_balance v)) /\
    allowed v' now = allowed v now - x.
Proof.
  intros Hok Hx. pose proof (allowed_range now v Hok) as Hal. unfold withdraw.
  destruct (vbo_balance v) as [b id] eqn:Hb. cbn [asset_id amount] in *.
  assert (Hbr : 0 <= b <= INT64_MAX) by (pose proof (vbo_ok_balance now v Hok) as Hr; by rewrite Hb in Hr).
  rewrite asset_leb_same. cbn [mbind result_bind].
  rewrite guard_or_true by (apply Z.leb_le; lia). cbn [mbind result_bind].
  rewrite asset_sub_same by blia.
  destruct (policy v) as [p|p] eqn:Hp; cbn [on_withdraw mbind result_bind].
  - eexists; split; [done|]. split; [|split; [done|split; [done|]]].
    + destruct Hok as [H1 H2 H3]. rewrite Hp, Hb in *. cbn [amount] in *.
      destruct H3 as (Hbb & Hle & Hbt & Hcl & Hd & Hw).
      split; simpl; [done|lia|]. repeat (split; [done || lia|]).
      unfold allowed in *. rewrite Hp, Hb in *. cbn [amount] in *. case_match; lia.
    + unfold allowed in *. simpl. rewrite Hp, Hb in *. cbn [amount] in *. case_match; lia.
  - destruct (cdd_withdraw_ok now v p x Hok Hp) as (p' & Hw & -> & Hneed); [done|].
    rewrite Hb in Hw, Hneed. cbn [amount asset_id] in *. rewrite Hw. cbn [mbind result_bind].
    eexists; split; [done|]. destruct Hok as [H1 H2 H3]. rewrite Hp, Hb in *. cbn [amount] in *.
    destruct H3 as (Hv & Hs & Hl & Hc). pose proof (seconds_or_one_range p Hv) as Hone.
    pose proof (cdd_earned_range p b now (proj1 H2) Hv (proj2 Hl) (proj1 Hc)) as Her.
    split; [|split; [done|split; [done|]]].
    + split; simpl; [done|lia|]. change (seconds_or_one (Cdd_vesting_policy _ _ _ _)) with (seconds_or_one p).
      repeat (split; [done || lia|]). nia.
    + unfold allowed in *. simpl. rewrite Hp, Hb in *. cbn [amount] in *.
      destruct (now <=? start_claim p); [lia|]. unfold cdd_earned at 1. simpl.
      change (seconds_or_one (Cdd_vesting_policy _ _ _ _)) with (seconds_or_one p).
      rewrite Z.sub_diag, Z.mul_0_r, Z.add_0_r, Z.min_l by nia.
      replace (cdd_earned p b now - x * seconds_or_one p)
        with (cdd_earned p b now + (- x) * seconds_or_one p) by lia.
      rewrite Z.div_add by lia. lia.
Qed.

(** Coin-seconds after a deposit of [x]; [vested] tells whether it matures at once. *)
Definition deposited (v : vesting_balance_object) (p : cdd_vesting_policy) (now x : Z)
    (vested : bool) : vesting_balance_object :=
  Vesting_balance_object (vbo_owner v)
    (Asset (amount (vbo_balance v) + x) (asset_id (vbo_balance v)))
    (cdd_policy (Cdd_vesting_policy (vesting_seconds p)
       (cdd_earned p (amount (vbo_balance v)) now + (if vested then x * seconds_or_one p else 0))
       (start_claim p) now)).

Lemma deposited_ok now v p x vested :
  vbo_ok now v -> policy v = cdd_policy p -> 0 <= x ->
  amount (vbo_balance v) + x <= INT64_MAX ->
  vbo_ok now (deposited v p now x vested) /\
  allowed (deposited v p now x vested) now
  = allowed v now + (if vested && (start_claim p <? now) then x else 0).
Proof.
  intros [H1 H2 H3] Hp Hx Hmax. rewrite Hp in H3. destruct H3 as (Hv & Hs & Hl & Hc).
  pose proof (seconds_or_one_range p Hv) as Hone.
  pose proof (cdd_earned_range p (amount (vbo_balance v)) now (proj1 H2) Hv (proj2 Hl) (proj1 Hc)) as Her.
  set (e := cdd_earned p (amount (vbo_balance v)) now) in *.
  set (e' := e + (if vested then x * seconds_or_one p else 0)).
  assert (He' : 0 <= e' <= (amount (vbo_balance v) + x) * seconds_or_one p)
    by (unfold e'; destruct vested; nia).
  split.
  - split; simpl; [done|lia|]. change (seconds_or_one (Cdd_vesting_policy _ _ _ _)) with (seconds_or_one p).
    fold e e'. repeat (split; [done || (unfold in_u32 in H1; lia)|]). lia.
  - unfold allowed at 1. simpl. unfold allowed. rewrite Hp. fold e.
    destruct (Z.leb_spec now (start_claim p)), (Z.ltb_spec (start_claim p) now); try lia;
      [by rewrite andb_false_r|].
    unfold cdd_earned. simpl. fold e e'.
    change (seconds_or_one (Cdd_vesting_policy _ _ _ _)) with (seconds_or_one p).
    rewrite Z.sub_diag, Z.mul_0_r, Z.add_0_r, Z.min_l by lia.
    unfold e'. destruct vested; cbn [andb]; [by rewrite Z.div_add by lia|].
    by rewrite !Z.add_0_r.
Qed.

Lemma deposit_cdd now v p x :
  vbo_ok now v -> policy v = cdd_policy p -> 0 <= x ->
  amount (vbo_balance v) + x <= INT64_MAX ->
  deposit v now (Asset x (asset_id (vbo_balance v))) = Ok (deposited v p now x false).
Proof.
  intros Hok Hp Hx Hmax. pose proof (vbo_ok_balance now v Hok) as Hb.
  unfold deposit, on_deposit, cdd_on_deposit, update_coin_seconds_earned. rewrite Hp.
  rewrite (compute_coin_seconds_ok now v p) by done. cbn [mbind result_bind].
  unfold deposited. destruct v as [o [b id] pol]; simpl in *.
  rewrite asset_add_same by blia. cbn [mbind result_bind]. rewrite Z.add_0_r. done.
Qed.

Lemma deposit_vested_cdd now v p x :
  vbo_ok now v -> policy v = cdd_policy p -> 0 <= x ->
  amount (vbo_balance v) + x <= INT64_MAX -> x * seconds_or_one p <= INT64_MAX ->
  deposit_vested v now (Asset x (asset_id (vbo_balance v))) = Ok (deposited v p now x true).
Proof.
  intros Hok Hp Hx Hmax Hmul. pose proof (vbo_ok_balance now v Hok) as Hb.
  unfold deposit_vested, on_deposit_vested, cdd_on_deposit_vested, cdd_on_deposit,
    update_coin_seconds_earned. rewrite Hp.
  rewrite (compute_coin_seconds_ok now v p) by done.
  destruct Hok as [H1 H2 H3]. rewrite Hp in H3. destruct H3 as (Hv & Hs & Hl & Hc).
  pose proof (seconds_or_one_range p Hv) as Hone.
  pose proof (cdd_earned_range p (amount (vbo_balance v)) now (proj1 H2) Hv (proj2 Hl) (proj1 Hc)) as Her.
  cbn -[mul_int64 seconds_or_one].
  change (seconds_or_one (Cdd_vesting_policy _ _ _ _)) with (seconds_or_one p).
  unfold mul_int64. rewrite decide_True by (unfold_bounds; nia). cbn -[seconds_or_one].
  rewrite (u128_of_ok _ fc_u128_laws) by (unfold_bounds; nia).
  rewrite (u128_add_ok _ fc_u128_laws) by (unfold_bounds; nia).
  unfold deposited. destruct v as [o [b id] pol]; simpl in *.
  rewrite asset_add_same by blia. done.
Qed.
End Lemmas.

(** ** Properties *)

(** C16: on a well-formed vesting balance no [assert] fails: a withdrawal is
    allowed exactly up to [allowed], the reported amount; an allowed withdrawal
    succeeds, takes exactly its amount from the balance and from what remains
    allowed, and leaves a well-formed balance. *)
Theorem vesting_withdraw_spec `{FC : FcLib, !FcLaws FC} (now x : Z) (v : vesting_balance_object) :
  vbo_ok now v -> 0 <= x ->
  get_allowed_withdraw v now = Ok (Asset (allowed v now) (asset_id (vbo_balance v))) /\
  0 <= allowed v now <= amount (vbo_balance v) /\
  is_withdraw_allowed v now (Asset x (asset_id (vbo_balance v))) = Ok (x <=? allowed v now) /\
  (x <= allowed v now ->
   exists v', withdraw v now (Asset x (asset_id (vbo_balance v))) = Ok v' /\ vbo_ok now v' /\
     vbo_balance v' = Asset (amount (vbo_balance v) - x) (asset_id (vbo_balance v)) /\
     allowed v' now = allowed v now - x).
Proof.
  intros Hok Hx. split; [by apply get_allowed_withdraw_ok|].
  split; [by apply allowed_range|]. split; [by apply is_withdraw_allowed_ok|].
  intros Hle. destruct (withdraw_ok now v x Hok) as (v' & ? & ? & _ & ?); [done|]. eauto.
Qed.

(** A deposit into a coin-seconds balance matures with time: it leaves the
    withdrawable amount as it is, while a vested deposit raises it at once by the
    amount (after [start_claim]), unless its coin-seconds overflow [int64_t]. *)
Theorem vesting_deposit_spec `{FC : FcLib, !FcLaws FC} (now x : Z) (v : vesting_balance_object) p :
  vbo_ok now v -> policy v = cdd_policy p -> 0 <= x ->
  amount (vbo_balance v) + x <= INT64_MAX ->
  (exists v', deposit v now (Asset x (asset_id (vbo_balance v))) = Ok v' /\ vbo_ok now v' /\
     amount (vbo_balance v') = amount (vbo_balance v) + x /\ allowed v' now = allowed v now) /\
  (x * Z.max (vesting_seconds p) 1 <= INT64_MAX ->
   exists v', deposit_vested v now (Asset x (asset_id (vbo_balance v))) = Ok v' /\ vbo_ok now v' /\
     amount (vbo_balance v') = amount (vbo_balance v) + x /\
     allowed v' now = allowed v now + (if start_claim p <? now then x else 0)).
Proof.
  intros Hok Hp Hx Hmax. split.
  - destruct (deposited_ok now v p x false Hok Hp Hx Hmax) as [Hok' Hal].
    eexists; split; [by apply deposit_cdd|]. cbn [andb] in Hal. rewrite Z.add_0_r in Hal. done.
  - intros Hmul. destruct (deposited_ok now v p x true Hok Hp Hx Hmax) as [Hok' Hal].
    eexists; split; [by apply deposit_vested_cdd|]. done.
Qed.

(** [allowed] never shrinks while time passes, and in the end it is the whole
    balance. *)
Lemma allowed_matures `{FC : FcLib} (now now' : Z) (v : vesting_balance_object) :
  vbo_ok now v -> now <= now' -> in_u32 now' ->
  vbo_ok now' v /\ allowed v now <= allowed v now' /\
  (match policy v with
   | linear_policy p =>
       begin_timestamp p < now' /\
       begin_timestamp p + Z.max (vesting_cliff_seconds p) (vesting_duration_seconds p) <= now'
   | cdd_policy p =>
       start_claim p < now' /\
       coin_seconds_earned_last_update p + Z.max (vesting_seconds p) 1 <= now'
   end -> allowed v now' = amount (vbo_balance v)).
Proof.
  intros Hok Hn Hn'. split; [by eapply vbo_ok_mono|].
  destruct Hok as [H1 H2 H3]. unfold allowed. destruct (policy v) as [p|p].
  - destruct H3 as (Hb & Hle & Hbt & Hcl & Hd & Hw).
    pose proof (linear_vested_mono p now now' (proj1 Hb) Hd Hn) as Hm. unfold in_u32 in *.
    pose proof (linear_vested_range p now' (proj1 Hb) Hd) as Hr. split.
    + destruct (Z.ltb_spec 0 (now - begin_timestamp p)), (Z.ltb_spec 0 (now' - begin_timestamp p)),
        (Z.leb_spec (vesting_cliff_seconds p) (now - begin_timestamp p)),
        (Z.leb_spec (vesting_cliff_seconds p) (now' - begin_timestamp p)); cbn [andb]; lia.
    + intros [Ht He]. unfold linear_vested.
      destruct (Z.ltb_spec 0 (now' - begin_timestamp p)); [|lia].
      destruct (Z.leb_spec (vesting_cliff_seconds p) (now' - begin_timestamp p)); [|lia].
      destruct (Z.ltb_spec (now' - begin_timestamp p) (vesting_duration_seconds p)); cbn [andb]; lia.
  - destruct H3 as (Hv & Hs & Hl & Hc). pose proof (seconds_or_one_range p Hv) as Hone.
    assert (He : cdd_earned p (amount (vbo_balance v)) now <= cdd_earned p (amount (vbo_balance v)) now')
      by (unfold cdd_earned; nia).
    pose proof (cdd_earned_range p (amount (vbo_balance v)) now' (proj1 H2) Hv ltac:(lia) (proj1 Hc)) as Hr.
    split.
    + destruct (Z.leb_spec now (start_claim p)), (Z.leb_spec now' (start_claim p)); try lia.
      * apply Z.div_pos; lia.
      * apply Z.div_le_mono; lia.
    + intros [Ht Hg]. destruct (Z.leb_spec now' (start_claim p)); [lia|].
      replace (cdd_earned p (amount (vbo_balance v)) now')
        with (amount (vbo_balance v) * seconds_or_one p);
        [apply Z.div_mul; lia|].
      unfold cdd_earned. symmetry. apply Z.min_r. unfold seconds_or_one in *. nia.
Qed.

(** What [get_allowed_withdraw] reports never shrinks while time passes, and in the end it is
    the whole balance: under a linear policy once cliff and duration have passed,
    under a coin-seconds policy after [vesting_seconds] without a withdrawal. *)
Theorem vesting_matures `{FC : FcLib, !FcLaws FC} (now now' : Z) (v : vesting_balance_object) :
  vbo_ok now v -> now <= now' -> in_u32 now' ->
  exists x x', get_allowed_withdraw v now = Ok (Asset x (asset_id (vbo_balance v))) /\
    get_allowed_withdraw v now' = Ok (Asset x' (asset_id (vbo_balance v))) /\ x <= x' /\
    (match policy v with
     | linear_policy p =>
         begin_timestamp p < now' /\
         begin_timestamp p + Z.max (vesting_cliff_seconds p) (vesting_duration_seconds p) <= now'
     | cdd_policy p =>
         start_claim p < now' /\
         coin_seconds_earned_last_update p + Z.max (vesting_seconds p) 1 <= now'
     end -> x' = amount (vbo_balance v)).
Proof.
  intros Hok Hn Hn'. destruct (allowed_matures now now' v Hok Hn Hn') as (Hok' & Hle & Hall).
  exists (allowed v now), (allowed v now'). by split_and!; [apply get_allowed_withdraw_ok|apply get_allowed_withdraw_ok| |].
Qed.

(** ** Witnesses *)

Definition ex_linear : vesting_balance_object :=
  Vesting_balance_object 7 (Asset 900 CORE_ASSET)
    (linear_policy (Linear_vesting_policy 100 10 1000 1000)).
Definition ex_cdd : vesting_balance_object :=
  Vesting_balance_object 7 (Asset 900 CORE_ASSET)
    (cdd_policy (Cdd_vesting_policy 60 1000 0 100)).

Lemma ex_linear_ok : vbo_ok 300 ex_linear.
Proof. split; [ground|ground|]. repeat split; vm_compute; congruence. Qed.
Lemma ex_cdd_ok : vbo_ok 130 ex_cdd.
Proof. split; [ground|ground|]. repeat split; vm_compute; congruence. Qed.

Lemma vesting_withdraw_spec_witness :
  get_allowed_withdraw (FC := fc_ref) ex_linear 300 = Ok (Asset 100 CORE_ASSET) /\
  exists v', withdraw (FC := fc_ref) ex_cdd 130 (Asset 400 CORE_ASSET) = Ok v' /\
    vbo_balance v' = Asset 500 CORE_ASSET.
Proof.
  split.
  - apply (@vesting_withdraw_spec fc_ref fc_ref_laws 300 0 ex_linear ex_linear_ok). lia.
  - destruct (@vesting_withdraw_spec fc_ref fc_ref_laws 130 400 ex_cdd ex_cdd_ok)
      as (_ & _ & _ & Hw); [lia|].
    destruct Hw as (v' & Hw & _ & Hb & _); [vm_compute; congruence|]. exists v'. split; [exact Hw|exact Hb].
Defined.

Lemma vesting_deposit_spec_witness :
  exists v', deposit_vested (FC := fc_ref) ex_cdd 130 (Asset 50 CORE_ASSET) = Ok v' /\
    allowed v' 130 = allowed ex_cdd 130 + 50.
Proof.
  destruct (@vesting_deposit_spec fc_ref fc_ref_laws 130 50 ex_cdd _ ex_cdd_ok eq_refl)
    as (_ & Hv); [lia|vm_compute; congruence|].
  destruct Hv as (v' & Hd & _ & _ & Ha); [vm_compute; congruence|]. exists v'. split; [exact Hd|exact Ha].
Defined.

Lemma vesting_matures_witness :
  get_allowed_withdraw (FC := fc_ref) ex_cdd 160 = Ok (Asset 900 CORE_ASSET) /\
  get_allowed_withdraw (FC := fc_ref) ex_linear 1100 = Ok (Asset 900 CORE_ASSET).
Proof.
  split.
  - destruct (@vesting_matures fc_ref fc_ref_laws 130 160 ex_cdd ex_cdd_ok) as (x & x' & _ & E & _ & H); [lia|ground|].
    by rewrite E, H by (simpl; lia).
  - destruct (@vesting_matures fc_ref fc_ref_laws 300 1100 ex_linear ex_linear_ok) as (x & x' & _ & E & _ & H); [lia|ground|].
    by rewrite E, H by (simpl; lia).
Defined.
