(* ===== verification/Objects.v ===== *)
(** * Accounts, votes and governance: the data

    The records of [account_object.hpp], [protocol/authority.hpp],
    [protocol/account.hpp], [protocol/special_authority.hpp], [protocol/vote.hpp],
    [committee_member_object.hpp], [worker_object.hpp],
    [withdraw_permission_object.hpp], [fba_object.hpp], [buyback_object.hpp],
    [special_authority_object.hpp] and [budget_record_object.hpp], and typed tables of
    objects.

    A table maps the instance number of an object id to the object and holds
    the next id of its index.  References into the database are ids; reading
    an id that is not there throws, as [database::get] does.  Keys and addresses
    are the integers that their bytes spell, so that they are ordered alike. *)

From S2P Require Import Prelude Asset Block.

Abbreviation address := Z (only parsing).

(** ** Tables *)

Record table (A : Type) := Table { objs : gmap N A; next_instance : N }.
Arguments Table {A} _ _.
Arguments objs {A} _.
Arguments next_instance {A} _.

#[export] Instance settable_table A : Settable (table A) :=
  fun t => Table (objs t) (next_instance t).

Section Table.
Context {A : Type}.
Implicit Types (t : table A) (i : N).

Definition empty_table : table A := Table ∅ 0.

Definition tbl_find t i : option A := objs t !! i.

(** [database::get] *)
Definition tbl_get t i : result A :=
  of_option (objs t !! i) (assert_exception "Unable to find Object").

(** [database::create] *)
Definition tbl_create t (a : A) : N * table A :=
  (next_instance t, t <| objs ::= <[next_instance t := a]> |> <| next_instance ::= N.succ |>).

(** [database::modify] of an object a reference points to. *)
Definition tbl_modify t i (f : A -> A) : table A := t <| objs ::= alter f i |>.

(** [database::remove] *)
Definition tbl_remove t i : table A := t <| objs ::= delete i |>.

(** The instances in the order of the [by_id] index. *)
Definition tbl_ids t : list N := merge_sort N.le (map_to_list (objs t)).*1.

(** [find] in another index: an object with the key. *)
Definition tbl_find_by (P : A -> Prop) `{forall a, Decision (P a)} t : option (N * A) :=
  head (filter (fun x => P x.2) (map_to_list (objs t))).

(** [database::create] where another index has unique keys: [P] says that an
    object has the key of the new one. *)
Definition tbl_create_unique (P : A -> Prop) `{forall a, Decision (P a)} t (a : A) : result (N * table A) :=
  match tbl_find_by P t with
  | Some _ => Err (assert_exception "Could not create object! Most likely a uniqueness constraint is violated.")
  | None => Ok (tbl_create t a)
  end.

(** [index.rbegin()]: the object with the largest id. *)
Definition tbl_last t : option (N * A) :=
  i ← last (tbl_ids t); a ← objs t !! i; Some (i, a).

(** Every id in use was handed out before: the next one is new. *)
Definition wf_table t : Prop := forall i, is_Some (objs t !! i) -> (i < next_instance t)%N.

Lemma wf_table_fresh t : wf_table t -> objs t !! next_instance t = None.
Proof.
  intros Hwf. destruct (objs t !! next_instance t) as [a|] eqn:Ha; [|done].
  assert (next_instance t < next_instance t)%N by (apply Hwf; eauto). lia.
Qed.

Lemma tbl_create_wf t a : wf_table t -> wf_table (tbl_create t a).2.
Proof.
  intros Hwf i. simpl. intros [<-|Hi]%lookup_insert_is_Some'; [lia|].
  apply Hwf in Hi. lia.
Qed.

Lemma tbl_modify_is_Some t i f j : is_Some (objs (tbl_modify t i f) !! j) <-> is_Some (objs t !! j).
Proof.
  simpl. destruct (decide (j = i)) as [->|].
  - by rewrite lookup_alter_eq, fmap_is_Some.
  - by rewrite lookup_alter_ne.
Qed.

Lemma tbl_modify_wf t i f : wf_table t -> wf_table (tbl_modify t i f).
Proof. intros Hwf j Hj. by apply Hwf, (tbl_modify_is_Some t i f). Qed.

Lemma tbl_remove_wf t i : wf_table t -> wf_table (tbl_remove t i).
Proof. intros Hwf j [x Hj]. apply Hwf. simpl in Hj. apply lookup_delete_Some in Hj as [_ ?]. eauto. Qed.

Lemma tbl_find_by_Some (P : A -> Prop) `{forall a, Decision (P a)} t i a :
  tbl_find_by P t = Some (i, a) -> objs t !! i = Some a /\ P a.
Proof.
  unfold tbl_find_by. intros [Hp Hm]%head_Some_elem_of%list_elem_of_filter.
  split; [by apply elem_of_map_to_list|exact Hp].
Qed.

Lemma tbl_find_by_None (P : A -> Prop) `{forall a, Decision (P a)} t :
  tbl_find_by P t = None <-> forall i a, objs t !! i = Some a -> ~ P a.
Proof.
  unfold tbl_find_by. rewrite head_None. split.
  - intros Hf i a Ha Hp. apply (not_elem_of_nil (i, a)). rewrite <-Hf.
    apply list_elem_of_filter. by split; [|apply elem_of_map_to_list].
  - intros Hn. apply elem_of_nil_inv. intros [i a] [Hp Hm]%list_elem_of_filter.
    by apply elem_of_map_to_list, Hn in Hm.
Qed.

Lemma tbl_create_unique_inv (P : A -> Prop) `{forall a, Decision (P a)} t a i t' :
  tbl_create_unique P t a = Ok (i, t') -> (i, t') = tbl_create t a /\ forall j b, objs t !! j = Some b -> ~ P b.
Proof.
  unfold tbl_create_unique. destruct (tbl_find_by P t) eqn:Hf; [done|]. intros [= <- <-].
  split; [done|exact (proj1 (tbl_find_by_None P t) Hf)].
Qed.

Lemma tbl_get_inv t i a : tbl_get t i = Ok a <-> objs t !! i = Some a.
Proof. apply of_option_Ok. Qed.

Lemma tbl_modify_insert t i f a :
  objs t !! i = Some a -> objs (tbl_modify t i f) = <[i := f a]> (objs t).
Proof.
  intros Ha. simpl. apply map_eq. intros j. destruct (decide (j = i)) as [->|].
  - by rewrite lookup_alter_eq, lookup_insert_eq, Ha.
  - by rewrite lookup_alter_ne, lookup_insert_ne.
Qed.

Lemma tbl_modify_const t i f a :
  objs t !! i = Some a -> tbl_modify t i f = tbl_modify t i (fun _ => f a).
Proof.
  intros Ha. unfold tbl_modify. destruct t as [o n]; cbn in *. f_equal.
  apply map_eq. intros j. destruct (decide (j = i)) as [->|].
  - by rewrite !lookup_alter_eq, Ha.
  - by rewrite !lookup_alter_ne.
Qed.
End Table.

Ltac inv_get :=
  repeat match goal with H : tbl_get _ _ = Ok _ |- _ => apply tbl_get_inv in H end.

#[export] Hint Resolve tbl_create_wf tbl_modify_wf tbl_remove_wf : chain.

(** ** Authorities *)

(** The maps are flat: lists of pairs in the order of their keys. *)
Record authority := Authority {
  weight_threshold : Z;
  account_auths : list (N * Z);
  key_auths : list (public_key * Z);
  address_auths : list (address * Z);
}.

#[export] Instance settable_authority : Settable authority := fun a =>
  Authority (weight_threshold a) (account_auths a) (key_auths a) (address_auths a).

(** [authority::null_authority]; [authority()] *)
Definition null_authority : authority := Authority 1 [(3%N, 1)] [] [].
Definition empty_authority : authority := Authority 0 [] [] [].

(** The sum of all weights is below the threshold. *)
Definition weights {K} (l : list (K * Z)) : Z := foldr (fun kw t => kw.2 + t) 0 l.
Definition is_impossible (au : authority) : bool :=
  weights (account_auths au) + weights (key_auths au) + weights (address_auths au) <? weight_threshold au.

Definition num_auths (a : authority) : Z :=
  Z.of_nat (length (account_auths a) + length (key_auths a) + length (address_auths a)).

#[export] Instance authority_eq_dec : EqDecision authority.
Proof. solve_decision. Defined.

Inductive special_authority :=
  | no_special_authority
  | top_holders_special_authority (th_asset : N) (num_top_holders : Z).

#[export] Instance special_authority_eq_dec : EqDecision special_authority.
Proof. solve_decision. Defined.

(** ** Votes *)

Inductive vote_type := vote_committee | vote_witness | vote_worker.

#[export] Instance vote_type_eq_dec : EqDecision vote_type.
Proof. solve_decision. Defined.

(** [vote_id_type::content]: the type in the lower 8 bits, the instance above. *)
Definition type_code (t : vote_type) : Z := match t with vote_committee => 0 | vote_witness => 1 | vote_worker => 2 end.
Definition vote_content (t : vote_type) (instance : Z) : Z := Z.lor (wrap32 (Z.shiftl instance 8)) (type_code t).
Definition vote_instance (content : Z) : Z := Z.shiftr content 8.
Definition vote_type_code (content : Z) : Z := Z.land content 255.

(** A set of votes is ordered by the instance alone (ids convert to it), so that
    it holds one id for an instance; the type of an id in it is what the voter
    wrote, one of 256. *)
Record account_options := Account_options {
  memo_key : public_key;
  voting_account : N;
  num_witness : Z;
  num_committee : Z;
  votes : gmap N Z;                                   (* instance -> type *)
}.

(** ** Governance *)

Record committee_member_object := Committee_member_object {
  committee_member_account : N;
  cm_vote_id : N;
  cm_total_votes : Z;
  cm_url : string;
}.

Inductive worker_type :=
  | refund_worker (total_burned : Z)
  | vesting_balance_worker (balance : N)
  | burn_worker (total_burned : Z).

Record worker_object := Worker_object {
  worker_account : N;
  work_begin_date : Z;
  work_end_date : Z;
  daily_pay : Z;
  worker_kind : worker_type;
  worker_name : string;
  worker_url : string;
  vote_for : N;
  vote_against : N;
  total_votes_for : Z;
  total_votes_against : Z;
}.

Record withdraw_permission_object := Withdraw_permission_object {
  withdraw_from_account : N;
  authorized_account : N;
  withdrawal_limit : asset;
  withdrawal_period_sec : Z;
  period_start_time : Z;
  wp_expiration : Z;
  claimed_this_period : Z;
}.

Record fba_accumulator_object := Fba_accumulator_object {
  accumulated_fba_fees : Z;
  designated_asset : option N;
}.

Record budget_record := Budget_record {
  time_since_last_budget : Z;
  from_initial_reserve : Z;
  from_accumulated_fees : Z;
  from_unused_witness_budget : Z;
  requested_witness_budget : Z;
  total_budget : Z;
  rec_witness_budget : Z;
  worker_budget : Z;
  leftover_worker_funds : Z;
  supply_delta : Z;
}.

#[export] Instance settable_account_options : Settable account_options := fun o =>
  Account_options (memo_key o) (voting_account o) (num_witness o) (num_committee o) (votes o).
#[export] Instance settable_committee_member : Settable committee_member_object := fun c =>
  Committee_member_object (committee_member_account c) (cm_vote_id c) (cm_total_votes c) (cm_url c).
#[export] Instance settable_worker : Settable worker_object := fun w =>
  Worker_object (worker_account w) (work_begin_date w) (work_end_date w) (daily_pay w) (worker_kind w)
    (worker_name w) (worker_url w) (vote_for w) (vote_against w) (total_votes_for w) (total_votes_against w).
#[export] Instance settable_withdraw_permission : Settable withdraw_permission_object := fun p =>
  Withdraw_permission_object (withdraw_from_account p) (authorized_account p) (withdrawal_limit p)
    (withdrawal_period_sec p) (period_start_time p) (wp_expiration p) (claimed_this_period p).
#[export] Instance settable_fba_accumulator : Settable fba_accumulator_object := fun f =>
  Fba_accumulator_object (accumulated_fba_fees f) (designated_asset f).
