(* ===== verification/Database.v ===== *)
(** * The chain state

    The objects of the chain database that the modelled operations read and
    write, as typed tables, and the primitives every component uses: balances,
    account statistics and vesting deposits ([db_balance.cpp],
    [account_object.cpp], [db_getter.cpp]). *)

From S2P Require Import Prelude FcLib Block Asset Vesting Objects.

Abbreviation account_id_type := N (only parsing).

Definition GRAPHENE_100_PERCENT : Z := 10000.
Definition GRAPHENE_COMMITTEE_ACCOUNT : N := 0.
Definition GRAPHENE_WITNESS_ACCOUNT : N := 1.
Definition GRAPHENE_RELAXED_COMMITTEE_ACCOUNT : N := 2.
Definition GRAPHENE_NULL_ACCOUNT : N := 3.
Definition GRAPHENE_TEMP_ACCOUNT : N := 4.
Definition GRAPHENE_PROXY_TO_SELF_ACCOUNT : N := 5.
Definition GRAPHENE_CONSTRUCTION_CAPITAL_ACCOUNT : N := 6.
Definition GRAPHENE_MARKET_FOUND_ACCOUNT : N := 7.

Definition HARDFORK_413_TIME : Z := 1446652800.
Definition HARDFORK_415_TIME : Z := 1446652800.
Definition HARDFORK_419_TIME : Z := 1446652800.
Definition HARDFORK_385_TIME : Z := 1445558400.
Definition HARDFORK_409_TIME : Z := 1446652800.
Definition HARDFORK_436_TIME : Z := 1450288800.
Definition HARDFORK_445_TIME : Z := 1450288800.
Definition HARDFORK_480_TIME : Z := 1450378800.
Definition HARDFORK_555_TIME : Z := 1456250400.
Definition HARDFORK_572_TIME : Z := 1456250400.
Definition HARDFORK_615_TIME : Z := 1458752400.

(** ** Objects *)

Record account_object := Account_object {
  membership_expiration_date : Z;
  instant_payback_expiration_date : Z;
  registrar : N;
  referrer : N;
  lifetime_referrer : N;
  network_fee_percentage : Z;
  lifetime_referrer_fee_percentage : Z;
  referrer_rewards_percentage : Z;
  account_name : string;
  owner_authority : authority;
  active_authority : authority;
  account_opts : account_options;
  whitelisting_accounts : gset N;
  blacklisting_accounts : gset N;
  whitelisted_accounts : gset N;
  blacklisted_accounts : gset N;
  cashback_vb : option N;
  owner_special_authority : special_authority;
  active_special_authority : special_authority;
  top_n_control_flags : Z;
  allowed_assets : option (gset N);
}.

(** The accounts named in [active.account_auths]. *)
Definition active_account_auths (a : account_object) : gset N := list_to_set (account_auths (active_authority a)).*1.

Record account_statistics_object := Account_statistics_object {
  total_core_in_orders : Z;
  lifetime_fees_paid : Z;
  pending_fees : Z;
  pending_vested_fees : Z;
}.

Record asset_options := Asset_options {
  max_supply : Z;
  market_fee_percent : Z;
  max_market_fee : Z;
  issuer_permissions : Z;
  flags : Z;
  opt_core_exchange_rate : price;
  whitelist_authorities : gset N;
  blacklist_authorities : gset N;
  whitelist_markets : gset N;
  blacklist_markets : gset N;
}.

Record asset_object := Asset_object {
  symbol : string;
  precision : Z;
  issuer : N;
  options : asset_options;
  dynamic_asset_data_id : N;
  bitasset_data_id : option N;
  buyback_account : option N;
}.

Record asset_dynamic_data_object := Asset_dynamic_data_object {
  current_supply : Z;
  accumulated_fees : Z;
  fee_pool : Z;
}.

Record bitasset_options := Bitasset_options {
  feed_lifetime_sec : Z;
  minimum_feeds : Z;
  force_settlement_delay_sec : Z;
  force_settlement_offset_percent : Z;
  maximum_force_settlement_volume : Z;
  short_backing_asset : N;
}.

Record asset_bitasset_data_object := Asset_bitasset_data_object {
  bit_options : bitasset_options;
  feeds : gmap N (Z * price_feed);
  current_feed : price_feed;
  current_feed_publication_time : Z;
  is_prediction_market : bool;
  force_settled_volume : Z;
  bit_settlement_price : price;
  settlement_fund : Z;
}.

Record limit_order_object := Limit_order_object {
  expiration : Z;
  seller : N;
  for_sale : Z;
  sell_price : price;
  deferred_fee : Z;
  exchange_fee_receiver : option N;
}.

Record call_order_object := Call_order_object {
  borrower : N;
  collateral : Z;
  debt : Z;
  call_order_price : price;
}.

Record force_settlement_object := Force_settlement_object {
  settle_owner : N;
  settle_balance : asset;
  settlement_date : Z;
}.

Record deflation_object := Deflation_object {
  dflt_timestamp : Z;
  dflt_issuer : N;
  rate : Z;
  last_account : N;
  account_cursor : N;
  balance_cleared : bool;
  last_order : N;
  order_cursor : N;
  order_cleared : bool;
  total_amount : Z;
}.

Record account_deflation_object := Account_deflation_object {
  acc_last_deflation_id : N;
  acc_frozen : Z;
  acc_cleared : bool;
}.

Record order_deflation_object := Order_deflation_object {
  ord_last_deflation_id : N;
  ord_frozen : Z;
  ord_cleared : bool;
}.

Record construction_capital_object := Construction_capital_object {
  cc_owner : N;
  cc_amount : Z;
  period : Z;
  total_periods : Z;
  cc_timestamp : Z;
  achieved : Z;
  pending : Z;
  left_vote_point : Z;
  next_slot : Z;
}.

Record construction_capital_summary_object := Construction_capital_summary_object {
  deposit_all_time : Z;
  deposit_in_life : Z;
  profit_all_time : Z;
  count_all_time : Z;
  count_in_life : Z;
}.

Record witness_object := Witness_object {
  witness_account : N;
  signing_key : public_key;
  wit_vote_id : N;
  total_votes : Z;
  wit_url : string;
  last_aslot : Z;
  pay_vb : option N;
  total_missed : Z;
  last_confirmed_block_num : Z;
}.

(** [account_create_basic_fee] is [current_fees->get<account_create_operation>().basic_fee]. *)
Record chain_parameters := Chain_parameters {
  account_create_basic_fee : Z;
  block_interval : Z;
  maintenance_interval : Z;
  maintenance_skip_slots : Z;
  committee_proposal_review_period : Z;
  maximum_transaction_size : Z;
  maximum_block_size : Z;
  maximum_time_until_expiration : Z;
  maximum_proposal_lifetime : Z;
  maximum_asset_whitelist_authorities : Z;
  maximum_asset_feed_publishers : Z;
  maximum_witness_count : Z;
  maximum_committee_count : Z;
  maximum_authority_membership : Z;
  reserve_percent_of_fee : Z;
  network_percent_of_fee : Z;
  lifetime_referrer_percent_of_fee : Z;
  cashback_vesting_period_seconds : Z;
  cashback_vesting_threshold : Z;
  count_non_member_votes : bool;
  allow_non_member_whitelists : bool;
  witness_pay_per_block : Z;
  witness_pay_vesting_seconds : Z;
  worker_budget_per_day : Z;
  accounts_per_fee_scale : Z;
  account_fee_scale_bitshifts : Z;
  max_authority_depth : Z;
  issuance_rate : Z;
  max_incentive_operations_per_block : Z;
  min_construction_capital_amount : Z;
  min_construction_capital_period : Z;
  max_construction_capital_period : Z;
  min_construction_capital_period_len : Z;
  max_construction_capital_period_len : Z;
  max_construction_capital_vote : Z;
}.

Record dynamic_global_property_object := Dynamic_global_property_object {
  head_block_number : Z;
  head_block_id : block_id_type;
  time : Z;
  current_witness : N;
  next_maintenance_time : Z;
  last_budget_time : Z;
  witness_budget : Z;
  accounts_registered_this_interval : Z;
  recently_missed_count : Z;
  current_aslot : Z;
  recent_slots_filled : Z;
  dynamic_flags : Z;
  last_irreversible_block_num : Z;
}.

(** What elections, workers, withdrawals, buybacks and budgets use; with the
    other fields of [global_property_object] and the immutable chain parameters. *)
Record governance := Governance {
  pending_parameters : option chain_parameters;
  next_available_vote_id : Z;
  active_committee_members : list N;
  next_rate_vote_time : option Z;
  min_witness_count : Z;
  min_committee_member_count : Z;
  committee_members : table committee_member_object;
  workers : table worker_object;
  withdraw_permissions : table withdraw_permission_object;
  special_authorities : table N;                      (* the account *)
  buybacks : table N;                                 (* the asset to buy *)
  fba_accumulators : table fba_accumulator_object;
  budget_records : table (Z * budget_record);         (* the time and the record *)
}.

(** The operations the chain itself records in the block's history. *)
Inductive virtual_op :=
  | fill_order_vop (order owner : N) (pays receives fee : asset) (rate : Z) (receiver : N)
  | limit_order_cancel_vop (order payer : N)
  | asset_settle_cancel_vop (settlement account : N) (amount : asset)
  | order_deflation_vop (deflation order owner : N) (amount : Z)
  | fba_distribute_vop (account fba : N) (amount : Z).

(** ** The state *)

Record database := Database {
  accounts : table account_object;
  statistics : gmap N account_statistics_object;      (* of the account with the id *)
  balances : gmap (N * N) Z;                          (* account_balance_index by_account_asset *)
  assets : table asset_object;
  dynamic_data : table asset_dynamic_data_object;
  bitassets : table asset_bitasset_data_object;
  limit_orders : table limit_order_object;
  call_orders : table call_order_object;
  settlements : table force_settlement_object;
  fee_configs : gmap N (gmap (N * N) (Z * Z));        (* limit_order_fee_config_index by_receiver *)
  vesting_balances : table vesting_balance_object;
  deflations : table deflation_object;
  account_deflations : gmap N account_deflation_object; (* by_owner *)
  order_deflations : gmap N order_deflation_object;   (* by_order *)
  construction_capitals : table construction_capital_object;
  cc_votes : list (N * N);                            (* (cc_from, cc_to), oldest first *)
  cc_rate_votes : gmap N (Z * Z);                     (* account -> (vote_option, timestamp) *)
  cc_summary : construction_capital_summary_object;
  witnesses : table witness_object;
  parameters : chain_parameters;
  active_witnesses : gset N;
  dgpo : dynamic_global_property_object;
  current_shuffled_witnesses : list N;
  gov : governance;
  applied_ops : list virtual_op;                      (* latest first *)
}.

#[export] Instance settable_account_object : Settable account_object := fun a =>
  Account_object (membership_expiration_date a) (instant_payback_expiration_date a)
    (registrar a) (referrer a) (lifetime_referrer a) (network_fee_percentage a)
    (lifetime_referrer_fee_percentage a) (referrer_rewards_percentage a) (account_name a)
    (owner_authority a) (active_authority a) (account_opts a) (whitelisting_accounts a) (blacklisting_accounts a)
    (whitelisted_accounts a) (blacklisted_accounts a) (cashback_vb a) (owner_special_authority a)
    (active_special_authority a) (top_n_control_flags a) (allowed_assets a).
#[export] Instance settable_account_statistics : Settable account_statistics_object := fun s =>
  Account_statistics_object (total_core_in_orders s) (lifetime_fees_paid s) (pending_fees s)
    (pending_vested_fees s).
#[export] Instance settable_asset_options : Settable asset_options := fun o =>
  Asset_options (max_supply o) (market_fee_percent o) (max_market_fee o) (issuer_permissions o)
    (flags o) (opt_core_exchange_rate o) (whitelist_authorities o) (blacklist_authorities o)
    (whitelist_markets o) (blacklist_markets o).
#[export] Instance settable_asset_object : Settable asset_object := fun a =>
  Asset_object (symbol a) (precision a) (issuer a) (options a) (dynamic_asset_data_id a)
    (bitasset_data_id a) (buyback_account a).
#[export] Instance settable_dynamic_data : Settable asset_dynamic_data_object := fun d =>
  Asset_dynamic_data_object (current_supply d) (accumulated_fees d) (fee_pool d).
#[export] Instance settable_bitasset_options : Settable bitasset_options := fun o =>
  Bitasset_options (feed_lifetime_sec o) (minimum_feeds o) (force_settlement_delay_sec o)
    (force_settlement_offset_percent o) (maximum_force_settlement_volume o) (short_backing_asset o).
#[export] Instance settable_bitasset : Settable asset_bitasset_data_object := fun b =>
  Asset_bitasset_data_object (bit_options b) (feeds b) (current_feed b)
    (current_feed_publication_time b) (is_prediction_market b) (force_settled_volume b)
    (bit_settlement_price b) (settlement_fund b).
#[export] Instance settable_limit_order : Settable limit_order_object := fun o =>
  Limit_order_object (expiration o) (seller o) (for_sale o) (sell_price o) (deferred_fee o)
    (exchange_fee_receiver o).
#[export] Instance settable_call_order : Settable call_order_object := fun o =>
  Call_order_object (borrower o) (collateral o) (debt o) (call_order_price o).
#[export] Instance settable_settlement : Settable force_settlement_object := fun s =>
  Force_settlement_object (settle_owner s) (settle_balance s) (settlement_date s).
#[export] Instance settable_deflation : Settable deflation_object := fun d =>
  Deflation_object (dflt_timestamp d) (dflt_issuer d) (rate d) (last_account d) (account_cursor d)
    (balance_cleared d) (last_order d) (order_cursor d) (order_cleared d) (total_amount d).
#[export] Instance settable_account_deflation : Settable account_deflation_object := fun d =>
  Account_deflation_object (acc_last_deflation_id d) (acc_frozen d) (acc_cleared d).
#[export] Instance settable_order_deflation : Settable order_deflation_object := fun d =>
  Order_deflation_object (ord_last_deflation_id d) (ord_frozen d) (ord_cleared d).
#[export] Instance settable_cc : Settable construction_capital_object := fun c =>
  Construction_capital_object (cc_owner c) (cc_amount c) (period c) (total_periods c)
    (cc_timestamp c) (achieved c) (pending c) (left_vote_point c) (next_slot c).
#[export] Instance settable_cc_summary : Settable construction_capital_summary_object := fun s =>
  Construction_capital_summary_object (deposit_all_time s) (deposit_in_life s)
    (profit_all_time s) (count_all_time s) (count_in_life s).
#[export] Instance settable_witness : Settable witness_object := fun w =>
  Witness_object (witness_account w) (signing_key w) (wit_vote_id w) (total_votes w) (wit_url w) (last_aslot w)
    (pay_vb w) (total_missed w)
    (last_confirmed_block_num w).
#[export] Instance settable_dgpo : Settable dynamic_global_property_object := fun d =>
  Dynamic_global_property_object (head_block_number d) (head_block_id d) (time d) (current_witness d)
    (next_maintenance_time d) (last_budget_time d) (witness_budget d) (accounts_registered_this_interval d)
    (recently_missed_count d) (current_aslot d) (recent_slots_filled d) (dynamic_flags d)
    (last_irreversible_block_num d).
#[export] Instance settable_parameters : Settable chain_parameters := fun p =>
  Chain_parameters (account_create_basic_fee p) (block_interval p) (maintenance_interval p)
    (maintenance_skip_slots p) (committee_proposal_review_period p) (maximum_transaction_size p) (maximum_block_size p)
    (maximum_time_until_expiration p)
    (maximum_proposal_lifetime p) (maximum_asset_whitelist_authorities p) (maximum_asset_feed_publishers p)
    (maximum_witness_count p) (maximum_committee_count p) (maximum_authority_membership p)
    (reserve_percent_of_fee p) (network_percent_of_fee p) (lifetime_referrer_percent_of_fee p)
    (cashback_vesting_period_seconds p) (cashback_vesting_threshold p) (count_non_member_votes p)
    (allow_non_member_whitelists p) (witness_pay_per_block p) (witness_pay_vesting_seconds p)
    (worker_budget_per_day p) (accounts_per_fee_scale p) (account_fee_scale_bitshifts p)
    (max_authority_depth p) (issuance_rate p) (max_incentive_operations_per_block p)
    (min_construction_capital_amount p) (min_construction_capital_period p)
    (max_construction_capital_period p) (min_construction_capital_period_len p)
    (max_construction_capital_period_len p) (max_construction_capital_vote p).
#[export] Instance settable_governance : Settable governance := fun g =>
  Governance (pending_parameters g) (next_available_vote_id g) (active_committee_members g)
    (next_rate_vote_time g) (min_witness_count g) (min_committee_member_count g) (committee_members g)
    (workers g) (withdraw_permissions g) (special_authorities g) (buybacks g) (fba_accumulators g)
    (budget_records g).
#[export] Instance settable_database : Settable database := fun d =>
  Database (accounts d) (statistics d) (balances d) (assets d) (dynamic_data d) (bitassets d)
    (limit_orders d) (call_orders d) (settlements d) (fee_configs d) (vesting_balances d)
    (deflations d) (account_deflations d) (order_deflations d) (construction_capitals d)
    (cc_votes d) (cc_rate_votes d) (cc_summary d) (witnesses d) (parameters d)
    (active_witnesses d) (dgpo d) (current_shuffled_witnesses d) (gov d) (applied_ops d).

(** ** Primitives *)

Section Operations.
Context `{FC : FcLib}.
Implicit Types (db : database) (account : N) (delta : asset).

Definition head_block_time db : Z := time (dgpo db).

Definition push_applied_operation db (op : virtual_op) : database :=
  db <| applied_ops ::= cons op |>.

Definition get_balance db account (a : N) : asset :=
  match balances db !! (account, a) with
  | None => Asset 0 a
  | Some b => Asset b a
  end.

Definition adjust_balance db account delta : result database :=
  if amount delta =? 0 then Ok db
  else
    match balances db !! (account, asset_id delta) with
    | None =>
        _ ← FC_ASSERT (0 <? amount delta) "Insufficient Balance";
        Ok (db <| balances ::= <[(account, asset_id delta) := amount delta]> |>)
    | Some b =>
        _ ← (if amount delta <? 0 then
               n ← asset_neg delta;
               ge ← asset_geb (Asset b (asset_id delta)) n;
               FC_ASSERT ge "Insufficient Balance"
             else Ok tt);
        b' ← safe_add fc_safe b (amount delta);
        Ok (db <| balances ::= <[(account, asset_id delta) := b']> |>)
    end.

(** [receiver.statistics( db )] *)
Definition get_statistics db account : result account_statistics_object :=
  of_option (statistics db !! account) (assert_exception "Unable to find Object").

Definition put_statistics db account (s : account_statistics_object) : database :=
  db <| statistics ::= alter (fun _ => s) account |>.

Definition get_dynamic db (a : asset_object) : result asset_dynamic_data_object :=
  tbl_get (dynamic_data db) (dynamic_asset_data_id a).

Definition put_dynamic db (a : asset_object) (d : asset_dynamic_data_object) : database :=
  db <| dynamic_data ::= fun t => tbl_modify t (dynamic_asset_data_id a) (fun _ => d) |>.

(** [asset_object] predicates; the flag masks of [asset_issuer_permission_flags]. *)
Definition charge_market_fee : Z := 1.
Definition white_list : Z := 2.
Definition override_authority : Z := 4.
Definition transfer_restricted : Z := 8.
Definition disable_force_settle : Z := 16.
Definition global_settle : Z := 32.
Definition disable_confidential : Z := 64.
Definition witness_fed_asset : Z := 128.
Definition committee_fed_asset : Z := 256.

Definition has_flag (f mask : Z) : bool := negb (Z.land f mask =? 0).

Definition is_market_issued (a : asset_object) : bool :=
  match bitasset_data_id a with Some _ => true | None => false end.
Definition can_force_settle (a : asset_object) : bool :=
  negb (has_flag (flags (options a)) disable_force_settle).
Definition can_global_settle (a : asset_object) : bool :=
  has_flag (issuer_permissions (options a)) global_settle.
Definition charges_market_fees (a : asset_object) : bool :=
  has_flag (flags (options a)) charge_market_fee.
Definition is_transfer_restricted (a : asset_object) : bool :=
  has_flag (flags (options a)) transfer_restricted.
Definition can_override (a : asset_object) : bool :=
  has_flag (flags (options a)) override_authority.

(** [asset_object::bitasset_data] *)
Definition bitasset_data db (a : asset_object) : result (N * asset_bitasset_data_object) :=
  i ← of_option (bitasset_data_id a) (c_assert "bitasset_data_id");
  b ← tbl_get (bitassets db) i;
  Ok (i, b).

Definition has_settlement (b : asset_bitasset_data_object) : bool :=
  negb (is_null (bit_settlement_price b)).

(** [detail::_is_authorized_asset] *)
Definition detail_is_authorized_asset db (acct : account_object) (asset_id : N) (a : asset_object) : bool :=
  if match allowed_assets acct with Some s => negb (bool_decide (asset_id ∈ s)) | None => false end
  then false
  else if negb (bool_decide (blacklisting_accounts acct ∩ blacklist_authorities (options a) = ∅))
  then false
  else if (HARDFORK_415_TIME <? head_block_time db)
          && bool_decide (whitelist_authorities (options a) = ∅)
  then true
  else negb (bool_decide (whitelisting_accounts acct ∩ whitelist_authorities (options a) = ∅)).

(** [is_authorized_asset.hpp] *)
Definition is_authorized_asset db (acct : account_object) (asset_id : N) (a : asset_object) : bool :=
  if negb (has_flag (flags (options a)) white_list)
     && match allowed_assets acct with None => true | Some _ => false end
  then true
  else detail_is_authorized_asset db acct asset_id a.

(** ** Fees: [account_object.cpp] *)

Definition cut_fee (a p : Z) : result Z :=
  if (a =? 0) || (p =? 0) then Ok 0
  else if p =? GRAPHENE_100_PERCENT then Ok a
  else
    r ← u128_to_uint64 fc_u128
          (u128_div fc_u128 (u128_mul fc_u128 (u128_of fc_u128 a) (u128_of fc_u128 p))
             (u128_of fc_u128 GRAPHENE_100_PERCENT));
    Ok (to_int64 r).

(** [account_statistics_object::pay_fee] *)
Definition stats_pay_fee (s : account_statistics_object) (core_fee cashback_vesting_threshold : Z)
  : result account_statistics_object :=
  if cashback_vesting_threshold <? core_fee then
    p ← safe_add fc_safe (pending_fees s) core_fee; Ok (s <| pending_fees := p |>)
  else
    p ← safe_add fc_safe (pending_vested_fees s) core_fee; Ok (s <| pending_vested_fees := p |>).

Definition is_lifetime_member (a : account_object) : bool :=
  membership_expiration_date a =? 2 ^ 32 - 1.
Definition is_basic_account (a : account_object) (now : Z) : bool :=
  membership_expiration_date a <? now.
Definition is_annual_member (a : account_object) (now : Z) : bool :=
  negb (is_lifetime_member a) && negb (is_basic_account a now).
Definition is_member (a : account_object) (now : Z) : bool := negb (is_basic_account a now).
Definition is_instant_payback (a : account_object) (now : Z) : bool :=
  now <? instant_payback_expiration_date a.

(** ** Vesting deposits: [db_balance.cpp] *)

(** The four conditions under which the deposit goes to the existing balance. *)
Definition lazy_target (vbo : vesting_balance_object) (req_owner : N) (req_vesting_seconds : Z) : bool :=
  (vbo_owner vbo =? req_owner)%N &&
  match policy vbo with
  | cdd_policy p => vesting_seconds p =? req_vesting_seconds
  | linear_policy _ => false
  end.

Definition new_lazy_vesting db (amount req_vesting_seconds : Z) (req_owner : N) (require_vesting : bool)
  : result (option N * database) :=
  cs ← (if require_vesting then Ok 0 else mul_int64 amount req_vesting_seconds);
  let vbo := Vesting_balance_object req_owner (Asset amount CORE_ASSET)
               (cdd_policy (Cdd_vesting_policy req_vesting_seconds (u128_of fc_u128 cs) 0
                              (head_block_time db))) in
  let '(i, t) := tbl_create (vesting_balances db) vbo in
  Ok (Some i, db <| vesting_balances := t |>).

(** The result is the new vesting balance, when one had to be created. *)
Definition deposit_lazy_vesting db (ovbid : option N) (amount req_vesting_seconds : Z)
    (req_owner : N) (require_vesting : bool) : result (option N * database) :=
  if amount =? 0 then Ok (None, db)
  else
    match ovbid with
    | None => new_lazy_vesting db amount req_vesting_seconds req_owner require_vesting
    | Some i =>
        vbo ← tbl_get (vesting_balances db) i;
        if lazy_target vbo req_owner req_vesting_seconds then
          let a := Asset amount CORE_ASSET in
          vbo' ← (if require_vesting then deposit vbo (head_block_time db) a
                  else deposit_vested vbo (head_block_time db) a);
          Ok (None, db <| vesting_balances ::= fun t => tbl_modify t i (fun _ => vbo') |>)
        else new_lazy_vesting db amount req_vesting_seconds req_owner require_vesting
    end.

Definition is_blockchain_account (i : N) : bool :=
  (i =? GRAPHENE_COMMITTEE_ACCOUNT)%N || (i =? GRAPHENE_WITNESS_ACCOUNT)%N ||
  (i =? GRAPHENE_RELAXED_COMMITTEE_ACCOUNT)%N || (i =? GRAPHENE_NULL_ACCOUNT)%N ||
  (i =? GRAPHENE_TEMP_ACCOUNT)%N.

Definition deposit_cashback db (i : N) (amount : Z) (require_vesting : bool) : result database :=
  if amount =? 0 then Ok db
  else if is_blockchain_account i then
    core ← tbl_get (assets db) CORE_ASSET;
    d ← get_dynamic db core;
    s ← safe_sub fc_safe (current_supply d) amount;
    Ok (put_dynamic db core (d <| current_supply := s |>))
  else
    acct ← tbl_get (accounts db) i;
    '(new_vbid, db) ← deposit_lazy_vesting db (cashback_vb acct) amount
                        (cashback_vesting_period_seconds (parameters db)) i require_vesting;
    match new_vbid with
    | None => Ok db
    | Some v => Ok (db <| accounts ::= fun t => tbl_modify t i (fun a => a <| cashback_vb := Some v |>) |>)
    end.

Definition deposit_witness_pay db (i : N) (amount : Z) : result database :=
  if amount =? 0 then Ok db
  else
    wit ← tbl_get (witnesses db) i;
    '(new_vbid, db) ← deposit_lazy_vesting db (pay_vb wit) amount
                        (witness_pay_vesting_seconds (parameters db)) (witness_account wit) true;
    match new_vbid with
    | None => Ok db
    | Some v => Ok (db <| witnesses ::= fun t => tbl_modify t i (fun w => w <| pay_vb := Some v |>) |>)
    end.

(** The lambda [pay_out_fees] of [account_statistics_object::process_fees]. *)
Definition pay_out_fees db (i : N) (core_fee_total : Z) (require_vesting : bool) : result database :=
  account ← tbl_get (accounts db) i;
  ref ← tbl_get (accounts db) (referrer account);
  let account :=
    if is_basic_account ref (head_block_time db)
    then account <| referrer := lifetime_referrer account |> else account in
  let db := db <| accounts ::= fun t => tbl_modify t i (fun _ => account) |> in
  network_cut ← cut_fee core_fee_total (network_fee_percentage account);
  _ ← C_ASSERT (network_cut <=? core_fee_total) "network_cut <= core_fee_total";
  reserveed ← cut_fee network_cut (reserve_percent_of_fee (parameters db));
  accumulated ← safe_sub fc_safe network_cut reserveed;
  _ ← C_ASSERT (accumulated + reserveed =? network_cut) "accumulated + reserveed == network_cut";
  lifetime_cut ← cut_fee core_fee_total (lifetime_referrer_fee_percentage account);
  r ← safe_sub fc_safe core_fee_total network_cut;
  referral ← safe_sub fc_safe r lifetime_cut;
  core ← tbl_get (dynamic_data db) CORE_ASSET;
  fees ← safe_add fc_safe (accumulated_fees core) network_cut;
  let db := db <| dynamic_data ::= fun t =>
              tbl_modify t CORE_ASSET (fun d => d <| accumulated_fees := fees |>) |> in
  referrer_cut ← cut_fee referral (referrer_rewards_percentage account);
  registrar_cut ← safe_sub fc_safe referral referrer_cut;
  _ ← tbl_get (accounts db) (lifetime_referrer account);
  db ← deposit_cashback db (lifetime_referrer account) lifetime_cut require_vesting;
  _ ← tbl_get (accounts db) (referrer account);
  db ← deposit_cashback db (referrer account) referrer_cut require_vesting;
  _ ← tbl_get (accounts db) (registrar account);
  db ← deposit_cashback db (registrar account) registrar_cut require_vesting;
  _ ← C_ASSERT (referrer_cut + registrar_cut + accumulated + reserveed + lifetime_cut =? core_fee_total)
        "referrer_cut + registrar_cut + accumulated + reserveed + lifetime_cut == core_fee_total";
  Ok db.

(** [account_statistics_object::process_fees] for the account [i]. *)
Definition process_fees db (i : N) : result database :=
  s ← get_statistics db i;
  if (0 <? pending_fees s) || (0 <? pending_vested_fees s) then
    db ← pay_out_fees db i (pending_fees s) true;
    db ← pay_out_fees db i (pending_vested_fees s) false;
    p ← safe_add fc_safe (pending_fees s) (pending_vested_fees s);
    l ← safe_add fc_safe (lifetime_fees_paid s) p;
    Ok (put_statistics db i
          (s <| lifetime_fees_paid := l |> <| pending_fees := 0 |> <| pending_vested_fees := 0 |>))
  else Ok db.
End Operations.
