(* ===== verification/Names.v ===== *)
(** * Account names

    Models [is_valid_name] and [is_cheap_name] of [protocol/account.cpp].  The
    comment of the source gives the names a grammar; [is_valid_name_spec] shows
    that the scanner accepts exactly the names of that grammar, of at most 63
    characters.  The comment also wants three characters in each label, as the
    repository's tests do; the scanner does not ask for them ([short_labels]). *)

From S2P Require Import Prelude FcLib Database.

Definition GRAPHENE_MIN_ACCOUNT_NAME_LENGTH : nat := 1.
Definition GRAPHENE_MAX_ACCOUNT_NAME_LENGTH : nat := 63.

Abbreviation char := Ascii.ascii (only parsing).

Section Scanner.
Implicit Types (c : char) (s : list char).

Definition code c : Z := Z.of_nat (Ascii.nat_of_ascii c).

(** The three [switch]es. *)
Definition letter c : bool := (97 <=? code c) && (code c <=? 122).
Definition digit c : bool := (48 <=? code c) && (code c <=? 57).
Definition let_dig c : bool := letter c || digit c.
Definition let_dig_hyp c : bool := let_dig c || (code c =? 45).
Definition is_dot c : bool := code c =? 46.

(** [name[ i ]]; beyond the end it is the terminator. *)
Definition at_pos s (i : nat) : char := nth i s Ascii.zero.

(** [name.find_first_of( '.', begin )], or the length. *)
Fixpoint scan_dot s (i : nat) : nat :=
  match s with
  | [] => i
  | c :: s => if is_dot c then i else scan_dot s (S i)
  end.
Definition find_dot s (begin : nat) : nat := scan_dot (drop begin s) begin.

(** The label from [begin] to [end]. *)
Definition label_ok s (begin end_ : nat) : bool :=
  (GRAPHENE_MIN_ACCOUNT_NAME_LENGTH <=? end_ - begin)%nat
  && letter (at_pos s begin)
  && let_dig (at_pos s (end_ - 1))
  && forallb (fun i => let_dig_hyp (at_pos s i)) (seq (S begin) (end_ - 1 - S begin)).

(** [while( true )] of [is_valid_name]. *)
Fixpoint scan_labels (fuel : nat) s (begin : nat) : result bool :=
  match fuel with
  | O => Err out_of_fuel
  | S fuel =>
      let end_ := find_dot s begin in
      if label_ok s begin end_ then
        if (end_ =? length s)%nat then Ok true else scan_labels fuel s (S end_)
      else Ok false
  end.
End Scanner.

(** [now] is the clock of the node in microseconds. *)
Definition is_valid_name (now : Z) (name : string) : result bool :=
  let s := String.list_ascii_of_string name in
  let len := length s in
  _ ← (if now <? HARDFORK_385_TIME * 1000000 then FC_ASSERT (3 <=? len)%nat "len >= 3" else Ok tt);
  if (len <? GRAPHENE_MIN_ACCOUNT_NAME_LENGTH)%nat then Ok false
  else if (GRAPHENE_MAX_ACCOUNT_NAME_LENGTH <? len)%nat then Ok false
  else scan_labels (S len) s 0.

(** The loop with its early returns and the flag [v]. *)
Fixpoint scan_cheap (s : list char) (v : bool) : bool :=
  match s with
  | [] => negb v
  | c :: s =>
      if digit c then true
      else if is_dot c || (code c =? 45) || (code c =? 47) then true
      else scan_cheap s (v || existsb (Z.eqb (code c)) [97; 101; 105; 111; 117; 121])
  end.
Definition is_cheap_name (n : string) : bool := scan_cheap (String.list_ascii_of_string n) false.

(** ** The grammar *)

(** <label> ::= <letter> [ [ <let-dig-hyp>+ ] <let-dig> ] *)
Inductive label : list char -> Prop :=
  | label_letter c : letter c = true -> label [c]
  | label_long c m d : letter c = true -> forallb let_dig_hyp m = true -> let_dig d = true ->
      label (c :: m ++ [d]).

(** <subdomain> ::= <label> ("." <label>)* *)
Inductive subdomain : list char -> Prop :=
  | subdomain_label l : label l -> subdomain l
  | subdomain_dot l dot s : label l -> is_dot dot = true -> subdomain s -> subdomain (l ++ dot :: s).

(** ** The scanner decides the grammar *)

Definition dot_free (s : list char) : Prop := forallb (fun c => negb (is_dot c)) s = true.

Section Facts.
Implicit Types (c d : char) (s p r : list char).

Ltac codes := unfold let_dig_hyp, let_dig, letter, digit, is_dot in *; bool_to_prop; lia.

Lemma letter_let_dig c : letter c = true -> let_dig c = true.
Proof. unfold let_dig. by intros ->. Qed.

Lemma let_dig_hyp_dot c : let_dig_hyp c = true -> negb (is_dot c) = true.
Proof.
  unfold let_dig_hyp, let_dig, letter, digit, is_dot. intros H. apply negb_true_iff, Z.eqb_neq. intros E.
  rewrite E in H. done.
Qed.

Lemma let_dig_dot c : let_dig c = true -> negb (is_dot c) = true.
Proof. intros H. apply let_dig_hyp_dot. unfold let_dig_hyp. by rewrite H. Qed.

Lemma forallb_mono {A} (f g : A -> bool) l :
  (forall x, f x = true -> g x = true) -> forallb f l = true -> forallb g l = true.
Proof. rewrite !forallb_forall. naive_solver. Qed.

Lemma label_dot_free l : label l -> dot_free l.
Proof.
  unfold dot_free. destruct 1 as [c Hc|c m d Hc Hm Hd]; simpl; apply letter_let_dig in Hc;
    rewrite let_dig_dot by done; simpl; [done|].
  rewrite forallb_app. simpl. rewrite (let_dig_dot d) by done. simpl.
  rewrite (forallb_mono _ _ _ let_dig_hyp_dot Hm). done.
Qed.

(** A text splits in one way at its first dot. *)
Lemma split_unique p p' c c' r r' :
  dot_free p -> dot_free p' -> is_dot c = true -> is_dot c' = true ->
  p ++ c :: r = p' ++ c' :: r' -> p = p' /\ r = r'.
Proof.
  unfold dot_free. revert p'. induction p as [|x p IH]; intros [|x' p'] Hp Hp' Hc Hc'; simpl in *;
    bool_to_prop; intros [= -> E]; [done|congruence|congruence|]. destruct (IH p') as [-> ->]; done.
Qed.

Lemma dot_free_no_dot p l c r : dot_free p -> is_dot c = true -> p <> l ++ c :: r.
Proof. intros Hp Hc ->. unfold dot_free in Hp. rewrite forallb_app in Hp. simpl in Hp. bool_to_prop. congruence. Qed.

Lemma subdomain_last p : dot_free p -> subdomain p <-> label p.
Proof.
  intros Hp. split; [|by constructor]. inversion 1 as [|l c s Hl Hc Hs E]; subst; [done|].
  exfalso. by eapply (dot_free_no_dot (l ++ c :: s)).
Qed.

Lemma subdomain_split p c r : dot_free p -> is_dot c = true -> subdomain (p ++ c :: r) <-> label p /\ subdomain r.
Proof.
  intros Hp Hc. split; [|by intros [? ?]; constructor]. inversion 1 as [l Hl E|l c' s Hl Hc' Hs E].
  - exfalso. by eapply (dot_free_no_dot _ p c r (label_dot_free _ Hl)).
  - apply split_unique in E as [-> ->]; [done|by apply label_dot_free|done..].
Qed.

Lemma scan_dot_spec s : forall i, exists p r, s = p ++ r /\ dot_free p /\ scan_dot s i = (i + length p)%nat /\
  (r = [] \/ exists c r', r = c :: r' /\ is_dot c = true).
Proof.
  induction s as [|c s IH]; intros i; simpl.
  - exists [], []. split_and!; [done|done|simpl; lia|by left].
  - destruct (is_dot c) eqn:Hc.
    + exists [], (c :: s). split_and!; [done|done|simpl; lia|right; eauto].
    + destruct (IH (S i)) as (p & r & -> & Hp & -> & Hr). exists (c :: p), r.
      split_and!; [done| |simpl; lia|done]. unfold dot_free. simpl. by rewrite Hc.
Qed.

Lemma at_pos_app q p r i : (i < length p)%nat -> at_pos (q ++ p ++ r) (length q + i) = at_pos p i.
Proof. intros Hi. unfold at_pos. rewrite app_nth2_plus, app_nth1 by done. done. Qed.

(** The test of a label, on the label alone. *)
Lemma label_ok_label q p r : label_ok (q ++ p ++ r) (length q) (length q + length p) = true <-> label p.
Proof.
  unfold label_ok, GRAPHENE_MIN_ACCOUNT_NAME_LENGTH. destruct p as [|c p].
  { simpl. rewrite Nat.add_0_r, Nat.sub_diag. split; [done|inversion 1]. }
  replace (length q + length (c :: p) - length q)%nat with (length (c :: p)) by lia.
  pose proof (at_pos_app q (c :: p) r 0) as E0. rewrite Nat.add_0_r in E0.
  rewrite E0 by (simpl; lia). unfold at_pos at 1. simpl nth.
  replace (length q + length (c :: p) - 1)%nat with (length q + length p)%nat by (simpl; lia).
  rewrite at_pos_app by (simpl; lia).
  destruct p as [|d m _] using rev_ind.
  { simpl. unfold at_pos. simpl.
    replace (length q + 0 - S (length q))%nat with 0%nat by lia. simpl. rewrite andb_true_r.
    split; [intros [Hc _]%andb_true_iff; by constructor|]. inversion 1 as [c' Hc|c' m d Hc Hm Hd E]; subst.
    - by rewrite Hc, letter_let_dig.
    - by destruct m. }
  rewrite length_app. simpl (length [d]).
  replace (at_pos (c :: m ++ [d]) (length m + 1)) with d
    by (unfold at_pos; rewrite Nat.add_1_r; simpl; by rewrite nth_middle).
  replace (length q + (length m + 1) - S (length q))%nat with (length m) by lia.
  assert (Hm : forallb (fun i => let_dig_hyp (at_pos (q ++ (c :: m ++ [d]) ++ r) i)) (seq (S (length q)) (length m))
               = forallb let_dig_hyp m).
  { replace (q ++ (c :: m ++ [d]) ++ r) with ((q ++ [c]) ++ m ++ (d :: r)) by by rewrite <-!app_assoc; simpl; rewrite <-app_assoc.
    replace (S (length q)) with (length (q ++ [c])) by (rewrite length_app; simpl; lia).
    generalize (q ++ [c]). clear. induction m as [|x m IH]; intros q; [done|]. simpl. f_equal.
    - f_equal. pose proof (at_pos_app q (x :: m) (d :: r) 0) as E. rewrite Nat.add_0_r in E. exact (E ltac:(simpl; lia)).
    - rewrite <-(IH (q ++ [x])). rewrite length_app. simpl. rewrite Nat.add_1_r. by rewrite <-app_assoc. }
  rewrite Hm. simpl. rewrite !andb_true_iff. split.
  - intros [[Hc Hd] Hh]. by constructor.
  - intros L. remember (c :: m ++ [d]) as l eqn:E. destruct L as [c' Hc|c' m' d' Hc Hh Hd]; injection E; [by destruct m|].
    intros [-> ->]%app_inj_tail ->. done.
Qed.

Lemma scan_labels_spec fuel : forall s q, (length s < fuel)%nat ->
  exists b, scan_labels fuel (q ++ s) (length q) = Ok b /\ (b = true <-> subdomain s).
Proof.
  induction fuel as [|fuel IH]; intros s q Hf; [lia|]. cbn [scan_labels]. unfold find_dot.
  rewrite drop_app_length. destruct (scan_dot_spec s (length q)) as (p & r & -> & Hp & -> & Hr).
  pose proof (label_ok_label q p r) as HL. rewrite length_app in Hf.
  destruct (label_ok _ _ _) eqn:Hl.
  - apply proj1 in HL. specialize (HL eq_refl). destruct Hr as [->|(c & r' & -> & Hc)].
    + rewrite app_nil_r in *. rewrite length_app, Nat.eqb_refl. exists true. split; [done|]. rewrite subdomain_last by done. done.
    + destruct (Nat.eqb_spec (length q + length p) (length (q ++ p ++ c :: r'))) as [E|_].
      { rewrite !length_app in E. simpl in E. lia. }
      destruct (IH r' (q ++ p ++ [c])) as (b & Hb & Hs); [simpl in Hf; lia|].
      exists b. split; [|rewrite subdomain_split by done; naive_solver].
      rewrite <-Hb. f_equal; [by rewrite <-!app_assoc|]. rewrite !length_app. simpl. lia.
  - exists false. split; [done|]. split; [done|]. intros Hs. exfalso. revert Hl.
    enough (label p) as E by (apply HL in E; done).
    destruct Hr as [->|(c & r' & -> & Hc)].
    + rewrite app_nil_r in Hs. by apply subdomain_last.
    + by apply subdomain_split in Hs as [? _].
Qed.
End Facts.

(** ** Properties *)

(** C23: [is_valid_name] accepts exactly the names of the grammar (labels
    separated by dots, each a letter or a letter, letters, digits and hyphens, and
    a letter or digit, all in lower case) of 1 to 63 characters; its loop ends.
    While the clock of the node is before hard fork 385 it throws for names of
    less than 3 characters. *)
Theorem is_valid_name_spec (now : Z) (name : string) :
  let s := String.list_ascii_of_string name in
  if (now <? HARDFORK_385_TIME * 1000000) && (length s <? 3)%nat
  then is_valid_name now name = Err (assert_exception "len >= 3")
  else exists b, is_valid_name now name = Ok b /\
         (b = true <-> (1 <= length s <= 63)%nat /\ subdomain s).
Proof.
  cbv zeta. unfold is_valid_name, GRAPHENE_MIN_ACCOUNT_NAME_LENGTH, GRAPHENE_MAX_ACCOUNT_NAME_LENGTH.
  set (s := String.list_ascii_of_string name).
  assert (E : exists b, (if (length s <? 1)%nat then Ok false
     else if (63 <? length s)%nat then Ok false else scan_labels (S (length s)) s 0) = Ok b /\
     (b = true <-> (1 <= length s <= 63)%nat /\ subdomain s)).
  { destruct (Nat.ltb_spec (length s) 1); [exists false; split; [done|]; split; [done|lia]|].
    destruct (Nat.ltb_spec 63 (length s)); [exists false; split; [done|]; split; [done|lia]|].
    destruct (scan_labels_spec (S (length s)) s []) as (b & Hb & Hs); [lia|].
    exists b. split; [exact Hb|]. rewrite Hs. split; [done|naive_solver]. }
  destruct (_ <? _); cbn [andb]; [|exact E]. destruct (Nat.ltb_spec (length s) 3), (Nat.leb_spec 3 (length s)); first [lia | done | exact E].
Qed.

(** Labels of less than three characters are accepted, against the comment and the
    tests. *)
Example short_labels : Forall (fun n => is_valid_name (HARDFORK_385_TIME * 1000000) n = Ok true)
  ["a"; "a0"; "a.a"; "xn--sandmnnchen-p8a.de"]%string.
Proof. by repeat constructor. Qed.

Example valid_names : is_valid_name 0 "n-0.a1"%string = Ok true /\ is_valid_name 0 "a..b"%string = Ok false /\
  is_valid_name 0 "abc."%string = Ok false /\ is_cheap_name "bcd"%string = true /\ is_cheap_name "abc"%string = false.
Proof. by vm_compute. Qed.
