(* ===== verification/Ledger.v ===== *)
(** * The ledger

    Where every unit of every asset is: balances, orders, collateral, force
    settlements, vesting balances, fees and funds.  [holdings] adds them up for
    one asset; the lemmas say how each primitive of the chain state moves it.
    The components prove that their operations conserve it. *)

From S2P Require Import Prelude FcLib Asset Vesting Objects Database.

Definition amount_in (a : N) (x : asset) : Z := if (asset_id x =? a)%N then amount x else 0.
Definition core_in (a : N) (z : Z) : Z := if (a =? CORE_ASSET)%N then z else 0.

Definition balance_part (a : N) (k : N * N) (b : Z) : Z := amount_in a (Asset b k.2).
Definition order_part (a : N) (_ : N) (o : limit_order_object) : Z :=
  amount_in a (Asset (for_sale o) (asset_id (base (sell_price o)))) + core_in a (deferred_fee o).
Definition call_part (a : N) (_ : N) (c : call_order_object) : Z :=
  amount_in a (Asset (collateral c) (asset_id (base (call_order_price c)))).
Definition settlement_part (a : N) (_ : N) (s : force_settlement_object) : Z :=
  amount_in a (settle_balance s).
Definition vesting_part (a : N) (_ : N) (v : vesting_balance_object) : Z :=
  amount_in a (vbo_balance v).
Definition statistics_part (a : N) (_ : N) (s : account_statistics_object) : Z :=
  core_in a (pending_fees s + pending_vested_fees s).
Definition pool_part (a : N) (_ : N) (d : asset_dynamic_data_object) : Z := core_in a (fee_pool d).
Definition fund_part (a : N) (_ : N) (b : asset_bitasset_data_object) : Z :=
  amount_in a (Asset (settlement_fund b) (short_backing_asset (bit_options b))).

(** The dynamic data of the asset [a]. *)
Definition dynamic_of (db : database) (a : N) : option asset_dynamic_data_object :=
  ao ← objs (assets db) !! a; objs (dynamic_data db) !! dynamic_asset_data_id ao.

Definition supply (db : database) (a : N) : Z :=
  match dynamic_of db a with Some d => current_supply d | None => 0 end.
Definition fees_of (db : database) (a : N) : Z :=
  match dynamic_of db a with Some d => accumulated_fees d | None => 0 end.

Definition holdings (db : database) (a : N) : Z :=
  map_sum (balance_part a) (balances db)
  + map_sum (order_part a) (objs (limit_orders db))
  + map_sum (call_part a) (objs (call_orders db))
  + map_sum (settlement_part a) (objs (settlements db))
  + map_sum (vesting_part a) (objs (vesting_balances db))
  + map_sum (statistics_part a) (statistics db)
  + map_sum (pool_part a) (objs (dynamic_data db))
  + map_sum (fund_part a) (objs (bitassets db))
  + fees_of db a
  + core_in a (witness_budget (dgpo db)).

(** Every asset has dynamic data of its own; that of the core asset is object 0,
    which the code addresses directly.  The fee options are valid. *)
Record wf_assets (db : database) : Prop := {
  wf_dynamic_inj i j ao bo :
    objs (assets db) !! i = Some ao -> objs (assets db) !! j = Some bo ->
    dynamic_asset_data_id ao = dynamic_asset_data_id bo -> i = j;
  wf_core : exists ao, objs (assets db) !! CORE_ASSET = Some ao /\
    dynamic_asset_data_id ao = CORE_ASSET;
  wf_market_fees i ao : objs (assets db) !! i = Some ao ->
    0 <= market_fee_percent (options ao) <= GRAPHENE_100_PERCENT /\ 0 <= max_market_fee (options ao);
}.

(** Only a globally settled asset has a settlement fund. *)
Definition wf_funds `{FC : FcLib} (db : database) : Prop :=
  forall i b, objs (bitassets db) !! i = Some b -> has_settlement b = false -> settlement_fund b = 0.

(** Ids are handed out once, and the assets and funds are sound. *)
Record wf_db `{FC : FcLib} (db : database) : Prop := {
  wf_db_assets : wf_assets db;
  wf_db_funds : wf_funds db;
  wf_for_sale i o : objs (limit_orders db) !! i = Some o ->
    in_int64 (for_sale o) /\ 0 <= deferred_fee o;
  wf_limit_orders : wf_table (limit_orders db);
  wf_call_orders : wf_table (call_orders db);
  wf_settlements : wf_table (settlements db);
  wf_vesting_balances : wf_table (vesting_balances db);
}.

(** What the holdings exceed the supply by: preserved by whatever neither
    creates nor destroys value. *)
Definition unbacked (db : database) (a : N) : Z := holdings db a - supply db a.

(** [db'] is well formed if [db] is, differs from it by [f a] in every asset, and
    no deflation has moved on. *)
Definition moves `{FC : FcLib} (db db' : database) (f : N -> Z) : Prop :=
  wf_db db -> wf_db db' /\ deflations db' = deflations db /\
    forall a, unbacked db' a = unbacked db a + f a.

(** Balances are non-negative 64-bit amounts. *)
Definition wf_balances (db : database) : Prop :=
  forall k b, balances db !! k = Some b -> nonneg64 b.

Section Lemmas.
Context `{FC : FcLib, !FcLaws FC}.
Implicit Types (db : database) (a i : N) (delta : asset).

Lemma asset_neg_ok delta :
  in_int64 (- amount delta) -> asset_neg delta = Ok (Asset (- amount delta) (asset_id delta)).
Proof. intros H. unfold asset_neg. by rewrite (safe_neg_ok _ fc_safe_laws). Qed.

Lemma asset_neg_inv (x y : asset) : asset_neg x = Ok y -> y = Asset (- amount x) (asset_id x).
Proof. unfold asset_neg. intros H. inv_result. by inv_safe. Qed.

Lemma asset_sub_inv (x y z : asset) :
  asset_sub x y = Ok z -> z = Asset (amount x - amount y) (asset_id x) /\ asset_id x = asset_id y.
Proof.
  unfold asset_sub. intros H. inv_result. inv_safe.
  match goal with H : (_ =? _)%N = true |- _ => apply N.eqb_eq in H end. done.
Qed.

Lemma asset_div_inv (x y : asset) p :
  asset_div x y = Ok p -> p = Price x y /\ asset_id x <> asset_id y.
Proof.
  unfold asset_div. intros H. inv_result.
  match goal with H : negb _ = true |- _ => apply negb_true_iff, N.eqb_neq in H end. done.
Qed.

Lemma asset_geb_same x y id : asset_geb (Asset x id) (Asset y id) = Ok (y <=? x).
Proof.
  unfold asset_geb, asset_ltb; simpl. rewrite N.eqb_refl. simpl.
  f_equal. destruct (Z.ltb_spec x y), (Z.leb_spec y x); simpl; lia || done.
Qed.

Lemma amount_in_add a x y id :
  amount_in a (Asset (x + y) id) = amount_in a (Asset x id) + amount_in a (Asset y id).
Proof. unfold amount_in; simpl. case_match; lia. Qed.

Lemma amount_in_sub a x y id :
  amount_in a (Asset (x - y) id) = amount_in a (Asset x id) - amount_in a (Asset y id).
Proof. unfold amount_in; simpl. case_match; lia. Qed.

Lemma amount_in_opp a (x : asset) : amount_in a (Asset (- amount x) (asset_id x)) = - amount_in a x.
Proof. unfold amount_in; simpl. case_match; lia. Qed.

Lemma core_in_add a x y : core_in a (x + y) = core_in a x + core_in a y.
Proof. unfold core_in. case_match; lia. Qed.

Lemma core_in_sub a x y : core_in a (x - y) = core_in a x - core_in a y.
Proof. unfold core_in. case_match; lia. Qed.

Lemma amount_in_core a x : amount_in a (Asset x CORE_ASSET) = core_in a x.
Proof. unfold amount_in, core_in; simpl. by rewrite N.eqb_sym. Qed.

Lemma core_in_0 a : core_in a 0 = 0.
Proof. unfold core_in. by case_match. Qed.

Lemma amount_in_0 a id : amount_in a (Asset 0 id) = 0.
Proof. unfold amount_in; simpl. by case_match. Qed.

(** ** Balances *)

Lemma get_balance_lookup db i a :
  amount (get_balance db i a) = default 0 (balances db !! (i, a)).
Proof. unfold get_balance. by destruct (balances db !! (i, a)). Qed.

(** What [adjust_balance] does when it succeeds: one entry moves by [delta]. *)
Lemma adjust_balance_inv db i delta db' :
  adjust_balance db i delta = Ok db' ->
  exists b, db' = db <| balances := b |> /\
    (forall j c, amount (get_balance db' j c) =
       amount (get_balance db j c)
       + (if decide ((j, c) = (i, asset_id delta)) then amount delta else 0)) /\
    (forall a, map_sum (balance_part a) b = map_sum (balance_part a) (balances db) + amount_in a delta).
Proof.
  unfold adjust_balance. destruct (Z.eqb_spec (amount delta) 0) as [H0|H0].
  { intros [= <-]. exists (balances db). split; [by destruct db|]. split.
    - intros j c. case_decide; lia.
    - intros a. unfold amount_in. case_match; lia. }
  destruct (balances db !! (i, asset_id delta)) as [b|] eqn:Hb; intros H; inv_result.
  - inv_safe. eexists; split; [reflexivity|]. split.
    + intros j c. rewrite !get_balance_lookup. simpl. case_decide as Hd.
      * simplify_eq. rewrite lookup_insert_eq, Hb. done.
      * rewrite lookup_insert_ne by congruence. lia.
    + intros a'. simpl. rewrite map_sum_insert, Hb. simpl. unfold balance_part; simpl.
      rewrite amount_in_add. destruct delta; simpl. lia.
  - eexists; split; [reflexivity|]. split.
    + intros j c. rewrite !get_balance_lookup. simpl. case_decide as Hd.
      * simplify_eq. rewrite lookup_insert_eq, Hb. done.
      * rewrite lookup_insert_ne by congruence. lia.
    + intros a'. simpl. rewrite map_sum_insert, Hb. simpl. unfold balance_part; simpl.
      destruct delta; simpl. lia.
Qed.

(** ** Conservation *)

Lemma moves_refl db : moves db db (fun _ => 0).
Proof. intros H. split_and!; [done..|intros; lia]. Qed.

Lemma moves_step db1 db2 db3 f g :
  moves db1 db2 f -> moves db2 db3 g -> moves db1 db3 (fun a => f a + g a).
Proof.
  intros H12 H23 Hwf. destruct (H12 Hwf) as (Hwf2 & D2 & E2).
  destruct (H23 Hwf2) as (Hwf3 & D3 & E3).
  split_and!; [done|congruence|]. intros a. rewrite E3, E2. lia.
Qed.

Lemma moves_eq db1 db2 f g : moves db1 db2 f -> (forall a, f a = g a) -> moves db1 db2 g.
Proof.
  intros H Hfg Hwf. destruct (H Hwf) as (? & ? & E). split_and!; [done..|].
  intros a. by rewrite E, Hfg.
Qed.

(** A change outside the tables that hold value. *)
Lemma moves_same db db' :
  balances db' = balances db -> limit_orders db' = limit_orders db ->
  call_orders db' = call_orders db -> settlements db' = settlements db ->
  vesting_balances db' = vesting_balances db -> statistics db' = statistics db ->
  assets db' = assets db -> dynamic_data db' = dynamic_data db -> bitassets db' = bitassets db ->
  witness_budget (dgpo db') = witness_budget (dgpo db) -> deflations db' = deflations db ->
  moves db db' (fun _ => 0).
Proof.
  destruct db, db'; simpl; intros; subst. intros [[]]. split_and!; [by split|done|].
  intros a. unfold unbacked, holdings, supply, fees_of, dynamic_of; simpl.
  match goal with H : witness_budget _ = _ |- _ => rewrite H end. lia.
Qed.

Lemma adjust_balance_moves db i delta db' :
  adjust_balance db i delta = Ok db' -> moves db db' (fun a => amount_in a delta).
Proof.
  intros (b & -> & _ & Hs)%adjust_balance_inv [[]]. split_and!; [by split|done|].
  intros a. unfold unbacked, holdings, supply, fees_of, dynamic_of; simpl.
  rewrite Hs. lia.
Qed.

(** When [adjust_balance] succeeds. *)
Lemma adjust_balance_ok db i delta :
  wf_balances db -> in_int64 (amount delta) -> amount delta <> INT64_MIN ->
  in_int64 (amount (get_balance db i (asset_id delta)) + amount delta) ->
  (exists db', adjust_balance db i delta = Ok db') <->
  amount delta = 0 \/ 0 <= amount (get_balance db i (asset_id delta)) + amount delta.
Proof.
  intros Hwf Hin Hmin Hsum. rewrite get_balance_lookup in *. unfold adjust_balance.
  destruct (Z.eqb_spec (amount delta) 0) as [H0|H0]; [naive_solver|].
  destruct (balances db !! (i, asset_id delta)) as [b|] eqn:Hb; simpl in *.
  - apply Hwf in Hb. unfold nonneg64 in Hb.
    destruct (Z.ltb_spec (amount delta) 0).
    + rewrite asset_neg_ok by (unfold_bounds; lia). cbn [mbind result_bind].
      rewrite asset_geb_same. cbn [mbind result_bind].
      destruct (Z.leb_spec (- amount delta) b); simpl.
      * rewrite (safe_add_ok _ fc_safe_laws) by done. split; [lia|eauto].
      * split; [intros [? ?]; done|lia].
    + simpl. rewrite (safe_add_ok _ fc_safe_laws) by done. split; [lia|eauto].
  - destruct (Z.ltb_spec 0 (amount delta)); simpl.
    + split; [lia|eauto].
    + split; [intros [? ?]; done|lia].
Qed.

Lemma adjust_balance_wf db i delta db' :
  wf_balances db -> adjust_balance db i delta = Ok db' -> in_int64 (amount delta) -> wf_balances db'.
Proof.
  intros Hwf H Hin. unfold adjust_balance in H.
  destruct (Z.eqb_spec (amount delta) 0) as [H0|H0]; [by simplify_eq|].
  destruct (balances db !! (i, asset_id delta)) as [b|] eqn:Hb; inv_result.
  - inv_safe. apply Hwf in Hb as Hb'. unfold nonneg64 in Hb'.
    intros k x. simpl. rewrite lookup_insert_Some. intros [[_ <-]|[_ Hk]]; [|by apply Hwf in Hk].
    split; [|unfold_bounds; lia].
    destruct (Z.ltb_spec (amount delta) 0); [|lia]. inv_result.
    unfold asset_neg in *. inv_result. inv_safe. rewrite asset_geb_same in *.
    inv_result. bool_to_prop. lia.
  - bool_to_prop. intros k x. simpl. rewrite lookup_insert_Some. unfold nonneg64.
    intros [[_ <-]|[_ Hk]]; [unfold_bounds; lia|by apply Hwf in Hk].
Qed.

(** ** Dynamic data, statistics and vesting balances *)

Lemma dynamic_of_put db a ao d :
  wf_assets db -> objs (assets db) !! a = Some ao ->
  objs (dynamic_data db) !! dynamic_asset_data_id ao <> None ->
  forall c, dynamic_of (put_dynamic db ao d) c = if decide (c = a) then Some d else dynamic_of db c.
Proof.
  intros Hwf Ha Hd c. unfold dynamic_of, put_dynamic, tbl_modify; simpl.
  destruct (objs (assets db) !! c) as [co|] eqn:Hc; simpl.
  - case_decide as Heq.
    + simplify_eq. rewrite lookup_alter_eq.
      by destruct (objs (dynamic_data db) !! dynamic_asset_data_id ao).
    + rewrite lookup_alter_ne; [done|]. intros Hid.
      by apply Heq; eapply (wf_dynamic_inj db Hwf).
  - case_decide; [congruence|done].
Qed.

(** The change of one asset's dynamic data. *)
Lemma put_dynamic_moves db a ao d d' :
  objs (assets db) !! a = Some ao ->
  objs (dynamic_data db) !! dynamic_asset_data_id ao = Some d ->
  moves db (put_dynamic db ao d') (fun c =>
    core_in c (fee_pool d' - fee_pool d)
    + amount_in c (Asset (accumulated_fees d' - accumulated_fees d
                          - (current_supply d' - current_supply d)) a)).
Proof.
  intros Ha Hd [Hwf]. split_and!; [by destruct Hwf; split|done|].
  intros c. unfold unbacked, holdings, supply, fees_of.
  rewrite (dynamic_of_put db a) by (rewrite ?Hd; done).
  unfold put_dynamic, tbl_modify; simpl. rewrite map_sum_alter, Hd. simpl. unfold pool_part.
  unfold amount_in; simpl. rewrite core_in_sub.
  destruct (N.eqb_spec a c) as [<-|Hne].
  - rewrite decide_True by done.
    assert (dynamic_of db a = Some d) as ->; [|lia].
    unfold dynamic_of. by rewrite Ha.
  - rewrite decide_False by done. lia.
Qed.

Lemma lookup_put_statistics db i s s' :
  statistics db !! i = Some s -> statistics (put_statistics db i s') !! i = Some s'.
Proof. intros H. simpl. by rewrite lookup_alter_eq, H. Qed.

Lemma put_statistics_moves db i s s' :
  statistics db !! i = Some s ->
  moves db (put_statistics db i s') (fun c =>
    core_in c (pending_fees s' + pending_vested_fees s' - (pending_fees s + pending_vested_fees s))).
Proof.
  intros Hs [[]]. split_and!; [by split|done|]. intros c.
  unfold unbacked, holdings, put_statistics, supply, fees_of, dynamic_of; simpl.
  rewrite map_sum_alter, Hs. simpl. unfold statistics_part. rewrite core_in_sub. lia.
Qed.

Lemma deposit_balance v now x v' :
  deposit v now x = Ok v' \/ deposit_vested v now x = Ok v' ->
  vbo_balance v' = Asset (amount (vbo_balance v) + amount x) (asset_id (vbo_balance v)) /\
  asset_id x = asset_id (vbo_balance v).
Proof.
  intros [H|H]; unfold deposit, deposit_vested, asset_add in H; inv_result; inv_safe;
    match goal with E : (_ =? _)%N = true |- _ => apply N.eqb_eq in E end; by split.
Qed.

Lemma put_vesting_moves db i v v' x :
  objs (vesting_balances db) !! i = Some v ->
  vbo_balance v' = Asset (amount (vbo_balance v) + x) (asset_id (vbo_balance v)) ->
  moves db (db <| vesting_balances ::= fun t => tbl_modify t i (fun _ => v') |>)
    (fun c => amount_in c (Asset x (asset_id (vbo_balance v)))).
Proof.
  intros Hv Hb [[] ? ? ? ? ? Hwf]. split_and!; [split; try done; by apply tbl_modify_wf|done|]. intros c.
  unfold unbacked, holdings, supply, fees_of, dynamic_of; simpl.
  rewrite map_sum_alter, Hv. simpl. unfold vesting_part. rewrite Hb, amount_in_add.
  destruct (vbo_balance v); simpl. lia.
Qed.

Lemma new_vesting_moves db v :
  moves db (db <| vesting_balances := (tbl_create (vesting_balances db) v).2 |>)
    (fun c => amount_in c (vbo_balance v)).
Proof.
  intros [[] ? ? ? ? ? Hwf]. split_and!; [split; try done; by apply tbl_create_wf|done|]. intros c.
  unfold unbacked, holdings, supply, fees_of, dynamic_of; simpl.
  rewrite map_sum_insert_new by by apply wf_table_fresh. unfold vesting_part at 1. lia.
Qed.

Lemma deposit_lazy_vesting_moves db o x s owner b v db' :
  deposit_lazy_vesting db o x s owner b = Ok (v, db') -> moves db db' (fun c => core_in c x).
Proof.
  assert (Hnew : new_lazy_vesting db x s owner b = Ok (v, db') -> moves db db' (fun c => core_in c x)).
  { unfold new_lazy_vesting. intros H. inv_result. unfold tbl_create in H. inv_result.
    eapply moves_eq; [eapply (new_vesting_moves db (Vesting_balance_object _ _ _))|].
    intros c. apply amount_in_core. }
  unfold deposit_lazy_vesting. destruct (Z.eqb_spec x 0) as [->|].
  { intros H. inv_result. eapply moves_eq; [apply moves_refl|]. intros c. by rewrite core_in_0. }
  destruct o as [i|]; [|done]. intros H. inv_result. apply tbl_get_inv in H0.
  destruct lazy_target; [|by apply Hnew]. inv_result.
  destruct (deposit_balance a (head_block_time db) (Asset x CORE_ASSET) a0) as [Hb Hid];
    [destruct b; auto|].
  eapply moves_eq; [by eapply put_vesting_moves|]. intros c. simpl in Hid. rewrite <-Hid. apply amount_in_core.
Qed.

Lemma deposit_cashback_moves db i x b db' :
  deposit_cashback db i x b = Ok db' -> moves db db' (fun c => core_in c x).
Proof.
  unfold deposit_cashback. destruct (Z.eqb_spec x 0) as [->|].
  { intros H. inv_result. eapply moves_eq; [apply moves_refl|]. intros c. by rewrite core_in_0. }
  destruct is_blockchain_account; intros H; inv_result.
  - unfold get_dynamic in *. inv_get. inv_safe.
    eapply moves_eq; [by eapply put_dynamic_moves|]. intros c. simpl.
    rewrite <-!amount_in_core. unfold amount_in; simpl. case_match; lia.
  - destruct a0 as [v db1]. apply deposit_lazy_vesting_moves in H1.
    destruct v; inv_result; [|done].
    eapply moves_eq; [eapply moves_step; [exact H1|by apply moves_same]|]. intros c. simpl. lia.
Qed.

Lemma deposit_witness_pay_moves db i x db' :
  deposit_witness_pay db i x = Ok db' -> moves db db' (fun c => core_in c x).
Proof.
  unfold deposit_witness_pay. destruct (Z.eqb_spec x 0) as [->|].
  { intros H. inv_result. eapply moves_eq; [apply moves_refl|]. intros c. by rewrite core_in_0. }
  intros H; inv_result. destruct a0 as [v db1]. apply deposit_lazy_vesting_moves in H1.
  destruct v; inv_result; [|done].
  eapply moves_eq; [eapply moves_step; [exact H1|by apply moves_same]|]. intros c. simpl. lia.
Qed.

(** The core asset's dynamic data is addressed by its id. *)
Lemma core_dynamic_moves db d g :
  objs (dynamic_data db) !! CORE_ASSET = Some d -> fee_pool (g d) = fee_pool d ->
  current_supply (g d) = current_supply d ->
  moves db (db <| dynamic_data ::= fun t => tbl_modify t CORE_ASSET g |>)
    (fun c => core_in c (accumulated_fees (g d) - accumulated_fees d)).
Proof.
  intros Hd Hp Hs Hwf. destruct (wf_core db) as (ao & Ha & Hid); [apply Hwf|].
  rewrite <-Hid in Hd. destruct (put_dynamic_moves db CORE_ASSET ao d (g d) Ha Hd Hwf) as (Hwf' & D & E).
  unfold put_dynamic in Hwf', E. rewrite Hid in Hwf', E, Hd.
  cbv [update] in *. rewrite (tbl_modify_const _ _ _ _ Hd). split_and!; [done..|].
  intros c. rewrite (E c), Hp, Hs, !Z.sub_diag, core_in_0, Z.sub_0_r, amount_in_core. done.
Qed.

Lemma accounts_moves db f : moves db (db <| accounts ::= f |>) (fun _ => 0).
Proof. by apply moves_same. Qed.

Lemma pay_out_fees_moves db i x b db' :
  pay_out_fees db i x b = Ok db' -> moves db db' (fun c => core_in c x).
Proof.
  unfold pay_out_fees. cbv zeta. intros H. inv_result. inv_get. inv_safe.
  repeat match goal with H : deposit_cashback _ _ _ _ = _ |- _ => apply deposit_cashback_moves in H end.
  eapply moves_eq.
  { eapply moves_step; [|eassumption]. eapply moves_step; [|eassumption].
    eapply moves_step; [|eassumption]. eapply moves_step; [apply accounts_moves|].
    by eapply core_dynamic_moves. }
  intros c. simpl. rewrite !core_in_sub, core_in_add. lia.
Qed.

Lemma deposit_lazy_vesting_statistics db o x s owner b v db' :
  deposit_lazy_vesting db o x s owner b = Ok (v, db') -> statistics db' = statistics db.
Proof.
  unfold deposit_lazy_vesting, new_lazy_vesting, tbl_create. intros H.
  destruct (x =? 0); [by inv_result|]. destruct o; inv_result; [|done].
  destruct lazy_target; by inv_result.
Qed.

Lemma deposit_cashback_statistics db i x b db' :
  deposit_cashback db i x b = Ok db' -> statistics db' = statistics db.
Proof.
  unfold deposit_cashback. intros H. destruct (x =? 0); [by inv_result|].
  destruct is_blockchain_account; inv_result; [done|]. destruct a0 as [v db1].
  apply deposit_lazy_vesting_statistics in H1 as <-. by destruct v; inv_result.
Qed.

Lemma pay_out_fees_statistics db i x b db' :
  pay_out_fees db i x b = Ok db' -> statistics db' = statistics db.
Proof.
  unfold pay_out_fees. cbv zeta. intros H. inv_result.
  repeat match goal with H : deposit_cashback _ _ _ _ = _ |- _ =>
    apply deposit_cashback_statistics in H; simpl in H end. congruence.
Qed.

(** Paying out the fees of an account moves its pending fees to the network's
    account and the vesting balances. *)
Lemma process_fees_moves db i db' :
  process_fees db i = Ok db' -> moves db db' (fun _ => 0).
Proof.
  unfold process_fees. intros H. inv_result. destruct (_ || _); inv_result; [|by apply moves_refl].
  apply of_option_Ok in H0. inv_safe.
  assert (statistics a1 !! i = Some a) as Hs.
  { apply pay_out_fees_statistics in H1, H2. congruence. }
  apply pay_out_fees_moves in H1, H2.
  eapply moves_eq.
  { eapply moves_step; [|by apply put_statistics_moves]. by eapply moves_step. }
  intros c. simpl. rewrite core_in_sub, !core_in_add, core_in_0. lia.
Qed.
End Lemmas.

(** ** Properties *)

(** C26: [adjust_balance] moves one balance by exactly its amount and nothing
    else; on sound balances it succeeds exactly when the balance stays
    non-negative (an amount of 0 always succeeds), and keeps balances sound. *)
Theorem adjust_balance_spec `{FC : FcLib, !FcLaws FC} (db : database) (i : N) (delta : asset) :
  wf_balances db -> in_int64 (amount delta) ->
  in_int64 (- amount delta) ->
  in_int64 (amount (get_balance db i (asset_id delta)) + amount delta) ->
  ((exists db', adjust_balance db i delta = Ok db') <->
     amount delta = 0 \/ 0 <= amount (get_balance db i (asset_id delta)) + amount delta) /\
  (forall db', adjust_balance db i delta = Ok db' ->
     wf_balances db' /\ db' = db <| balances := balances db' |> /\
     forall j c, amount (get_balance db' j c) =
       amount (get_balance db j c)
       + (if decide ((j, c) = (i, asset_id delta)) then amount delta else 0)).
Proof.
  intros Hwf Hin Hneg Hsum. split; [apply adjust_balance_ok; [done..|unfold_bounds; lia|done]|].
  intros db' H. split; [by eapply adjust_balance_wf|].
  apply adjust_balance_inv in H as (b & -> & Hb & _). split; [by destruct db|done].
Qed.

(** C17: paying out the fees an account has accrued neither creates nor destroys
    value: in every asset the holdings (balances, orders, collateral,
    settlements, vesting balances, fees and funds) minus the supply are what they
    were; the account's pending fees are 0 afterwards. *)
Theorem process_fees_conserves `{FC : FcLib, !FcLaws FC} (db db' : database) (i : N) :
  wf_db db -> process_fees db i = Ok db' ->
  wf_db db' /\ (forall a, holdings db' a - supply db' a = holdings db a - supply db a) /\
  (forall s, statistics db !! i = Some s -> 0 <= pending_fees s -> 0 <= pending_vested_fees s ->
   exists s', statistics db' !! i = Some s' /\ pending_fees s' = 0 /\ pending_vested_fees s' = 0 /\
     lifetime_fees_paid s' = lifetime_fees_paid s + pending_fees s + pending_vested_fees s).
Proof.
  intros Hwf H. destruct (process_fees_moves db i db' H Hwf) as (Hwf' & _ & E).
  split; [done|]. split; [intros a; specialize (E a); unfold unbacked in E; lia|].
  intros s Hs Hp Hv. unfold process_fees, get_statistics in H. rewrite Hs in H. cbn in H.
  destruct (Z.ltb_spec 0 (pending_fees s)), (Z.ltb_spec 0 (pending_vested_fees s)); cbn [orb] in H;
    inv_result; inv_safe;
    repeat match goal with H : pay_out_fees _ _ _ _ = _ |- _ => apply pay_out_fees_statistics in H end;
    try (eexists; split; [apply (lookup_put_statistics _ _ s); congruence|simpl; lia]).
  exists s. split; [done|lia].
Qed.

(** ** A concrete state *)

(** Deciding well-formedness by evaluation. *)
Definition table_check {A} (t : table A) : bool :=
  bool_decide (map_Forall (fun i _ => (i < next_instance t)%N) (objs t)).

Definition assets_check (db : database) : bool :=
  bool_decide (map_Forall (fun i ao => map_Forall (fun j bo =>
      dynamic_asset_data_id ao = dynamic_asset_data_id bo -> i = j) (objs (assets db)))
    (objs (assets db))) &&
  match objs (assets db) !! CORE_ASSET with
  | Some ao => (dynamic_asset_data_id ao =? CORE_ASSET)%N
  | None => false
  end &&
  bool_decide (map_Forall (fun _ ao =>
      0 <= market_fee_percent (options ao) <= GRAPHENE_100_PERCENT /\ 0 <= max_market_fee (options ao))
    (objs (assets db))).

Definition funds_check `{FC : FcLib} (db : database) : bool :=
  bool_decide (map_Forall (fun _ b => Is_true (has_settlement b || (settlement_fund b =? 0)))
    (objs (bitassets db))).

Definition db_check `{FC : FcLib} (db : database) : bool :=
  assets_check db && funds_check db
  && bool_decide (map_Forall (fun _ o => in_int64 (for_sale o) /\ 0 <= deferred_fee o) (objs (limit_orders db))) && table_check (limit_orders db) && table_check (call_orders db)
  && table_check (settlements db) && table_check (vesting_balances db).

Lemma table_check_ok {A} (t : table A) : table_check t = true -> wf_table t.
Proof. intros H%bool_decide_eq_true i [a Ha]. by eapply H. Qed.

Lemma db_check_ok `{FC : FcLib} db : db_check db = true -> wf_db db.
Proof.
  unfold db_check, assets_check. rewrite !andb_true_iff.
  intros [[[[[[[[H1 H2] H3] Hf] Ho] ?] ?] ?] ?]. split; [| | |by apply table_check_ok..].
  3: { intros i o Hi. apply bool_decide_eq_true in Ho. exact (Ho i o Hi). }
  2: { intros i b Hi Hs. apply bool_decide_eq_true in Hf. specialize (Hf i b Hi). simpl in Hf.
       rewrite Hs in Hf. by apply Z.eqb_eq, Is_true_true. }
  split.
  - intros i j ao bo Hi Hj Hid. apply bool_decide_eq_true in H1.
    exact (H1 i ao Hi j bo Hj Hid).
  - destruct (objs (assets db) !! CORE_ASSET) as [ao|] eqn:Ha; [|done].
    exists ao. split; [done|by apply N.eqb_eq].
  - intros i ao Hi. apply bool_decide_eq_true in H3. exact (H3 i ao Hi).
Qed.

Definition map_of {A} (l : list (N * A)) : gmap N A := list_to_map l.
Definition table_of {A} (l : list (N * A)) (next : N) : table A := Table (map_of l) next.

(** Three accounts, the core asset, a user-issued asset (1) and an asset backed
    by core (2). *)
(** Key 7 alone. *)
Definition ex_authority : authority := Authority 1 [] [(7, 1)] [].
Definition ex_account (name : string) : account_object :=
  Account_object (2 ^ 32 - 1) 0 10 10 10 2000 3000 5000 name ex_authority ex_authority
    (Account_options 0 GRAPHENE_PROXY_TO_SELF_ACCOUNT 0 0 ∅) ∅ ∅ ∅ ∅ None
    no_special_authority no_special_authority 0 None.
Definition ex_statistics : account_statistics_object := Account_statistics_object 0 0 0 0.
Definition ex_options (flags : Z) : asset_options :=
  Asset_options GRAPHENE_MAX_SHARE_SUPPLY 100 1000 511 flags
    (Price (Asset 10 1) (Asset 1 CORE_ASSET)) ∅ ∅ ∅ ∅.
Definition ex_feed : price_feed :=
  Price_feed (Price (Asset 10 2) (Asset 5 CORE_ASSET)) (Price (Asset 10 2) (Asset 5 CORE_ASSET))
    1750 1100.
Definition ex_bitasset : asset_bitasset_data_object :=
  Asset_bitasset_data_object (Bitasset_options 86400 1 86400 0 2000 CORE_ASSET) ∅ ex_feed 0 false 0
    null_price 0.
Definition ex_parameters : chain_parameters :=
  Chain_parameters 100 5 86400 3 3600 2048 2048000 86400 2419200 10 10 1001 1001 10 2000 2000 3000 31536000 10000 true false
    1000 86400 50000 1000 4 2 0 5 100 86400 31536000 1 100 5.
Definition ex_governance : governance :=
  Governance None 5 [0%N] None 1 1
    (table_of [(0%N, Committee_member_object 12 0 0 EmptyString)] 1)
    (table_of [] 0) (table_of [] 0) (table_of [] 0) (table_of [] 0) (table_of [] 0) (table_of [] 0).

Definition ex_state : database :=
  Database
    (table_of [(10%N, ex_account "alice"); (11%N, ex_account "bob"); (12%N, ex_account "carol")] 13)
    (map_of [(10%N, ex_statistics); (11%N, ex_statistics <| pending_fees := 1000 |>
               <| pending_vested_fees := 70 |>); (12%N, ex_statistics)])
    (list_to_map [((10%N, 0%N), 5000); ((11%N, 0%N), 7000); ((11%N, 1%N), 300); ((12%N, 2%N), 100)])
    (table_of [(0%N, Asset_object "CORE" 5 3 (ex_options 0) 0 None None);
               (1%N, Asset_object "GOLD" 2 10 (ex_options 1) 1 None None);
               (2%N, Asset_object "USD" 4 10 (ex_options 0) 2 (Some 0%N) None)] 3)
    (table_of [(0%N, Asset_dynamic_data_object 13570 0 0);
               (1%N, Asset_dynamic_data_object 300 0 50);
               (2%N, Asset_dynamic_data_object 100 0 0)] 3)
    (table_of [(0%N, ex_bitasset)] 1)
    empty_table
    (table_of [(0%N, Call_order_object 10 400 100 (Price (Asset 40 CORE_ASSET) (Asset 18 2)))] 1)
    empty_table ∅ empty_table empty_table ∅ ∅ empty_table [] ∅
    (Construction_capital_summary_object 0 0 0 0 0)
    (table_of [(1%N, Witness_object 10 70 1 0 EmptyString 0 None 0 0); (2%N, Witness_object 11 80 2 0 EmptyString 0 None 0 0)] 3)
    ex_parameters {[ 1%N; 2%N ]} (Dynamic_global_property_object 1000 (Block.Block_id 1000 [1; 2; 3; 4]) 1500000000 1 1500003600 1499990000 50 0 0 2000 (2 ^ 128 - 1) 0 990)
    [1%N; 2%N] ex_governance [].

Lemma ex_state_wf : wf_db (FC := fc_ref) ex_state.
Proof. apply db_check_ok. by vm_compute. Qed.

Lemma ex_state_balances : wf_balances ex_state.
Proof.
  assert (bool_decide (map_Forall (fun _ b => 0 <= b <= INT64_MAX) (balances ex_state)) = true) as H
    by by vm_compute.
  intros k b Hk. apply bool_decide_eq_true in H. exact (H k b Hk).
Qed.

(** ** Witnesses *)

Lemma adjust_balance_spec_witness :
  exists db', adjust_balance (FC := fc_ref) ex_state 11 (Asset (-2000) CORE_ASSET) = Ok db' /\
    amount (get_balance db' 11 CORE_ASSET) = 5000.
Proof.
  destruct (@adjust_balance_spec fc_ref fc_ref_laws ex_state 11 (Asset (-2000) CORE_ASSET) ex_state_balances)
    as [[_ H1] H2]; [ground..|].
  destruct H1 as [db' H]; [right; vm_compute; congruence|]. exists db'. split; [exact H|].
  destruct (H2 db' H) as (_ & _ & ->). by vm_compute.
Defined.

Lemma process_fees_conserves_witness :
  exists db', process_fees (FC := fc_ref) ex_state 11 = Ok db' /\
    holdings db' CORE_ASSET - supply db' CORE_ASSET = holdings ex_state CORE_ASSET - supply ex_state CORE_ASSET.
Proof.
  destruct (result_ok_true (process_fees (FC := fc_ref) ex_state 11)) as [db' H]; [by vm_compute|].
  exists db'. split; [exact H|].
  apply (@process_fees_conserves fc_ref fc_ref_laws ex_state db' 11 ex_state_wf H).
Defined.
