(* ===== verification/Market.v ===== *)
(** * The market engine

    Models [libraries/chain/db_market.cpp] and the black-swan check of
    [libraries/chain/db_update.cpp]: matching of limit orders, margin calls,
    global settlement, market and exchange fees.

    The price-ordered indexes are computed: a range of iterators is the list of
    the ids it visits.  Nothing is inserted into a range while it is walked, and
    only the current element is removed from it before the iterator moves past
    it; an id of a removed object reached again is a dangling iterator, hence
    [undefined_behaviour]. *)

From S2P Require Import Prelude FcLib Asset Vesting Objects Database.

Definition GRAPHENE_EXCHANGE_RATE_SCALE : Z := 10000000.
Definition GRAPHENE_DEFLATION_RATE_SCALE : Z := 100000000.

Section Market.
Context `{FC : FcLib}.
Implicit Types (db : database) (i mia : N).

(** ** Orders: [market_object.hpp] *)

Definition amount_for_sale (o : limit_order_object) : asset :=
  Asset (for_sale o) (asset_id (base (sell_price o))).
Definition amount_to_receive (o : limit_order_object) : result asset :=
  asset_mul_price (amount_for_sale o) (sell_price o).

Definition debt_type (c : call_order_object) : N := asset_id (quote (call_order_price c)).
Definition get_collateral (c : call_order_object) : asset :=
  Asset (collateral c) (asset_id (base (call_order_price c))).
Definition get_debt (c : call_order_object) : asset := Asset (debt c) (debt_type c).
Definition collateralization (c : call_order_object) : result price :=
  asset_div (get_collateral c) (get_debt c).

(** [limit_order_fee_config_object::get_fee_rate] *)
Definition get_fee_rate (rates : gmap (N * N) (Z * Z)) (a b : N) : Z * Z :=
  let key := if (b <? a)%N then (b, a) else (a, b) in
  match rates !! key with
  | None => (0, 0)
  | Some r => if (b <? a)%N then (r.2, r.1) else r
  end.

(** The composite keys of the by_price and by_collateral indexes: a price
    ordering, then the id. *)
Definition key_before {A} (lt : price -> price -> bool) (key : A -> price) (x y : N * A) : bool :=
  lt (key x.2) (key y.2) || (negb (lt (key y.2) (key x.2)) && (x.1 <? y.1)%N).

Definition in_index_order {A} (lt : price -> price -> bool) (key : A -> price) (x y : N * A) : Prop :=
  Is_true (negb (key_before lt key y x)).
#[export] Instance in_index_order_dec {A} lt (key : A -> price) x y :
  Decision (in_index_order lt key x y).
Proof. unfold in_index_order. apply _. Defined.

Definition limits_by_price db : list (N * limit_order_object) :=
  merge_sort (in_index_order price_gtb sell_price) (map_to_list (objs (limit_orders db))).
Definition calls_by_price db : list (N * call_order_object) :=
  merge_sort (in_index_order price_ltb call_order_price) (map_to_list (objs (call_orders db))).
Definition calls_by_collateral db : list (N * call_order_object) :=
  merge_sort (in_index_order price_ltb (fun c => Price (get_collateral c) (get_debt c)))
    (map_to_list (objs (call_orders db))).

(** [lower_bound( first )] up to [upper_bound( last )]. *)
Definition limit_range db (first last : price) : list N :=
  (filter (fun x => Is_true (negb (price_gtb (sell_price x.2) first)
                             && negb (price_gtb last (sell_price x.2))))
     (limits_by_price db)).*1.
Definition call_range db (first last : price) : list N :=
  (filter (fun x => Is_true (negb (price_ltb (call_order_price x.2) first)
                             && negb (price_ltb last (call_order_price x.2))))
     (calls_by_price db)).*1.

(** Dereferencing an iterator. *)
Definition limit_at db i : result limit_order_object :=
  of_option (objs (limit_orders db) !! i) (undefined_behaviour "limit order").
Definition call_at db i : result call_order_object :=
  of_option (objs (call_orders db) !! i) (undefined_behaviour "call order").
Definition settlement_at db i : result force_settlement_object :=
  of_option (objs (settlements db) !! i) (undefined_behaviour "force settlement").

(** [uint128_t( x ) * rate / GRAPHENE_DEFLATION_RATE_SCALE] *)
Definition deflation_amount (x rate : Z) : result Z :=
  r ← u128_to_uint64 fc_u128
        (u128_div fc_u128 (u128_mul fc_u128 (u128_of fc_u128 x) (u128_of fc_u128 rate))
           (u128_of fc_u128 GRAPHENE_DEFLATION_RATE_SCALE));
  Ok (to_int64 r).

(** ** Paying *)

Definition pay_order db (receiver : N) (receives pays : asset) : result database :=
  s ← get_statistics db receiver;
  t ← (if (asset_id pays =? CORE_ASSET)%N
       then safe_sub fc_safe (total_core_in_orders s) (amount pays)
       else Ok (total_core_in_orders s));
  adjust_balance (put_statistics db receiver (s <| total_core_in_orders := t |>)) receiver receives.

Definition calculate_market_fee db (trade_asset : N) (trade_amount : asset) : result asset :=
  a ← tbl_get (assets db) trade_asset;
  _ ← C_ASSERT (trade_asset =? asset_id trade_amount)%N "trade_asset.id == trade_amount.asset_id";
  if negb (charges_market_fees a) then Ok (Asset 0 trade_asset)
  else if market_fee_percent (options a) =? 0 then Ok (Asset 0 trade_asset)
  else
    r ← u128_to_uint64 fc_u128
          (u128_div fc_u128
             (u128_mul fc_u128 (u128_of fc_u128 (amount trade_amount))
                (u128_of fc_u128 (market_fee_percent (options a))))
             (u128_of fc_u128 GRAPHENE_100_PERCENT));
    let percent_fee := to_int64 r in
    Ok (Asset (if max_market_fee (options a) <? percent_fee then max_market_fee (options a)
               else percent_fee) trade_asset).

Definition pay_market_fees db (recv_asset : N) (receives : asset) : result (asset * database) :=
  issuer_fees ← calculate_market_fee db recv_asset receives;
  le ← asset_leb issuer_fees receives;
  _ ← C_ASSERT le "issuer_fees <= receives";
  if 0 <? amount issuer_fees then
    a ← tbl_get (assets db) recv_asset;
    d ← get_dynamic db a;
    f ← safe_add fc_safe (accumulated_fees d) (amount issuer_fees);
    Ok (issuer_fees, put_dynamic db a (d <| accumulated_fees := f |>))
  else Ok (issuer_fees, db).

(** ** Cancelling *)

Definition cancel_settlement db i (create_virtual_op : bool) : result database :=
  s ← settlement_at db i;
  db ← adjust_balance db (settle_owner s) (settle_balance s);
  let db := if create_virtual_op
            then push_applied_operation db (asset_settle_cancel_vop i (settle_owner s) (settle_balance s))
            else db in
  Ok (db <| settlements ::= fun t => tbl_remove t i |>).

(** Whether the running deflation [d] has still to visit the order [i]. *)
Definition order_pending (d : deflation_object) i : bool :=
  negb (order_cleared d) && (i <=? last_order d)%N && (order_cursor d <=? i)%N.

(** What an order that the running deflation has still to visit loses when it
    is cancelled; its deflation record is dropped in any case. *)
Definition cancel_deflation db i (o : limit_order_object) : result (Z * database) :=
  '(deflated, db) ←
    match tbl_last (deflations db) with
    | Some (di, d) =>
        if order_pending d i
           && match order_deflations db !! i with Some od => negb (ord_cleared od) | None => true end
        then
          x ← deflation_amount (for_sale o) (rate d);
          t ← safe_add fc_safe (total_amount d) x;
          Ok (x, push_applied_operation
                   (db <| deflations ::= fun tb => tbl_modify tb di (fun _ => d <| total_amount := t |>) |>)
                   (order_deflation_vop di i (seller o) x))
        else Ok (0, db)
    | None => Ok (0, db)
    end;
  Ok (deflated, db <| order_deflations ::= delete i |>).

Definition cancel_limit_order db i (create_virtual_op : bool) : result database :=
  o ← limit_at db i;
  let sold := asset_id (base (sell_price o)) in
  '(deflated, db) ← (if (sold =? CORE_ASSET)%N then cancel_deflation db i o else Ok (0, db));
  refunded ← asset_sub (amount_for_sale o) (Asset deflated sold);
  s ← get_statistics db (seller o);
  t ← (if (asset_id refunded =? CORE_ASSET)%N
       then safe_sub fc_safe (total_core_in_orders s) (for_sale o)
       else Ok (total_core_in_orders s));
  let db := put_statistics db (seller o) (s <| total_core_in_orders := t |>) in
  db ← adjust_balance db (seller o) refunded;
  db ← adjust_balance db (seller o) (Asset (deferred_fee o) CORE_ASSET);
  let db := if create_virtual_op
            then push_applied_operation db (limit_order_cancel_vop i (seller o)) else db in
  Ok (db <| limit_orders ::= fun t => tbl_remove t i |>).

Definition maybe_cull_small_order db i : result (bool * database) :=
  o ← limit_at db i;
  r ← amount_to_receive o;
  if amount r =? 0 then db ← cancel_limit_order db i true; Ok (true, db) else Ok (false, db).

(** ** Filling orders *)

(** The exchange's share of what a seller received. *)
Definition exchange_fee (total_receive rate : Z) : result Z :=
  m ← real_mul fc_real (real_of fc_real total_receive) (real_of fc_real rate);
  q ← real_div fc_real m (real_of fc_real GRAPHENE_EXCHANGE_RATE_SCALE);
  r ← real_to_uint64 fc_real q;
  Ok (to_int64 r).

(** The result: the rate charged, its receiver, and the state. *)
Definition pay_exchange_fee db (o : limit_order_object) (pays receives issuer_fees : asset)
  : result (Z * N * database) :=
  match exchange_fee_receiver o with
  | None => Ok (0, GRAPHENE_NULL_ACCOUNT, db)
  | Some r =>
      match fee_configs db !! r with
      | None => Ok (0, r, db)
      | Some rates =>
          let rate := (get_fee_rate rates (asset_id receives) (asset_id pays)).1 in
          if 0 <? rate then
            total_receive ← asset_sub receives issuer_fees;
            x ← exchange_fee (amount total_receive) rate;
            let exchange_got := Asset x (asset_id total_receive) in
            n ← asset_neg exchange_got;
            db ← adjust_balance db (seller o) n;
            db ← adjust_balance db r exchange_got;
            Ok (rate, r, db)
          else Ok (0, r, db)
      end
  end.

(** A filled order's deflation record: reported, then dropped. *)
Definition clear_order_deflation db i (o : limit_order_object) : database :=
  match order_deflations db !! i with
  | None => db
  | Some od =>
      let db :=
        match tbl_last (deflations db) with
        | Some (di, d) =>
            if order_pending d i && (ord_cleared od && (0 <? ord_frozen od))
            then push_applied_operation db (order_deflation_vop di i (seller o) (ord_frozen od))
            else db
        | None => db
        end in
      db <| order_deflations ::= delete i |>
  end.

Definition pay_deferred_fee db (o : limit_order_object) : result database :=
  if 0 <? deferred_fee o then
    s ← get_statistics db (seller o);
    s' ← stats_pay_fee s (deferred_fee o) (cashback_vesting_threshold (parameters db));
    Ok (put_statistics db (seller o) s')
  else Ok db.

(** [fill_order( const limit_order_object&, ... )] *)
Definition fill_limit_order db i (pays receives : asset) (cull_if_small : bool)
  : result (bool * database) :=
  o ← limit_at db i;
  let cull_if_small := cull_if_small || (head_block_time db <? HARDFORK_555_TIME) in
  _ ← FC_ASSERT (asset_id (amount_for_sale o) =? asset_id pays)%N
        "order.amount_for_sale().asset_id == pays.asset_id";
  _ ← FC_ASSERT (negb (asset_id pays =? asset_id receives)%N) "pays.asset_id != receives.asset_id";
  _ ← tbl_get (accounts db) (seller o);
  _ ← tbl_get (assets db) (asset_id receives);
  '(issuer_fees, db) ← pay_market_fees db (asset_id receives) receives;
  got ← asset_sub receives issuer_fees;
  db ← pay_order db (seller o) got pays;
  '(rate, receiver, db) ← pay_exchange_fee db o pays receives issuer_fees;
  let db := push_applied_operation db
              (fill_order_vop i (seller o) pays receives issuer_fees rate receiver) in
  db ← pay_deferred_fee db o;
  if asset_eqb pays (amount_for_sale o) then
    let db := if (asset_id (base (sell_price o)) =? CORE_ASSET)%N
              then clear_order_deflation db i o else db in
    Ok (true, db <| limit_orders ::= fun t => tbl_remove t i |>)
  else
    n ← safe_sub fc_safe (for_sale o) (amount pays);
    let db := db <| limit_orders ::= fun t =>
                tbl_modify t i (fun _ => o <| for_sale := n |> <| deferred_fee := 0 |>) |> in
    if cull_if_small then maybe_cull_small_order db i else Ok (false, db).

(** The statistics of the borrower of a call order that paid. *)
Definition borrower_paid (s : account_statistics_object) (freed : option asset) (pays : asset)
  : result account_statistics_object :=
  t ← (match freed with
       | Some f => if 0 <? amount f then safe_sub fc_safe (total_core_in_orders s) (amount f)
                   else Ok (total_core_in_orders s)
       | None => Ok (total_core_in_orders s)
       end);
  t ← (if (asset_id pays =? CORE_ASSET)%N then safe_sub fc_safe t (amount pays) else Ok t);
  _ ← C_ASSERT (0 <=? t) "b.total_core_in_orders >= 0";
  Ok (s <| total_core_in_orders := t |>).

(** [fill_order( const call_order_object&, ... )] *)
Definition fill_call_order db i (pays receives : asset) : result (bool * database) :=
  o ← call_at db i;
  _ ← FC_ASSERT (debt_type o =? asset_id receives)%N "order.get_debt().asset_id == receives.asset_id";
  _ ← FC_ASSERT (asset_id (get_collateral o) =? asset_id pays)%N
        "order.get_collateral().asset_id == pays.asset_id";
  ge ← asset_geb (get_collateral o) pays;
  _ ← FC_ASSERT ge "order.get_collateral() >= pays";
  d ← safe_sub fc_safe (debt o) (amount receives);
  c ← safe_sub fc_safe (collateral o) (amount pays);
  let freed := if d =? 0 then Some (Asset c (asset_id (get_collateral o))) else None in
  let o' := o <| debt := d |> <| collateral := if d =? 0 then 0 else c |> in
  let db := db <| call_orders ::= fun t => tbl_modify t i (fun _ => o') |> in
  mia ← tbl_get (assets db) (asset_id receives);
  _ ← C_ASSERT (is_market_issued mia) "mia.is_market_issued()";
  dyn ← get_dynamic db mia;
  s ← safe_sub fc_safe (current_supply dyn) (amount receives);
  let db := put_dynamic db mia (dyn <| current_supply := s |>) in
  _ ← tbl_get (accounts db) (borrower o);
  db ← (if match freed with Some _ => true | None => false end || (asset_id pays =? CORE_ASSET)%N then
          _ ← get_statistics db (borrower o);
          db ← (match freed with Some f => adjust_balance db (borrower o) f | None => Ok db end);
          st ← get_statistics db (borrower o);
          st' ← borrower_paid st freed pays;
          Ok (put_statistics db (borrower o) st')
        else Ok db);
  _ ← C_ASSERT (negb (asset_id pays =? asset_id receives)%N) "pays.asset_id != receives.asset_id";
  let db := push_applied_operation db
              (fill_order_vop i (borrower o) pays receives (Asset 0 (asset_id pays)) 0
                 GRAPHENE_NULL_ACCOUNT) in
  match freed with
  | Some _ => Ok (true, db <| call_orders ::= fun t => tbl_remove t i |>)
  | None => Ok (false, db)
  end.

(** [fill_order( const force_settlement_object&, ... )] *)
Definition fill_settlement db i (pays receives : asset) : result (bool * database) :=
  s ← settlement_at db i;
  '(issuer_fees, db) ← pay_market_fees db (asset_id receives) receives;
  lt ← asset_ltb pays (settle_balance s);
  db ← (if lt : bool then
          b ← asset_sub (settle_balance s) pays;
          Ok (db <| settlements ::= fun t => tbl_modify t i (fun s => s <| settle_balance := b |>) |>)
        else Ok db);
  got ← asset_sub receives issuer_fees;
  db ← adjust_balance db (settle_owner s) got;
  _ ← C_ASSERT (negb (asset_id pays =? asset_id receives)%N) "pays.asset_id != receives.asset_id";
  let db := push_applied_operation db
              (fill_order_vop i (settle_owner s) pays receives issuer_fees 0 GRAPHENE_NULL_ACCOUNT) in
  if lt : bool then Ok (false, db) else Ok (true, db <| settlements ::= fun t => tbl_remove t i |>).

(** ** Matching *)

(** What the two sides of a match pay: (usd_pays, core_pays). *)
Definition match_amounts (usd core : limit_order_object) (match_price : price)
  : result (asset * asset) :=
  let usd_for_sale := amount_for_sale usd in
  let core_for_sale := amount_for_sale core in
  c ← asset_mul_price core_for_sale match_price;
  le ← asset_leb usd_for_sale c;
  if le : bool then
    usd_receives ← asset_mul_price usd_for_sale match_price;
    Ok (usd_for_sale, usd_receives)
  else
    core_receives ← asset_mul_price core_for_sale match_price;
    Ok (core_receives, core_for_sale).

(** [match( const limit_order_object& usd, const limit_order_object& core, ... )] *)
Definition match_limit db (usd core : N) (match_price : price) : result (Z * database) :=
  u ← limit_at db usd;
  c ← limit_at db core;
  _ ← C_ASSERT (asset_id (quote (sell_price u)) =? asset_id (base (sell_price c)))%N
        "usd.sell_price.quote.asset_id == core.sell_price.base.asset_id";
  _ ← C_ASSERT (asset_id (base (sell_price u)) =? asset_id (quote (sell_price c)))%N
        "usd.sell_price.base.asset_id == core.sell_price.quote.asset_id";
  _ ← C_ASSERT ((0 <? for_sale u) && (0 <? for_sale c)) "usd.for_sale > 0 && core.for_sale > 0";
  '(usd_pays, core_pays) ← match_amounts u c match_price;
  _ ← C_ASSERT (asset_eqb usd_pays (amount_for_sale u) || asset_eqb core_pays (amount_for_sale c))
        "usd_pays == usd.amount_for_sale() || core_pays == core.amount_for_sale()";
  '(r1, db) ← fill_limit_order db usd usd_pays core_pays false;
  '(r2, db) ← fill_limit_order db core core_pays usd_pays true;
  let result := Z.lor (if r1 : bool then 1 else 0) (if r2 : bool then 2 else 0) in
  _ ← C_ASSERT (negb (result =? 0)) "result != 0";
  Ok (result, db).

(** [match( const call_order_object&, const force_settlement_object&, ... )] *)
Definition match_settlement db (call settle : N) (match_price : price) (max_settlement : asset)
  : result (asset * database) :=
  c ← call_at db call;
  s ← settlement_at db settle;
  _ ← FC_ASSERT (debt_type c =? asset_id (settle_balance s))%N
        "call.get_debt().asset_id == settle.balance.asset_id";
  _ ← FC_ASSERT ((0 <? debt c) && (0 <? collateral c) && (0 <? amount (settle_balance s)))
        "call.debt > 0 && call.collateral > 0 && settle.balance.amount > 0";
  settle_for_sale ← asset_min (settle_balance s) max_settlement;
  call_receives ← asset_min settle_for_sale (get_debt c);
  call_pays ← asset_mul_price call_receives match_price;
  lt ← asset_ltb call_pays (get_collateral c);
  _ ← GRAPHENE_ASSERT lt "black_swan_exception";
  _ ← C_ASSERT (asset_eqb call_receives settle_for_sale || asset_eqb call_receives (get_debt c))
        "settle_pays == settle_for_sale || call_receives == call.get_debt()";
  '(_, db) ← fill_call_order db call call_pays call_receives;
  '(_, db) ← fill_settlement db settle call_receives call_pays;
  Ok (call_receives, db).

(** ** Black swans *)

(** One margin position closed at the settlement price; [gathered] is
    [collateral_gathered]. *)
Definition close_call (settle_price : price) (st : asset * database) (i : N)
  : result (asset * database) :=
  let '(gathered, db) := st in
  c ← call_at db i;
  pays ← asset_mul_price (get_debt c) settle_price;
  gt ← asset_gtb pays (get_collateral c);
  let pays := if gt : bool then get_collateral c else pays in
  gathered ← asset_add gathered pays;
  '(filled, db) ← fill_call_order db i pays (get_debt c);
  _ ← FC_ASSERT filled "fill_order( order, pays, order.get_debt() )";
  Ok (gathered, db).

Definition globally_settle_asset db mia (settle_price : price) : result database :=
  a ← tbl_get (assets db) mia;
  '(bi, bit) ← bitasset_data db a;
  _ ← FC_ASSERT (negb (has_settlement bit))
        "black swan already occurred, it should not happen again";
  let backing := short_backing_asset (bit_options bit) in
  _ ← tbl_get (assets db) backing;
  dyn ← get_dynamic db a;
  let original_mia_supply := current_supply dyn in
  lo ← price_min backing mia;
  hi ← price_max backing mia;
  '(gathered, db) ← foldM (close_call settle_price) (Asset 0 backing, db) (call_range db lo hi);
  _ ← C_ASSERT (asset_id gathered =? asset_id (quote settle_price))%N
        "collateral_gathered.asset_id == settlement_price.quote.asset_id";
  p ← asset_div (Asset original_mia_supply mia) gathered;
  let db := db <| bitassets ::= fun t => tbl_modify t bi (fun b =>
                b <| bit_settlement_price := p |> <| settlement_fund := amount gathered |>) |> in
  Ok (db <| dynamic_data ::= fun t => tbl_modify t (dynamic_asset_data_id a)
                (fun d => d <| current_supply := original_mia_supply |>) |>).

Definition check_for_blackswan db mia (enable_black_swan : bool) : result (bool * database) :=
  a ← tbl_get (assets db) mia;
  if negb (is_market_issued a) then Ok (false, db)
  else
    '(_, bit) ← bitasset_data db a;
    if has_settlement bit then Ok (true, db)
    else
      let settle_price := settlement_price (current_feed bit) in
      if is_null settle_price then Ok (false, db)
      else
        let backing := short_backing_asset (bit_options bit) in
        highest_possible_bid ← price_max mia backing;
        lowest_possible_bid ← price_min mia backing;
        call_min ← price_min backing mia;
        call_max ← price_max backing mia;
        match call_range db call_min call_max with
        | [] => Ok (false, db)
        | ci :: _ =>
            highest ← (match limit_range db highest_possible_bid lowest_possible_bid with
                       | [] => Ok settle_price
                       | li :: _ =>
                           lo ← limit_at db li;
                           _ ← C_ASSERT (asset_id (base settle_price) =? asset_id (base (sell_price lo)))%N
                                 "settle_price.base.asset_id == limit_itr->sell_price.base.asset_id";
                           Ok (if price_ltb (sell_price lo) settle_price then settle_price
                               else sell_price lo)
                       end);
            c ← call_at db ci;
            least_collateral ← collateralization c;
            if price_geb (price_inv least_collateral) highest then
              _ ← FC_ASSERT enable_black_swan
                    "Black swan was detected during a margin update which is not allowed to trigger a blackswan";
              db ← globally_settle_asset db mia (price_inv least_collateral);
              Ok (true, db)
            else Ok (false, db)
        end.

(** ** Margin calls *)

(** What one margin call against a limit order exchanges:
    (call_receives, order_receives, filled_call, filled_limit). *)
Definition margin_call_amounts (usd_to_buy usd_for_sale : asset) (match_price : price)
    (filled_limit : bool) : result (asset * asset * bool * bool) :=
  ge ← asset_geb usd_to_buy usd_for_sale;
  if ge : bool then
    order_receives ← asset_mul_price usd_for_sale match_price;
    Ok (usd_for_sale, order_receives, asset_eqb usd_to_buy usd_for_sale, true)
  else
    order_receives ← asset_mul_price usd_to_buy match_price;
    Ok (usd_to_buy, order_receives, true, filled_limit).

(** The loop of [check_call_orders]; [calls] and [limits] are what the iterators
    have still to visit.  Note that [filled_limit] lives across iterations. *)
Fixpoint call_loop (fuel : nat) db mia (enable_black_swan : bool) (feed_price : price)
    (calls limits : list N) (filled_limit margin_called : bool) {struct fuel}
  : result (bool * database) :=
  match fuel with
  | O => Err out_of_fuel
  | S fuel =>
      '(swan, db) ← check_for_blackswan db mia enable_black_swan;
      match calls, limits with
      | ci :: calls', li :: limits' =>
          if swan : bool then Ok (margin_called, db)
          else
            l ← limit_at db li;
            let match_price := sell_price l in
            let usd_for_sale := amount_for_sale l in
            _ ← price_validate match_price;
            c ← call_at db ci;
            let swan_price := price_inv (call_order_price c) in
            let feed_protected := price_gtb feed_price swan_price in
            if feed_protected && (HARDFORK_436_TIME <? head_block_time db) then Ok (margin_called, db)
            else if price_gtb match_price swan_price then Ok (margin_called, db)
            else
              let usd_to_buy := get_debt c in
              cost ← asset_mul_price usd_to_buy match_price;
              gt ← asset_gtb cost (get_collateral c);
              if gt : bool then
                _ ← FC_ASSERT enable_black_swan "enable_black_swan";
                db ← globally_settle_asset db mia feed_price;
                Ok (true, db)
              else
                '(call_receives, order_receives, filled_call, filled_limit) ←
                  margin_call_amounts usd_to_buy usd_for_sale match_price filled_limit;
                _ ← FC_ASSERT (filled_call || filled_limit) "filled_call || filled_limit";
                '(_, db) ← fill_call_order db ci order_receives call_receives;
                '(_, db) ← fill_limit_order db li call_receives order_receives true;
                call_loop fuel db mia enable_black_swan feed_price
                  (if filled_call : bool then calls' else calls)
                  (if filled_limit : bool then limits' else limits) filled_limit true
      | _, _ => Ok (margin_called, db)
      end
  end.

(** Every iteration consumes a call or a limit order. *)
Definition check_call_orders db mia (enable_black_swan : bool) : result (bool * database) :=
  a ← tbl_get (assets db) mia;
  if negb (is_market_issued a) then Ok (false, db)
  else
    '(swan, db) ← check_for_blackswan db mia enable_black_swan;
    if swan : bool then Ok (false, db)
    else
      '(_, bit) ← bitasset_data db a;
      let feed_price := settlement_price (current_feed bit) in
      if is_prediction_market bit then Ok (false, db)
      else if is_null feed_price then Ok (false, db)
      else
        let backing := short_backing_asset (bit_options bit) in
        max_price ← price_max mia backing;
        min_price ← max_short_squeeze_price (current_feed bit);
        _ ← C_ASSERT (asset_id (base max_price) =? asset_id (base min_price))%N
              "max_price.base.asset_id == min_price.base.asset_id";
        match limit_range db max_price min_price with
        | [] => Ok (false, db)
        | limits =>
            call_min ← price_min backing mia;
            call_max ← price_max backing mia;
            let calls := call_range db call_min call_max in
            call_loop (S (length calls + length limits)) db mia enable_black_swan feed_price
              calls limits false false
        end.

(** ** A new limit order *)

(** The running deflation cuts a maker order before it is matched. *)
Definition deflate_maker db i : result database :=
  o ← limit_at db i;
  if (asset_id (base (sell_price o)) =? CORE_ASSET)%N then
    match tbl_last (deflations db) with
    | Some (di, d) =>
        if negb (order_cleared d)
           && match order_deflations db !! i with
              | None => true
              | Some od => (ord_last_deflation_id od <? di)%N && negb (ord_cleared od)
              end
        then
          x ← deflation_amount (for_sale o) (rate d);
          if 0 <? x then
            let od := match order_deflations db !! i with
                      | None => Order_deflation_object 0 x true
                      | Some od => od <| ord_frozen := x |> <| ord_cleared := true |>
                      end in
            n ← safe_sub fc_safe (for_sale o) x;
            pay_order
              (db <| order_deflations ::= <[i := od]> |>
                  <| limit_orders ::= fun t => tbl_modify t i (fun o => o <| for_sale := n |>) |>)
              (seller o) (Asset 0 CORE_ASSET) (Asset x CORE_ASSET)
          else Ok db
        else Ok db
    | None => Ok db
    end
  else Ok db.

Fixpoint match_loop db (new_order : N) (limits : list N) : result database :=
  match limits with
  | [] => Ok db
  | li :: limits' =>
      db ← deflate_maker db li;
      l ← limit_at db li;
      '(r, db) ← match_limit db new_order li (sell_price l);
      if r =? 2 then match_loop db new_order limits' else Ok db
  end.

Definition apply_order db i (allow_black_swan : bool) : result (bool * database) :=
  o ← limit_at db i;
  let sell_asset := asset_id (base (sell_price o)) in
  _ ← tbl_get (assets db) sell_asset;
  r ← amount_to_receive o;
  let receive_asset := asset_id r in
  _ ← tbl_get (assets db) receive_asset;
  '(c1, db) ← check_call_orders db sell_asset allow_black_swan;
  '(c2, db) ← check_call_orders db receive_asset allow_black_swan;
  if ((c1 : bool) || (c2 : bool)) && match objs (limit_orders db) !! i with None => true | Some _ => false end
  then Ok (true, db)
  else
    o ← limit_at db i;
    let max_price := price_inv (sell_price o) in
    best ← price_max (asset_id (base max_price)) (asset_id (quote max_price));
    db ← match_loop db i (limit_range db best max_price);
    '(_, db) ← check_call_orders db sell_asset allow_black_swan;
    '(_, db) ← check_call_orders db receive_asset allow_black_swan;
    match objs (limit_orders db) !! i with
    | None => Ok (true, db)
    | Some _ =>
        if head_block_time db <=? HARDFORK_555_TIME then Ok (false, db)
        else maybe_cull_small_order db i
    end.
End Market.
