(* ===== verification/Trading.v ===== *)
(** * Trading conserves value

    The theorems about the market engine of [Market.v]: what each operation
    moves, that nothing is created or destroyed, what a match pays, the order
    of the books and the bounds of the loops. *)

From S2P Require Import Prelude FcLib Asset Vesting Objects Database Ledger Market.

(** No deflation of limit orders is under way. *)
Definition quiet (db : database) : bool :=
  match tbl_last (deflations db) with Some (_, d) => order_cleared d | None => true end.

(** Like [moves], except that a running deflation may take core. *)
Definition burns `{FC : FcLib} (db db' : database) (f : N -> Z) : Prop :=
  wf_db db -> wf_db db' /\ (quiet db = true -> deflations db' = deflations db) /\
    exists d, (quiet db = true -> d = 0) /\
      forall a, unbacked db' a = unbacked db a + f a - core_in a d.

(** The tables an operation on balances leaves alone. *)
Record same_books (db db' : database) : Prop := {
  same_limit_orders : limit_orders db' = limit_orders db;
  same_call_orders : call_orders db' = call_orders db;
  same_settlements : settlements db' = settlements db;
  same_bitassets : bitassets db' = bitassets db;
  same_assets : assets db' = assets db;
  same_order_deflations : order_deflations db' = order_deflations db;
  same_dgpo : dgpo db' = dgpo db;
}.

(** A payment: value moves by [f] and the books stay. *)
Definition pays_out `{FC : FcLib} (db db' : database) (f : N -> Z) : Prop :=
  same_books db db' /\ moves db db' f.

Section Facts.
Context `{FC : FcLib, !FcLaws FC}.
Implicit Types (db : database) (i mia : N) (f g : N -> Z).

Lemma same_books_refl db : same_books db db.
Proof. by split. Qed.

Lemma same_books_trans db1 db2 db3 : same_books db1 db2 -> same_books db2 db3 -> same_books db1 db3.
Proof. intros [] []. split; congruence. Qed.

Lemma pays_out_refl db : pays_out db db (fun _ => 0).
Proof. split; [apply same_books_refl|apply moves_refl]. Qed.

Lemma pays_out_step db1 db2 db3 f g :
  pays_out db1 db2 f -> pays_out db2 db3 g -> pays_out db1 db3 (fun a => f a + g a).
Proof.
  intros [S1 M1] [S2 M2]. split; [by eapply same_books_trans|by eapply moves_step].
Qed.

Lemma pays_out_eq db1 db2 f g : pays_out db1 db2 f -> (forall a, f a = g a) -> pays_out db1 db2 g.
Proof. intros [S M] E. split; [done|by eapply moves_eq]. Qed.

Lemma quiet_same db db' : deflations db' = deflations db -> quiet db' = quiet db.
Proof. unfold quiet. by intros ->. Qed.

Lemma moves_burns db db' f : moves db db' f -> burns db db' f.
Proof.
  intros M Hwf. destruct (M Hwf) as (? & D & E).
  split_and!; [done..|]. exists 0. split; [done|]. intros a. rewrite E, core_in_0. lia.
Qed.

Lemma burns_step db1 db2 db3 f g :
  burns db1 db2 f -> burns db2 db3 g -> burns db1 db3 (fun a => f a + g a).
Proof.
  intros B1 B2 Hwf. destruct (B1 Hwf) as (W2 & Q2 & d & Hd & E2).
  destruct (B2 W2) as (W3 & Q3 & e & He & E3).
  assert (Hq2 : quiet db1 = true -> quiet db2 = true) by (intros Hq; rewrite <-Hq; apply quiet_same; auto).
  split_and!; [done|intros Hq; rewrite Q3; auto|].
  exists (d + e). split; [intros Hq; rewrite (Hd Hq), (He (Hq2 Hq)); done|].
  intros a. rewrite E3, E2, core_in_add. lia.
Qed.

Lemma burns_eq db1 db2 f g : burns db1 db2 f -> (forall a, f a = g a) -> burns db1 db2 g.
Proof.
  intros B E Hwf. destruct (B Hwf) as (? & ? & d & ? & H). split_and!; [done..|].
  exists d. split; [done|]. intros a. by rewrite H, E.
Qed.

Lemma burns_refl db : burns db db (fun _ => 0).
Proof. apply moves_burns, moves_refl. Qed.

Lemma burns_trans db1 db2 db3 :
  burns db1 db2 (fun _ => 0) -> burns db2 db3 (fun _ => 0) -> burns db1 db3 (fun _ => 0).
Proof. intros H1 H2. by eapply burns_eq; [by eapply burns_step|]. Qed.

(** ** The primitives *)

Lemma adjust_balance_pays db i delta db' :
  adjust_balance db i delta = Ok db' -> pays_out db db' (fun a => amount_in a delta).
Proof.
  intros H. split; [|by eapply adjust_balance_moves].
  apply adjust_balance_inv in H as (b & -> & _). by split.
Qed.

Lemma put_core_in_orders_pays db i s t :
  statistics db !! i = Some s ->
  pays_out db (put_statistics db i (s <| total_core_in_orders := t |>)) (fun _ => 0).
Proof.
  intros H. split; [by split|]. eapply moves_eq; [by apply put_statistics_moves|].
  intros a. simpl. by rewrite Z.sub_diag, core_in_0.
Qed.

Lemma push_applied_operation_pays db op : pays_out db (push_applied_operation db op) (fun _ => 0).
Proof. split; [by split|by apply moves_same]. Qed.

Lemma put_limit_moves db i o (upd : limit_order_object -> limit_order_object) :
  objs (limit_orders db) !! i = Some o -> in_int64 (for_sale (upd o)) -> 0 <= deferred_fee (upd o) ->
  moves db (db <| limit_orders ::= fun t => tbl_modify t i upd |>)
    (fun a => order_part a i (upd o) - order_part a i o).
Proof.
  intros Ho Ho' Hf' [[]]. split_and!; [split; try done; [|by apply tbl_modify_wf]|done|].
  { intros j oj. simpl. intros [(<- & x & Hx & ->)|[_ ?]]%lookup_alter_Some; [|eauto].
    by assert (x = o) as -> by congruence. }
  intros a.
  unfold unbacked, holdings, supply, fees_of, dynamic_of; simpl.
  rewrite map_sum_alter, Ho. simpl. lia.
Qed.

Lemma remove_limit_moves db i o :
  objs (limit_orders db) !! i = Some o ->
  moves db (db <| limit_orders ::= fun t => tbl_remove t i |>) (fun a => - order_part a i o).
Proof.
  intros Ho [[]]. split_and!; [split; try done; [|by apply tbl_remove_wf]|done|].
  { intros j oj. simpl. intros [_ ?]%lookup_delete_Some. eauto. }
  intros a.
  unfold unbacked, holdings, supply, fees_of, dynamic_of; simpl.
  rewrite map_sum_delete, Ho. simpl. lia.
Qed.

Lemma put_call_moves db i c c' :
  objs (call_orders db) !! i = Some c ->
  moves db (db <| call_orders ::= fun t => tbl_modify t i (fun _ => c') |>)
    (fun a => call_part a i c' - call_part a i c).
Proof.
  intros Hc [[]]. split_and!; [split; try done; by apply tbl_modify_wf|done|]. intros a.
  unfold unbacked, holdings, supply, fees_of, dynamic_of; simpl.
  rewrite map_sum_alter, Hc. simpl. lia.
Qed.

Lemma remove_call_moves db i c :
  objs (call_orders db) !! i = Some c ->
  moves db (db <| call_orders ::= fun t => tbl_remove t i |>) (fun a => - call_part a i c).
Proof.
  intros Hc [[]]. split_and!; [split; try done; by apply tbl_remove_wf|done|]. intros a.
  unfold unbacked, holdings, supply, fees_of, dynamic_of; simpl.
  rewrite map_sum_delete, Hc. simpl. lia.
Qed.

Lemma put_settlement_moves db i s (upd : force_settlement_object -> force_settlement_object) :
  objs (settlements db) !! i = Some s ->
  moves db (db <| settlements ::= fun t => tbl_modify t i upd |>)
    (fun a => settlement_part a i (upd s) - settlement_part a i s).
Proof.
  intros Hs [[]]. split_and!; [split; try done; by apply tbl_modify_wf|done|]. intros a.
  unfold unbacked, holdings, supply, fees_of, dynamic_of; simpl.
  rewrite map_sum_alter, Hs. simpl. lia.
Qed.

Lemma remove_settlement_moves db i s :
  objs (settlements db) !! i = Some s ->
  moves db (db <| settlements ::= fun t => tbl_remove t i |>) (fun a => - settlement_part a i s).
Proof.
  intros Hs [[]]. split_and!; [split; try done; by apply tbl_remove_wf|done|]. intros a.
  unfold unbacked, holdings, supply, fees_of, dynamic_of; simpl.
  rewrite map_sum_delete, Hs. simpl. lia.
Qed.

(** ** Payments *)

Lemma pay_order_pays db i receives pays db' :
  pay_order db i receives pays = Ok db' -> pays_out db db' (fun a => amount_in a receives).
Proof.
  unfold pay_order, get_statistics. intros H. inv_result. apply adjust_balance_pays in H.
  eapply pays_out_eq; [eapply pays_out_step; [by apply put_core_in_orders_pays|exact H]|].
  intros a'. simpl. lia.
Qed.

Lemma calculate_market_fee_range db r x fee :
  wf_assets db -> nonneg64 (amount x) -> calculate_market_fee db r x = Ok fee ->
  asset_id fee = r /\ r = asset_id x /\ 0 <= amount fee <= amount x.
Proof.
  unfold calculate_market_fee, nonneg64. intros Hwf Hx H. inv_result. inv_get.
  apply N.eqb_eq in H1. destruct (wf_market_fees db Hwf _ _ H0) as [Hp Hm].
  destruct (charges_market_fees a); simpl in H; [|inv_result; simpl; lia].
  destruct (Z.eqb_spec (market_fee_percent (options a)) 0); [inv_result; simpl; lia|].
  assert (Hd : in_uint64 GRAPHENE_100_PERCENT) by ground.
  rewrite (u128_cut fc_u128_laws) in H by (unfold GRAPHENE_100_PERCENT in *; blia || done).
  cbn [mbind result_bind] in H. inv_result. simpl.
  pose proof (scale_down_bounds (amount x) (market_fee_percent (options a)) GRAPHENE_100_PERCENT)
    as Hs. unfold GRAPHENE_100_PERCENT in Hs at 2.
  rewrite to_int64_small by (unfold GRAPHENE_100_PERCENT in *; lia).
  destruct (Z.ltb_spec (max_market_fee (options a))
    (amount x * market_fee_percent (options a) / GRAPHENE_100_PERCENT));
    unfold GRAPHENE_100_PERCENT in *; lia.
Qed.

Lemma pay_market_fees_pays db r x fee db' :
  wf_assets db -> nonneg64 (amount x) -> pay_market_fees db r x = Ok (fee, db') ->
  asset_id fee = asset_id x /\ 0 <= amount fee <= amount x /\
  pays_out db db' (fun a => amount_in a fee).
Proof.
  unfold pay_market_fees. intros Hwf Hx H. inv_result.
  apply calculate_market_fee_range in H0 as (Hid & -> & Hr); [|done..].
  destruct (Z.ltb_spec 0 (amount a)) as [Hpos|Hpos]; inv_result; (split_and!; [done|lia..|]).
  - unfold get_dynamic in *. inv_get. inv_safe. split; [by split|].
    eapply moves_eq; [by eapply put_dynamic_moves|]. intros c. simpl.
    rewrite <-Hid, Z.sub_diag, core_in_0. destruct fee as [fa fi]; simpl.
    unfold amount_in; simpl. case_match; lia.
  - eapply pays_out_eq; [apply pays_out_refl|]. intros c. destruct fee as [fa fi]; simpl in *.
    replace fa with 0 by lia. by rewrite amount_in_0.
Qed.

Lemma pay_exchange_fee_pays db o pays receives fees rate r db' :
  pay_exchange_fee db o pays receives fees = Ok (rate, r, db') -> pays_out db db' (fun _ => 0).
Proof.
  unfold pay_exchange_fee. intros H.
  repeat (case_match; inv_result; try apply pays_out_refl).
  match goal with H : asset_neg _ = _ |- _ => unfold asset_neg in H end. inv_result. inv_safe.
  repeat match goal with H : adjust_balance _ _ _ = _ |- _ => apply adjust_balance_pays in H end.
  eapply pays_out_eq; [by eapply pays_out_step|]. intros c. simpl.
  unfold amount_in; simpl. case_match; lia.
Qed.

(** A seller's deferred fee leaves its order: it becomes a pending fee. *)
Lemma pay_deferred_fee_pays db o db' :
  pay_deferred_fee db o = Ok db' ->
  pays_out db db' (fun a => if 0 <? deferred_fee o then core_in a (deferred_fee o) else 0).
Proof.
  unfold pay_deferred_fee, get_statistics, stats_pay_fee. intros H.
  destruct (0 <? deferred_fee o); [|inv_result; apply pays_out_refl]. inv_result.
  split; [by split|]. eapply moves_eq; [by eapply put_statistics_moves|].
  intros c. simpl. destruct (_ <? deferred_fee o); inv_result; inv_safe; simpl; f_equal; lia.
Qed.

(** ** Cancelling *)

Lemma cancel_settlement_moves db i b db' :
  cancel_settlement db i b = Ok db' -> moves db db' (fun _ => 0).
Proof.
  unfold cancel_settlement, settlement_at. cbv zeta. intros H. inv_result.
  apply adjust_balance_pays in H1 as [S M].
  assert (Hs : objs (settlements a0) !! i = Some a) by by rewrite (same_settlements _ _ S).
  eapply moves_eq.
  { eapply moves_step; [exact M|]. destruct b.
    - eapply moves_step; [by apply (push_applied_operation_pays a0)|]. by eapply remove_settlement_moves.
    - by eapply remove_settlement_moves. }
  intros c. destruct b; unfold settlement_part; lia.
Qed.

(** The amount a running deflation takes is the only thing lost. *)
Lemma cancel_deflation_burns db i o x db' :
  cancel_deflation db i o = Ok (x, db') ->
  same_books (db <| order_deflations ::= delete i |>) db' /\
  statistics db' = statistics db /\
  burns db db' (fun _ => 0) /\ (quiet db = true -> x = 0).
Proof.
  unfold cancel_deflation. intros H. inv_result. destruct a as [y db1]. inv_result.
  assert ((x = 0 /\ db1 = db) \/ (quiet db = false /\ exists ds op,
    db1 = push_applied_operation (db <| deflations := ds |>) op)) as [[-> ->]|[Hq (ds & op & ->)]].
  { unfold quiet. destruct (tbl_last _) as [[di d]|]; [|inv_result; auto].
    destruct (order_pending d i && _) eqn:Hp; inv_result; [right|auto].
    unfold order_pending in Hp. bool_to_prop. split; [done|]. eauto. }
  - split_and!; [by split|done| |done]. apply moves_burns. by apply moves_same.
  - split_and!; [by split|done| |congruence].
    intros [[]]. split_and!; [by split|congruence|]. exists 0. split; [done|].
    intros a. rewrite core_in_0.
    unfold unbacked, holdings, supply, fees_of, dynamic_of; simpl. lia.
Qed.

Lemma same_books_limit db db' i o :
  same_books db db' -> objs (limit_orders db) !! i = Some o -> objs (limit_orders db') !! i = Some o.
Proof. intros S. by rewrite (same_limit_orders _ _ S). Qed.

(** A loss of [x] core after a step, when nothing can be lost while quiet. *)
Lemma burns_loss db db1 db' x :
  burns db db1 (fun _ => 0) -> (quiet db = true -> x = 0) ->
  moves db1 db' (fun a => - core_in a x) -> burns db db' (fun _ => 0).
Proof.
  intros B Q M Hwf. destruct (B Hwf) as (W1 & Q1 & d & Hd & E1).
  destruct (M W1) as (W2 & D2 & E2). split_and!; [done|intros Hq; rewrite D2; auto|].
  exists (x + d). split; [intros Hq; rewrite (Hd Hq), (Q Hq); done|].
  intros a. rewrite E2, E1, !core_in_add. lia.
Qed.

Lemma cancel_limit_order_burns db i b db' :
  cancel_limit_order db i b = Ok db' -> burns db db' (fun _ => 0).
Proof.
  unfold cancel_limit_order, limit_at, get_statistics. cbv zeta. intros H. inv_result.
  destruct a0 as [x db1]. inv_result. rename a into o.
  assert (Hd : objs (limit_orders db1) !! i = Some o /\ burns db db1 (fun _ => 0) /\
               (quiet db = true -> x = 0) /\ (asset_id (base (sell_price o)) <> CORE_ASSET -> x = 0)).
  { destruct (N.eqb_spec (asset_id (base (sell_price o))) CORE_ASSET); inv_result.
    - apply cancel_deflation_burns in H1 as (S & _ & B & Q).
      split_and!; [by rewrite (same_limit_orders _ _ S)|done|done|done].
    - split_and!; [done|apply burns_refl|done|done]. }
  destruct Hd as (Ho & B & Q & Q').
  unfold asset_sub in *. simpl in *. inv_result. inv_safe.
  repeat match goal with H : adjust_balance _ _ _ = _ |- _ => apply adjust_balance_pays in H end.
  match goal with H1 : pays_out _ _ _, H2 : pays_out _ _ _, Hs : statistics db1 !! _ = Some _ |- _ =>
    pose proof (pays_out_step _ _ _ _ _ (pays_out_step _ _ _ _ _ (put_core_in_orders_pays _ _ _ _ Hs) H1) H2)
      as [S M] end.
  eapply burns_loss; [exact B|exact Q|].
  eapply moves_eq.
  { eapply moves_step; [exact M|]. eapply moves_step; [|eapply remove_limit_moves].
    - instantiate (1 := fun _ => 0). destruct b; [by apply moves_same|apply moves_refl].
    - destruct b; simpl; by eapply same_books_limit. }
  intros c. cbv beta. rewrite amount_in_core. unfold order_part. rewrite amount_in_sub.
  destruct (N.eqb_spec (asset_id (base (sell_price o))) CORE_ASSET) as [->|Hne].
  - rewrite !amount_in_core. lia.
  - rewrite (Q' Hne), amount_in_0, core_in_0. lia.
Qed.

Lemma maybe_cull_small_order_burns db i r db' :
  maybe_cull_small_order db i = Ok (r, db') -> burns db db' (fun _ => 0).
Proof.
  unfold maybe_cull_small_order. intros H. inv_result. destruct (_ =? 0); inv_result.
  - by eapply cancel_limit_order_burns.
  - apply burns_refl.
Qed.

(** ** Filling *)

Lemma asset_eqb_eq x y : asset_eqb x y = true <-> x = y.
Proof.
  destruct x, y. unfold asset_eqb; simpl. rewrite andb_true_iff, N.eqb_eq, Z.eqb_eq.
  naive_solver.
Qed.

Lemma clear_order_deflation_moves db i o :
  moves db (clear_order_deflation db i o) (fun _ => 0) /\
  limit_orders (clear_order_deflation db i o) = limit_orders db.
Proof.
  unfold clear_order_deflation. destruct (order_deflations db !! i); [|split; [apply moves_refl|done]].
  destruct (tbl_last _) as [[]|]; [case_match|]; (split; [by apply moves_same|done]).
Qed.

(** Filling a limit order moves what it pays to what it receives. *)
Lemma fill_limit_order_burns db i pays receives cull r db' :
  fill_limit_order db i pays receives cull = Ok (r, db') -> nonneg64 (amount receives) ->
  burns db db' (fun a => amount_in a receives - amount_in a pays).
Proof.
  intros H Hr Hwf. revert Hwf. enough (wf_db db -> burns db db'
    (fun a => amount_in a receives - amount_in a pays)) as Hb by exact (fun W => Hb W W). intros Hwf.
  unfold fill_limit_order, limit_at in H. cbv zeta in H. inv_results.
  rename a into o.
  match goal with H : pay_market_fees _ _ _ = _ |- _ =>
    apply pay_market_fees_pays in H as (Hid & Hfee & P1); [|apply Hwf|done] end.
  match goal with H : pay_order _ _ _ _ = _ |- _ => apply pay_order_pays in H as P2 end.
  match goal with H : pay_exchange_fee _ _ _ _ _ = _ |- _ => apply pay_exchange_fee_pays in H as P3 end.
  match goal with H : pay_deferred_fee _ _ = _ |- _ => apply pay_deferred_fee_pays in H as P4 end.
  destruct (wf_for_sale db Hwf i o) as [Hfs Hdf]; [done|].
  assert (P : pays_out db a5 (fun c => amount_in c receives + core_in c (deferred_fee o))).
  { eapply pays_out_eq.
    { eapply pays_out_step; [|exact P4]. eapply pays_out_step; [|apply push_applied_operation_pays].
      eapply pays_out_step; [|exact P3]. eapply pays_out_step; [exact P1|exact P2]. }
    intros c. unfold asset_sub in H6. inv_result. inv_safe. simpl.
    destruct receives as [ra ri], a0 as [fa fi]; simpl in *. subst fi.
    rewrite amount_in_sub. destruct (Z.ltb_spec 0 (deferred_fee o)); [lia|].
    replace (deferred_fee o) with 0 by lia. rewrite core_in_0. lia. }
  destruct P as [S M]. pose proof (same_books_limit _ _ _ _ S H0) as Ho.
  assert (Hpart : forall n c, order_part c i (o <| for_sale := n |> <| deferred_fee := 0 |>)
    - order_part c i o = amount_in c (Asset (n - for_sale o) (asset_id pays)) - core_in c (deferred_fee o)).
  { intros m c. apply N.eqb_eq in H1. unfold order_part; simpl in *.
    rewrite H1, amount_in_sub, core_in_0. lia. }
  destruct (asset_eqb pays (amount_for_sale o)) eqn:Hfull; inv_results.
  - apply asset_eqb_eq in Hfull as ->. apply moves_burns. eapply moves_eq.
    { eapply moves_step; [exact M|]. eapply moves_step; [|eapply remove_limit_moves].
      - instantiate (1 := fun _ => 0). destruct (_ =? CORE_ASSET)%N;
          [apply clear_order_deflation_moves|apply moves_refl].
      - destruct (_ =? CORE_ASSET)%N; [|done]. by rewrite (proj2 (clear_order_deflation_moves _ _ _)). }
    intros c. cbv beta. unfold order_part, amount_for_sale. lia.
  - inv_safe. eapply burns_eq; [eapply burns_step; [apply moves_burns;
      eapply moves_step; [exact M|apply (put_limit_moves _ i o
        (fun _ => o <| for_sale := for_sale o - amount pays |> <| deferred_fee := 0 |>)); done]|]|].
    + instantiate (1 := fun _ => 0). destruct (cull || _); inv_results; [|apply burns_refl].
      by eapply maybe_cull_small_order_burns.
    + intros c. cbv beta. rewrite Hpart. destruct pays as [pa pi]; simpl.
      rewrite <-(Z.add_opp_r _ pa). replace (for_sale o + - pa - for_sale o) with (0 - pa) by lia.
      rewrite amount_in_sub, amount_in_0. lia.
Qed.

(** What a filled call order's borrower gets back. *)
Lemma borrower_step db b freed (pays : asset) db' :
  (if match freed with Some _ => true | None => false end || (asset_id pays =? CORE_ASSET)%N then
     _ ← get_statistics db b;
     db ← (match freed with Some f => adjust_balance db b f | None => Ok db end);
     st ← get_statistics db b;
     st' ← borrower_paid st freed pays;
     Ok (put_statistics db b st')
   else Ok db) = Ok db' ->
  pays_out db db' (fun a => match freed with Some f => amount_in a f | None => 0 end) /\
  dynamic_data db' = dynamic_data db.
Proof.
  unfold get_statistics, borrower_paid. intros H. destruct (_ || _) eqn:Hc.
  - inv_results. destruct freed as [f|]; inv_results.
    + split; [|by apply adjust_balance_inv in H1 as (b' & -> & _)].
      apply adjust_balance_pays in H1. eapply pays_out_eq;
        [by eapply pays_out_step; [exact H1|apply put_core_in_orders_pays]|]. intros c. simpl. lia.
    + split; [by apply put_core_in_orders_pays|done].
  - destruct freed; [done|]. inv_result. split; [apply pays_out_refl|done].
Qed.

Lemma put_dynamic_supply db a ao d d' :
  wf_assets db -> objs (assets db) !! a = Some ao ->
  objs (dynamic_data db) !! dynamic_asset_data_id ao = Some d ->
  forall c, supply (put_dynamic db ao d') c =
    supply db c + amount_in c (Asset (current_supply d' - current_supply d) a).
Proof.
  intros Hwf Ha Hd c. unfold supply.
  rewrite (dynamic_of_put db a) by (rewrite ?Hd; done). unfold amount_in; simpl.
  destruct (N.eqb_spec a c) as [<-|Hne].
  - rewrite decide_True by done.
    assert (dynamic_of db a = Some d) as ->; [|lia]. unfold dynamic_of. by rewrite Ha.
  - rewrite decide_False by done. lia.
Qed.

Lemma delete_alter_same `{Countable K} {A} (f : A -> A) (m : gmap K A) k :
  delete k (alter f k m) = delete k m.
Proof.
  apply map_eq. intros j. destruct (decide (j = k)) as [->|].
  - by rewrite !lookup_delete_eq.
  - by rewrite !lookup_delete_ne, lookup_alter_ne.
Qed.

(** Filling a call order: the collateral it pays leaves it, and the debt it
    receives leaves the supply. *)
Lemma fill_call_order_moves db i pays receives r db' :
  fill_call_order db i pays receives = Ok (r, db') ->
  moves db db' (fun a => amount_in a receives - amount_in a pays) /\
  assets db' = assets db /\ bitassets db' = bitassets db /\ limit_orders db' = limit_orders db /\
  settlements db' = settlements db /\
  (forall j, is_Some (objs (dynamic_data db) !! j) -> is_Some (objs (dynamic_data db') !! j)) /\
  (wf_assets db -> forall a, supply db' a = supply db a - amount_in a receives) /\
  exists c, objs (call_orders db) !! i = Some c /\ r = (debt c - amount receives =? 0) /\
    get_debt c = Asset (debt c) (asset_id receives) /\
    objs (call_orders db') =
      (if r then delete i (objs (call_orders db))
       else objs (tbl_modify (call_orders db) i (fun _ => c <| debt := debt c - amount receives |>
              <| collateral := collateral c - amount pays |>))).
Proof.
  unfold fill_call_order, call_at, get_dynamic. cbv zeta. intros H. inv_results.
  inv_safe. inv_get. rename a into c. apply N.eqb_eq in H1, H2.
  match goal with H : _ = Ok ?d |- _ => is_var d; apply borrower_step in H as [[S M3] D3] end.
  match type of H7 with objs (assets ?x) !! _ = _ => set (db1 := x) in * end.
  match type of S with same_books (put_dynamic _ _ ?y) _ => set (d' := y) in * end.
  set (zero := debt c - amount receives =? 0) in *.
  assert (M : moves db a11 (fun x => amount_in x receives - amount_in x pays)).
  { eapply moves_eq.
    { eapply moves_step; [|exact M3]. eapply moves_step; [by apply put_call_moves|].
      by apply (put_dynamic_moves _ _ _ _ d' H7 H9). }
    intros x. unfold call_part, d'; simpl. destruct receives as [ra ri], pays as [pa pi].
    unfold get_collateral in *. simpl in *. subst ri pi.
    rewrite !Z.sub_diag, core_in_0. replace (0 - (current_supply a8 - ra - current_supply a8)) with ra by lia.
    destruct zero; rewrite !amount_in_sub, ?amount_in_0; lia. }
  assert (Hc : objs (call_orders a11) = objs (tbl_modify (call_orders db) i (fun _ =>
    c <| debt := debt c - amount receives |>
      <| collateral := if zero then 0 else collateral c - amount pays |>)))
    by by rewrite (same_call_orders _ _ S).
  assert (Hsup : wf_assets db -> forall x, supply a11 x = supply db x - amount_in x receives).
  { intros Hwf x. trans (supply (put_dynamic db1 a6 d') x).
    - unfold supply, dynamic_of. by rewrite D3, (same_assets _ _ S).
    - assert (Hwf1 : wf_assets db1) by (destruct Hwf; by split).
      rewrite (put_dynamic_supply db1 _ _ _ d' Hwf1 H7 H9). unfold d'; simpl.
      replace (current_supply a8 - amount receives - current_supply a8) with (0 - amount receives) by lia.
      rewrite amount_in_sub, amount_in_0. destruct receives; simpl.
      unfold supply, dynamic_of; simpl. lia. }
  assert (Hdyn : forall j, is_Some (objs (dynamic_data db) !! j) -> is_Some (objs (dynamic_data a11) !! j)).
  { intros j Hj. rewrite D3. by apply tbl_modify_is_Some. }
  assert (Hdebt : get_debt c = Asset (debt c) (asset_id receives)) by (unfold get_debt; congruence).
  destruct zero eqn:Hz; inv_results.
  - split_and!; [|apply S..|exact Hdyn|exact Hsup|].
    + eapply moves_eq; [eapply moves_step; [exact M|]|].
      * eapply moves_step; [eapply (fun op => proj2 (push_applied_operation_pays a11 op))|].
        eapply (remove_call_moves (push_applied_operation a11 (fill_order_vop _ _ _ _ _ _ _))).
        trans (objs (call_orders a11) !! i); [done|]. rewrite Hc. simpl. by rewrite lookup_alter_eq, H0.
      * intros x. unfold call_part; simpl. rewrite amount_in_0. lia.
    + exists c. split_and!; [done..|]. trans (delete i (objs (call_orders a11))); [done|].
      rewrite Hc. apply delete_alter_same.
  - split_and!; [|apply S..|exact Hdyn|exact Hsup|].
    + eapply moves_eq; [eapply moves_step; [exact M|by apply moves_same]|]. intros x. simpl. lia.
    + exists c. split_and!; done.
Qed.

Lemma asset_mul_price_range a p r :
  asset_mul_price a p = Ok r ->
  0 <= amount r <= GRAPHENE_MAX_SHARE_SUPPLY /\
  asset_id r = (if asset_id a =? asset_id (base p) then asset_id (quote p) else asset_id (base p))%N /\
  (asset_id a = asset_id (base p) \/ asset_id a = asset_id (quote p)).
Proof.
  unfold asset_mul_price. intros H.
  destruct (N.eqb_spec (asset_id a) (asset_id (base p)));
    [|destruct (N.eqb_spec (asset_id a) (asset_id (quote p))); [|done]];
    cbv zeta in H; inv_result; bool_to_prop;
    match goal with H : u128_to_uint64 _ _ = Ok _ |- _ =>
      apply (u128_to_uint64_exact _ boost_u128_laws) in H as [-> ?];
        [simpl; auto with lia|unfold GRAPHENE_MAX_SHARE_SUPPLY in *; blia] end.
Qed.

Lemma max_supply_nonneg64 x : 0 <= x <= GRAPHENE_MAX_SHARE_SUPPLY -> nonneg64 x.
Proof. unfold nonneg64, GRAPHENE_MAX_SHARE_SUPPLY. blia. Qed.

Lemma asset_ltb_inv x y b :
  asset_ltb x y = Ok b -> asset_id x = asset_id y /\ b = (amount x <? amount y).
Proof. unfold asset_ltb. intros H. inv_result. by apply N.eqb_eq in H0. Qed.

Lemma asset_min_inv x y z :
  asset_min x y = Ok z -> (z = x \/ z = y) /\ asset_id z = asset_id x /\ asset_id x = asset_id y /\
    amount z = Z.min (amount x) (amount y).
Proof.
  unfold asset_min. intros H. inv_result. apply asset_ltb_inv in H0 as [Hid ->].
  destruct (Z.ltb_spec (amount y) (amount x)); (split_and!; [auto|auto..|lia]).
Qed.

Lemma fill_settlement_moves db i pays receives r db' s :
  fill_settlement db i pays receives = Ok (r, db') -> nonneg64 (amount receives) ->
  objs (settlements db) !! i = Some s -> amount pays <= amount (settle_balance s) ->
  moves db db' (fun a => amount_in a receives - amount_in a pays).
Proof.
  intros H Hr Hs Hle Hwf. revert Hwf. enough (wf_db db -> moves db db'
    (fun a => amount_in a receives - amount_in a pays)) as Hb by exact (fun W => Hb W W). intros Hwf.
  unfold fill_settlement, settlement_at in H. rewrite Hs in H. cbn [of_option mbind result_bind] in H.
  cbv zeta in H. inv_results.
  match goal with H : pay_market_fees _ _ _ = _ |- _ =>
    apply pay_market_fees_pays in H as (Hid & Hfee & S1 & M1); [|apply Hwf|done] end.
  match goal with H : asset_ltb _ _ = _ |- _ => apply asset_ltb_inv in H as [Hpid ->] end.
  match goal with H : adjust_balance _ _ _ = _ |- _ => apply adjust_balance_pays in H as [S2 M2] end.
  assert (Hgot : forall c, amount_in c a2 = amount_in c receives - amount_in c a).
  { intros c. unfold asset_sub in H3. inv_result. inv_safe. destruct receives, a; simpl in *. subst.
    by rewrite amount_in_sub. }
  assert (Hs1 : objs (settlements d) !! i = Some s) by by rewrite (same_settlements _ _ S1).
  destruct (Z.ltb_spec (amount pays) (amount (settle_balance s))) as [Hlt|Hge]; inv_results.
  - eapply moves_eq.
    { eapply moves_step; [exact M1|]. eapply moves_step; [by eapply put_settlement_moves|].
      eapply moves_step; [exact M2|]. by apply moves_same. }
    intros c. cbv beta. rewrite Hgot. unfold settlement_part; simpl.
    match goal with H : asset_sub (settle_balance _) _ = _ |- _ => unfold asset_sub in H end.
    inv_result. inv_safe. simpl. destruct pays as [pa pi], (settle_balance s) as [sa si]; simpl in *. subst. rewrite amount_in_sub. lia.
  - eapply moves_eq.
    { eapply moves_step; [exact M1|]. eapply moves_step; [exact M2|].
      eapply moves_step; [eapply (fun op => proj2 (push_applied_operation_pays a3 op))|].
      eapply (remove_settlement_moves (push_applied_operation a3 (fill_order_vop _ _ _ _ _ _ _))).
      trans (objs (settlements a3) !! i); [done|]. by rewrite (same_settlements _ _ S2). }
    intros c. cbv beta. rewrite Hgot. unfold settlement_part.
    destruct pays as [pa pi], (settle_balance s) as [sa si]; simpl in *. subst.
    replace pa with sa by lia. lia.
Qed.

(** ** Matching *)

(** Both amounts exchanged in a match are within what is for sale. *)
Lemma match_amounts_range u c p up cp :
  match_amounts u c p = Ok (up, cp) -> 0 < for_sale u -> in_int64 (for_sale u) ->
  0 < for_sale c -> in_int64 (for_sale c) ->
  nonneg64 (amount up) /\ nonneg64 (amount cp).
Proof.
  unfold match_amounts. cbv zeta. intros H Hu Hu' Hc Hc'. inv_results.
  destruct a0; inv_results;
    match goal with H : asset_mul_price _ _ = Ok ?x |- context [amount ?x] =>
      apply asset_mul_price_range in H as [?%max_supply_nonneg64 _] end;
    split; try done; unfold nonneg64; simpl; blia.
Qed.

Lemma match_limit_burns db usd core p r db' :
  match_limit db usd core p = Ok (r, db') -> burns db db' (fun _ => 0).
Proof.
  intros H Hwf. revert Hwf. enough (wf_db db -> burns db db' (fun _ => 0)) as Hb
    by exact (fun W => Hb W W). intros Hwf.
  unfold match_limit, limit_at in H. cbv zeta in H. inv_results. bool_to_prop.
  edestruct match_amounts_range as [Hup Hcp]; [eassumption|done| |done| |].
  1,2: by eapply (wf_for_sale db Hwf).
  repeat match goal with H : fill_limit_order _ _ _ _ _ = _ |- _ =>
    apply fill_limit_order_burns in H; [|done] end.
  eapply burns_eq; [by eapply burns_step|]. intros c. simpl. lia.
Qed.

Lemma match_settlement_moves db call settle p m x db' :
  match_settlement db call settle p m = Ok (x, db') -> moves db db' (fun _ => 0).
Proof.
  unfold match_settlement, call_at, settlement_at. intros H. inv_results.
  apply asset_min_inv in H4 as (_ & _ & _ & Hm1). apply asset_min_inv in H5 as (_ & _ & _ & Hm2).
  apply asset_mul_price_range in H6 as [?%max_supply_nonneg64 _].
  apply fill_call_order_moves in H10 as (M1 & _ & _ & _ & S & _).
  eapply fill_settlement_moves in H11; [|done|by rewrite S|lia].
  eapply moves_eq; [by eapply moves_step|]. intros c. simpl. lia.
Qed.

(** ** Global settlement *)

(** A price within bounds of one market belongs to that market. *)
Lemma price_range_ids p lo hi b q :
  asset_id (base lo) = b -> asset_id (quote lo) = q ->
  asset_id (base hi) = b -> asset_id (quote hi) = q ->
  price_ltb p lo = false -> price_ltb hi p = false ->
  asset_id (base p) = b /\ asset_id (quote p) = q.
Proof.
  intros <- <- Hb Hq. unfold price_ltb. rewrite Hb, Hq.
  repeat match goal with |- context [(?x <? ?y)%N] => destruct (N.ltb_spec x y) end;
    intros; try discriminate; lia.
Qed.

Lemma call_range_elem db lo hi i :
  i ∈ call_range db lo hi <->
  exists c, objs (call_orders db) !! i = Some c /\
    price_ltb (call_order_price c) lo = false /\ price_ltb hi (call_order_price c) = false.
Proof.
  unfold call_range. rewrite list_elem_of_fmap. split.
  - intros ([j c] & -> & [Hf He]%list_elem_of_filter). simpl in *.
    unfold calls_by_price in He. rewrite merge_sort_Permutation, elem_of_map_to_list in He.
    exists c. split; [done|]. apply Is_true_true, andb_true_iff in Hf as [H1 H2].
    by rewrite negb_true_iff in H1, H2.
  - intros (c & Hc & H1 & H2). exists (i, c). split; [done|]. apply list_elem_of_filter.
    simpl. rewrite H1, H2. split; [done|]. unfold calls_by_price.
    by rewrite merge_sort_Permutation, elem_of_map_to_list.
Qed.

Lemma price_min_inv b q p : price_min b q = Ok p ->
  p = Price (Asset 1 b) (Asset GRAPHENE_MAX_SHARE_SUPPLY q) /\ b <> q.
Proof.
  unfold price_min, asset_div. intros H. inv_result. by apply negb_true_iff, N.eqb_neq in H0.
Qed.

Lemma price_max_inv b q p : price_max b q = Ok p ->
  p = Price (Asset GRAPHENE_MAX_SHARE_SUPPLY b) (Asset 1 q) /\ b <> q.
Proof.
  unfold price_max, asset_div. intros H. inv_result. by apply negb_true_iff, N.eqb_neq in H0.
Qed.

(** What closing margin positions has done so far: [D] of debt repaid. *)
Record closing (db0 : database) (mia backing : N) (st : asset * database) (D : Z) : Prop := {
  closing_id : asset_id st.1 = backing;
  closing_assets : assets st.2 = assets db0;
  closing_bitassets : bitassets st.2 = bitassets db0;
  closing_limits : limit_orders st.2 = limit_orders db0;
  closing_calls i c : objs (call_orders st.2) !! i = Some c -> objs (call_orders db0) !! i = Some c;
  closing_dynamic j : is_Some (objs (dynamic_data db0) !! j) -> is_Some (objs (dynamic_data st.2) !! j);
  closing_moves : moves db0 st.2 (fun a => amount_in a (Asset D mia) - amount_in a st.1);
  closing_supply a : wf_db db0 -> supply st.2 a = supply db0 a - amount_in a (Asset D mia);
}.

Lemma closing_start db mia backing : closing db mia backing (Asset 0 backing, db) 0.
Proof.
  split; simpl; try done.
  - eapply moves_eq; [apply moves_refl|]. intros a. simpl. rewrite !amount_in_0. lia.
  - intros a _. rewrite amount_in_0. lia.
Qed.

Lemma close_call_step p db0 mia backing st D i st' :
  closing db0 mia backing st D ->
  (forall c, objs (call_orders db0) !! i = Some c -> debt_type c = mia) ->
  close_call p st i = Ok st' ->
  exists D', closing db0 mia backing st' D' /\
    objs (call_orders st'.2) = delete i (objs (call_orders st.2)).
Proof.
  intros [Hid Ha Hb Hl Hc Hy Hm Hs] Hmia H. destruct st as [g db]. unfold close_call, call_at in H.
  cbv zeta in H. inv_results. simpl in *.
  apply fill_call_order_moves in H4 as (M & EA & EB & EL & _ & EY & ES & c' & Hc' & Hz & _ & EC).
  simplify_eq.
  match goal with H : objs (call_orders db) !! i = Some ?x |- _ => rename x into c, H into Hc' end.
  match goal with H : (_ =? 0) = true |- _ => rename H into Hz end. rewrite Hz in EC.
  apply Hc in Hc' as Hc0. apply Hmia in Hc0 as Hd.
  match goal with H : asset_add _ _ = _ |- _ => unfold asset_add in H end. inv_result. inv_safe.
  match goal with H : (asset_id g =? _)%N = true |- _ => apply N.eqb_eq in H end. simpl in *.
  exists (D + debt c). split; [|simpl; done].
  set (pays := if a1 then get_collateral c else a0) in *.
  assert (Hp : forall a, amount_in a (Asset (amount g + amount pays) (asset_id g))
    = amount_in a g + amount_in a pays).
  { intros a. rewrite amount_in_add. destruct g, pays; simpl in *. by subst. }
  split; simpl; [done|congruence..| |auto| |].
  - intros j cj. rewrite EC. intros [_ ?]%lookup_delete_Some. by apply Hc.
  - eapply moves_eq; [eapply moves_step; [exact Hm|exact M]|]. intros a. cbv beta.
    rewrite Hp, amount_in_add. unfold get_debt. lia.
  - intros a Hwf. destruct (Hm Hwf) as [Hwf' _]. rewrite ES by apply Hwf'. rewrite (Hs a Hwf).
    rewrite amount_in_add. unfold get_debt. lia.
Qed.

Lemma close_calls p db0 mia backing l : forall st D st',
  closing db0 mia backing st D ->
  (forall i c, i ∈ l -> objs (call_orders db0) !! i = Some c -> debt_type c = mia) ->
  foldM (close_call p) st l = Ok st' ->
  exists D', closing db0 mia backing st' D' /\
    (forall i c, objs (call_orders st'.2) !! i = Some c -> objs (call_orders st.2) !! i = Some c) /\
    forall i, i ∈ l -> objs (call_orders st'.2) !! i = None.
Proof.
  induction l as [|i l IH]; simpl; intros st D st' HC Hmia H; inv_results.
  - exists D. split_and!; [done|done|]. intros i Hi. by apply not_elem_of_nil in Hi.
  - rename a into st1. destruct (close_call_step _ _ _ _ _ _ _ _ HC (fun c => Hmia i c (list_elem_of_here _ _)) H0)
      as (D1 & HC1 & Hdel).
    destruct (IH st1 D1 st' HC1) as (D2 & HC2 & Hsub & Hgone); [|done|].
    { intros j c Hj. apply Hmia. by apply list_elem_of_further. }
    exists D2. split_and!; [done| |].
    + intros j c Hj%Hsub. rewrite Hdel in Hj. by apply lookup_delete_Some in Hj as [_ ?].
    + intros j Hj. apply elem_of_cons in Hj as [->|Hj]; [|by apply Hgone].
      destruct (objs (call_orders st'.2) !! i) as [c|] eqn:Hc; [|done].
      apply Hsub in Hc. by rewrite Hdel, lookup_delete_eq in Hc.
Qed.

Lemma put_fund_moves db i b (upd : asset_bitasset_data_object -> asset_bitasset_data_object) :
  objs (bitassets db) !! i = Some b -> bit_options (upd b) = bit_options b ->
  (has_settlement (upd b) = false -> settlement_fund (upd b) = 0) ->
  moves db (db <| bitassets ::= fun t => tbl_modify t i upd |>) (fun a =>
    amount_in a (Asset (settlement_fund (upd b) - settlement_fund b)
                   (short_backing_asset (bit_options b)))).
Proof.
  intros Hb Ho Hf [[]]. split_and!; [split; try done|done|].
  { intros j bj. simpl. intros [(<- & x & Hx & ->)|[_ ?]]%lookup_alter_Some; [|eauto].
    simplify_eq. exact Hf. }
  intros a. unfold unbacked, holdings, supply, fees_of, dynamic_of; simpl.
  rewrite map_sum_alter, Hb. simpl. unfold fund_part. rewrite Ho, amount_in_sub. lia.
Qed.

(** The supply of the asset [a] put back to [x]. *)
Lemma restore_supply_moves db a ao d x :
  objs (assets db) !! a = Some ao ->
  objs (dynamic_data db) !! dynamic_asset_data_id ao = Some d ->
  let db' := db <| dynamic_data ::= fun t =>
    tbl_modify t (dynamic_asset_data_id ao) (fun d => d <| current_supply := x |>) |> in
  moves db db' (fun c => amount_in c (Asset (current_supply d - x) a)) /\
  (wf_assets db -> supply db' a = x).
Proof.
  intros Ha Hd. cbv zeta. cbv [update]. rewrite (tbl_modify_const _ _ _ _ Hd). split.
  - eapply moves_eq; [exact (put_dynamic_moves db a ao d (d <| current_supply := x |>) Ha Hd)|].
    intros c. simpl. rewrite !Z.sub_diag, core_in_0.
    replace (0 - (x - current_supply d)) with (current_supply d - x) by lia. lia.
  - intros Hwf. trans (supply (put_dynamic db ao (d <| current_supply := x |>)) a); [done|].
    rewrite (put_dynamic_supply db a ao d) by done. unfold amount_in, supply; simpl.
    rewrite N.eqb_refl. unfold dynamic_of. rewrite Ha. simpl. rewrite Hd. lia.
Qed.

Lemma has_settlement_different b :
  asset_id (base (bit_settlement_price b)) <> asset_id (quote (bit_settlement_price b)) ->
  has_settlement b = true.
Proof.
  unfold has_settlement, is_null, price_eqb. intros Hne. simpl.
  destruct (N.eqb_spec (asset_id (base (bit_settlement_price b))) CORE_ASSET),
    (N.eqb_spec (asset_id (quote (bit_settlement_price b))) CORE_ASSET); simpl; congruence.
Qed.

(** After a global settlement the asset has no margin position left; its supply
    stands, and the collateral gathered is its settlement fund. *)
Lemma globally_settle_asset_inv db mia p db' :
  wf_db db -> globally_settle_asset db mia p = Ok db' ->
  moves db db' (fun _ => 0) /\ supply db' mia = supply db mia /\ limit_orders db' = limit_orders db /\
  exists a bi bit, objs (assets db) !! mia = Some a /\ bitasset_data_id a = Some bi /\
    objs (bitassets db) !! bi = Some bit /\ assets db' = assets db /\
    (forall i c, objs (call_orders db') !! i = Some c ->
       objs (call_orders db) !! i = Some c /\
       i ∉ call_range db (Price (Asset 1 (short_backing_asset (bit_options bit)))
                                (Asset GRAPHENE_MAX_SHARE_SUPPLY mia))
                         (Price (Asset GRAPHENE_MAX_SHARE_SUPPLY (short_backing_asset (bit_options bit)))
                                (Asset 1 mia))) /\
    exists bit', objs (bitassets db') !! bi = Some bit' /\ has_settlement bit' = true /\
      amount (base (bit_settlement_price bit')) = supply db mia /\
      amount (quote (bit_settlement_price bit')) = settlement_fund bit'.
Proof.
  intros Hwf H. unfold globally_settle_asset in H. cbv zeta in H. inv_results.
  unfold bitasset_data in *. inv_results. unfold get_dynamic in *. inv_get. bool_to_prop.
  rename a0 into bit, n into bi, a1 into g, a3 into dyn.
  apply price_min_inv in H5 as [-> Hne]. apply price_max_inv in H6 as [-> _].
  assert (Hdiv : asset_id g <> mia /\ a7 = Price (Asset (current_supply dyn) mia) g).
  { unfold asset_div in H9. inv_result. bool_to_prop. by apply N.eqb_neq in H1. }
  destruct Hdiv as [Hgm ->].
  assert (Hsup : supply db mia = current_supply dyn)
    by (unfold supply, dynamic_of; rewrite H0; simpl; by rewrite H4).
  set (backing := short_backing_asset (bit_options bit)) in *.
  eapply (close_calls p db mia backing) in H7 as (D & HC & _ & Hgone); [|apply closing_start|].
  2: { intros i c (c' & Hc' & H1 & H6)%call_range_elem Hc.
       assert (c' = c) as -> by congruence.
       assert (asset_id (base (call_order_price c)) = backing /\
               asset_id (quote (call_order_price c)) = mia) as [_ ?]; [|done].
       by eapply price_range_ids; [..|exact H1|exact H6]. }
  destruct HC as [Hid Ha Hb Hl Hc Hy Hm Hs]. simpl in *.
  destruct (Hy (dynamic_asset_data_id a)) as [dk Hdk]; [eauto|].
  assert (Hks : current_supply dk = current_supply dyn - D).
  { specialize (Hs mia Hwf). rewrite Hsup in Hs. unfold supply, dynamic_of, amount_in in Hs.
    rewrite Ha, H0 in Hs. simpl in Hs. by rewrite N.eqb_refl, Hdk in Hs. }
  assert (Hb' : objs (bitassets d) !! bi = Some bit) by by rewrite Hb.
  pose (upd := fun b : asset_bitasset_data_object => b
    <| bit_settlement_price := Price (Asset (current_supply dyn) mia) g |>
    <| settlement_fund := amount g |>).
  assert (Hset : has_settlement (upd bit) = true)
    by (apply has_settlement_different; simpl; congruence).
  pose proof (put_fund_moves d bi bit upd Hb' eq_refl ltac:(congruence)) as M2.
  destruct (restore_supply_moves (d <| bitassets ::= fun t => tbl_modify t bi upd |>) mia a dk
    (current_supply dyn)) as [M3 S3]; [simpl; congruence|done|].
  assert (M : moves db (d <| bitassets ::= fun t => tbl_modify t bi upd |>) (fun c => amount_in c (Asset D mia))).
  { eapply moves_eq; [eapply moves_step; [exact Hm|exact M2]|]. intros c. simpl. fold backing.
    rewrite (wf_db_funds db Hwf bi bit H10 H2), Z.sub_0_r. subst backing. destruct g; simpl in *. subst. lia. }
  split_and!.
  - eapply moves_eq; [eapply moves_step; [exact M|exact M3]|]. intros c. simpl.
    rewrite Hks, !amount_in_sub. lia.
  - rewrite Hsup. apply S3. apply (M Hwf).
  - done.
  - exists a, bi, bit. split_and!; [done..| |].
    + intros i c Hi. split; [by apply Hc|]. intros Hin%Hgone. simpl in *. congruence.
    + exists (upd bit). split_and!; [|done..]. simpl. by rewrite lookup_alter_eq, Hb'.
Qed.

(** ** The loops *)

Lemma globally_settle_asset_moves db mia p db' :
  globally_settle_asset db mia p = Ok db' -> moves db db' (fun _ => 0).
Proof. intros H Hwf. by apply (globally_settle_asset_inv db mia p db' Hwf H). Qed.

Lemma check_for_blackswan_inv db mia b r db' :
  check_for_blackswan db mia b = Ok (r, db') ->
  db' = db \/ r = true /\ exists p, globally_settle_asset db mia p = Ok db'.
Proof.
  unfold check_for_blackswan. cbv zeta. intros H. inv_results.
  destruct (negb _); inv_results; [by left|]. destruct (has_settlement _); inv_results; [by left|].
  destruct (is_null _); inv_results; [by left|].
  destruct (call_range _ _ _); inv_results; [by left|].
  destruct (price_geb _ _); inv_results; [right; eauto|by left].
Qed.

Lemma check_for_blackswan_burns db mia b r db' :
  check_for_blackswan db mia b = Ok (r, db') -> burns db db' (fun _ => 0).
Proof.
  intros [->|(_ & p & H)]%check_for_blackswan_inv; [apply burns_refl|].
  by eapply moves_burns, globally_settle_asset_moves.
Qed.

Lemma margin_call_amounts_inv b s p (was fl : bool) cr orr fc :
  margin_call_amounts b s p was = Ok (cr, orr, fc, fl) ->
  nonneg64 (amount orr) /\ (was = true -> fl = true) /\ (fc = false -> fl = true) /\
  amount cr = Z.min (amount b) (amount s).
Proof.
  unfold margin_call_amounts, asset_geb. intros H. inv_results.
  apply asset_ltb_inv in H1 as [_ ->]. destruct (Z.ltb_spec (amount b) (amount s)); cbn [negb] in H;
    inv_results; match goal with H : asset_mul_price _ _ = Ok _ |- _ =>
      apply asset_mul_price_range in H as [?%max_supply_nonneg64 _] end;
    (split_and!; [done..|lia]).
Qed.

Lemma call_loop_burns n : forall db mia b fp calls limits was m r db',
  call_loop n db mia b fp calls limits was m = Ok (r, db') -> burns db db' (fun _ => 0).
Proof.
  induction n as [|n IH]; intros db mia b fp calls limits was m r db' H; [done|]. cbn [call_loop] in H.
  cbv zeta in H. inv_results. apply check_for_blackswan_burns in H0 as B1.
  destruct calls as [|ci calls]; [by inv_results|]. destruct limits as [|li limits]; [by inv_results|].
  destruct b0; inv_results; [done|].
  destruct (_ && _); inv_results; [done|]. destruct (price_gtb _ _); inv_results; [done|].
  match goal with H : asset_gtb _ _ = Ok ?g |- _ => destruct g end; inv_results.
  - match goal with H : globally_settle_asset _ _ _ = _ |- _ =>
      apply globally_settle_asset_moves, moves_burns in H end.
    eapply burns_eq; [by eapply burns_step|]. intros c. simpl. lia.
  - match goal with H : margin_call_amounts _ _ _ _ = _ |- _ =>
      apply margin_call_amounts_inv in H as (Hn & _) end.
    match goal with H : fill_call_order _ _ _ _ = _ |- _ => apply fill_call_order_moves in H as (M & _) end.
    apply moves_burns in M.
    match goal with H : fill_limit_order _ _ _ _ _ = _ |- _ => apply fill_limit_order_burns in H; [|done] end.
    apply IH in H.
    eapply burns_eq; [eapply burns_step; [exact B1|]; eapply burns_step; [exact M|];
      by eapply burns_step|]. intros c. simpl. lia.
Qed.

Lemma check_call_orders_burns db mia b r db' :
  check_call_orders db mia b = Ok (r, db') -> burns db db' (fun _ => 0).
Proof.
  unfold check_call_orders. cbv zeta. intros H. inv_results.
  destruct (negb _); inv_results; [apply burns_refl|].
  apply check_for_blackswan_burns in H1 as B1. destruct b0; inv_results; [done|].
  destruct (is_prediction_market _); inv_results; [done|].
  destruct (is_null _); inv_results; [done|].
  destruct (limit_range _ _ _); inv_results; [done|].
  match goal with H : call_loop _ _ _ _ _ _ _ _ _ = _ |- _ => apply call_loop_burns in H end.
  eapply burns_eq; [by eapply burns_step|]. intros c. simpl. lia.
Qed.

Lemma order_deflations_moves db upd : moves db (db <| order_deflations ::= upd |>) (fun _ => 0).
Proof. by apply moves_same. Qed.

(** The cut of a maker order by a running deflation is lost to the ledger. *)
Lemma deflate_maker_burns db i db' : deflate_maker db i = Ok db' -> burns db db' (fun _ => 0).
Proof.
  unfold deflate_maker, limit_at. cbv zeta. intros H. inv_results.
  destruct (N.eqb_spec (asset_id (base (sell_price a))) CORE_ASSET) as [Hcore|];
    [|inv_results; apply burns_refl].
  destruct (tbl_last (deflations db)) as [[di d]|] eqn:Hd; [|inv_results; apply burns_refl].
  destruct (_ && _) eqn:Hrun; [|inv_results; apply burns_refl]. inv_results.
  destruct (_ <? a0); inv_results; [|apply burns_refl]. inv_safe. apply pay_order_pays in H as [_ M].
  apply andb_true_iff in Hrun as [Hrun _]. apply negb_true_iff in Hrun.
  apply (burns_loss _ db _ a0); [apply burns_refl| |].
  { intros Hq. unfold quiet in Hq. rewrite Hd in Hq. congruence. }
  intros Hwf. destruct (wf_for_sale db Hwf i a H0) as [_ Hdf]. revert Hwf.
  change (moves db db' (fun c => - core_in c a0)). eapply moves_eq.
  { eapply moves_step; [|exact M]. eapply moves_step;
      [apply order_deflations_moves|by apply put_limit_moves]. }
  intros c. cbv beta. unfold order_part; simpl. rewrite amount_in_sub, amount_in_0, Hcore, amount_in_core. 
  rewrite amount_in_core. lia.
Qed.

Lemma match_loop_burns limits : forall db i db',
  match_loop db i limits = Ok db' -> burns db db' (fun _ => 0).
Proof.
  induction limits as [|l limits IH]; intros db i db' H; cbn [match_loop] in H;
    inv_results; [apply burns_refl|]. apply deflate_maker_burns in H0.
  match goal with H : match_limit _ _ _ _ = _ |- _ => apply match_limit_burns in H as B end.
  destruct (_ =? 2).
  - apply IH in H. eapply burns_eq; [eapply burns_step; [exact H0|by eapply burns_step]|].
    intros c. simpl. lia.
  - inv_results. eapply burns_eq; [by eapply burns_step|]. intros c. simpl. lia.
Qed.

Lemma apply_order_burns db i b r db' :
  apply_order db i b = Ok (r, db') -> burns db db' (fun _ => 0).
Proof.
  unfold apply_order. cbv zeta. intros H. inv_results.
  repeat match goal with H : check_call_orders ?d _ _ = Ok (_, ?d') |- _ =>
    apply check_call_orders_burns in H end.
  match goal with H1 : burns db ?d1 _, H2 : burns ?d1 ?d2 _ |- _ =>
    pose proof (burns_trans _ _ _ H1 H2) as B12 end.
  destruct (_ && _); inv_results; [done|].
  match goal with H : match_loop _ _ _ = _ |- _ => apply match_loop_burns in H as B3 end.
  repeat match goal with H : check_call_orders ?d _ _ = Ok (_, ?d') |- _ =>
    apply check_call_orders_burns in H end.
  match goal with H1 : burns a5 ?d1 _, H2 : burns ?d1 ?d2 _ |- _ =>
    assert (B : burns db d2 (fun _ => 0)) by eauto using burns_trans end.
  destruct (objs _ !! _); [|by inv_results]. destruct (_ <=? _); [by inv_results|].
  eapply burns_trans; [exact B|]. by eapply maybe_cull_small_order_burns.
Qed.

(** ** Termination *)

Lemma asset_add_terminates (x : asset) (y : asset) : terminates (asset_add x y).
Proof. unfold asset_add. terminate. Qed.
Local Hint Resolve asset_add_terminates : fuel.

Lemma asset_sub_terminates (x : asset) (y : asset) : terminates (asset_sub x y).
Proof. unfold asset_sub. terminate. Qed.
Local Hint Resolve asset_sub_terminates : fuel.

Lemma asset_neg_terminates (x : asset) : terminates (asset_neg x).
Proof. unfold asset_neg. terminate. Qed.
Local Hint Resolve asset_neg_terminates : fuel.

Lemma asset_ltb_terminates (x : asset) (y : asset) : terminates (asset_ltb x y).
Proof. unfold asset_ltb. terminate. Qed.
Local Hint Resolve asset_ltb_terminates : fuel.

Lemma asset_leb_terminates (x : asset) (y : asset) : terminates (asset_leb x y).
Proof. unfold asset_leb. terminate. Qed.
Local Hint Resolve asset_leb_terminates : fuel.

Lemma asset_gtb_terminates (x : asset) (y : asset) : terminates (asset_gtb x y).
Proof. unfold asset_gtb. terminate. Qed.
Local Hint Resolve asset_gtb_terminates : fuel.

Lemma asset_geb_terminates (x : asset) (y : asset) : terminates (asset_geb x y).
Proof. unfold asset_geb. terminate. Qed.
Local Hint Resolve asset_geb_terminates : fuel.

Lemma asset_min_terminates (x : asset) (y : asset) : terminates (asset_min x y).
Proof. unfold asset_min. terminate. Qed.
Local Hint Resolve asset_min_terminates : fuel.

Lemma asset_div_terminates (x : asset) (y : asset) : terminates (asset_div x y).
Proof. unfold asset_div. terminate. Qed.
Local Hint Resolve asset_div_terminates : fuel.

Lemma asset_mul_price_terminates (x : asset) (p : price) : terminates (asset_mul_price x p).
Proof. unfold asset_mul_price. terminate. Qed.
Local Hint Resolve asset_mul_price_terminates : fuel.

Lemma price_validate_terminates (p : price) : terminates (price_validate p).
Proof. unfold price_validate. terminate. Qed.
Local Hint Resolve price_validate_terminates : fuel.

Lemma adjust_balance_terminates db i (x : asset) : terminates (adjust_balance db i x).
Proof. unfold adjust_balance. terminate. Qed.
Local Hint Resolve adjust_balance_terminates : fuel.

Lemma stats_pay_fee_terminates (s : account_statistics_object) (z : Z) (w : Z) : terminates (stats_pay_fee s z w).
Proof. unfold stats_pay_fee. terminate. Qed.
Local Hint Resolve stats_pay_fee_terminates : fuel.

Lemma deflation_amount_terminates (z : Z) (w : Z) : terminates (deflation_amount z w).
Proof. unfold deflation_amount. terminate. Qed.
Local Hint Resolve deflation_amount_terminates : fuel.

Lemma pay_order_terminates db i (x : asset) (y : asset) : terminates (pay_order db i x y).
Proof. unfold pay_order, get_statistics. terminate. Qed.
Local Hint Resolve pay_order_terminates : fuel.

Lemma calculate_market_fee_terminates db i (x : asset) : terminates (calculate_market_fee db i x).
Proof. unfold calculate_market_fee, tbl_get. terminate. Qed.
Local Hint Resolve calculate_market_fee_terminates : fuel.

Lemma pay_market_fees_terminates db i (x : asset) : terminates (pay_market_fees db i x).
Proof. unfold pay_market_fees, get_dynamic, tbl_get. terminate. Qed.
Local Hint Resolve pay_market_fees_terminates : fuel.

Lemma cancel_deflation_terminates db i (o : limit_order_object) : terminates (cancel_deflation db i o).
Proof. unfold cancel_deflation. terminate. Qed.
Local Hint Resolve cancel_deflation_terminates : fuel.

Lemma cancel_limit_order_terminates db i (b : bool) : terminates (cancel_limit_order db i b).
Proof. unfold cancel_limit_order, limit_at, get_statistics. terminate. Qed.
Local Hint Resolve cancel_limit_order_terminates : fuel.

Lemma maybe_cull_small_order_terminates db i : terminates (maybe_cull_small_order db i).
Proof. unfold maybe_cull_small_order, limit_at, amount_to_receive. terminate. Qed.
Local Hint Resolve maybe_cull_small_order_terminates : fuel.

Lemma exchange_fee_terminates (z : Z) (w : Z) : terminates (exchange_fee z w).
Proof. unfold exchange_fee. terminate. Qed.
Local Hint Resolve exchange_fee_terminates : fuel.

Lemma pay_exchange_fee_terminates db (o : limit_order_object) (x : asset) (y : asset) (x' : asset) : terminates (pay_exchange_fee db o x y x').
Proof. unfold pay_exchange_fee. terminate. Qed.
Local Hint Resolve pay_exchange_fee_terminates : fuel.

Lemma pay_deferred_fee_terminates db (o : limit_order_object) : terminates (pay_deferred_fee db o).
Proof. unfold pay_deferred_fee, get_statistics. terminate. Qed.
Local Hint Resolve pay_deferred_fee_terminates : fuel.

Lemma fill_limit_order_terminates db i (x : asset) (y : asset) (b : bool) : terminates (fill_limit_order db i x y b).
Proof. unfold fill_limit_order, limit_at, tbl_get. terminate. Qed.
Local Hint Resolve fill_limit_order_terminates : fuel.

Lemma borrower_paid_terminates (s : account_statistics_object) (f : option asset) (x : asset) : terminates (borrower_paid s f x).
Proof. unfold borrower_paid. terminate. Qed.
Local Hint Resolve borrower_paid_terminates : fuel.

Lemma fill_call_order_terminates db i (x : asset) (y : asset) : terminates (fill_call_order db i x y).
Proof. unfold fill_call_order, call_at, get_dynamic, tbl_get, get_statistics. terminate. Qed.
Local Hint Resolve fill_call_order_terminates : fuel.

Lemma close_call_terminates (p : price) (st : asset * database) i : terminates (close_call p st i).
Proof. unfold close_call, call_at. terminate. Qed.
Local Hint Resolve close_call_terminates : fuel.

Lemma price_min_terminates b q : terminates (price_min b q).
Proof. unfold price_min. terminate. Qed.
Local Hint Resolve price_min_terminates : fuel.

Lemma price_max_terminates b q : terminates (price_max b q).
Proof. unfold price_max. terminate. Qed.
Local Hint Resolve price_max_terminates : fuel.

Lemma close_calls_terminate p st l : terminates (foldM (close_call p) st l).
Proof. apply foldM_terminates. intros. apply close_call_terminates. Qed.
Local Hint Resolve close_calls_terminate : fuel.

Lemma globally_settle_asset_terminates db mia (p : price) : terminates (globally_settle_asset db mia p).
Proof. unfold globally_settle_asset, bitasset_data, get_dynamic, tbl_get. terminate. Qed.
Local Hint Resolve globally_settle_asset_terminates : fuel.

Lemma check_for_blackswan_terminates db mia (b : bool) : terminates (check_for_blackswan db mia b).
Proof.
  unfold check_for_blackswan, bitasset_data, tbl_get, collateralization, limit_at, call_at. terminate.
Qed.
Local Hint Resolve check_for_blackswan_terminates : fuel.

Lemma margin_call_amounts_terminates x y (p : price) b : terminates (margin_call_amounts x y p b).
Proof. unfold margin_call_amounts. terminate. Qed.
Local Hint Resolve margin_call_amounts_terminates : fuel.

(** The loop of [check_call_orders] consumes an order in every iteration. *)
Lemma call_loop_terminates n : forall db mia b fp calls limits was called,
  (length calls + length limits < n)%nat ->
  terminates (call_loop n db mia b fp calls limits was called).
Proof.
  induction n as [|n IH]; intros db mia b fp calls limits was called Hn; [lia|].
  cbn [call_loop]. unfold limit_at, call_at. terminate.
  match goal with H : margin_call_amounts _ _ _ _ = Ok (_, _, ?fc, ?fl) |- _ =>
    apply margin_call_amounts_inv in H as (_ & _ & Hfl & _); simpl in Hn; destruct fc, fl;
    apply IH; simpl; lia end.
Qed.

Lemma check_call_orders_terminate db mia b :
  (forall a bi bit, objs (assets db) !! mia = Some a -> bitasset_data_id a = Some bi ->
     objs (bitassets db) !! bi = Some bit -> is_null (settlement_price (current_feed bit)) = false ->
     terminates (max_short_squeeze_price (current_feed bit))) ->
  terminates (check_call_orders db mia b).
Proof.
  intros Hfeed. unfold check_call_orders, bitasset_data, tbl_get. terminate.
  - match goal with H : check_for_blackswan _ _ _ = Ok (false, _) |- _ =>
      apply check_for_blackswan_inv in H as [->|[? _]]; [|done] end.
    inv_results. by eapply Hfeed.
  - apply call_loop_terminates. simpl. lia.
Qed.


(** ** The order of the books *)

Lemma price_gtb_ltb a b : price_gtb a b = price_ltb b a.
Proof.
  unfold price_gtb, price_leb, price_eqb, price_ltb.
  set (x := cross_mult (amount (quote b)) (amount (base a))).
  set (y := cross_mult (amount (quote a)) (amount (base b))).
  repeat match goal with
  | |- context [(?m <? ?n)%N] => destruct (N.ltb_spec m n)
  | |- context [(?m =? ?n)%N] => destruct (N.eqb_spec m n)
  | |- context [?m =? ?n] => destruct (Z.eqb_spec m n)
  | |- context [?m <? ?n] => destruct (Z.ltb_spec m n)
  end; simpl; lia || done.
Qed.

Lemma price_ltb_asym a b : price_ltb a b = true -> price_ltb b a = false.
Proof.
  unfold price_ltb.
  set (x := cross_mult (amount (quote b)) (amount (base a))).
  set (y := cross_mult (amount (quote a)) (amount (base b))).
  repeat match goal with
  | |- context [(?m <? ?n)%N] => destruct (N.ltb_spec m n)
  | |- context [?m <? ?n] => destruct (Z.ltb_spec m n)
  end; simpl; lia || done.
Qed.

Lemma ratio_le_trans x1 y1 x2 y2 x3 y3 :
  0 < y1 -> 0 < y2 -> 0 < y3 ->
  x1 * y2 <= x2 * y1 -> x2 * y3 <= x3 * y2 -> x1 * y3 <= x3 * y1.
Proof.
  intros. apply (Z.mul_le_mono_pos_r _ _ y2); [done|].
  transitivity (x2 * y1 * y3); nia.
Qed.

Lemma price_not_lt_trans a b c : pos_price a -> pos_price b -> pos_price c ->
  price_ltb b a = false -> price_ltb c b = false -> price_ltb c a = false.
Proof.
  intros Ha Hb Hc. rewrite <-!not_true_iff_false, !price_ltb_spec by done.
  intros H1 H2 H3.
  destruct (N.lt_trichotomy (asset_id (base c)) (asset_id (base b))) as [?|[Hcb|?]]; [lia| |lia].
  destruct (N.lt_trichotomy (asset_id (base b)) (asset_id (base a))) as [?|[Hba|?]]; [lia| |lia].
  destruct (N.lt_trichotomy (asset_id (quote c)) (asset_id (quote b))) as [?|[?|?]]; [lia| |lia].
  destruct (N.lt_trichotomy (asset_id (quote b)) (asset_id (quote a))) as [?|[?|?]]; [lia| |lia].
  destruct Ha, Hb, Hc.
  assert (amount (base a) * amount (quote c) <= amount (base c) * amount (quote a)); [|lia].
  apply (ratio_le_trans _ _ (amount (base b)) (amount (quote b))); lia.
Qed.

Lemma Sorted_strongly {A} (R : A -> A -> Prop) (P : A -> Prop) l :
  (forall x y z, P x -> P y -> P z -> R x y -> R y z -> R x z) ->
  Forall P l -> Sorted R l -> StronglySorted R l.
Proof.
  intros HR. induction 1 as [|x l Hx Hl IH]; intros Hs; [constructor|].
  inversion_clear Hs as [|? ? Hl' Hhd]. constructor; [by apply IH|].
  specialize (IH Hl'). destruct Hl as [|y l Hy Hl]; [constructor|].
  inversion_clear Hhd as [|? ? Hxy]. inversion_clear IH as [|? ? _ Hyl].
  constructor; [done|]. rewrite Forall_forall in Hyl, Hl |- *.
  intros z Hz. eapply HR; [done|exact Hy|by apply Hl|done|by apply Hyl].
Qed.

Lemma StronglySorted_filter {A} (R : A -> A -> Prop) (P : A -> Prop) `{forall x, Decision (P x)} l :
  StronglySorted R l -> StronglySorted R (filter P l).
Proof.
  induction 1 as [|x l Hl IH Hx]; [constructor|]. rewrite filter_cons.
  case_decide; [|done]. constructor; [done|]. rewrite Forall_forall in Hx |- *.
  intros y [_ Hy]%list_elem_of_filter. by apply Hx.
Qed.

(** An index sorted on positive prices is sorted throughout. *)
Lemma index_sorted {A} (lt : price -> price -> bool) (key : A -> price) (l : list (N * A)) :
  (forall a b, lt a b = true -> lt b a = false) ->
  (forall a b c, pos_price a -> pos_price b -> pos_price c ->
     lt b a = false -> lt c b = false -> lt c a = false) ->
  Forall (fun x => pos_price (key x.2)) l ->
  StronglySorted (in_index_order lt key) (merge_sort (in_index_order lt key) l).
Proof.
  intros Hasym Hneg Hpos. apply (Sorted_strongly _ (fun x => pos_price (key x.2))).
  - intros x y z Hx Hy Hz. unfold in_index_order, key_before.
    rewrite !Is_true_true, !negb_true_iff, !orb_false_iff, !andb_false_iff, !negb_false_iff, !N.ltb_ge.
    intros [Hyx Hyx'] [Hzy Hzy']. split; [by eapply (Hneg _ (key y.2))|].
    destruct (lt (key x.2) (key z.2)) eqn:Hxz; [by left|right].
    assert (lt (key x.2) (key y.2) = false) by by eapply (Hneg _ (key z.2)).
    assert (lt (key y.2) (key z.2) = false) by by eapply (Hneg _ (key x.2)).
    destruct Hyx', Hzy'; try congruence. lia.
  - by rewrite merge_sort_Permutation.
  - apply Sorted_merge_sort. intros x y. unfold in_index_order, key_before.
    rewrite !Is_true_true, !negb_true_iff, !orb_false_iff, !andb_false_iff, !negb_false_iff, !N.ltb_ge.
    destruct (lt (key x.2) (key y.2)) eqn:Hxy; [rewrite (Hasym _ _ Hxy); auto|].
    destruct (lt (key y.2) (key x.2)) eqn:Hyx; [auto|]. lia.
Qed.

Lemma StronglySorted_keys {A} (R : N * A -> N * A -> Prop) (R' : N -> N -> Prop) (P : N * A -> Prop) l :
  (forall x y, P x -> P y -> R x y -> x.1 <> y.1 -> R' x.1 y.1) ->
  Forall P l -> NoDup l.*1 -> StronglySorted R l -> StronglySorted R' l.*1.
Proof.
  intros HR HP HN HS. induction HS as [|x l Hl IH Hx]; csimpl in *; [constructor|].
  inversion_clear HP as [|? ? Px Pl]. apply NoDup_cons in HN as [Hn HN].
  constructor; [by apply IH|]. rewrite Forall_forall in Hx. rewrite Forall_forall in Pl.
  apply Forall_forall.
  intros j (y & -> & Hy)%list_elem_of_fmap. apply HR; [done|by apply Pl|by apply Hx|].
  intros He. apply Hn. rewrite He. by apply list_elem_of_fmap_2.
Qed.

Lemma limits_by_price_elem db i o :
  (i, o) ∈ limits_by_price db <-> objs (limit_orders db) !! i = Some o.
Proof. unfold limits_by_price. by rewrite merge_sort_Permutation, elem_of_map_to_list. Qed.

Lemma filter_keys_NoDup {A} (P : N * A -> Prop) `{forall x, Decision (P x)} (l : list (N * A)) :
  NoDup l.*1 -> NoDup (filter P l).*1.
Proof.
  induction l as [|x l IH]; [done|]. csimpl. intros [Hx Hl]%NoDup_cons. rewrite filter_cons.
  case_decide; [|by apply IH]. csimpl. apply NoDup_cons. split; [|by apply IH].
  intros (y & Hy & [_ Hin]%list_elem_of_filter)%list_elem_of_fmap. apply Hx. rewrite Hy.
  by apply list_elem_of_fmap_2.
Qed.

(** [i] stands before [j] in the book: it offers more for its asset, or the
    same and is older. *)
Definition better (db : database) (i j : N) : Prop :=
  exists oi oj, objs (limit_orders db) !! i = Some oi /\ objs (limit_orders db) !! j = Some oj /\
    let gi := amount (base (sell_price oi)) * amount (quote (sell_price oj)) in
    let gj := amount (base (sell_price oj)) * amount (quote (sell_price oi)) in
    (gj < gi \/ gi = gj /\ (i < j)%N).

Lemma limit_range_elem db first last i :
  i ∈ limit_range db first last <->
  exists o, objs (limit_orders db) !! i = Some o /\
    price_ltb first (sell_price o) = false /\ price_ltb (sell_price o) last = false.
Proof.
  unfold limit_range. rewrite list_elem_of_fmap. split.
  - intros ([j o] & -> & [Hf He]%list_elem_of_filter). simpl in *.
    apply limits_by_price_elem in He. exists o. split; [done|].
    apply Is_true_true, andb_true_iff in Hf as [H1 H2]. by rewrite negb_true_iff, price_gtb_ltb in H1, H2.
  - intros (o & Ho & H1 & H2). exists (i, o). split; [done|]. apply list_elem_of_filter.
    simpl. rewrite !price_gtb_ltb, H1, H2. split; [done|]. by apply limits_by_price_elem.
Qed.

Lemma limit_range_sorted db first last :
  (forall i o, objs (limit_orders db) !! i = Some o -> pos_price (sell_price o)) ->
  asset_id (base first) = asset_id (base last) -> asset_id (quote first) = asset_id (quote last) ->
  StronglySorted (better db) (limit_range db first last).
Proof.
  intros Hpos Hb Hq. unfold limit_range.
  eapply (StronglySorted_keys (in_index_order price_gtb sell_price) _ (fun x =>
    objs (limit_orders db) !! x.1 = Some x.2 /\
    asset_id (base (sell_price x.2)) = asset_id (base last) /\
    asset_id (quote (sell_price x.2)) = asset_id (quote last))).
  - intros [i oi] [j oj] (Hi & Bi & Qi) (Hj & Bj & Qj). simpl in *.
    unfold in_index_order, key_before. simpl.
    rewrite Is_true_true, negb_true_iff, orb_false_iff, andb_false_iff, !negb_false_iff, N.ltb_ge,
      !price_gtb_ltb, <-not_true_iff_false, !price_ltb_spec by eauto.
    rewrite Bi, Bj, Qi, Qj. intros Hr Hne. exists oi, oj. split_and!; [done..|]. cbv zeta. lia.
  - apply Forall_forall. intros [i o] [Hf He]%list_elem_of_filter. simpl in *.
    apply limits_by_price_elem in He. split; [done|].
    apply Is_true_true, andb_true_iff in Hf as [H1 H2]. rewrite negb_true_iff, price_gtb_ltb in H1, H2.
    by eapply (price_range_ids _ last first).
  - apply filter_keys_NoDup. unfold limits_by_price. rewrite merge_sort_Permutation.
    apply NoDup_fst_map_to_list.
  - apply StronglySorted_filter. apply index_sorted.
    + intros a b. rewrite !price_gtb_ltb. apply price_ltb_asym.
    + intros a b c Ha Hb' Hc. rewrite !price_gtb_ltb. intros ? ?. by eapply (price_not_lt_trans c b a).
    + apply Forall_forall. intros [i o] He%elem_of_map_to_list. by eapply Hpos.
Qed.
End Facts.

 #[export] Hint Resolve asset_add_terminates asset_sub_terminates asset_neg_terminates asset_ltb_terminates
  asset_leb_terminates asset_gtb_terminates asset_geb_terminates asset_min_terminates asset_div_terminates
  asset_mul_price_terminates price_validate_terminates adjust_balance_terminates stats_pay_fee_terminates
  deflation_amount_terminates pay_order_terminates calculate_market_fee_terminates pay_market_fees_terminates
  cancel_deflation_terminates cancel_limit_order_terminates maybe_cull_small_order_terminates
  exchange_fee_terminates pay_exchange_fee_terminates pay_deferred_fee_terminates fill_limit_order_terminates
  borrower_paid_terminates fill_call_order_terminates close_call_terminates price_min_terminates
  price_max_terminates close_calls_terminate globally_settle_asset_terminates check_for_blackswan_terminates
  margin_call_amounts_terminates : fuel.

(** ** Properties *)

(** C4: entering a limit order into the market - margin calls, matching, market and
    exchange fees, deferred fees, black swans, culling - neither creates nor
    destroys value: in every asset the holdings minus the supply stay what they
    were, except for the core that a running order deflation takes. *)
Theorem apply_order_conserves `{FC : FcLib, !FcLaws FC} (db db' : database) (i : N) (allow r : bool) :
  wf_db db -> apply_order db i allow = Ok (r, db') ->
  wf_db db' /\
  (forall a, a <> CORE_ASSET -> holdings db' a - supply db' a = holdings db a - supply db a) /\
  (quiet db = true -> forall a, holdings db' a - supply db' a = holdings db a - supply db a).
Proof.
  intros Hwf H. destruct (apply_order_burns _ _ _ _ _ H Hwf) as (W & _ & d & Hd & E).
  unfold unbacked in E. split_and!; [done| |].
  - intros a Ha. rewrite E. unfold core_in. destruct (N.eqb_spec a CORE_ASSET); [done|lia].
  - intros Hq a. rewrite E, (Hd Hq), core_in_0. lia.
Qed.

(** C14: what a match exchanges: one side gives all it has, each gives at most what it
    has for sale, and the exchange is at the maker's price [m] up to rounding, which
    never makes the side that is not filled pay more than that price. *)
Theorem match_amounts_spec `{FC : FcLib, !FcLaws FC} (usd core : limit_order_object) (m : price)
    (usd_pays core_pays : asset) :
  pos_price m -> asset_id (base m) <> asset_id (quote m) ->
  asset_id (base (sell_price core)) = asset_id (base m) ->
  asset_id (base (sell_price usd)) = asset_id (quote m) ->
  nonneg64 (for_sale usd) -> nonneg64 (for_sale core) ->
  match_amounts usd core m = Ok (usd_pays, core_pays) ->
  asset_id usd_pays = asset_id (quote m) /\ asset_id core_pays = asset_id (base m) /\
  0 <= amount usd_pays <= for_sale usd /\ 0 <= amount core_pays <= for_sale core /\
  (usd_pays = amount_for_sale usd /\
     amount core_pays = amount usd_pays * amount (base m) / amount (quote m) \/
   core_pays = amount_for_sale core /\
     amount usd_pays = amount core_pays * amount (quote m) / amount (base m)).
Proof.
  intros Hm Hne Hc Hu Hfu Hfc H. unfold match_amounts in H. cbv zeta in H. inv_results.
  pose proof (pos_base _ Hm). pose proof (pos_quote _ Hm).
  rewrite asset_mul_price_base in H0 by (done || simpl; congruence).
  apply converted_Ok in H0 as [-> Hmax]. simpl in *.
  unfold amount_for_sale in *. rewrite Hu, asset_leb_same in H1. inv_result.
  destruct (Z.leb_spec (for_sale usd) (for_sale core * amount (quote m) / amount (base m))) as [Hle|Hlt].
  - inv_results. rewrite Hu in H0. rewrite asset_mul_price_quote in H0 by (done || simpl; congruence).
    apply converted_Ok in H0 as [-> Hmax']. simpl in *. unfold nonneg64 in *.
    split_and!; [done..|lia|lia|apply Z.div_pos; nia| |by left; rewrite Hu].
    apply Z.div_le_upper_bound; [lia|]. pose proof (Z.mul_div_le (for_sale core * amount (quote m)) (amount (base m))).
    nia.
  - inv_results. rewrite asset_mul_price_base in H0 by (done || simpl; congruence).
    apply converted_Ok in H0 as [-> _]. simpl in *. unfold nonneg64 in *.
    split_and!; [done|done|apply Z.div_pos; nia|lia|lia|lia|right]. by rewrite Hc.
Qed.

(** C13: the limit orders an iteration over the book visits are exactly those of the
    market with a price between the bounds, the ones offering most first and, at
    equal prices, the older first. *)
Theorem limit_range_spec `{FC : FcLib, !FcLaws FC} (db : database) (first last : price) :
  (forall i o, objs (limit_orders db) !! i = Some o -> pos_price (sell_price o)) ->
  pos_price first -> pos_price last ->
  asset_id (base first) = asset_id (base last) -> asset_id (quote first) = asset_id (quote last) ->
  StronglySorted (better db) (limit_range db first last) /\
  forall i, i ∈ limit_range db first last <->
    exists o, objs (limit_orders db) !! i = Some o /\
      asset_id (base (sell_price o)) = asset_id (base last) /\
      asset_id (quote (sell_price o)) = asset_id (quote last) /\
      amount (base (sell_price o)) * amount (quote first) <= amount (base first) * amount (quote (sell_price o)) /\
      amount (base last) * amount (quote (sell_price o)) <= amount (base (sell_price o)) * amount (quote last).
Proof.
  intros Hpos Hf Hl Hb Hq. split; [by apply limit_range_sorted|].
  intros i. rewrite limit_range_elem. split; intros (o & Ho & H).
  - destruct H as [H1 H2]. destruct (price_range_ids (sell_price o) last first _ _ eq_refl eq_refl Hb Hq H2 H1).
    exists o. revert H1 H2. rewrite <-!not_true_iff_false, !price_ltb_spec by eauto.
    intros. split_and!; [done..|lia|lia].
  - exists o. split; [done|]. rewrite <-!not_true_iff_false, !price_ltb_spec by eauto. lia.
Qed.

(** C12: a global settlement leaves no margin position in the asset's market; the
    supply stands although the debts are repaid; the collateral gathered is the
    settlement fund and, with the supply, the settlement price; and nothing is
    created or destroyed in any asset. *)
Theorem globally_settle_asset_spec `{FC : FcLib, !FcLaws FC} (db db' : database) (mia : N) (p : price) :
  wf_db db -> globally_settle_asset db mia p = Ok db' ->
  (forall a, holdings db' a - supply db' a = holdings db a - supply db a) /\
  supply db' mia = supply db mia /\
  exists a bi bit bit', objs (assets db) !! mia = Some a /\ bitasset_data_id a = Some bi /\
    objs (bitassets db) !! bi = Some bit /\ objs (bitassets db') !! bi = Some bit' /\
    has_settlement bit' = true /\
    amount (base (bit_settlement_price bit')) = supply db mia /\
    amount (quote (bit_settlement_price bit')) = settlement_fund bit' /\
    forall i c, objs (call_orders db') !! i = Some c ->
      asset_id (base (call_order_price c)) = short_backing_asset (bit_options bit) ->
      asset_id (quote (call_order_price c)) = mia -> pos_price (call_order_price c) ->
      amount (base (call_order_price c)) <= GRAPHENE_MAX_SHARE_SUPPLY ->
      amount (quote (call_order_price c)) <= GRAPHENE_MAX_SHARE_SUPPLY -> False.
Proof.
  intros Hwf H. destruct (globally_settle_asset_inv _ _ _ _ Hwf H)
    as (M & Hs & _ & a & bi & bit & Ha & Hbi & Hbit & _ & Hcalls & bit' & Hbit' & Hset & Hp & Hq).
  destruct (M Hwf) as (_ & _ & E). unfold unbacked in E.
  split_and!; [intros x; rewrite E; lia|done|]. exists a, bi, bit, bit'. split_and!; [done..|].
  intros i c Hc Hb Hqt Hpos Hmb Hmq. apply Hcalls in Hc as [Hc Hout]. apply Hout, call_range_elem.
  exists c. split; [done|].
  assert (Hpp : forall x y, 0 < x <= GRAPHENE_MAX_SHARE_SUPPLY -> 0 < y <= GRAPHENE_MAX_SHARE_SUPPLY ->
    forall u v, pos_price (Price (Asset x u) (Asset y v))).
  { unfold GRAPHENE_MAX_SHARE_SUPPLY. intros. split; simpl; blia. }
  destruct Hpos as [P1 P2].
  rewrite <-!not_true_iff_false, !price_ltb_spec by (done || apply Hpp; done).
  simpl. rewrite Hb, Hqt. split; intros ?; nia.
Qed.

(** C33: checking the call orders of an asset with a valid price feed terminates:
    every iteration of its loop consumes a call order or a limit order, although
    the limit order may have been removed by then. *)
Theorem check_call_orders_terminates `{FC : FcLib, !FcLaws FC} (db : database) (mia : N) (b : bool) :
  (forall a bi bit, objs (assets db) !! mia = Some a -> bitasset_data_id a = Some bi ->
     objs (bitassets db) !! bi = Some bit ->
     pos_price (settlement_price (current_feed bit)) /\
     asset_id (base (settlement_price (current_feed bit)))
       <> asset_id (quote (settlement_price (current_feed bit))) /\
     0 < maximum_short_squeeze_ratio (current_feed bit) < 2 ^ 16) ->
  check_call_orders db mia b <> Err out_of_fuel.
Proof.
  intros Hfeed. apply check_call_orders_terminate. intros a bi bit H1 H2 H3 _.
  destruct (Hfeed a bi bit H1 H2 H3) as (Hp & Hne & Hr).
  destruct (max_short_squeeze_price_ok (current_feed bit) Hp Hne Hr) as (p & -> & _). done.
Qed.

(** ** Witnesses *)

(** A book with one maker order, and a new order [1] crossing it. *)
Definition ex_maker : limit_order_object :=
  Limit_order_object 1600000000 12 200 (Price (Asset 200 CORE_ASSET) (Asset 40 1)) 10 None.
Definition ex_taker : limit_order_object :=
  Limit_order_object 1600000000 11 50 (Price (Asset 50 1) (Asset 200 CORE_ASSET)) 20 None.
Definition ex_book : database :=
  ex_state <| limit_orders := table_of [(0%N, ex_maker); (1%N, ex_taker)] 2 |>.

Lemma ex_book_wf : wf_db (FC := fc_ref) ex_book.
Proof. apply db_check_ok. by vm_compute. Qed.

Lemma apply_order_conserves_witness :
  exists r db', apply_order (FC := fc_ref) ex_book 1 true = Ok (r, db') /\
    holdings db' 1 - supply db' 1 = holdings ex_book 1 - supply ex_book 1.
Proof.
  destruct (result_ok_true (apply_order (FC := fc_ref) ex_book 1 true)) as [[r db'] H]; [by vm_compute|].
  exists r, db'. split; [exact H|].
  destruct (@apply_order_conserves fc_ref fc_ref_laws ex_book db' 1 true r ex_book_wf H) as (_ & Hne & _).
  apply Hne. discriminate.
Defined.

Lemma match_amounts_spec_witness :
  exists up cp, match_amounts (FC := fc_ref) ex_taker ex_maker (sell_price ex_maker) = Ok (up, cp) /\
    amount cp <= 200 /\ amount up <= 50.
Proof.
  exists (Asset 40 1), (Asset 200 CORE_ASSET).
  assert (H : match_amounts (FC := fc_ref) ex_taker ex_maker (sell_price ex_maker)
    = Ok (Asset 40 1, Asset 200 CORE_ASSET)) by by vm_compute.
  split; [exact H|].
  destruct (@match_amounts_spec fc_ref fc_ref_laws ex_taker ex_maker (sell_price ex_maker) _ _
    ltac:(split; ground) ltac:(ground) eq_refl eq_refl ltac:(ground) ltac:(ground) H)
    as (_ & _ & Hu & Hc & _).
  split; [apply Hc|apply Hu].
Defined.

Lemma limit_range_spec_witness :
  (0%N : N) ∈ limit_range (FC := fc_ref) ex_book (Price (Asset GRAPHENE_MAX_SHARE_SUPPLY 0) (Asset 1 1))
                (Price (Asset 200 0) (Asset 50 1)).
Proof.
  assert (Hp : bool_decide (map_Forall (fun _ o =>
      (0 < amount (base (sell_price o)) <= INT64_MAX) /\ (0 < amount (quote (sell_price o)) <= INT64_MAX))
    (objs (limit_orders ex_book))) = true) by by vm_compute.
  apply bool_decide_eq_true in Hp.
  apply (@limit_range_spec fc_ref fc_ref_laws ex_book).
  - intros i o Hi. destruct (Hp i o Hi) as [H1 H2]. split; [exact H1|exact H2].
  - split; ground.
  - split; ground.
  - reflexivity.
  - reflexivity.
  - exists ex_maker. split_and!; [reflexivity|reflexivity|reflexivity|ground|ground].
Defined.

(** The margin position of the example, with its collateral recorded. *)
Definition ex_swan : database :=
  ex_state <| statistics ::= alter (fun s => s <| total_core_in_orders := 400 |>) 10%N |>.

Lemma ex_swan_wf : wf_db (FC := fc_ref) ex_swan.
Proof. apply db_check_ok. by vm_compute. Qed.

Lemma globally_settle_asset_spec_witness :
  exists db', globally_settle_asset (FC := fc_ref) ex_swan 2 (Price (Asset 100 2) (Asset 300 CORE_ASSET)) = Ok db' /\
    supply db' 2 = supply ex_swan 2.
Proof.
  destruct (result_ok_true (globally_settle_asset (FC := fc_ref) ex_swan 2
    (Price (Asset 100 2) (Asset 300 CORE_ASSET)))) as [db' H]; [by vm_compute|].
  exists db'. split; [exact H|].
  apply (@globally_settle_asset_spec fc_ref fc_ref_laws ex_swan db' 2 _ ex_swan_wf H).
Defined.

Lemma check_call_orders_terminates_witness :
  check_call_orders (FC := fc_ref) ex_swan 2 true <> Err out_of_fuel.
Proof.
  apply (@check_call_orders_terminates fc_ref fc_ref_laws ex_swan 2 true).
  intros a bi bit Ha Hb Hbit. vm_compute in Ha. injection Ha as <-. vm_compute in Hb. injection Hb as <-.
  vm_compute in Hbit. injection Hbit as <-. split; [split; ground|ground].
Defined.
