(* ===== verification/Deflation.v ===== *)
(** * Deflation and transfers

    Models [libraries/chain/deflation_evaluator.cpp],
    [libraries/chain/db_deflation.cpp] and
    [libraries/chain/transfer_evaluator.cpp].  A deflation takes a fraction of
    the core of every account and of every order selling core.  Blocks walk the
    accounts and the orders in id order; whoever moves core before the walk
    reaches him is cut at once, and the amount is recorded ([frozen]) for the
    walk to count. *)

From S2P Require Import Prelude FcLib Asset Vesting Objects Database Ledger Market Trading.

Definition GRAPHENE_DEFLATION_ISSUE_ACCOUNT : N := 55120.
Definition GRAPHENE_DEFLATION_ACCOUNT_START_MARKER : N := 8.
Definition GRAPHENE_MINIMUM_DEFLATION_INTERVAL : Z := 3600 * 24 - 600.
Definition GRAPHENE_DEFAULT_MAX_DEFLATION_OPERATIONS_PER_BLOCK : nat := 256.   (* per block *)

Record transfer_operation := Transfer_operation {
  tr_fee : asset;
  tr_from : N;
  tr_to : N;
  tr_amount : asset;
}.

Record override_transfer_operation := Override_transfer_operation {
  ot_fee : asset;
  ot_issuer : N;
  ot_from : N;
  ot_to : N;
  ot_amount : asset;
}.

Record deflation_operation := Deflation_operation { do_fee : asset; do_issuer : N; do_rate : Z }.

(** The two operations of the walk; the amounts, and the owner of an order, are for
    the history only. *)
Record account_deflation_operation := Account_deflation_operation {
  ad_fee : asset;
  ad_deflation_id : N;
  ad_owner : N;
  ad_amount : Z;
}.

Record order_deflation_operation := Order_deflation_operation {
  od_fee : asset;
  od_deflation_id : N;
  od_order : N;
  od_owner : N;
  od_amount : Z;
}.

Inductive walk_operation :=
  | account_walk (op : account_deflation_operation)
  | order_walk (op : order_deflation_operation).

(** The fee of a generated operation: [asset()]. *)
Definition no_fee : asset := Asset 0 CORE_ASSET.

Section Deflation.
Context `{FC : FcLib}.
Implicit Types (db : database) (owner : N).

(** ** Accounts the walk has not reached *)

(** The running deflation, if it has still to cut the account. *)
Definition account_unvisited db owner : option (N * deflation_object) :=
  match tbl_last (deflations db) with
  | Some (di, d) =>
      if negb (balance_cleared d)
         && match account_deflations db !! owner with
            | None => true
            | Some a => (acc_last_deflation_id a <? di)%N && negb (acc_cleared a)
            end
      then Some (di, d) else None
  | None => None
  end.

(** What it would take from the account's core balance. *)
Definition account_cut db owner : result Z :=
  match account_unvisited db owner with
  | None => Ok 0
  | Some (_, d) => deflation_amount (amount (get_balance db owner CORE_ASSET)) (rate d)
  end.

Definition freeze db owner (x : Z) : database :=
  db <| account_deflations ::= <[owner :=
          match account_deflations db !! owner with
          | None => Account_deflation_object 0 x true
          | Some a => a <| acc_frozen := x |> <| acc_cleared := true |>
          end]> |>.

(** The cut recorded when the account moves core; nothing if it was visited. *)
Definition freeze_cut db owner : result (Z * database) :=
  match account_unvisited db owner with
  | None => Ok (0, db)
  | Some _ => x ← account_cut db owner; Ok (x, freeze db owner x)
  end.

(** ** Issuing a deflation *)

Definition deflation_do_evaluate db (op : deflation_operation) : result unit :=
  _ ← FC_ASSERT (do_issuer op =? GRAPHENE_DEFLATION_ISSUE_ACCOUNT)%N
        "only specified account can issue deflation";
  _ ← FC_ASSERT ((0 <? do_rate op) && (do_rate op <? GRAPHENE_DEFLATION_RATE_SCALE))
        "deflation rate should in range (0, 100)%";
  _ ← (match tbl_last (deflations db) with
       | Some (_, d) =>
           _ ← FC_ASSERT (balance_cleared d && order_cleared d)
                 "cannot issue a defaltion when another is in progress";
           FC_ASSERT (wrap32 (dflt_timestamp d + GRAPHENE_MINIMUM_DEFLATION_INTERVAL) <? head_block_time db)
             "issue defaltion to offen"
       | None => Ok tt
       end);
  FC_ASSERT (match tbl_last (accounts db) with
             | Some (i, _) => (GRAPHENE_DEFLATION_ACCOUNT_START_MARKER <=? i)%N
             | None => false
             end) "issue defaltion fail, for there's no account to deflate".

Definition deflation_do_apply db (op : deflation_operation) : result database :=
  let now := head_block_time db in
  let start := GRAPHENE_DEFLATION_ACCOUNT_START_MARKER in
  let db := match tbl_last (deflations db) with
            | Some _ => db
            | None => db <| deflations ::= fun t => (tbl_create t
                        (Deflation_object now (do_issuer op) 0 start start true 0 0 true 0)).2 |>
            end in
  '(last_acc, _) ← of_option (tbl_last (accounts db)) (undefined_behaviour "acc_idx.rbegin()");
  let '(last_ord, first_ord, cleared) :=
    match tbl_last (limit_orders db), head (tbl_ids (limit_orders db)) with
    | Some (l, _), Some f => (l, f, false)
    | _, _ => (0%N, 0%N, true)
    end in
  Ok (db <| deflations ::= fun t => (tbl_create t
        (Deflation_object now (do_issuer op) (do_rate op) last_acc start false
           last_ord first_ord cleared 0)).2 |>).

(** ** The walk over the accounts *)

Definition account_deflation_do_evaluate db (di owner : N) : result unit :=
  d ← of_option (objs (deflations db) !! di)
        (assert_exception "deflation object not found for this account deflation");
  _ ← FC_ASSERT (negb (balance_cleared d)) "account deflation is already cleared";
  _ ← FC_ASSERT (owner =? account_cursor d)%N "deflation for this account is in wrong order";
  match account_deflations db !! owner with
  | Some a => FC_ASSERT (acc_last_deflation_id a <? di)%N "last_deflation_id is not smaller than deflation"
  | None => Ok tt
  end.

Definition account_deflation_do_apply db (di owner : N) : result database :=
  d ← of_option (objs (deflations db) !! di) (undefined_behaviour "dflt_it");
  let '(cleared, frozen) := match account_deflations db !! owner with
                            | Some a => (acc_cleared a, acc_frozen a)
                            | None => (false, 0)
                            end in
  let db := db <| account_deflations ::= <[owner := Account_deflation_object di 0 false]> |> in
  x ← (if cleared : bool then Ok 0
       else deflation_amount (amount (get_balance db owner CORE_ASSET)) (rate d));
  db ← (if 0 <? x then
          n ← asset_neg (Asset x CORE_ASSET); adjust_balance db owner n
        else Ok db);
  s ← safe_add fc_safe x frozen;
  t ← safe_add fc_safe (total_amount d) s;
  Ok (db <| deflations ::= fun tb => tbl_modify tb di (fun d =>
        d <| account_cursor := (owner + 1)%N |> <| total_amount := t |>
          <| balance_cleared := (owner =? last_account d)%N || balance_cleared d |>) |>).

(** ** The walk over the orders *)

Definition order_deflation_do_evaluate db (di order : N) : result unit :=
  d ← of_option (objs (deflations db) !! di)
        (assert_exception "deflation object not found for this order deflation");
  _ ← FC_ASSERT (negb (order_cleared d)) "order deflation is already cleared";
  _ ← of_option (objs (limit_orders db) !! order) (assert_exception "deflation order not found");
  match order_deflations db !! order with
  | Some od => FC_ASSERT (ord_last_deflation_id od <? di)%N "last_deflation_id is not smaller than deflation"
  | None => Ok tt
  end.

(** The bookkeeping of the deflation after the order was visited. *)
Definition advance_order_cursor (di order : N) (total : Z) (tb : table deflation_object)
  : table deflation_object :=
  tbl_modify tb di (fun d =>
    d <| order_cursor := (order + 1)%N |> <| total_amount := total |>
      <| order_cleared := (order =? last_order d)%N || order_cleared d |>).

(** What the walk takes from the order: from what it sells, and twice from the
    seller's statistics. *)
Definition cut_order db (order : N) (o : limit_order_object) (x : Z) : result database :=
  n ← safe_sub fc_safe (for_sale o) x;
  let db := db <| limit_orders ::= fun t => tbl_modify t order (fun _ => o <| for_sale := n |>) |> in
  db ← pay_order db (seller o) (Asset 0 CORE_ASSET) (Asset x CORE_ASSET);
  s ← get_statistics db (seller o);
  t ← safe_sub fc_safe (total_core_in_orders s) x;
  Ok (put_statistics db (seller o) (s <| total_core_in_orders := t |>)).

Definition order_deflation_do_apply db (di order : N) : result database :=
  d ← of_option (objs (deflations db) !! di) (undefined_behaviour "dflt_it");
  o ← limit_at db order;
  if negb (asset_id (base (sell_price o)) =? CORE_ASSET)%N then
    Ok (db <| deflations ::= advance_order_cursor di order (total_amount d) |>)
  else
    let '(cleared, frozen) := match order_deflations db !! order with
                              | Some od => (ord_cleared od, ord_frozen od)
                              | None => (false, 0)
                              end in
    let db := db <| order_deflations ::= <[order := Order_deflation_object di 0 false]> |> in
    x ← (if cleared : bool then Ok 0 else deflation_amount (for_sale o) (rate d));
    db ← (if 0 <? x then cut_order db order o x else Ok db);
    s ← safe_add fc_safe x frozen;
    t ← safe_add fc_safe (total_amount d) s;
    Ok (db <| deflations ::= advance_order_cursor di order t |>).

(** ** Producing the walk: [db_deflation.cpp] *)

(** The ids of [t] from [cursor] to [last], in order. *)
Definition ids_between {A} (t : table A) (cursor last : N) : list N :=
  filter (fun i => (cursor <= i)%N /\ (i <= last)%N) (tbl_ids t).

Definition generate_order_operation db (di : N) (d : deflation_object) (i : N) : result walk_operation :=
  o ← limit_at db i;
  x ← (if (asset_id (base (sell_price o)) =? CORE_ASSET)%N then
         match order_deflations db !! i with
         | Some od => if ord_cleared od then Ok (ord_frozen od) else deflation_amount (for_sale o) (rate d)
         | None => deflation_amount (for_sale o) (rate d)
         end
       else Ok 0);
  Ok (order_walk (Order_deflation_operation no_fee di i (seller o) x)).

Definition generate_account_operation db (di : N) (d : deflation_object) (i : N) : result walk_operation :=
  x ← (match account_deflations db !! i with
       | Some a => if acc_cleared a then Ok (acc_frozen a)
                   else deflation_amount (amount (get_balance db i CORE_ASSET)) (rate d)
       | None => deflation_amount (amount (get_balance db i CORE_ASSET)) (rate d)
       end);
  Ok (account_walk (Account_deflation_operation no_fee di i x)).

Fixpoint mapM_result {A B} (f : A -> result B) (l : list A) : result (list B) :=
  match l with
  | [] => Ok []
  | x :: l => y ← f x; ys ← mapM_result f l; Ok (y :: ys)
  end.

(** The deflation that is running. *)
Definition running_deflation db : option (N * deflation_object) :=
  match tbl_last (deflations db) with
  | Some (di, d) => if order_cleared d && balance_cleared d then None else Some (di, d)
  | None => None
  end.

(** The orders the walk has still to visit, in order. *)
Definition orders_ahead db (d : deflation_object) : list N :=
  if order_cleared d then [] else ids_between (limit_orders db) (order_cursor d) (last_order d).

(** The accounts: none if the account at the cursor is not there. *)
Definition accounts_ahead db (d : deflation_object) : list N :=
  if balance_cleared d then []
  else match objs (accounts db) !! account_cursor d with
       | None => []
       | Some _ => ids_between (accounts db) (account_cursor d) (last_account d)
       end.

(** When no order is left up to the last one, [generate_deflation_transaction] says so
    in the object. *)
Definition pass_orders db : database :=
  match running_deflation db with
  | Some (di, d) =>
      if negb (order_cleared d) && bool_decide (orders_ahead db d = [])
      then db <| deflations ::= fun t => tbl_modify t di (fun d => d <| order_cleared := true |>) |>
      else db
  | None => db
  end.

(** The operations of the next transaction: orders, and then accounts. *)
Definition generate_deflation_operations db : result (list walk_operation) :=
  match running_deflation db with
  | None => Ok []
  | Some (di, d) =>
      orders ← mapM_result (generate_order_operation db di d) (take GRAPHENE_DEFAULT_MAX_DEFLATION_OPERATIONS_PER_BLOCK (orders_ahead db d));
      accs ← mapM_result (generate_account_operation db di d)
               (take (GRAPHENE_DEFAULT_MAX_DEFLATION_OPERATIONS_PER_BLOCK - length orders) (accounts_ahead db d));
      Ok (orders ++ accs)
  end.

(** ** Transfers *)

Definition transfer_validate (op : transfer_operation) : result unit :=
  _ ← FC_ASSERT (0 <=? amount (tr_fee op)) "fee.amount >= 0";
  _ ← FC_ASSERT (negb (tr_from op =? tr_to op)%N) "from != to";
  FC_ASSERT (0 <? amount (tr_amount op)) "amount.amount > 0".

Definition transfer_do_evaluate db (op : transfer_operation) : result unit :=
  from ← tbl_get (accounts db) (tr_from op);
  to ← tbl_get (accounts db) (tr_to op);
  let aid := asset_id (tr_amount op) in
  a ← tbl_get (assets db) aid;
  _ ← GRAPHENE_ASSERT (is_authorized_asset db from aid a) "transfer_from_account_not_whitelisted";
  _ ← GRAPHENE_ASSERT (is_authorized_asset db to aid a) "transfer_to_account_not_whitelisted";
  _ ← (if is_transfer_restricted a then
         GRAPHENE_ASSERT ((tr_from op =? issuer a)%N || (tr_to op =? issuer a)%N)
           "transfer_restricted_transfer_asset"
       else Ok tt);
  dlft_amt ← (if (aid =? CORE_ASSET)%N then account_cut db (tr_from op) else Ok 0);
  total ← safe_add fc_safe (amount (tr_amount op)) dlft_amt;
  FC_ASSERT (total <=? amount (get_balance db (tr_from op) aid)) "Insufficient Balance".

(** Sender and receiver of core are cut before the transfer. *)
Definition transfer_cuts db (op : transfer_operation) : result (Z * Z * database) :=
  if (asset_id (tr_amount op) =? CORE_ASSET)%N then
    '(x, db) ← freeze_cut db (tr_from op);
    '(y, db) ← freeze_cut db (tr_to op);
    Ok (x, y, db)
  else Ok (0, 0, db).

Definition transfer_do_apply db (op : transfer_operation) : result database :=
  let aid := asset_id (tr_amount op) in
  '(dlft_from, dlft_to, db) ← transfer_cuts db op;
  n ← asset_neg (tr_amount op);
  out ← asset_sub n (Asset dlft_from aid);
  db ← adjust_balance db (tr_from op) out;
  into ← asset_sub (tr_amount op) (Asset dlft_to aid);
  adjust_balance db (tr_to op) into.

Definition override_transfer_validate (op : override_transfer_operation) : result unit :=
  _ ← FC_ASSERT (0 <=? amount (ot_fee op)) "fee.amount >= 0";
  _ ← FC_ASSERT (negb (ot_from op =? ot_to op)%N) "from != to";
  _ ← FC_ASSERT (0 <? amount (ot_amount op)) "amount.amount > 0";
  FC_ASSERT (negb (ot_issuer op =? ot_from op)%N) "issuer != from".

Definition override_transfer_do_evaluate db (op : override_transfer_operation) : result unit :=
  let aid := asset_id (ot_amount op) in
  a ← tbl_get (assets db) aid;
  _ ← GRAPHENE_ASSERT (can_override a) "override_transfer_not_permitted";
  _ ← FC_ASSERT (issuer a =? ot_issuer op)%N "asset_type.issuer == op.issuer";
  from ← tbl_get (accounts db) (ot_from op);
  to ← tbl_get (accounts db) (ot_to op);
  _ ← FC_ASSERT (is_authorized_asset db to aid a) "is_authorized_asset( d, to_account, asset_type )";
  _ ← FC_ASSERT (is_authorized_asset db from aid a) "is_authorized_asset( d, from_account, asset_type )";
  FC_ASSERT (amount (ot_amount op) <=? amount (get_balance db (ot_from op) aid)) "total_transfer".

Definition override_transfer_do_apply db (op : override_transfer_operation) : result database :=
  n ← asset_neg (ot_amount op);
  db ← adjust_balance db (ot_from op) n;
  adjust_balance db (ot_to op) (ot_amount op).
End Deflation.

(** ** What the deflations have taken *)

(** Counted by the walk, or recorded for it to count. *)
Definition burned (db : database) : Z :=
  map_sum (fun _ d => total_amount d) (objs (deflations db))
  + map_sum (fun _ a => acc_frozen a) (account_deflations db)
  + map_sum (fun _ o => ord_frozen o) (order_deflations db).

(** The holdings and what was taken from them, against the supply. *)
Definition backing (db : database) (a : N) : Z := unbacked db a + core_in a (burned db).

(** Rates are fractions, and only an account that was cut before its turn has
    something to be counted. *)
Record wf_walk (db : database) : Prop := {
  walk_rates i d : objs (deflations db) !! i = Some d -> 0 <= rate d < GRAPHENE_DEFLATION_RATE_SCALE;
  walk_frozen i a : account_deflations db !! i = Some a -> acc_cleared a = false -> acc_frozen a = 0;
}.

Section Facts.
Context `{FC : FcLib, !FcLaws FC}.
Implicit Types (db : database) (owner : N).

Lemma deflation_amount_ok x r :
  nonneg64 x -> 0 <= r < GRAPHENE_DEFLATION_RATE_SCALE ->
  deflation_amount x r = Ok (x * r / GRAPHENE_DEFLATION_RATE_SCALE) /\
  0 <= x * r / GRAPHENE_DEFLATION_RATE_SCALE <= x.
Proof.
  intros Hx Hr. unfold deflation_amount, nonneg64 in *.
  assert (Hs : 0 <= x * r / GRAPHENE_DEFLATION_RATE_SCALE <= x).
  { apply scale_down_bounds; unfold GRAPHENE_DEFLATION_RATE_SCALE in *; lia. }
  rewrite (u128_cut fc_u128_laws) by (unfold GRAPHENE_DEFLATION_RATE_SCALE in *; blia).
  cbn [mbind result_bind]. split; [|done]. f_equal. apply to_int64_small. lia.
Qed.

Lemma get_balance_nonneg db owner a : wf_balances db -> nonneg64 (amount (get_balance db owner a)).
Proof.
  intros Hwf. rewrite get_balance_lookup. destruct (balances db !! _) eqn:Hb; simpl.
  - by eapply Hwf.
  - unfold nonneg64. blia.
Qed.

Lemma tbl_last_Some {A} (t : table A) i a : tbl_last t = Some (i, a) -> objs t !! i = Some a.
Proof.
  unfold tbl_last. destruct (last _) as [j|]; simpl; [|done].
  destruct (objs t !! j) eqn:Hj; simpl; [|done]. by intros [= <- <-].
Qed.

Lemma account_unvisited_Some db owner di d :
  account_unvisited db owner = Some (di, d) ->
  tbl_last (deflations db) = Some (di, d) /\ balance_cleared d = false /\
  forall a, account_deflations db !! owner = Some a -> acc_cleared a = false.
Proof.
  unfold account_unvisited. destruct (tbl_last _) as [[i e]|]; [|done].
  destruct (negb _ && _) eqn:Hb; [|done]. intros [= -> ->]. bool_to_prop. split_and!; [done..|].
  intros a Ha. rewrite Ha in *. bool_to_prop. done.
Qed.

Lemma account_cut_ok db owner :
  wf_balances db -> wf_walk db ->
  exists x, account_cut db owner = Ok x /\ 0 <= x <= amount (get_balance db owner CORE_ASSET).
Proof.
  intros Hb Hw. pose proof (get_balance_nonneg db owner CORE_ASSET Hb) as Hn. unfold account_cut.
  destruct (account_unvisited db owner) as [[di d]|] eqn:Hu; [|exists 0; unfold nonneg64 in Hn; naive_solver lia].
  apply account_unvisited_Some in Hu as (Hl & _ & _). apply tbl_last_Some, (walk_rates db Hw) in Hl.
  destruct (deflation_amount_ok _ _ Hn Hl) as [-> ?]. eauto.
Qed.

(** Recording the cut: nothing else changes, the account is not cut again, and
    the cut of no other account changes. *)
Lemma freeze_cut_inv db owner x db' :
  wf_walk db -> freeze_cut db owner = Ok (x, db') ->
  account_cut db owner = Ok x /\ account_unvisited db' owner = None /\
  (forall j, j <> owner -> account_unvisited db' j = account_unvisited db j /\
     account_cut db' j = account_cut db j) /\
  burned db' = burned db + x /\ wf_walk db' /\ exists m, db' = db <| account_deflations := m |>.
Proof.
  intros Hw. unfold freeze_cut. destruct (account_unvisited db owner) as [[di d]|] eqn:Hu.
  2: { intros H. inv_result. unfold account_cut. rewrite !Hu. split_and!; try done; [lia|].
       exists (account_deflations db'). by destruct db'. }
  intros H. inv_results. apply account_unvisited_Some in Hu as (Hl & Hc & Ha).
  split_and!; [done| | | | |eexists; reflexivity].
  - unfold account_unvisited, freeze; simpl. rewrite Hl, lookup_insert_eq, Hc. simpl.
    by destruct (account_deflations db !! owner); simpl; rewrite ?andb_false_r.
  - intros j Hj. unfold account_cut, account_unvisited, freeze; simpl.
    by rewrite lookup_insert_ne.
  - unfold burned, freeze; simpl. rewrite map_sum_insert.
    destruct (account_deflations db !! owner) as [a|] eqn:Hd; simpl; [|lia].
    rewrite (walk_frozen db Hw owner a Hd (Ha a eq_refl)). lia.
  - split; [apply Hw|]. intros i a. simpl. rewrite lookup_insert_Some.
    intros [[<- <-]|[_ Hi]]; [|by apply (walk_frozen db Hw i)].
    by destruct (account_deflations db !! owner).
Qed.

Lemma freeze_cut_ok db owner :
  wf_balances db -> wf_walk db -> exists x db', freeze_cut db owner = Ok (x, db') /\
    0 <= x <= amount (get_balance db owner CORE_ASSET).
Proof.
  intros Hb Hw. destruct (account_cut_ok db owner Hb Hw) as (x & Hx & Hr). unfold freeze_cut.
  rewrite Hx. destruct (account_unvisited db owner); simpl; [eauto|].
  exists 0, db. split; [done|lia].
Qed.

(** The records of the walks do not hold value. *)
Lemma account_deflations_moves db m : moves db (db <| account_deflations := m |>) (fun _ => 0).
Proof. by apply moves_same. Qed.

Lemma adjust_balance_walk db i delta db' :
  adjust_balance db i delta = Ok db' ->
  burned db' = burned db /\ (wf_walk db -> wf_walk db') /\
  forall j, account_unvisited db' j = account_unvisited db j.
Proof. intros (b & -> & _)%adjust_balance_inv. split_and!; [done|by intros []|done]. Qed.

(** ** Transfers *)

(** What the running deflation takes from an account that moves the asset. *)
Definition cut_of db owner (aid : N) : result Z :=
  if (aid =? CORE_ASSET)%N then account_cut db owner else Ok 0.

Lemma transfer_cuts_ok db op :
  wf_balances db -> wf_walk db -> tr_from op <> tr_to op ->
  exists x y m, let db' := db <| account_deflations := m |> in
    let aid := asset_id (tr_amount op) in
    transfer_cuts db op = Ok (x, y, db') /\
    cut_of db (tr_from op) aid = Ok x /\ cut_of db (tr_to op) aid = Ok y /\
    0 <= x <= amount (get_balance db (tr_from op) aid) /\
    0 <= y <= amount (get_balance db (tr_to op) aid) /\
    burned db' = burned db + x + y /\ wf_walk db' /\
    (aid = CORE_ASSET \/ x = 0 /\ y = 0) /\
    (aid = CORE_ASSET -> account_unvisited db' (tr_from op) = None /\
                          account_unvisited db' (tr_to op) = None).
Proof.
  intros Hb Hw Hne. unfold transfer_cuts, cut_of.
  destruct (N.eqb_spec (asset_id (tr_amount op)) CORE_ASSET) as [->|].
  - destruct (freeze_cut_ok db (tr_from op) Hb Hw) as (x & db1 & E1 & Hx). rewrite E1. simpl.
    apply freeze_cut_inv in E1 as (C1 & Z1 & O1 & B1 & W1 & m1 & H1); [|done].
    assert (G : balances db1 = balances db) by by rewrite H1.
    destruct (freeze_cut_ok db1 (tr_to op)) as (y & db2 & E2 & Hy);
      [unfold wf_balances; by rewrite G|done|]. rewrite E2. simpl.
    apply freeze_cut_inv in E2 as (C2 & Z2 & O2 & B2 & W2 & m2 & H2); [|done].
    rewrite (proj2 (O1 (tr_to op) ltac:(done))) in C2. unfold get_balance in Hy. rewrite G in Hy.
    assert (Z1' : account_unvisited db2 (tr_from op) = None) by by rewrite (proj1 (O2 _ Hne)).
    assert (B : burned db2 = burned db + x + y) by lia.
    subst db1. cbn in H2. subst db2. exists x, y, m2. split_and!; done || lia || auto. apply Hy.
  - exists 0, 0, (account_deflations db).
    pose proof (get_balance_nonneg db (tr_from op) (asset_id (tr_amount op)) Hb).
    pose proof (get_balance_nonneg db (tr_to op) (asset_id (tr_amount op)) Hb).
    unfold nonneg64 in *. split_and!; try done; try lia;
      [by destruct db|unfold burned; simpl; lia|by destruct Hw; split].
Qed.

Lemma asset_sub_ok x y id : in_int64 (x - y) -> asset_sub (Asset x id) (Asset y id) = Ok (Asset (x - y) id).
Proof. intros H. unfold asset_sub; simpl. rewrite N.eqb_refl. simpl. by rewrite (safe_sub_ok _ fc_safe_laws). Qed.

(** A balance that stays in range can be adjusted. *)
Lemma adjust_balance_total db i z id :
  wf_balances db -> in_int64 z -> z <> INT64_MIN ->
  nonneg64 (amount (get_balance db i id) + z) ->
  exists db', adjust_balance db i (Asset z id) = Ok db' /\ wf_balances db' /\
    forall j c, amount (get_balance db' j c) =
      amount (get_balance db j c) + (if decide ((j, c) = (i, id)) then z else 0).
Proof.
  intros Hwf Hz Hm Hs. unfold nonneg64 in Hs.
  destruct (adjust_balance_ok db i (Asset z id)) as [_ Hok]; simpl; [done..|blia|].
  destruct Hok as [db' H]; [simpl; lia|]. exists db'. split; [done|]. split; [by eapply adjust_balance_wf|].
  by apply adjust_balance_inv in H as (b & -> & H & _).
Qed.

(** What the two balances lose is what was recorded. *)
Lemma transfer_moves_backing db m db1 db2 z x y id :
  moves (db <| account_deflations := m |>) db1 (fun a => amount_in a (Asset (- z - x) id)) ->
  moves db1 db2 (fun a => amount_in a (Asset (z - y) id)) ->
  burned db2 = burned db + x + y -> (id = CORE_ASSET \/ x = 0 /\ y = 0) ->
  wf_db db -> wf_db db2 /\ forall a, backing db2 a = backing db a.
Proof.
  intros M1 M2 B Hc Hwf.
  destruct (moves_step _ _ _ _ _ (account_deflations_moves db m) (moves_step _ _ _ _ _ M1 M2) Hwf)
    as (W & _ & E). split; [done|].
  intros a. unfold backing. rewrite E, B, !core_in_add, !amount_in_sub.
  destruct Hc as [->|[-> ->]]; rewrite ?amount_in_core, ?core_in_0, ?amount_in_0.
  - unfold core_in. case_match; lia.
  - unfold amount_in; simpl. case_match; lia.
Qed.

Lemma transfer_apply_ok db op :
  wf_balances db -> wf_walk db -> tr_from op <> tr_to op ->
  let aid := asset_id (tr_amount op) in
  0 < amount (tr_amount op) <= INT64_MAX ->
  in_int64 (amount (get_balance db (tr_to op) aid) + amount (tr_amount op)) ->
  (forall x, cut_of db (tr_from op) aid = Ok x ->
     amount (tr_amount op) + x <= amount (get_balance db (tr_from op) aid)) ->
  exists db' x y, transfer_do_apply db op = Ok db' /\
    cut_of db (tr_from op) aid = Ok x /\ cut_of db (tr_to op) aid = Ok y /\
    wf_balances db' /\ wf_walk db' /\
    (wf_db db -> wf_db db' /\ forall a, backing db' a = backing db a) /\
    (forall j c, amount (get_balance db' j c) = amount (get_balance db j c)
       + (if decide ((j, c) = (tr_from op, aid)) then - amount (tr_amount op) - x else 0)
       + (if decide ((j, c) = (tr_to op, aid)) then amount (tr_amount op) - y else 0)) /\
    (aid = CORE_ASSET -> account_unvisited db' (tr_from op) = None /\
                          account_unvisited db' (tr_to op) = None).
Proof.
  intros Hb Hw Hne aid Ha Hto Hfrom. unfold transfer_do_apply.
  destruct (transfer_cuts_ok db op Hb Hw Hne)
    as (x & y & m & -> & C1 & C2 & Hx & Hy & B & W & Hc & Z). fold aid in C1, C2, Hx, Hy, Hc, Z.
  specialize (Hfrom x C1).
  pose proof (get_balance_nonneg db (tr_from op) aid Hb) as N1.
  pose proof (get_balance_nonneg db (tr_to op) aid Hb) as N2. unfold nonneg64 in N1, N2.
  cbn [mbind result_bind]. rewrite asset_neg_ok by blia. cbn [mbind result_bind]. fold aid.
  rewrite asset_sub_ok by blia. cbn [mbind result_bind].
  destruct (adjust_balance_total (db <| account_deflations := m |>) (tr_from op)
    (- amount (tr_amount op) - x) aid) as (db1 & E1 & B1 & G1); [done|blia|blia| |].
  { change (get_balance _ _ _) with (get_balance db (tr_from op) aid). unfold nonneg64. blia. }
  cbn in E1 |- *. rewrite E1. cbn [mbind result_bind].
  destruct (tr_amount op) as [z id] eqn:Et. simpl in aid. subst aid. cbn [amount] in *.
  rewrite asset_sub_ok by blia. cbn [mbind result_bind].
  destruct (adjust_balance_total db1 (tr_to op) (z - y) id) as (db2 & E2 & B2 & G2); [done|blia|blia| |].
  { rewrite G1, decide_False by congruence.
    change (get_balance _ _ _) with (get_balance db (tr_to op) id). unfold nonneg64. blia. }
  exists db2, x, y. pose proof (adjust_balance_walk _ _ _ _ E1) as (D1 & W1 & U1).
  pose proof (adjust_balance_walk _ _ _ _ E2) as (D2 & W2 & U2).
  split_and!; auto; [|intros j c; by rewrite G2, G1|by rewrite !U2, !U1].
  apply adjust_balance_moves in E1. apply adjust_balance_moves in E2.
  apply (transfer_moves_backing db m db1 db2 z x y id); [done|done| |done].
  rewrite D2, D1. exact B.
Qed.

(** ** The walk *)

(** What is on record for an account: (already cut, amount to be counted). *)
Definition account_record db owner : bool * Z :=
  match account_deflations db !! owner with
  | Some a => (acc_cleared a, acc_frozen a)
  | None => (false, 0)
  end.

(** A visit of the walk, whose cut has been taken from the account. *)
Definition visited db (di owner : N) (t : Z) : database :=
  db <| account_deflations ::= <[owner := Account_deflation_object di 0 false]> |>
     <| deflations ::= fun tb => tbl_modify tb di (fun d =>
          d <| account_cursor := (owner + 1)%N |> <| total_amount := t |>
            <| balance_cleared := (owner =? last_account d)%N || balance_cleared d |>) |>.

Lemma visited_burned db di owner d t :
  objs (deflations db) !! di = Some d ->
  burned (visited db di owner t) = burned db + t - total_amount d - (account_record db owner).2.
Proof.
  intros Hd. unfold burned, visited, account_record; simpl.
  rewrite map_sum_alter, map_sum_insert, Hd. simpl.
  destruct (account_deflations db !! owner); simpl; lia.
Qed.

Lemma visited_walk db di owner t : wf_walk db -> wf_walk (visited db di owner t).
Proof.
  intros [Hr Hf]. split; simpl.
  - intros i d. rewrite lookup_alter_Some. intros [(<- & e & He & ->)|[_ ?]]; [|eauto].
    exact (Hr _ _ He).
  - intros i a. rewrite lookup_insert_Some. intros [[<- <-]|[_ ?]]; [done|eauto].
Qed.

Lemma visited_moves db di owner t :
  wf_db db -> wf_db (visited db di owner t) /\
    forall a, unbacked (visited db di owner t) a = unbacked db a.
Proof. intros [[]]. split; [by split|]. done. Qed.

(** [adjust_balance] looks at the balances only. *)
Lemma adjust_balance_frame db db2 i delta db' :
  adjust_balance db i delta = Ok db' -> balances db2 = balances db ->
  adjust_balance db2 i delta = Ok (db2 <| balances := balances db' |>).
Proof.
  intros H Hb. unfold adjust_balance in *. rewrite Hb.
  destruct (_ =? 0); [inv_result; rewrite <-Hb; by destruct db2|].
  destruct (balances db !! _); simpl in *;
    [|destruct (0 <? _); simpl in *; inv_result; simpl; by rewrite Hb].
  destruct (if amount delta <? 0 then _ else _); simpl in *; [|done].
  destruct (safe_add _ _ _); simpl in *; [|done]. inv_result. simpl. by rewrite Hb.
Qed.

Lemma account_deflation_apply_ok db di owner d :
  let '(cleared, frozen) := account_record db owner in
  let balance := amount (get_balance db owner CORE_ASSET) in
  let cut := if cleared : bool then 0 else balance * rate d / GRAPHENE_DEFLATION_RATE_SCALE in
  wf_balances db -> wf_walk db -> objs (deflations db) !! di = Some d ->
  in_int64 (cut + frozen) -> in_int64 (total_amount d + (cut + frozen)) ->
  exists db1, account_deflation_do_apply db di owner
      = Ok (visited db1 di owner (total_amount d + (cut + frozen))) /\
    adjust_balance db owner (Asset (- cut) CORE_ASSET) = Ok db1 /\ wf_balances db1 /\
    forall j c, amount (get_balance db1 j c) = amount (get_balance db j c)
      + (if decide ((j, c) = (owner, CORE_ASSET)) then - cut else 0).
Proof.
  unfold account_record, account_deflation_do_apply, of_option.
  destruct (match account_deflations db !! owner with Some _ => _ | None => _ end) as [cleared frozen].
  cbv zeta. set (x := if cleared then 0 else _). intros Hb Hw Hd Hs Ht. rewrite Hd.
  cbn [mbind result_bind of_option].
  change (get_balance (db <| account_deflations ::= _ |>) owner CORE_ASSET) with (get_balance db owner CORE_ASSET).
  pose proof (get_balance_nonneg db owner CORE_ASSET Hb) as Hn.
  destruct (deflation_amount_ok _ _ Hn (walk_rates db Hw _ _ Hd)) as [Hx Hr]. unfold nonneg64 in Hn.
  assert (Hx0 : 0 <= x <= amount (get_balance db owner CORE_ASSET)) by (subst x; destruct cleared; lia).
  rewrite Hx. replace (if cleared then Ok 0 else _) with (Ok x) by by subst x; destruct cleared.
  cbn [mbind result_bind].
  destruct (adjust_balance_total db owner (- x) CORE_ASSET Hb) as (db1 & E1 & B1 & G1);
    [blia|blia|unfold nonneg64; lia|].
  exists db1. split; [|done].
  set (db0 := db <| account_deflations ::= _ |>).
  assert ((if 0 <? x then n ← asset_neg (Asset x CORE_ASSET); adjust_balance db0 owner n else Ok db0)
    = Ok (db0 <| balances := balances db1 |>)) as ->.
  { pose proof (adjust_balance_frame db db0 owner _ db1 E1 eq_refl) as <-.
    destruct (Z.ltb_spec 0 x); [by rewrite asset_neg_ok by (simpl; blia)|].
    by replace x with 0 by lia. }
  cbn [mbind result_bind]. rewrite (safe_add_ok _ fc_safe_laws) by done. cbn [mbind result_bind].
  rewrite (safe_add_ok _ fc_safe_laws) by done. cbn [mbind result_bind].
  apply adjust_balance_inv in E1 as (b & -> & _). done.
Qed.

Lemma account_deflation_backing db di owner d cut db1 :
  objs (deflations db) !! di = Some d ->
  adjust_balance db owner (Asset (- cut) CORE_ASSET) = Ok db1 -> wf_db db ->
  let db' := visited db1 di owner (total_amount d + (cut + (account_record db owner).2)) in
  wf_db db' /\ forall a, backing db' a = backing db a.
Proof.
  intros Hd E Hwf db'. destruct (adjust_balance_moves _ _ _ _ E Hwf) as (W1 & _ & E1).
  destruct (adjust_balance_walk _ _ _ _ E) as (Bu & _).
  destruct (visited_moves db1 di owner (total_amount d + (cut + (account_record db owner).2)) W1) as [W E2].
  split; [done|]. intros a. unfold backing. rewrite E2, E1, amount_in_core.
  assert (burned db' = burned db + cut) as ->; [|rewrite core_in_add; unfold core_in; case_match; lia].
  apply adjust_balance_inv in E as (b & -> & _). subst db'.
  rewrite (visited_burned _ _ _ d) by done. rewrite Bu. unfold account_record; simpl. lia.
Qed.

(** *** The orders *)

Definition order_record db (order : N) : bool * Z :=
  match order_deflations db !! order with
  | Some od => (ord_cleared od, ord_frozen od)
  | None => (false, 0)
  end.

Lemma core_in_orders_moves db i s t :
  statistics db !! i = Some s ->
  moves db (put_statistics db i (s <| total_core_in_orders := t |>)) (fun _ => 0).
Proof. intros H. by apply put_core_in_orders_pays. Qed.

Lemma cut_order_inv db order o x db' s :
  objs (limit_orders db) !! order = Some o -> statistics db !! seller o = Some s ->
  in_int64 (for_sale o - x) -> 0 <= deferred_fee o -> asset_id (base (sell_price o)) = CORE_ASSET ->
  cut_order db order o x = Ok db' ->
  moves db db' (fun a => - core_in a x) /\
  objs (limit_orders db') !! order = Some (o <| for_sale := for_sale o - x |>) /\
  statistics db' !! seller o = Some (s <| total_core_in_orders := total_core_in_orders s - x - x |>) /\
  balances db' = balances db /\ burned db' = burned db /\ deflations db' = deflations db /\
  account_deflations db' = account_deflations db.
Proof.
  unfold cut_order, pay_order, get_statistics, adjust_balance. cbn. intros Ho Hs Hr Hd Hc H. inv_result.
  inv_safe. cbn in *. simplify_map_eq. inv_result. inv_safe. cbn.
  split_and!; try done.
  set (upd := fun _ : limit_order_object => o <| for_sale := for_sale o - x |>).
  set (s1 := s <| total_core_in_orders := total_core_in_orders s - x |>).
  pose proof (put_limit_moves db order o upd Ho Hr Hd) as M1.
  set (db1 := db <| limit_orders ::= fun t => tbl_modify t order upd |>) in M1.
  pose proof (core_in_orders_moves db1 (seller o) s (total_core_in_orders s - x) Hs) as M2.
  pose proof (core_in_orders_moves (put_statistics db1 (seller o) s1) (seller o) s1
    (total_core_in_orders s - x - x) (lookup_put_statistics db1 _ s s1 Hs)) as M3.
  eapply moves_eq; [exact (moves_step _ _ _ _ _ (moves_step _ _ _ _ _ M1 M2) M3)|].
  intros a. cbv beta. unfold order_part; simpl. rewrite amount_in_sub, Hc, !amount_in_core. lia.
Qed.
(** The walk's bookkeeping for an order. *)
Lemma advance_moves db di order t :
  wf_db db -> wf_db (db <| deflations ::= advance_order_cursor di order t |>) /\
    forall a, unbacked (db <| deflations ::= advance_order_cursor di order t |>) a = unbacked db a.
Proof. intros [[]]. split; [by split|done]. Qed.

Lemma advance_burned db di order d t :
  objs (deflations db) !! di = Some d ->
  burned (db <| deflations ::= advance_order_cursor di order t |>) = burned db + t - total_amount d.
Proof.
  intros Hd. unfold burned, advance_order_cursor; simpl. rewrite map_sum_alter, Hd. simpl. lia.
Qed.

Lemma record_order_burned db di order :
  burned (db <| order_deflations ::= <[order := Order_deflation_object di 0 false]> |>)
  = burned db - (order_record db order).2.
Proof.
  unfold burned, order_record; simpl. rewrite map_sum_insert. simpl.
  destruct (order_deflations db !! order); simpl; lia.
Qed.

Lemma order_deflation_apply_inv db di order d o s db' :
  wf_db db -> wf_walk db ->
  objs (deflations db) !! di = Some d -> objs (limit_orders db) !! order = Some o ->
  statistics db !! seller o = Some s -> nonneg64 (for_sale o) ->
  asset_id (base (sell_price o)) = CORE_ASSET ->
  order_deflation_do_apply db di order = Ok db' ->
  let '(cleared, frozen) := order_record db order in
  let cut := if cleared : bool then 0 else for_sale o * rate d / GRAPHENE_DEFLATION_RATE_SCALE in
  wf_db db' /\ (forall a, backing db' a = backing db a) /\
  objs (limit_orders db') !! order = Some (o <| for_sale := for_sale o - cut |>) /\
  statistics db' !! seller o
    = Some (s <| total_core_in_orders := total_core_in_orders s - cut - cut |>) /\
  deflations db' = advance_order_cursor di order (total_amount d + (cut + frozen)) (deflations db) /\
  balances db' = balances db /\ account_deflations db' = account_deflations db.
Proof.
  intros Hwf Hw Hd Ho Hs Hn Hc. unfold order_deflation_do_apply, limit_at. rewrite Hd, Ho.
  cbn [mbind result_bind of_option]. rewrite Hc. cbn [N.eqb CORE_ASSET negb]. fold (order_record db order).
  pose proof (record_order_burned db di order) as Br.
  destruct (order_record db order) as [cleared frozen]. cbn [snd] in Br. cbv zeta.
  destruct (deflation_amount_ok _ _ Hn (walk_rates db Hw _ _ Hd)) as [-> Hr].
  set (x := if cleared then 0 else _).
  replace (if cleared then Ok 0 else _) with (Ok x) by by subst x; destruct cleared.
  assert (Hx : 0 <= x <= for_sale o) by (subst x; unfold nonneg64 in Hn; destruct cleared; lia).
  set (db0 := db <| order_deflations ::= _ |>) in *. intros H. inv_result. inv_safe.
  destruct (order_deflations_moves db (<[order := Order_deflation_object di 0 false]>) Hwf) as (W0 & _ & E0).
  assert (Hcut : moves db0 a (fun c => - core_in c x) /\
    objs (limit_orders a) !! order = Some (o <| for_sale := for_sale o - x |>) /\
    statistics a !! seller o = Some (s <| total_core_in_orders := total_core_in_orders s - x - x |>) /\
    balances a = balances db /\ burned a = burned db0 /\ deflations a = deflations db /\
    account_deflations a = account_deflations db).
  { destruct (Z.ltb_spec 0 x).
    - eapply (cut_order_inv db0); try done; [unfold nonneg64 in Hn; blia|by eapply wf_for_sale].
    - inv_result. replace x with 0 by lia. rewrite !Z.sub_0_r. split_and!; try done;
        [|etrans; [exact Ho|by destruct o]|etrans; [exact Hs|by destruct s]].
      eapply moves_eq; [apply moves_refl|]. intros c. by rewrite core_in_0. }
  destruct Hcut as (M & Ho' & Hs' & Hb & Bu & Hdf & Had). destruct (M W0) as (W & _ & E).
  set (t := total_amount d + (x + frozen)).
  destruct (advance_moves a di order t W) as [W' E'].
  split_and!; try done; [|by simpl; rewrite Hdf].
  change (forall c, backing (a <| deflations ::= advance_order_cursor di order t |>) c = backing db c).
  intros c. unfold backing. rewrite E', E. unfold db0. rewrite E0.
  rewrite (advance_burned a di order d) by by rewrite Hdf.
  rewrite Bu, Br. subst t. unfold core_in. destruct (c =? CORE_ASSET)%N; lia.
Qed.

(** Whatever the records say, a visit takes core and nothing else. *)
Lemma account_deflation_takes db di owner db' :
  account_deflation_do_apply db di owner = Ok db' -> wf_db db ->
  wf_db db' /\ exists x, forall a, unbacked db' a = unbacked db a - core_in a x.
Proof.
  unfold account_deflation_do_apply. cbv zeta. intros H Hwf. inv_result.
  destruct (match account_deflations db !! owner with Some _ => _ | None => _ end) as [cleared frozen].
  inv_result.
  destruct (account_deflations_moves db (<[owner := Account_deflation_object di 0 false]>
    (account_deflations db)) Hwf) as (W0 & _ & E0).
  match goal with H : (if 0 <? ?z then _ else _) = Ok ?d |- _ =>
    rename z into x; assert (moves (db <| account_deflations ::= <[owner := Account_deflation_object di 0 false]> |>) d
      (fun a => - core_in a (if 0 <? x then x else 0))) as M end.
  { destruct (0 <? _); inv_result.
    - match goal with H : asset_neg _ = _ |- _ => apply asset_neg_inv in H as -> end.
      match goal with H : adjust_balance _ _ _ = _ |- _ => apply adjust_balance_moves in H end.
      eapply moves_eq; [eassumption|]. intros c. cbv beta. rewrite amount_in_opp. by rewrite amount_in_core.
    - eapply moves_eq; [apply moves_refl|]. intros c. by rewrite core_in_0. }
  destruct (M W0) as ([[]] & _ & E). split; [by split|].
  exists (if 0 <? x then x else 0). intros c. etrans; [exact (E c)|]. cbv beta. rewrite E0. lia.
Qed.

(** A cut that succeeds finds the seller's statistics. *)
Lemma cut_order_defined db order o x db' :
  cut_order db order o x = Ok db' ->
  in_int64 (for_sale o - x) /\ exists s, statistics db !! seller o = Some s.
Proof.
  unfold cut_order, pay_order, get_statistics. cbn. intros H. inv_result. inv_safe. cbn in *. eauto.
Qed.

Lemma order_deflation_takes db di order db' :
  order_deflation_do_apply db di order = Ok db' -> wf_db db ->
  wf_db db' /\ exists x, forall c, unbacked db' c = unbacked db c - core_in c x.
Proof.
  unfold order_deflation_do_apply, limit_at. intros H Hwf. inv_result. rename a into d, a0 into o.
  destruct (N.eqb_spec (asset_id (base (sell_price o))) CORE_ASSET) as [Hc|]; cbn [negb] in H.
  2: { inv_result. destruct (advance_moves db di order (total_amount d) Hwf) as [W E].
       split; [done|]. exists 0. intros c. rewrite core_in_0, Z.sub_0_r. apply E. }
  destruct (match order_deflations db !! order with Some _ => _ | None => _ end) as [cleared frozen].
  inv_result. rename a into x, a0 into db1.
  set (db0 := db <| order_deflations ::= _ |>) in *.
  destruct (order_deflations_moves db (<[order := Order_deflation_object di 0 false]>) Hwf) as (W0 & _ & E0).
  assert (moves db0 db1 (fun c => - core_in c (if 0 <? x then x else 0))) as M.
  { destruct (0 <? x); [|inv_result; eapply moves_eq; [apply moves_refl|]; intros c; by rewrite core_in_0].
    match goal with H : cut_order _ _ _ _ = _ |- _ =>
      destruct (cut_order_defined _ _ _ _ _ H) as (Hr & s & Hs);
      eapply (cut_order_inv db0 order o x db1 s) in H as (M & _); try done end.
    by eapply wf_for_sale. }
  destruct (M W0) as (W1 & _ & E).
  edestruct (advance_moves db1 di order) as [W2 E2]; [exact W1|]. split; [exact W2|].
  exists (if 0 <? x then x else 0). intros c. etrans; [exact (E2 c)|].
  rewrite (E c). unfold db0. rewrite (E0 c). lia.
Qed.
End Facts.

(** ** Properties *)

(** C18: a transfer the evaluator accepts can be applied: exactly the amount changes
    hands; if it is core and a deflation has still to reach sender or receiver,
    each is cut on its balance from before the transfer and is not cut a second
    time; what is taken is on record, so that nothing is lost. *)
Theorem transfer_spec `{FC : FcLib, !FcLaws FC} (db : database) (op : transfer_operation) :
  let aid := asset_id (tr_amount op) in
  wf_db db -> wf_balances db -> wf_walk db ->
  transfer_validate op = Ok tt -> transfer_do_evaluate db op = Ok tt ->
  amount (tr_amount op) <= INT64_MAX ->
  in_int64 (amount (get_balance db (tr_to op) aid) + amount (tr_amount op)) ->
  exists db' x y, transfer_do_apply db op = Ok db' /\
    cut_of db (tr_from op) aid = Ok x /\ cut_of db (tr_to op) aid = Ok y /\
    wf_db db' /\ wf_balances db' /\ wf_walk db' /\ (forall a, backing db' a = backing db a) /\
    (forall j c, amount (get_balance db' j c) = amount (get_balance db j c)
       + (if decide ((j, c) = (tr_from op, aid)) then - amount (tr_amount op) - x else 0)
       + (if decide ((j, c) = (tr_to op, aid)) then amount (tr_amount op) - y else 0)) /\
    (aid = CORE_ASSET -> account_unvisited db' (tr_from op) = None /\
                          account_unvisited db' (tr_to op) = None).
Proof.
  intros aid Hwf Hb Hw Hv He Hmax Hto. unfold transfer_validate in Hv. inv_result. bool_to_prop.
  unfold transfer_do_evaluate in He. inv_result. inv_safe. bool_to_prop. subst aid.
  destruct (transfer_apply_ok db op) as (db' & x & y & E & C1 & C2 & B & W & K & G & U); try done.
  - intros Heq. rewrite Heq, N.eqb_refl in *. done.
  - intros x Hx. unfold cut_of in Hx.
    match goal with H : _ = Ok ?z, H' : amount _ + ?z <= _ |- _ => rewrite Hx in H; injection H as <-; done end.
  - destruct (K Hwf) as [? ?]. exists db', x, y. split_and!; done.
Qed.

(** C34: the walk over the accounts: a visit takes the rate's share of the account's
    core unless the account was cut before, counts what was or had been taken,
    moves on to the next account, and loses nothing; a second visit is refused and
    later transfers do not cut the account again. *)
Theorem account_deflation_spec `{FC : FcLib, !FcLaws FC} (db : database) (di owner : N)
    (d : deflation_object) :
  let '(cleared, frozen) := account_record db owner in
  let balance := amount (get_balance db owner CORE_ASSET) in
  let cut := if cleared : bool then 0 else balance * rate d / GRAPHENE_DEFLATION_RATE_SCALE in
  wf_db db -> wf_balances db -> wf_walk db -> objs (deflations db) !! di = Some d ->
  in_int64 (cut + frozen) -> in_int64 (total_amount d + (cut + frozen)) ->
  exists db', account_deflation_do_apply db di owner = Ok db' /\
    wf_db db' /\ wf_walk db' /\ wf_balances db' /\ (forall a, backing db' a = backing db a) /\
    (forall j c, amount (get_balance db' j c) = amount (get_balance db j c)
      + (if decide ((j, c) = (owner, CORE_ASSET)) then - cut else 0)) /\
    objs (deflations db') !! di = Some (d <| account_cursor := (owner + 1)%N |>
      <| total_amount := total_amount d + (cut + frozen) |>
      <| balance_cleared := (owner =? last_account d)%N || balance_cleared d |>) /\
    account_deflation_do_evaluate db' di owner <> Ok tt /\
    (forall e, tbl_last (deflations db') = Some (di, e) -> account_unvisited db' owner = None).
Proof.
  pose proof (account_deflation_apply_ok db di owner d) as Hok.
  pose proof (fun cut db1 => account_deflation_backing db di owner d cut db1) as Hback.
  destruct (account_record db owner) as [cleared frozen]. cbv zeta in *. cbn [snd] in Hback.
  set (cut := if cleared then 0 else _) in *. intros Hwf Hb Hw Hd Hs Ht.
  destruct (Hok Hb Hw Hd Hs Ht) as (db1 & E & A & B1 & G).
  destruct (Hback cut db1 Hd A Hwf) as [W Hk]. destruct (adjust_balance_walk _ _ _ _ A) as (_ & W1 & _).
  eexists. split; [exact E|]. apply adjust_balance_inv in A as (b & -> & _).
  split_and!; try done; [by apply visited_walk, W1|simpl; by rewrite lookup_alter_eq, Hd| |].
  - unfold account_deflation_do_evaluate. simpl. rewrite lookup_alter_eq, Hd. simpl. intros H.
    inv_result. bool_to_prop. match goal with H : (_ =? _)%N = true |- _ => apply N.eqb_eq in H; lia end.
  - intros e He. unfold account_unvisited. rewrite He. simpl. rewrite lookup_insert_eq. simpl.
    by rewrite N.ltb_irrefl, andb_false_r.
Qed.

(** The walk over the orders: a visit takes the rate's share of what an order
    sells unless the order was cut before, counts what was or had been taken and
    loses nothing; but the seller's total of core in orders falls by twice the
    share. *)
Theorem order_deflation_spec `{FC : FcLib, !FcLaws FC} (db db' : database) (di order : N)
    (d : deflation_object) (o : limit_order_object) (s : account_statistics_object) :
  wf_db db -> wf_walk db ->
  objs (deflations db) !! di = Some d -> objs (limit_orders db) !! order = Some o ->
  statistics db !! seller o = Some s -> nonneg64 (for_sale o) ->
  asset_id (base (sell_price o)) = CORE_ASSET ->
  order_deflation_do_apply db di order = Ok db' ->
  let '(cleared, frozen) := order_record db order in
  let cut := if cleared : bool then 0 else for_sale o * rate d / GRAPHENE_DEFLATION_RATE_SCALE in
  wf_db db' /\ (forall a, backing db' a = backing db a) /\
  objs (limit_orders db') !! order = Some (o <| for_sale := for_sale o - cut |>) /\
  statistics db' !! seller o
    = Some (s <| total_core_in_orders := total_core_in_orders s - 2 * cut |>) /\
  objs (deflations db') !! di = Some (d <| order_cursor := (order + 1)%N |>
      <| total_amount := total_amount d + (cut + frozen) |>
      <| order_cleared := (order =? last_order d)%N || order_cleared d |>) /\
  balances db' = balances db.
Proof.
  intros Hwf Hw Hd Ho Hs Hn Hc H.
  pose proof (order_deflation_apply_inv db di order d o s db' Hwf Hw Hd Ho Hs Hn Hc H) as Hi.
  destruct (order_record db order) as [cleared frozen]. cbv zeta in *.
  set (cut := if cleared then 0 else _) in *. destruct Hi as (? & ? & ? & Hst & Hdf & ? & _).
  split_and!; try done.
  - replace (total_core_in_orders s - 2 * cut) with (total_core_in_orders s - cut - cut) by lia. done.
  - rewrite Hdf. unfold advance_order_cursor. simpl. by rewrite lookup_alter_eq, Hd.
Qed.

(** ** Witnesses *)

(** A deflation of a tenth has reached the second account; an order of the third
    sells 200 core. *)
Definition ex_deflating : database :=
  ex_state <| deflations := table_of
      [(0%N, Deflation_object 1400000000 GRAPHENE_DEFLATION_ISSUE_ACCOUNT 0 8 8 true 0 0 true 0);
       (1%N, Deflation_object 1499999000 GRAPHENE_DEFLATION_ISSUE_ACCOUNT 10000000 12 11 false 0 0 false 500)] 2 |>
    <| account_deflations := map_of [(10%N, Account_deflation_object 1 0 false)] |>
    <| limit_orders := table_of [(0%N, ex_maker)] 1 |>
    <| statistics ::= alter (fun s => s <| total_core_in_orders := 200 |>) 12%N |>.

Lemma ex_deflating_wf : wf_db (FC := fc_ref) ex_deflating.
Proof. apply db_check_ok. by vm_compute. Qed.

Lemma ex_deflating_balances : wf_balances ex_deflating.
Proof. exact ex_state_balances. Qed.

Lemma ex_deflating_walk : wf_walk ex_deflating.
Proof.
  split.
  - assert (bool_decide (map_Forall (fun _ d => 0 <= rate d < GRAPHENE_DEFLATION_RATE_SCALE)
      (objs (deflations ex_deflating))) = true) as H by by vm_compute.
    intros i d Hd. apply bool_decide_eq_true in H. exact (H i d Hd).
  - assert (bool_decide (map_Forall (fun _ a => acc_cleared a = false -> acc_frozen a = 0)
      (account_deflations ex_deflating)) = true) as H by by vm_compute.
    intros i d Hd. apply bool_decide_eq_true in H. exact (H i d Hd).
Qed.

Definition ex_transfer : transfer_operation :=
  Transfer_operation (Asset 20 CORE_ASSET) 11 10 (Asset 3000 CORE_ASSET).

Lemma transfer_spec_witness :
  exists db', transfer_do_apply (FC := fc_ref) ex_deflating ex_transfer = Ok db' /\
    amount (get_balance db' 11 CORE_ASSET) = 3300.
Proof.
  destruct (@transfer_spec fc_ref fc_ref_laws ex_deflating ex_transfer ex_deflating_wf
    ex_deflating_balances ex_deflating_walk) as (db' & x & y & E & Hx & _ & _ & _ & _ & _ & G & _);
    [by vm_compute|by vm_compute|ground|ground|].
  exists db'. split; [exact E|]. vm_compute in Hx. injection Hx as <-. rewrite G. by vm_compute.
Defined.

Lemma account_deflation_spec_witness :
  exists db', account_deflation_do_apply (FC := fc_ref) ex_deflating 1 11 = Ok db' /\
    amount (get_balance db' 11 CORE_ASSET) = 6300.
Proof.
  destruct (@account_deflation_spec fc_ref fc_ref_laws ex_deflating 1 11
    (Deflation_object 1499999000 GRAPHENE_DEFLATION_ISSUE_ACCOUNT 10000000 12 11 false 0 0 false 500)
    ex_deflating_wf ex_deflating_balances ex_deflating_walk) as (db' & E & _ & _ & _ & _ & G & _);
    [by vm_compute|ground|ground|].
  exists db'. split; [exact E|]. rewrite G. by vm_compute.
Defined.

Lemma order_deflation_spec_witness :
  exists db' s', order_deflation_do_apply (FC := fc_ref) ex_deflating 1 0 = Ok db' /\
    statistics db' !! 12%N = Some s' /\ total_core_in_orders s' = 160.
Proof.
  destruct (result_ok_true (order_deflation_do_apply (FC := fc_ref) ex_deflating 1 0)) as [db' H]; [by vm_compute|].
  destruct (@order_deflation_spec fc_ref fc_ref_laws ex_deflating db' 1 0
    (Deflation_object 1499999000 GRAPHENE_DEFLATION_ISSUE_ACCOUNT 10000000 12 11 false 0 0 false 500)
    ex_maker (ex_statistics <| total_core_in_orders := 200 |>) ex_deflating_wf ex_deflating_walk)
    as (_ & _ & _ & E & _); [by vm_compute|by vm_compute|by vm_compute|ground|done|exact H|].
  eexists _, _. split; [exact H|]. split; [exact E|]. by vm_compute.
Defined.
