(* ===== verification/Walk.v ===== *)
(** * The walk of a deflation

    What [generate_deflation_transaction] ([libraries/chain/db_deflation.cpp]) and the
    evaluators of [deflation_evaluator.cpp] make of a deflation together: the
    operations a block producer generates for the accounts are accepted one after
    the other and take and count exactly what they say.  The walk over the orders
    can get stuck. *)

From S2P Require Import Prelude FcLib Asset Vesting Objects Database Ledger Market Trading Deflation.

(** A step of the walk over the accounts. *)
Definition visit `{FC : FcLib} (db : database) (op : account_deflation_operation) : result database :=
  _ ← account_deflation_do_evaluate db (ad_deflation_id op) (ad_owner op);
  account_deflation_do_apply db (ad_deflation_id op) (ad_owner op).

(** All core in accounts. *)
Definition core_balances (db : database) : Z := map_sum (balance_part CORE_ASSET) (balances db).

(** What a visit counts for an account: the cut, or what was taken before. *)
Definition counted (db : database) (d : deflation_object) (i : N) : Z :=
  let '(cleared, frozen) := account_record db i in
  (if cleared : bool then 0 else amount (get_balance db i CORE_ASSET) * rate d / GRAPHENE_DEFLATION_RATE_SCALE) + frozen.

(** Nothing recorded is negative, and all core that exists has the width of an
    amount. *)
Record walk_sound (db : database) : Prop := {
  sound_totals i d : objs (deflations db) !! i = Some d -> 0 <= total_amount d;
  sound_accounts i a : account_deflations db !! i = Some a -> 0 <= acc_frozen a;
  sound_orders i o : order_deflations db !! i = Some o -> 0 <= ord_frozen o;
  sound_width : burned db + core_balances db <= INT64_MAX;
}.

(** The accounts from [c] to the last are there and have not been visited. *)
Definition unvisited_from (db : database) (di : N) (d : deflation_object) (c : N) : Prop :=
  forall i, (c <= i <= last_account d)%N ->
    is_Some (objs (accounts db) !! i) /\
    forall a, account_deflations db !! i = Some a -> (acc_last_deflation_id a < di)%N.

Section Facts.
Context `{FC : FcLib, !FcLaws FC}.
Implicit Types (db : database) (d : deflation_object).

Lemma map_sum_lookup_le `{Countable K} {A} (f : K -> A -> Z) (m : gmap K A) k x :
  (forall k x, m !! k = Some x -> 0 <= f k x) -> m !! k = Some x -> f k x <= map_sum f m.
Proof.
  intros Hf Hx. pose proof (map_sum_delete f m k) as E. rewrite Hx in E. simpl in E.
  assert (0 <= map_sum f (delete k m)); [|lia]. apply map_sum_nonneg.
  intros j y [_ Hy]%lookup_delete_Some. eauto.
Qed.

(** [c], [c + 1], ... *)
Fixpoint count_from (c : N) (n : nat) : list N :=
  match n with O => [] | S n => c :: count_from (N.succ c) n end.

Lemma count_from_elem i n : forall c, i ∈ count_from c n <-> (c <= i < c + N.of_nat n)%N.
Proof.
  induction n as [|n IH]; intros c; cbn [count_from]; [split; [by intros ?%elem_of_nil|lia]|].
  rewrite elem_of_cons, IH. lia.
Qed.

Lemma count_from_sorted n : forall c, StronglySorted N.le (count_from c n).
Proof.
  induction n as [|n IH]; intros c; cbn [count_from]; constructor; [done|].
  apply Forall_forall. intros i ?%count_from_elem. lia.
Qed.

Lemma count_from_NoDup n : forall c, NoDup (count_from c n).
Proof.
  induction n as [|n IH]; intros c; cbn [count_from]; constructor; [|done]. rewrite count_from_elem. lia.
Qed.

Lemma count_from_take m n : forall c, take m (count_from c n) = count_from c (m `min` n).
Proof. revert m. induction n as [|n IH]; intros [|m] c; cbn [count_from take Nat.min]; [done..|]. by rewrite IH. Qed.

Lemma count_from_length n : forall c, length (count_from c n) = n.
Proof. induction n as [|n IH]; intros c; cbn; [done|]. by rewrite IH. Qed.

(** Ids of which none is missing. *)
Lemma ids_between_count {A} (t : table A) c n :
  (forall i, (c <= i < c + N.of_nat n)%N -> is_Some (objs t !! i)) -> (0 < n)%nat ->
  ids_between t c (c + N.of_nat n - 1) = count_from c n.
Proof.
  intros Hall Hn. unfold ids_between.
  assert (NoDup (tbl_ids t)) as Hnd by (unfold tbl_ids; rewrite merge_sort_Permutation; apply NoDup_fst_map_to_list).
  apply (StronglySorted_unique N.le).
  - apply StronglySorted_filter, StronglySorted_merge_sort; apply _.
  - apply count_from_sorted.
  - apply NoDup_Permutation; [by apply NoDup_filter|apply count_from_NoDup|].
    intros i. rewrite list_elem_of_filter, count_from_elem. unfold tbl_ids. rewrite merge_sort_Permutation.
    split; [intros [? _]; lia|]. intros Hi. split; [lia|]. destruct (Hall i Hi) as [a Ha].
    apply list_elem_of_fmap. exists (i, a). split; [done|]. by apply elem_of_map_to_list.
Qed.

(** Modifying an object keeps its place. *)
Lemma tbl_last_modify {A} (t : table A) i j a f :
  tbl_last t = Some (i, a) ->
  tbl_last (tbl_modify t j f) = Some (i, if decide (i = j) then f a else a).
Proof.
  intros H. assert (E : tbl_ids (tbl_modify t j f) = tbl_ids t).
  { unfold tbl_ids, tbl_modify; simpl. apply (StronglySorted_unique N.le).
    - apply StronglySorted_merge_sort; apply _.
    - apply StronglySorted_merge_sort; apply _.
    - rewrite !merge_sort_Permutation. apply NoDup_Permutation; [apply NoDup_fst_map_to_list..|].
      intros k. rewrite !list_elem_of_fmap. split; intros ([k' x] & -> & Hx%elem_of_map_to_list); simpl.
      + apply lookup_alter_Some in Hx as [(<- & y & Hy & _)|[_ Hx]];
          [exists (j, y)|exists (k', x)]; (split; [done|]; by apply elem_of_map_to_list).
      + destruct (decide (j = k')) as [->|Hj].
        * exists (k', f x). split; [done|]. apply elem_of_map_to_list. by rewrite lookup_alter_eq, Hx.
        * exists (k', x). split; [done|]. apply elem_of_map_to_list. by rewrite lookup_alter_ne. }
  unfold tbl_last in *. rewrite E. destruct (last (tbl_ids t)) as [k|]; [|done]. cbn in *.
  destruct (objs t !! k) as [x|] eqn:Hk; [|done]. injection H as -> ->. case_decide as Hj.
  - subst. by rewrite lookup_alter_eq, Hk.
  - by rewrite lookup_alter_ne, Hk.
Qed.

(** ** One visit *)

Lemma account_record_nonneg db i : walk_sound db -> 0 <= (account_record db i).2.
Proof.
  intros S. unfold account_record. destruct (account_deflations db !! i) eqn:E; simpl; [by eapply sound_accounts|lia].
Qed.

(** An uncleared record has nothing frozen. *)
Lemma account_record_frozen db i : wf_walk db -> (account_record db i).1 = false -> (account_record db i).2 = 0.
Proof.
  intros W. unfold account_record. destruct (account_deflations db !! i) eqn:E; simpl; [|done]. by eapply walk_frozen.
Qed.

Lemma balance_le_core db i :
  wf_balances db -> amount (get_balance db i CORE_ASSET) <= core_balances db.
Proof.
  intros Hb. rewrite get_balance_lookup.
  assert (Hn : forall k b, balances db !! k = Some b -> 0 <= balance_part CORE_ASSET k b).
  { intros k b Hk%Hb. unfold balance_part, amount_in; simpl. unfold nonneg64 in Hk. case_match; lia. }
  destruct (balances db !! (i, CORE_ASSET)) as [b|] eqn:E; simpl; [|by apply map_sum_nonneg].
  pose proof (map_sum_lookup_le _ _ _ _ Hn E) as H. exact H.
Qed.

Lemma counted_bounds db di d i :
  wf_balances db -> wf_walk db -> walk_sound db -> objs (deflations db) !! di = Some d ->
  0 <= counted db d i /\ total_amount d + counted db d i <= INT64_MAX.
Proof.
  intros Hb Hw S Hd. unfold counted. pose proof (account_record_nonneg db i S) as Hf.
  assert (Hr : total_amount d + (account_record db i).2 <= burned db).
  { unfold burned. assert (total_amount d <= map_sum (fun _ d => total_amount d) (objs (deflations db))).
    { apply (map_sum_lookup_le (fun _ d => total_amount d) _ di); [|done]. intros k x Hk. by eapply sound_totals. }
    assert ((account_record db i).2 <= map_sum (fun _ a => acc_frozen a) (account_deflations db)).
    { unfold account_record. destruct (account_deflations db !! i) as [a|] eqn:E; simpl.
      - apply (map_sum_lookup_le (fun _ a => acc_frozen a) _ i); [|done]. intros k x Hk. by eapply sound_accounts.
      - apply map_sum_nonneg. intros k x Hk. by eapply sound_accounts. }
    assert (0 <= map_sum (fun _ o => ord_frozen o) (order_deflations db)); [|lia].
    apply map_sum_nonneg. intros k x Hk. by eapply sound_orders. }
  destruct (deflation_amount_ok _ _ (get_balance_nonneg db i CORE_ASSET Hb) (walk_rates db Hw _ _ Hd)) as [_ Hc].
  pose proof (balance_le_core db i Hb). pose proof (sound_width db S).
  assert (0 <= core_balances db).
  { pose proof (get_balance_nonneg db i CORE_ASSET Hb) as N. unfold nonneg64 in N. lia. }
  destruct (account_record db i) as [[] frozen]; simpl in *; lia.
Qed.

(** What a visit does to the object of the deflation. *)
Definition advanced db d : deflation_object :=
  d <| account_cursor := (account_cursor d + 1)%N |> <| total_amount := total_amount d + counted db d (account_cursor d) |>
    <| balance_cleared := (account_cursor d =? last_account d)%N || balance_cleared d |>.

(** The parts of the state a visit keeps. *)
Record walkable db : Prop := {
  walk_wf : wf_db db;
  walk_balances : wf_balances db;
  walk_wf_walk : wf_walk db;
  walk_wf_sound : walk_sound db;
}.

Lemma visited_sound db di d c t b :
  walk_sound db -> objs (deflations db) !! di = Some d -> 0 <= t ->
  map_sum (balance_part CORE_ASSET) b + t - total_amount d - (account_record db c).2 = core_balances db ->
  walk_sound (visited (db <| balances := b |>) di c t).
Proof.
  intros S Hd Ht Hb. split.
  - intros i e. simpl. rewrite lookup_alter_Some. intros [(<- & e' & _ & ->)|[_ He]]; [done|by eapply sound_totals].
  - intros i a. simpl. rewrite lookup_insert_Some. intros [[_ <-]|[_ Ha]]; [done|by eapply sound_accounts].
  - apply S.
  - rewrite (visited_burned _ _ _ d) by done. pose proof (sound_width db S).
    change (burned (db <| balances := b |>)) with (burned db).
    change (account_record (db <| balances := b |>) c) with (account_record db c).
    change (core_balances (visited _ _ _ _)) with (map_sum (balance_part CORE_ASSET) b). lia.
Qed.

Lemma visit_ok db di d op :
  walkable db -> tbl_last (deflations db) = Some (di, d) -> balance_cleared d = false ->
  (forall a, account_deflations db !! account_cursor d = Some a -> (acc_last_deflation_id a < di)%N) ->
  ad_deflation_id op = di -> ad_owner op = account_cursor d ->
  exists db', visit db op = Ok db' /\ walkable db' /\ accounts db' = accounts db /\
    tbl_last (deflations db') = Some (di, advanced db d) /\ (forall a, backing db' a = backing db a) /\
    forall j, j <> account_cursor d -> account_deflations db' !! j = account_deflations db !! j /\
      amount (get_balance db' j CORE_ASSET) = amount (get_balance db j CORE_ASSET).
Proof.
  intros [Hwf Hb Hw S] Hlast Hc Ha Hi Ho. pose proof (tbl_last_Some _ _ _ Hlast) as Hd. unfold visit. rewrite Hi, Ho. set (c := account_cursor d) in *.
  destruct (counted_bounds db di d c Hb Hw S Hd) as [C0 C1].
  pose proof (account_deflation_apply_ok db di c d) as Hok. unfold counted in C0, C1.
  pose proof (sound_totals db S _ _ Hd) as Ht. pose proof (account_record_nonneg db c S) as Hf.
  pose proof (fun cut db1 => account_deflation_backing db di c d cut db1 Hd) as Hback.
  assert (He : account_deflation_do_evaluate db di c = Ok tt).
  { unfold account_deflation_do_evaluate, of_option. rewrite Hd. simpl. rewrite Hc. simpl. fold c. rewrite N.eqb_refl. simpl.
    destruct (account_deflations db !! c) as [a|]; [|done]. by rewrite (proj2 (N.ltb_lt _ _) (Ha a eq_refl)). }
  rewrite He. cbn [mbind result_bind]. unfold advanced, counted. fold c.
  destruct (account_record db c) as [cleared frozen] eqn:Er. cbv zeta in Hok. cbn [snd] in *.
  set (cut := if cleared then 0 else _) in *.
  destruct Hok as (db1 & E & A & B1 & G); [done..|blia|blia|].
  destruct (Hback cut db1 A Hwf) as [W Hk]. destruct (adjust_balance_walk _ _ _ _ A) as (_ & W1 & _).
  eexists. split; [exact E|]. apply adjust_balance_inv in A as (b & -> & _ & Hs). specialize (Hs CORE_ASSET).
  split_and!; [|done| |done|].
  - split; [done|done|by apply visited_walk, W1|]. apply (visited_sound db di d); [done|done|lia|].
    rewrite Er, Hs. cbn [snd]. unfold core_balances. rewrite amount_in_core. unfold core_in. simpl. lia.
  - simpl. rewrite (tbl_last_modify _ di di d) by done. by rewrite decide_True.
  - intros j Hj. split; [simpl; by rewrite lookup_insert_ne|]. etrans; [exact (G j CORE_ASSET)|].
    rewrite decide_False by congruence. lia.
Qed.

(** ** Many visits *)

(** Visits of the accounts with the ids [ids]. *)
Definition visits (di : N) (ops : list account_deflation_operation) (ids : list N) : Prop :=
  Forall (fun op => ad_deflation_id op = di) ops /\ ad_owner <$> ops = ids.

(** The flag says that the cursor has passed the last account. *)
Definition cursor_ok d : Prop := balance_cleared d = (last_account d <? account_cursor d)%N.

Definition total_counted db d (ids : list N) : Z := foldr Z.add 0 (counted db d <$> ids).

Lemma counted_frame db db' d d' i :
  account_deflations db' !! i = account_deflations db !! i ->
  amount (get_balance db' i CORE_ASSET) = amount (get_balance db i CORE_ASSET) -> rate d' = rate d ->
  counted db' d' i = counted db d i.
Proof. intros Ha Hb Hr. unfold counted, account_record. by rewrite Ha, Hb, Hr. Qed.

Lemma advanced_cursor_ok db d : balance_cleared d = false -> cursor_ok d -> cursor_ok (advanced db d).
Proof.
  unfold cursor_ok, advanced. simpl. intros ->.
  intros H%eq_sym%N.ltb_ge. rewrite orb_false_r.
  destruct (N.eqb_spec (account_cursor d) (last_account d)), (N.ltb_spec (last_account d) (account_cursor d + 1)); lia || done.
Qed.

Lemma visits_ok di n : forall db d ops,
  walkable db -> tbl_last (deflations db) = Some (di, d) -> cursor_ok d ->
  (account_cursor d + N.of_nat n <= last_account d + 1)%N -> unvisited_from db di d (account_cursor d) ->
  visits di ops (count_from (account_cursor d) n) ->
  exists db' d', foldM visit db ops = Ok db' /\ walkable db' /\ (forall a, backing db' a = backing db a) /\
    tbl_last (deflations db') = Some (di, d') /\ cursor_ok d' /\ unvisited_from db' di d' (account_cursor d') /\
    last_account d' = last_account d /\ account_cursor d' = (account_cursor d + N.of_nat n)%N /\
    total_amount d' = total_amount d + total_counted db d (count_from (account_cursor d) n).
Proof.
  induction n as [|n IH]; intros db d ops W Hd Hc Hn Hu [Hi Ho]; cbn [count_from] in Ho.
  { apply fmap_nil_inv in Ho as ->. exists db, d. unfold total_counted; simpl. split_and!; done || lia. }
  destruct ops as [|op ops]; [done|]. injection Ho as Ho Hos. apply Forall_cons in Hi as [Hi His].
  assert (Hb : balance_cleared d = false) by (unfold cursor_ok in Hc; rewrite Hc; apply N.ltb_ge; lia).
  destruct (visit_ok db di d op W Hd Hb) as (db1 & E1 & W1 & Ea & Hd1 & B1 & G); [|done..|].
  { apply Hu. lia. }
  assert (Hs : account_cursor (advanced db d) = N.succ (account_cursor d)) by (simpl; lia).
  destruct (IH db1 (advanced db d) ops W1 Hd1) as (db' & d' & E & W' & B & Hd' & Hc' & Hl & Hla & Hk & Ht).
  - by apply advanced_cursor_ok.
  - rewrite Hs. simpl. lia.
  - rewrite Hs. intros i Hr. simpl in Hr. destruct (Hu i ltac:(lia)) as [Hx Hy]. rewrite Ea. split; [done|].
    destruct (G i ltac:(lia)) as [-> _]. exact Hy.
  - by rewrite Hs.
  - exists db', d'. cbn [foldM]. rewrite E1. cbn [mbind result_bind]. split_and!; [done|done|by intros a; rewrite B, B1|done|done|done|done| |].
    + rewrite Hk, Hs. lia.
    + rewrite Ht, Hs. unfold total_counted. cbn [count_from fmap list_fmap foldr]. simpl total_amount.
      enough (counted db1 (advanced db d) <$> count_from (N.succ (account_cursor d)) n
        = counted db d <$> count_from (N.succ (account_cursor d)) n) as -> by lia.
      apply list_fmap_ext. intros i j Hj%list_elem_of_lookup_2. apply count_from_elem in Hj.
      destruct (G j ltac:(lia)) as [Hj1 Hj2]. by apply counted_frame.
Qed.

(** ** The generated operations *)

Lemma mapM_result_map {A B} (f : A -> result B) (g : A -> B) l :
  (forall x, x ∈ l -> f x = Ok (g x)) -> mapM_result f l = Ok (g <$> l).
Proof.
  induction l as [|x l IH]; intros Hf; cbn; [done|]. rewrite (Hf x) by left. cbn.
  rewrite IH; [done|]. intros y Hy. apply Hf. by right.
Qed.

Definition visit_of db di d (i : N) : account_deflation_operation :=
  Account_deflation_operation no_fee di i (counted db d i).

(** The amount written for the history is the one that will be counted. *)
Lemma generate_account_ok db di d i :
  wf_balances db -> wf_walk db -> objs (deflations db) !! di = Some d ->
  generate_account_operation db di d i = Ok (account_walk (visit_of db di d i)).
Proof.
  intros Hb Hw Hd. unfold generate_account_operation, visit_of, counted, account_record.
  destruct (deflation_amount_ok _ _ (get_balance_nonneg db i CORE_ASSET Hb) (walk_rates db Hw _ _ Hd)) as [-> _].
  destruct (account_deflations db !! i) as [a|] eqn:Ha; [|cbn; by rewrite Z.add_0_r].
  destruct (acc_cleared a) eqn:Hc; cbn; [done|]. by rewrite (walk_frozen db Hw i a Ha Hc), Z.add_0_r.
Qed.

(** The accounts of the next block. *)
Definition next_accounts d : nat :=
  Nat.min GRAPHENE_DEFAULT_MAX_DEFLATION_OPERATIONS_PER_BLOCK (N.to_nat (last_account d + 1 - account_cursor d)).

Lemma accounts_ahead_ok db di d :
  cursor_ok d -> balance_cleared d = false -> unvisited_from db di d (account_cursor d) ->
  take GRAPHENE_DEFAULT_MAX_DEFLATION_OPERATIONS_PER_BLOCK (accounts_ahead db d) = count_from (account_cursor d) (next_accounts d) /\
  (account_cursor d + N.of_nat (next_accounts d) <= last_account d + 1)%N.
Proof.
  unfold cursor_ok, next_accounts, accounts_ahead. intros Hc Hb Hu. rewrite Hb in *. apply eq_sym, N.ltb_ge in Hc.
  split; [|lia]. set (n := N.to_nat (last_account d + 1 - account_cursor d)).
  destruct (Hu (account_cursor d)) as [[x ->] _]; [lia|].
  replace (last_account d) with (account_cursor d + N.of_nat n - 1)%N by lia.
  rewrite ids_between_count, count_from_take; [done| |lia].
  intros i Hi. apply Hu. lia.
Qed.

Lemma generate_accounts_ok db di d :
  walkable db -> tbl_last (deflations db) = Some (di, d) -> order_cleared d = true -> balance_cleared d = false ->
  cursor_ok d -> unvisited_from db di d (account_cursor d) ->
  generate_deflation_operations db
  = Ok (account_walk <$> (visit_of db di d <$> count_from (account_cursor d) (next_accounts d))).
Proof.
  intros W Hl Ho Hb Hc Hu. unfold generate_deflation_operations, running_deflation, orders_ahead. rewrite Hl, Ho, Hb.
  cbn [andb]. rewrite Ho, take_nil. cbn [mapM_result mbind result_bind length app]. rewrite Nat.sub_0_r.
  destruct (accounts_ahead_ok db di d Hc Hb Hu) as [-> _].
  rewrite (mapM_result_map _ (fun i => account_walk (visit_of db di d i))); [by rewrite <-list_fmap_compose|].
  intros i _. apply generate_account_ok; [apply W..|by apply tbl_last_Some].
Qed.

(** ** The walk over the orders *)

(** The last order to be visited is gone, and the walk is not over. *)
Definition order_walk_stuck db : Prop :=
  exists di d, tbl_last (deflations db) = Some (di, d) /\ order_cleared d = false /\
    objs (limit_orders db) !! last_order d = None.

Lemma cut_order_frame db order o x db' :
  cut_order db order o x = Ok db' ->
  (deflations db' = deflations db /\ forall i, objs (limit_orders db') !! i = None <-> objs (limit_orders db) !! i = None) /\
  balances db' = balances db /\ construction_capitals db' = construction_capitals db.
Proof.
  unfold cut_order, pay_order, get_statistics, adjust_balance. cbn. intros H. inv_result. cbn. split_and!; [done| |done..].
  intros i. apply lookup_alter_None.
Qed.

Lemma stuck_advance db di order t :
  order_walk_stuck db -> is_Some (objs (limit_orders db) !! order) ->
  order_walk_stuck (db <| deflations ::= advance_order_cursor di order t |>).
Proof.
  intros (di' & d & Hl & Hc & Hn) Ho. eexists di', _. split; [by apply tbl_last_modify|]. case_decide; [|done].
  simpl. rewrite Hc, orb_false_r. split; [|done]. apply N.eqb_neq. intros ->. rewrite Hn in Ho. by destruct Ho.
Qed.

Lemma stuck_frame db db' :
  order_walk_stuck db -> deflations db' = deflations db ->
  (forall i, objs (limit_orders db) !! i = None -> objs (limit_orders db') !! i = None) -> order_walk_stuck db'.
Proof. intros (di & d & Hl & Hc & Hn) Hd Ho. exists di, d. rewrite Hd. auto. Qed.
End Facts.

(** ** Properties *)

(** C21: the walk over the accounts makes progress.  When a deflation has dealt with
    the orders, what a producer generates are visits of the next accounts, 256 at
    most, with the amounts that will be counted; they are all accepted, in this
    order; the cursor moves on by their number, the total grows by the sum of
    the amounts, the walk is over when the last account has been visited; nothing is
    lost, and the next block finds the same conditions again. *)
Theorem account_walk_progress `{FC : FcLib, !FcLaws FC} (db : database) (di : N) (d : deflation_object) :
  walkable db -> tbl_last (deflations db) = Some (di, d) -> order_cleared d = true -> balance_cleared d = false ->
  cursor_ok d -> unvisited_from db di d (account_cursor d) ->
  exists ops db' d', generate_deflation_operations db = Ok (account_walk <$> ops) /\ foldM visit db ops = Ok db' /\
    ad_owner <$> ops = count_from (account_cursor d) (next_accounts d) /\ (0 < length ops)%nat /\
    walkable db' /\ (forall a, backing db' a = backing db a) /\
    tbl_last (deflations db') = Some (di, d') /\ cursor_ok d' /\ unvisited_from db' di d' (account_cursor d') /\
    last_account d' = last_account d /\ account_cursor d' = (account_cursor d + N.of_nat (length ops))%N /\
    total_amount d' = total_amount d + foldr Z.add 0 (ad_amount <$> ops).
Proof.
  intros W Hl Ho Hb Hc Hu. destruct (accounts_ahead_ok db di d Hc Hb Hu) as [_ Hn].
  set (ids := count_from (account_cursor d) (next_accounts d)).
  assert (V : visits di (visit_of db di d <$> ids) ids).
  { split; [by apply Forall_fmap, Forall_true|]. by rewrite <-list_fmap_compose, list_fmap_id. }
  destruct (visits_ok di (next_accounts d) db d _ W Hl Hc Hn Hu V)
    as (db' & d' & E & W' & B & Hl' & Hc' & Hu' & Hla & Hk & Ht).
  exists (visit_of db di d <$> ids), db', d'.
  assert (length (visit_of db di d <$> ids) = next_accounts d) as -> by (rewrite length_fmap; apply count_from_length).
  split_and!; try done; [by apply generate_accounts_ok|apply V| |].
  - unfold next_accounts, GRAPHENE_DEFAULT_MAX_DEFLATION_OPERATIONS_PER_BLOCK, cursor_ok in *. rewrite Hb in Hc.
    apply eq_sym, N.ltb_ge in Hc. lia.
  - rewrite Ht. unfold total_counted. by rewrite <-!list_fmap_compose.
Qed.

(** The walk over the orders can get stuck.  Once the last order it has to visit
    is gone before it was visited, nothing that happens on the chain to a deflation
    ends the walk: visits of other orders and of accounts leave it stuck, and no
    later deflation is accepted.  ([pass_orders] marks it as over, but the producer
    does so in a session that it undoes.) *)
Theorem stuck_order_walk `{FC : FcLib, !FcLaws FC} (db : database) :
  order_walk_stuck db ->
  (forall op, deflation_do_evaluate db op <> Ok tt) /\
  (forall di order db', order_deflation_do_evaluate db di order = Ok tt ->
     order_deflation_do_apply db di order = Ok db' -> order_walk_stuck db') /\
  (forall di owner db', account_deflation_do_apply db di owner = Ok db' -> order_walk_stuck db').
Proof.
  intros S. split_and!.
  - intros op He. unfold deflation_do_evaluate in He. inv_result. bool_to_prop.
    destruct S as (di & d & Hl & Hc & _). rewrite Hl in *. inv_result. bool_to_prop. congruence.
  - intros di order db' He H. assert (Ho : is_Some (objs (limit_orders db) !! order)).
    { unfold order_deflation_do_evaluate in He. inv_result. eauto. }
    unfold order_deflation_do_apply, limit_at in H. inv_result. rename a into d, a0 into o.
    destruct (negb _); [inv_result; by apply (stuck_advance db di order)|].
    destruct (match order_deflations db !! order with Some _ => _ | None => _ end) as [cleared frozen].
    inv_result. rename a0 into db1.
    assert (F : deflations db1 = deflations db /\
      forall i, objs (limit_orders db1) !! i = None <-> objs (limit_orders db) !! i = None).
    { destruct (0 <? a); [|by inv_result]. by match goal with H : cut_order _ _ _ _ = _ |- _ => apply cut_order_frame in H as [H _] end. }
    destruct F as [Fd Fo]. apply (stuck_advance db1); [by apply (stuck_frame db); [..|intros i Hi; apply Fo]|].
    apply not_eq_None_Some. rewrite Fo. by apply not_eq_None_Some.
  - intros di owner db' H. unfold account_deflation_do_apply in H. cbv zeta in H. inv_result. rename a into d.
    destruct (match account_deflations db !! owner with Some _ => _ | None => _ end) as [cleared frozen].
    inv_result. match goal with H : (if 0 <? _ then _ else _) = Ok ?x |- _ => rename x into db1; rename H into Hc end.
    assert (S1 : order_walk_stuck db1).
    { destruct (0 <? _); inv_result; [|by apply (stuck_frame db)].
      match goal with H : adjust_balance _ _ _ = _ |- _ => apply adjust_balance_inv in H as (b & -> & _) end. by apply (stuck_frame db). }
    destruct S1 as (di' & d' & Hl & Hc' & Hn). eexists di', _. split; [by apply tbl_last_modify|]. by case_decide.
Qed.

(** ** Witnesses *)

(** The orders are done; the accounts 11 and 12 have to be visited, 12 was cut before. *)
Definition ex_walking : database :=
  ex_deflating <| deflations := table_of
      [(0%N, Deflation_object 1400000000 GRAPHENE_DEFLATION_ISSUE_ACCOUNT 0 8 8 true 0 0 true 0);
       (1%N, Deflation_object 1499999000 GRAPHENE_DEFLATION_ISSUE_ACCOUNT 10000000 12 11 false 0 1 true 500)] 2 |>
    <| account_deflations := map_of [(10%N, Account_deflation_object 1 0 false); (12%N, Account_deflation_object 0 70 true)] |>.
Definition ex_walk_deflation : deflation_object :=
  Deflation_object 1499999000 GRAPHENE_DEFLATION_ISSUE_ACCOUNT 10000000 12 11 false 0 1 true 500.

(** A checker for what the tables must satisfy. *)
Definition walk_check (db : database) : bool :=
  bool_decide (map_Forall (fun _ d => 0 <= rate d < GRAPHENE_DEFLATION_RATE_SCALE) (objs (deflations db))) &&
  bool_decide (map_Forall (fun _ a => acc_cleared a = false -> acc_frozen a = 0) (account_deflations db)) &&
  bool_decide (map_Forall (fun _ d => 0 <= total_amount d) (objs (deflations db))) &&
  bool_decide (map_Forall (fun _ a => 0 <= acc_frozen a) (account_deflations db)) &&
  bool_decide (map_Forall (fun _ o => 0 <= ord_frozen o) (order_deflations db)) &&
  (burned db + core_balances db <=? INT64_MAX).

Lemma walk_check_ok (db : database) : walk_check db = true -> wf_walk db /\ walk_sound db.
Proof.
  unfold walk_check. intros H. repeat (apply andb_true_iff in H as [H ?]).
  repeat match goal with H : bool_decide _ = true |- _ => apply bool_decide_eq_true in H end.
  match goal with H : (_ <=? _) = true |- _ => apply Z.leb_le in H end.
  split; split; try done; intros; match goal with H : map_Forall _ _ |- _ => by eapply H end.
Qed.

Lemma ex_walking_walkable : walkable (FC := fc_ref) ex_walking.
Proof.
  destruct (walk_check_ok ex_walking) as [W S]; [by vm_compute|].
  split; [apply db_check_ok; by vm_compute|exact ex_state_balances|done|done].
Qed.

Lemma account_walk_progress_witness :
  exists ops db' d', generate_deflation_operations (FC := fc_ref) ex_walking = Ok (account_walk <$> ops) /\
    foldM (visit (FC := fc_ref)) ex_walking ops = Ok db' /\ tbl_last (deflations db') = Some (1%N, d') /\ balance_cleared d' = true.
Proof.
  destruct (@account_walk_progress fc_ref fc_ref_laws ex_walking 1 ex_walk_deflation ex_walking_walkable)
    as (ops & db' & d' & G & E & Ho & _ & _ & _ & Hl & Hc & _ & Hla & Hk & _); [by vm_compute|done|done|by vm_compute| |].
  { intros i Hi. cbn in Hi. assert (i = 11%N \/ i = 12%N) as [-> | ->] by lia; (split; [by vm_compute; eexists|]);
      intros a Ha; vm_compute in Ha; by simplify_eq. }
  exists ops, db', d'. split; [exact G|]. split; [exact E|]. split; [exact Hl|]. unfold cursor_ok in Hc.
  apply (f_equal length) in Ho. rewrite length_fmap in Ho. rewrite Hc, Hk, Hla, Ho. by vm_compute.
Defined.

(** The order that a deflation has to visit has been filled. *)
Definition ex_stuck : database := ex_deflating <| limit_orders := table_of [] 1 |>.

Lemma ex_stuck_stuck : order_walk_stuck ex_stuck.
Proof. eexists _, _. split; [by vm_compute|]. by split. Qed.

Lemma stuck_order_walk_witness :
  exists db', account_deflation_do_apply (FC := fc_ref) ex_stuck 1 11 = Ok db' /\ order_walk_stuck db'.
Proof.
  destruct (@stuck_order_walk fc_ref fc_ref_laws ex_stuck ex_stuck_stuck) as (_ & _ & A).
  destruct (result_ok_true (account_deflation_do_apply (FC := fc_ref) ex_stuck 1 11)) as [db' H]; [by vm_compute|].
  exists db'. split; [exact H|]. exact (A 1%N 11%N db' H).
Defined.
