(* ===== verification/Evaluator.v ===== *)
(** * Evaluators

    Models [libraries/chain/evaluator.cpp], the templates of [evaluator.hpp] and
    [fee_schedule::calculate_fee] ([protocol/fee_schedule.cpp]): how an operation
    is checked, its fee converted and routed, its effect applied and the fee taken.

    An operation type is an instance of [Evaluator].  [Conserving] is what an
    instance promises about the books; from it alone follows that evaluating and
    applying the operation conserves value ([start_evaluate_drains]). *)

From S2P Require Import Prelude FcLib Asset Vesting Objects Database Ledger Market Trading.

(** The members of [generic_evaluator] that live from evaluation to application;
    [deferred] is that of [limit_order_create_evaluator]. *)
Record fee_state := Fee_state {
  fee_from_account : asset;
  core_fee_paid : Z;
  deferred : Z;
}.

#[export] Instance settable_fee_state : Settable fee_state := fun s =>
  Fee_state (fee_from_account s) (core_fee_paid s) (deferred s).

(** [transaction_evaluation_state], and for the operation at hand what the fee
    schedule holds: the scale, and the value of the operation's own
    [calculate_fee]. *)
Record evaluation_context := Evaluation_context {
  skip_fee : bool;
  skip_fee_schedule_check : bool;
  base_value : Z;
  scale : Z;
}.

Class Evaluator (Op : Type) := {
  validate : Op -> result unit;
  fee_payer : Op -> N;
  op_fee : Op -> asset;
  do_evaluate : database -> fee_state -> Op -> result fee_state;
  pay_fee : evaluation_context -> database -> N -> fee_state -> result (fee_state * database);
  do_apply : database -> fee_state -> Op -> result database;
}.

Section Evaluation.
Context `{FC : FcLib}.
Implicit Types (db : database) (account : N).

(** ** The fee schedule *)

(** [while( result * core_exchange_rate < asset( scaled ) ) result.amount++] *)
Fixpoint raise_fee (fuel : nat) (core_exchange_rate : price) (scaled result : asset) : Prelude.result asset :=
  match fuel with
  | O => Err out_of_fuel
  | S fuel =>
      c ← asset_mul_price result core_exchange_rate;
      lt ← asset_ltb c scaled;
      if lt : bool then
        n ← safe_add fc_safe (amount result) 1;
        raise_fee fuel core_exchange_rate scaled (Asset n (asset_id result))
      else Ok result
  end.

(** One round suffices; see [calculate_fee_spec]. *)
Definition raise_fuel : nat := 2.

Definition calculate_fee (base_value scale : Z) (core_exchange_rate : price) : result asset :=
  let scaled := u128_div fc_u128 (u128_mul fc_u128 (u128_of fc_u128 base_value) (u128_of fc_u128 scale))
                  (u128_of fc_u128 GRAPHENE_100_PERCENT) in
  _ ← FC_ASSERT (scaled <=? GRAPHENE_MAX_SHARE_SUPPLY) "scaled <= GRAPHENE_MAX_SHARE_SUPPLY";
  v ← u128_to_uint64 fc_u128 scaled;
  r ← asset_mul_price (Asset (to_int64 v) CORE_ASSET) core_exchange_rate;
  r ← raise_fee raise_fuel core_exchange_rate (Asset (to_int64 v) CORE_ASSET) r;
  _ ← FC_ASSERT (amount r <=? GRAPHENE_MAX_SHARE_SUPPLY) "result.amount <= GRAPHENE_MAX_SHARE_SUPPLY";
  Ok r.

(** An evaluation that keeps the fee state. *)
Definition keep {A} (st : A) (r : result unit) : result A := _ ← r; Ok st.

(** Every [validate] of an operation starts so. *)
Definition fee_nonneg (fee : asset) : result unit := FC_ASSERT (0 <=? amount fee) "fee.amount >= 0".

(** ** The generic evaluator *)

Definition prepare_fee db account (fee : asset) : result fee_state :=
  _ ← FC_ASSERT (0 <=? amount fee) "fee.amount >= 0";
  payer ← tbl_get (accounts db) account;
  _ ← get_statistics db account;
  fee_asset ← tbl_get (assets db) (asset_id fee);
  dyn ← get_dynamic db fee_asset;
  _ ← (if HARDFORK_419_TIME <? head_block_time db then
         FC_ASSERT (is_authorized_asset db payer (asset_id fee) fee_asset)
           "attempted to pay fee by using asset, which is unauthorized due to whitelist / blacklist"
       else Ok tt);
  if (asset_id fee =? CORE_ASSET)%N then Ok (Fee_state fee (amount fee) 0)
  else
    fee_from_pool ← asset_mul_price fee (opt_core_exchange_rate (options fee_asset));
    _ ← FC_ASSERT (asset_id fee_from_pool =? CORE_ASSET)%N "fee_from_pool.asset_id == asset_id_type()";
    _ ← FC_ASSERT (amount fee_from_pool <=? fee_pool dyn) "Fee pool balance is less than required";
    Ok (Fee_state fee (amount fee_from_pool) 0).

Definition convert_fee (ctx : evaluation_context) db (st : fee_state) : result database :=
  if skip_fee ctx then Ok db
  else if (asset_id (fee_from_account st) =? CORE_ASSET)%N then Ok db
  else
    fee_asset ← tbl_get (assets db) (asset_id (fee_from_account st));
    dyn ← get_dynamic db fee_asset;
    a ← safe_add fc_safe (accumulated_fees dyn) (amount (fee_from_account st));
    p ← safe_sub fc_safe (fee_pool dyn) (core_fee_paid st);
    Ok (put_dynamic db fee_asset (dyn <| accumulated_fees := a |> <| fee_pool := p |>)).

(** [generic_evaluator::pay_fee] *)
Definition generic_pay_fee (ctx : evaluation_context) db account (st : fee_state)
  : result (fee_state * database) :=
  if skip_fee ctx then Ok (st, db)
  else
    s ← get_statistics db account;
    s' ← stats_pay_fee s (core_fee_paid st) (cashback_vesting_threshold (parameters db));
    Ok (st, put_statistics db account s').

Section Generic.
Context {Op : Type} `{E : Evaluator Op}.

Definition evaluate (ctx : evaluation_context) db (op : Op) : result fee_state :=
  st ← prepare_fee db (fee_payer op) (op_fee op);
  _ ← (if skip_fee_schedule_check ctx then Ok tt
       else
         required ← calculate_fee (base_value ctx) (scale ctx) (unit_price CORE_ASSET);
         GRAPHENE_ASSERT (amount required <=? core_fee_paid st) "insufficient_fee");
  do_evaluate db st op.

Definition apply (ctx : evaluation_context) db (st : fee_state) (op : Op) : result database :=
  db ← convert_fee ctx db st;
  '(st, db) ← pay_fee ctx db (fee_payer op) st;
  db ← do_apply db st op;
  n ← asset_neg (fee_from_account st);
  adjust_balance db (fee_payer op) n.

Definition start_evaluate (ctx : evaluation_context) db (op : Op) : result database :=
  st ← evaluate ctx db op;
  apply ctx db st op.
End Generic.
End Evaluation.

(** ** What the books gain *)

(** No walk of a deflation is under way. *)
Definition no_deflation (db : database) : bool :=
  match tbl_last (deflations db) with
  | Some (_, d) => order_cleared d && balance_cleared d
  | None => true
  end.

(** Like [burns], where a deflation may take from orders and balances. *)
Definition drains `{FC : FcLib} (db db' : database) (f : N -> Z) : Prop :=
  wf_db db -> wf_db db' /\ (no_deflation db = true -> deflations db' = deflations db) /\
    exists d, (no_deflation db = true -> d = 0) /\
      forall a, unbacked db' a = unbacked db a + f a - core_in a d.

(** What an operation relies on besides [wf_db] ([pre]), and its promise: once the
    fee is out of the payer's hands, paying it and applying the operation moves
    the fee into the books and nothing else. *)
Class Conserving `{FC : FcLib} (Op : Type) `{E : !Evaluator Op} := {
  pre : database -> Op -> Prop;
  applies db st st1 db1 op ctx st2 db2 db3 :
    wf_db db -> pre db op -> validate op = Ok tt -> 0 <= core_fee_paid st -> deferred st = 0 ->
    do_evaluate db st op = Ok st1 -> same_books db db1 -> accounts db1 = accounts db ->
    deflations db1 = deflations db -> wf_db db1 -> skip_fee ctx = false ->
    pay_fee ctx db1 (fee_payer op) st1 = Ok (st2, db2) -> do_apply db2 st2 op = Ok db3 ->
    st1 = st /\ fee_from_account st2 = fee_from_account st /\
    drains db1 db3 (fun a => core_in a (core_fee_paid st));
}.

Section Facts.
Context `{FC : FcLib, !FcLaws FC}.
Implicit Types (db : database) (f g : N -> Z).

Lemma no_deflation_same db db' : deflations db' = deflations db -> no_deflation db' = no_deflation db.
Proof. unfold no_deflation. by intros ->. Qed.

Lemma no_deflation_quiet db : no_deflation db = true -> quiet db = true.
Proof. unfold no_deflation, quiet. destruct (tbl_last _) as [[? d]|]; [|done]. by intros [? ?]%andb_true_iff. Qed.

Lemma burns_drains db db' f : burns db db' f -> drains db db' f.
Proof.
  intros B W. destruct (B W) as (W' & D & d & Hd & E).
  split_and!; [done|by intros ?%no_deflation_quiet; apply D|].
  exists d. split; [by intros ?%no_deflation_quiet; apply Hd|done].
Qed.

Lemma moves_drains db db' f : moves db db' f -> drains db db' f.
Proof. intros M. by apply burns_drains, moves_burns. Qed.

Lemma drains_step db1 db2 db3 f g :
  drains db1 db2 f -> drains db2 db3 g -> drains db1 db3 (fun a => f a + g a).
Proof.
  intros B1 B2 Hwf. destruct (B1 Hwf) as (W2 & Q2 & d & Hd & E2).
  destruct (B2 W2) as (W3 & Q3 & e & He & E3).
  assert (Hq2 : no_deflation db1 = true -> no_deflation db2 = true)
    by (intros Hq; rewrite <-Hq; apply no_deflation_same; auto).
  split_and!; [done|intros Hq; rewrite Q3; auto|].
  exists (d + e). split; [intros Hq; rewrite (Hd Hq), (He (Hq2 Hq)); done|].
  intros a. rewrite E3, E2, core_in_add. lia.
Qed.

Lemma drains_eq db1 db2 f g : drains db1 db2 f -> (forall a, f a = g a) -> drains db1 db2 g.
Proof.
  intros B E Hwf. destruct (B Hwf) as (? & ? & d & ? & H). split_and!; [done..|].
  exists d. split; [done|]. intros a. by rewrite H, E.
Qed.

(** A loss that only a deflation can cause. *)
Lemma drains_loss db db' f x :
  (no_deflation db = true -> x = 0) -> moves db db' (fun a => f a - core_in a x) -> drains db db' f.
Proof.
  intros Hx M Hwf. destruct (M Hwf) as (W & D & E). split_and!; [done..|].
  exists x. split; [done|]. intros a. rewrite E. lia.
Qed.

Lemma drains_refl db : drains db db (fun _ => 0).
Proof. apply moves_drains, moves_refl. Qed.

(** ** Fees *)

Lemma prepare_fee_inv db account fee st :
  prepare_fee db account fee = Ok st ->
  fee_from_account st = fee /\ 0 <= core_fee_paid st /\ deferred st = 0 /\ 0 <= amount fee /\
  (asset_id fee = CORE_ASSET -> core_fee_paid st = amount fee).
Proof.
  unfold prepare_fee. intros H. inv_result. bool_to_prop.
  destruct (N.eqb_spec (asset_id fee) CORE_ASSET); inv_result; [by split_and!|].
  split_and!; try done. simpl.
  match goal with H : asset_mul_price _ _ = _ |- _ => apply asset_mul_price_range in H as [? _] end. lia.
Qed.

(** Converting a fee swaps it for core from the asset's fee pool. *)
Lemma convert_fee_moves ctx db st db' :
  convert_fee ctx db st = Ok db' -> skip_fee ctx = false ->
  same_books db db' /\ accounts db' = accounts db /\
  moves db db' (fun a => if (asset_id (fee_from_account st) =? CORE_ASSET)%N then 0
    else amount_in a (fee_from_account st) - core_in a (core_fee_paid st)).
Proof.
  unfold convert_fee. intros H Hs. rewrite Hs in H.
  destruct (_ =? CORE_ASSET)%N; [inv_result; split_and!; [apply same_books_refl|done|apply moves_refl]|].
  unfold get_dynamic in H. inv_result. inv_get. inv_safe. split_and!; [by split|done|].
  eapply moves_eq; [by eapply put_dynamic_moves|]. intros a'. simpl.
  replace (fee_pool a0 - core_fee_paid st - fee_pool a0) with (0 - core_fee_paid st) by lia.
  rewrite core_in_sub, core_in_0. destruct (fee_from_account st) as [x i]; simpl.
  replace (accumulated_fees a0 + x - accumulated_fees a0 - (current_supply a0 - current_supply a0)) with x by lia.
  lia.
Qed.

Lemma generic_pay_fee_moves ctx db account st st' db' :
  generic_pay_fee ctx db account st = Ok (st', db') -> skip_fee ctx = false ->
  st' = st /\ same_books db db' /\ accounts db' = accounts db /\ deflations db' = deflations db /\
  balances db' = balances db /\ dynamic_data db' = dynamic_data db /\
  moves db db' (fun a => core_in a (core_fee_paid st)).
Proof.
  unfold generic_pay_fee, get_statistics, stats_pay_fee. intros H Hs. rewrite Hs in H. inv_result.
  split_and!; try done. eapply moves_eq; [by apply put_statistics_moves|].
  intros c. simpl. destruct (_ <? core_fee_paid st'); inv_result; inv_safe; simpl; f_equal; lia.
Qed.

(** The generic argument: whatever keeps its promise conserves value. *)
Lemma start_evaluate_drains_by `{E : !Evaluator Op} ctx db op db' :
  skip_fee ctx = false ->
  (forall st st1 db1 st2 db2 db3, wf_db db -> 0 <= core_fee_paid st -> deferred st = 0 ->
    do_evaluate db st op = Ok st1 -> same_books db db1 -> accounts db1 = accounts db ->
    deflations db1 = deflations db -> wf_db db1 ->
    pay_fee ctx db1 (fee_payer op) st1 = Ok (st2, db2) -> do_apply db2 st2 op = Ok db3 ->
    st1 = st /\ fee_from_account st2 = fee_from_account st /\
    drains db1 db3 (fun a => core_in a (core_fee_paid st))) ->
  start_evaluate ctx db op = Ok db' -> drains db db' (fun _ => 0).
Proof.
  intros Hskip Hby H Hwf. revert Hwf.
  enough (wf_db db -> drains db db' (fun _ => 0)) as Hd by exact (fun W => Hd W W). intros Hwf.
  unfold start_evaluate, evaluate, apply in H. inv_results.
  match goal with H : prepare_fee _ _ _ = _ |- _ => apply prepare_fee_inv in H as (Hf & Hc0 & Hd0 & Hf0 & Hcore) end.
  match goal with H : do_evaluate _ _ _ = Ok ?s, H' : convert_fee _ _ ?s = Ok ?d |- _ =>
    rename H into Hev; destruct (convert_fee_moves _ _ _ _ H' Hskip) as (S & A & M) end.
  destruct (M Hwf) as (W1 & D1 & _).
  match goal with H : pay_fee _ _ _ _ = _, H' : do_apply _ _ _ = _ |- _ =>
    destruct (Hby _ _ _ _ _ _ Hwf Hc0 Hd0 Hev S A D1 W1 H H') as (-> & Hst & Dr) end.
  match goal with H : asset_neg _ = _ |- _ => unfold asset_neg in H end. inv_result. inv_safe.
  match goal with H : adjust_balance _ _ _ = _ |- _ => apply adjust_balance_moves in H as Mb end.
  eapply drains_eq.
  { eapply drains_step; [eapply drains_step; [apply moves_drains; exact M|exact Dr]|apply moves_drains; exact Mb]. }
  intros c. cbv beta. rewrite Hst, Hf. destruct (op_fee op) as [x i]; simpl in *.
  rewrite <-(Z.sub_0_l x), amount_in_sub, amount_in_0.
  destruct (N.eqb_spec i CORE_ASSET) as [->|]; [rewrite Hcore, amount_in_core by done|]; lia.
Qed.

Lemma start_evaluate_drains `{E : !Evaluator Op, !Conserving Op} ctx db op db' :
  skip_fee ctx = false -> pre db op -> validate op = Ok tt ->
  start_evaluate ctx db op = Ok db' -> drains db db' (fun _ => 0).
Proof.
  intros Hskip Hpre Hval. apply start_evaluate_drains_by; [done|]. intros st st1 db1 st2 db2 db3 W Hc Hd He S A D W1.
  by apply (applies db st st1 db1 op ctx st2 db2 db3).
Qed.

(** An operation that pays its fee the usual way and moves nothing else. *)
Lemma generic_applies ctx db1 account st st2 db2 db3 :
  skip_fee ctx = false -> generic_pay_fee ctx db1 account st = Ok (st2, db2) ->
  (same_books db1 db2 -> dynamic_data db2 = dynamic_data db1 -> accounts db2 = accounts db1 ->
     wf_db db2 -> drains db2 db3 (fun _ => 0)) ->
  wf_db db1 ->
  fee_from_account st2 = fee_from_account st /\ drains db1 db3 (fun a => core_in a (core_fee_paid st)).
Proof.
  intros Hs H Hd W. apply generic_pay_fee_moves in H as (-> & S & A & _ & _ & Dy & M); [|done].
  split; [done|]. destruct (M W) as (W2 & _). eapply drains_eq.
  { eapply drains_step; [apply moves_drains, M|]. by apply Hd. }
  intros a. simpl. lia.
Qed.

Lemma keep_inv {A} (st st1 : A) r : keep st r = Ok st1 -> st1 = st.
Proof. unfold keep. intros H. by inv_result. Qed.

Lemma asset_eta (x : asset) : Asset (amount x) (asset_id x) = x.
Proof. by destruct x. Qed.

(** What a successful run of an operation consists of. *)
Lemma start_evaluate_inv {Op} `{E : !Evaluator Op} ctx db (op : Op) db' :
  start_evaluate ctx db op = Ok db' ->
  exists st st1 db1 st2 db2 db3, prepare_fee db (fee_payer op) (op_fee op) = Ok st /\
    do_evaluate db st op = Ok st1 /\ convert_fee ctx db st1 = Ok db1 /\
    pay_fee ctx db1 (fee_payer op) st1 = Ok (st2, db2) /\ do_apply db2 st2 op = Ok db3 /\
    adjust_balance db3 (fee_payer op) (Asset (- amount (fee_from_account st2)) (asset_id (fee_from_account st2))) = Ok db'.
Proof.
  unfold start_evaluate, evaluate, apply. intros H. inv_results.
  match goal with H : asset_neg _ = _ |- _ => apply asset_neg_inv in H as -> end. eauto 12.
Qed.

Lemma adjust_balance_frame' db i x db' :
  adjust_balance db i x = Ok db' -> db' = db <| balances := balances db' |>.
Proof. intros (b & -> & _)%adjust_balance_inv. by destruct db. Qed.

(** Paying and converting a fee touches statistics and dynamic data only. *)
Lemma convert_fee_frame ctx db st db' :
  convert_fee ctx db st = Ok db' -> db' = db <| dynamic_data := dynamic_data db' |>.
Proof.
  unfold convert_fee. intros H. destruct (skip_fee ctx); [inv_result; by destruct db'|].
  destruct (_ =? CORE_ASSET)%N; inv_result; by destruct db || by destruct db'.
Qed.

Lemma generic_pay_fee_frame ctx db i st st' db' :
  generic_pay_fee ctx db i st = Ok (st', db') -> st' = st /\ db' = db <| statistics := statistics db' |> /\
  forall j, statistics db' !! j = None <-> statistics db !! j = None.
Proof.
  unfold generic_pay_fee, get_statistics. intros H. destruct (skip_fee ctx); inv_result.
  - split_and!; [done|by destruct db'|by intros].
  - split_and!; [done|by destruct db|]. intros j. apply lookup_alter_None.
Qed.


(** Converting a fee keeps every supply. *)
Lemma convert_fee_supply ctx db st db' :
  wf_db db -> convert_fee ctx db st = Ok db' -> forall a, supply db' a = supply db a.
Proof.
  unfold convert_fee, get_dynamic. intros W H a. destruct (skip_fee ctx); [by inv_result|].
  destruct (_ =? CORE_ASSET)%N; [by inv_result|]. inv_result. inv_get.
  erewrite put_dynamic_supply; [|apply W|eassumption|eassumption]. simpl.
  rewrite Z.sub_diag, amount_in_0. lia.
Qed.

(** A successful run of an operation that pays its fee the usual way. *)
Lemma generic_run {Op} `{E : !Evaluator Op} ctx db (op : Op) db' :
  pay_fee (Op := Op) = generic_pay_fee ->
  (forall st st1, do_evaluate db st op = Ok st1 -> st1 = st) ->
  start_evaluate ctx db op = Ok db' ->
  exists st db2 db3, do_evaluate db st op = Ok st /\
    db2 = db <| dynamic_data := dynamic_data db2 |> <| statistics := statistics db2 |> /\
    (forall j, statistics db2 !! j = None <-> statistics db !! j = None) /\
    (wf_db db -> forall a, supply db2 a = supply db a) /\ do_apply db2 st op = Ok db3 /\
    adjust_balance db3 (fee_payer op) (Asset (- amount (op_fee op)) (asset_id (op_fee op))) = Ok db'.
Proof.
  intros Hpf He (st & st1 & db1 & st2 & db2 & db3 & Hp & Hev & Hc & Hpay & Happ & Hadj)%start_evaluate_inv.
  pose proof (He _ _ Hev) as ->. rewrite Hpf in Hpay. apply generic_pay_fee_frame in Hpay as (-> & Fp & Fn).
  pose proof (fun W => convert_fee_supply _ _ _ _ W Hc) as Hs.
  apply convert_fee_frame in Hc. apply prepare_fee_inv in Hp as (Hf & _). rewrite Hf in Hadj.
  exists st, db2, db3. split_and!; [done|by rewrite Fp, Hc| | |done|done].
  { intros j. by rewrite Fn, Hc. }
  intros W a. rewrite <-Hs by done. by rewrite Fp.
Qed.

(** An operation that pays its fee the usual way and makes [x] core. *)
Lemma generic_makes {Op} `{E : !Evaluator Op} ctx db (op : Op) db' x :
  skip_fee ctx = false -> pay_fee (Op := Op) = generic_pay_fee ->
  (forall st st1, do_evaluate db st op = Ok st1 -> st1 = st) ->
  (forall db2 st db3,
     db2 = db <| dynamic_data := dynamic_data db2 |> <| statistics := statistics db2 |> ->
     (forall j, statistics db2 !! j = None <-> statistics db !! j = None) ->
     do_apply db2 st op = Ok db3 -> wf_db db2 ->
     wf_db db3 /\ forall a, unbacked db3 a = unbacked db2 a + core_in a x) ->
  start_evaluate ctx db op = Ok db' -> wf_db db ->
  wf_db db' /\ forall a, unbacked db' a = unbacked db a + core_in a x.
Proof.
  intros Hs Hpf He Hd (st & st1 & db1 & st2 & db2 & db3 & Hp & Hev & Hc & Hpay & Happ & Hadj)%start_evaluate_inv W.
  apply prepare_fee_inv in Hp as (Hf & _ & _ & _ & Hcore). apply He in Hev as ->. rewrite Hpf in Hpay.
  destruct (convert_fee_moves _ _ _ _ Hc Hs) as (_ & _ & M1). apply convert_fee_frame in Hc.
  apply generic_pay_fee_frame in Hpay as Fp. destruct Fp as (_ & Fp & Fn).
  apply generic_pay_fee_moves in Hpay as (-> & _ & _ & _ & _ & _ & M2); [|done].
  destruct (moves_step _ _ _ _ _ M1 M2 W) as (W2 & _ & E2).
  destruct (Hd db2 st db3) as [W3 E3]; [rewrite Fp, Hc; done| |done|done|].
  { intros j. by rewrite Fn, Hc. }
  apply adjust_balance_moves in Hadj as M4. destruct (M4 W3) as (W4 & _ & E4).
  split; [done|]. intros a. rewrite E4, E3, E2, amount_in_opp, Hf.
  destruct (N.eqb_spec (asset_id (op_fee op)) CORE_ASSET) as [Hi|]; [|lia].
  rewrite <-(asset_eta (op_fee op)), Hi, amount_in_core, (Hcore Hi). lia.
Qed.

(** ** The fee schedule *)

(** One core is [num / den] of the other asset of [p]. *)
Definition core_rate (p : price) : Z * Z :=
  if (asset_id (base p) =? CORE_ASSET)%N then (amount (quote p), amount (base p))
  else (amount (base p), amount (quote p)).
Definition core_counterpart (p : price) : N :=
  if (asset_id (base p) =? CORE_ASSET)%N then asset_id (quote p) else asset_id (base p).

Definition core_price (p : price) : Prop :=
  pos_price p /\ asset_id (base p) <> asset_id (quote p) /\
  (asset_id (base p) = CORE_ASSET \/ asset_id (quote p) = CORE_ASSET).

Lemma core_price_mul p x :
  core_price p -> nonneg64 x ->
  asset_mul_price (Asset x CORE_ASSET) p = converted x (core_rate p).1 (core_rate p).2 (core_counterpart p) /\
  asset_mul_price (Asset x (core_counterpart p)) p = converted x (core_rate p).2 (core_rate p).1 CORE_ASSET /\
  0 < (core_rate p).1 /\ 0 < (core_rate p).2.
Proof.
  intros (Hp & Hne & Hc) Hx. pose proof (pos_base _ Hp). pose proof (pos_quote _ Hp).
  unfold core_rate, core_counterpart.
  destruct (N.eqb_spec (asset_id (base p)) CORE_ASSET) as [Hb|Hb]; simpl.
  - split_and!; [by apply asset_mul_price_base| |lia|lia].
    rewrite asset_mul_price_quote; [by rewrite Hb|done..|simpl; congruence].
  - destruct Hc as [|Hq]; [done|]. split_and!; [| |lia|lia].
    + apply asset_mul_price_quote; simpl; congruence || done.
    + rewrite asset_mul_price_base; [by rewrite Hq|done..].
Qed.

Lemma raise_fee_spec p s r :
  core_price p -> 0 <= s <= GRAPHENE_MAX_SHARE_SUPPLY ->
  r = s * (core_rate p).1 / (core_rate p).2 -> r <= GRAPHENE_MAX_SHARE_SUPPLY ->
  terminates (raise_fee raise_fuel p (Asset s CORE_ASSET) (Asset r (core_counterpart p))) /\
  forall fee, raise_fee raise_fuel p (Asset s CORE_ASSET) (Asset r (core_counterpart p)) = Ok fee ->
    asset_id fee = core_counterpart p /\ 0 <= amount fee /\
    forall x, 0 <= x -> s <= x * (core_rate p).2 / (core_rate p).1 <-> amount fee <= x.
Proof.
  intros Hp Hs Hr Hmax. destruct (core_price_mul p 0 Hp) as (_ & _ & Hn & Hd); [unfold nonneg64; blia|].
  set (num := (core_rate p).1) in *. set (den := (core_rate p).2) in *.
  assert (Hr0 : 0 <= r) by (rewrite Hr; apply Z.div_pos; nia).
  pose proof (Z.mul_div_le (s * num) den Hd) as D1. pose proof (Z.mul_succ_div_gt (s * num) den Hd) as D2.
  rewrite <-Hr in D1, D2.
  assert (Hiff : forall x, 0 <= x -> s <= x * den / num <-> s * num <= x * den).
  { intros x Hx. split; intros H.
    - pose proof (Z.mul_div_le (x * den) num Hn). nia.
    - apply Z.div_le_lower_bound; lia. }
  assert (Hlim : GRAPHENE_MAX_SHARE_SUPPLY + 1 <= INT64_MAX) by by vm_compute.
  unfold raise_fuel. cbn [raise_fee]. cbn [amount asset_id].
  destruct (core_price_mul p r Hp) as (_ & -> & _); [unfold nonneg64; lia|]. fold num den.
  destruct (core_price_mul p (r + 1) Hp) as (_ & E2 & _); [unfold nonneg64; lia|]. fold num den in E2.
  assert (Hup : s <= (r + 1) * den / num) by (apply Hiff; nia).
  unfold converted.
  destruct (r * den / num <=? GRAPHENE_MAX_SHARE_SUPPLY); cbn [guard_or mbind result_bind]; [|done].
  unfold asset_ltb; cbn [asset_id amount]. rewrite N.eqb_refl. cbn [guard_or mbind result_bind].
  destruct (Z.ltb_spec (r * den / num) s) as [Hlt|Hge].
  - rewrite (safe_add_ok _ fc_safe_laws) by blia. cbn [mbind result_bind].
    cbn [amount asset_id]. rewrite E2. unfold converted.
    destruct ((r + 1) * den / num <=? _); cbn [guard_or mbind result_bind]; [|done].
    unfold asset_ltb; cbn [asset_id amount]. rewrite N.eqb_refl. cbn [guard_or mbind result_bind].
    destruct (Z.ltb_spec ((r + 1) * den / num) s); [lia|]. split; [done|].
    intros fee [= <-]. simpl. split_and!; [done|lia|]. intros x Hx. rewrite Hiff by done.
    assert (~ s * num <= r * den) by (rewrite <-Hiff by done; lia). split; nia.
  - split; [done|]. intros fee [= <-]. simpl. split_and!; [done|lia|]. intros x Hx. rewrite Hiff by done.
    apply Hiff in Hge; [|done]. split; [|nia]. intros. nia.
Qed.

(** *** The fee in core *)

Lemma fee_of_ok base_value scale :
  in_uint64 base_value -> 0 <= scale < 2 ^ 32 ->
  0 <= base_value * scale / GRAPHENE_100_PERCENT /\
  u128_div fc_u128 (u128_mul fc_u128 (u128_of fc_u128 base_value) (u128_of fc_u128 scale))
    (u128_of fc_u128 GRAPHENE_100_PERCENT) = base_value * scale / GRAPHENE_100_PERCENT.
Proof.
  intros Hb Hs. split; [apply Z.div_pos; [unfold_bounds; nia|done]|].
  apply (u128_scale fc_u128_laws); [done|blia|done|ground].
Qed.

Lemma calculate_fee_unit base_value scale :
  in_uint64 base_value -> 0 <= scale < 2 ^ 32 ->
  calculate_fee base_value scale (unit_price CORE_ASSET) =
    if base_value * scale / GRAPHENE_100_PERCENT <=? GRAPHENE_MAX_SHARE_SUPPLY
    then Ok (Asset (base_value * scale / GRAPHENE_100_PERCENT) CORE_ASSET)
    else Err (assert_exception "scaled <= GRAPHENE_MAX_SHARE_SUPPLY").
Proof.
  intros Hb Hs. destruct (fee_of_ok base_value scale Hb Hs) as [Hs0 E].
  unfold calculate_fee. cbv zeta. rewrite E. clear E.
  set (scaled := base_value * scale / GRAPHENE_100_PERCENT) in *. clearbody scaled.
  assert (Hlim : GRAPHENE_MAX_SHARE_SUPPLY + 1 <= INT64_MAX) by by vm_compute.
  destruct (Z.leb_spec scaled GRAPHENE_MAX_SHARE_SUPPLY) as [Hle|]; cbn [guard_or mbind result_bind]; [|done].
  rewrite (u128_to_uint64_ok _ fc_u128_laws) by blia. cbn [mbind result_bind].
  rewrite to_int64_small by lia. unfold unit_price.
  assert (Hu : asset_mul_price (Asset scaled CORE_ASSET) (Price (Asset 1 CORE_ASSET) (Asset 1 CORE_ASSET))
    = Ok (Asset scaled CORE_ASSET)).
  { rewrite asset_mul_price_base; [|split; ground|unfold nonneg64; simpl; lia|done]. unfold converted. simpl.
    rewrite Z.mul_1_r, Z.div_1_r. destruct (Z.leb_spec scaled GRAPHENE_MAX_SHARE_SUPPLY); [done|lia]. }
  rewrite Hu. cbn [mbind result_bind raise_fee raise_fuel]. rewrite Hu. cbn [mbind result_bind].
  unfold asset_ltb; cbn [asset_id amount]. rewrite N.eqb_refl, Z.ltb_irrefl.
  cbn [guard_or mbind result_bind amount]. by rewrite (proj2 (Z.leb_le _ _) Hle).
Qed.

(** An operation whose evaluation keeps the fee state and whose application is
    covered by [H] keeps the promise. *)
Lemma applies_generic {Op} `{E : !Evaluator Op} db st st1 db1 (op : Op) ctx st2 db2 db3 :
  pay_fee ctx db1 (fee_payer op) st1 = generic_pay_fee ctx db1 (fee_payer op) st1 ->
  st1 = st -> wf_db db1 -> skip_fee ctx = false -> same_books db db1 ->
  pay_fee ctx db1 (fee_payer op) st1 = Ok (st2, db2) ->
  (same_books db db2 -> drains db2 db3 (fun _ => 0)) ->
  st1 = st /\ fee_from_account st2 = fee_from_account st /\ drains db1 db3 (fun a => core_in a (core_fee_paid st)).
Proof.
  intros Ep -> W Hskip S Hpay H. split; [done|]. rewrite Ep in Hpay.
  eapply generic_applies; [done|exact Hpay|intros S2 _ _ _|done]. apply H. by eapply same_books_trans.
Qed.
End Facts.

(** An instance of [Conserving] for an operation that pays its fee the usual way:
    [ev] is its evaluation, [lem] shows that its application drains nothing. *)
Ltac conserving ev lem :=
  intros db st st1 db1 op ctx st2 db2 db3 Hwf Hpre Hval _ _ He S _ D W Hskip Hpay Happ;
  cbn in Hval, He, Happ;
  refine (applies_generic db st st1 db1 op ctx st2 db2 db3 eq_refl _ W Hskip S Hpay _);
  [unfold ev in He; cbv zeta in He; repeat (inv_results || inv_get); done
  |intros S2; lem].

(** ** Properties *)

(** The fee of an operation is computed in bounded time; in core it is the
    scaled fee itself, and at a rate between core and another asset it is the
    least amount of that asset worth at least the scaled fee. *)
Theorem calculate_fee_spec `{FC : FcLib, !FcLaws FC} (base_value scale : Z) (p : price) :
  let scaled := base_value * scale / GRAPHENE_100_PERCENT in
  in_uint64 base_value -> 0 <= scale < 2 ^ 32 -> core_price p ->
  calculate_fee base_value scale p <> Err out_of_fuel /\
  (forall fee, calculate_fee base_value scale p = Ok fee ->
     scaled <= GRAPHENE_MAX_SHARE_SUPPLY /\
     asset_id fee = core_counterpart p /\ 0 <= amount fee <= GRAPHENE_MAX_SHARE_SUPPLY /\
     forall x, 0 <= x -> scaled <= x * (core_rate p).2 / (core_rate p).1 <-> amount fee <= x) /\
  (scaled <= GRAPHENE_MAX_SHARE_SUPPLY ->
     calculate_fee base_value scale (unit_price CORE_ASSET) = Ok (Asset scaled CORE_ASSET)).
Proof.
  intros scaled Hb Hs Hp.
  enough (calculate_fee base_value scale p <> Err out_of_fuel /\
    forall fee, calculate_fee base_value scale p = Ok fee ->
      scaled <= GRAPHENE_MAX_SHARE_SUPPLY /\
      asset_id fee = core_counterpart p /\ 0 <= amount fee <= GRAPHENE_MAX_SHARE_SUPPLY /\
      forall x, 0 <= x -> scaled <= x * (core_rate p).2 / (core_rate p).1 <-> amount fee <= x) as [H1 H2].
  { split_and!; [done..|]. intros Hle. rewrite calculate_fee_unit by done. fold scaled.
    by rewrite (proj2 (Z.leb_le _ _) Hle). }
  destruct (fee_of_ok base_value scale Hb Hs) as [Hs0 E]. unfold calculate_fee. cbv zeta. rewrite E. clear E.
  fold scaled in Hs0 |- *. clearbody scaled.
  assert (Hlim : GRAPHENE_MAX_SHARE_SUPPLY + 1 <= INT64_MAX) by by vm_compute.
  destruct (Z.leb_spec scaled GRAPHENE_MAX_SHARE_SUPPLY) as [Hle|]; cbn [guard_or mbind result_bind]; [|done].
  rewrite (u128_to_uint64_ok _ fc_u128_laws) by blia. cbn [mbind result_bind].
  rewrite to_int64_small by lia. split.
  - destruct (core_price_mul p scaled Hp) as (-> & _); [unfold nonneg64; lia|]. unfold converted.
    destruct (Z.leb_spec (scaled * (core_rate p).1 / (core_rate p).2) GRAPHENE_MAX_SHARE_SUPPLY);
      cbn [guard_or mbind result_bind]; [|done].
    destruct (raise_fee_spec p scaled _ Hp (conj Hs0 Hle) eq_refl) as [Ht _]; [done|].
    change (terminates (A := asset) (fee ← raise_fee raise_fuel p (Asset scaled CORE_ASSET)
      (Asset (scaled * (core_rate p).1 / (core_rate p).2) (core_counterpart p));
      _ ← FC_ASSERT (amount fee <=? GRAPHENE_MAX_SHARE_SUPPLY) "result.amount <= GRAPHENE_MAX_SHARE_SUPPLY";
      Ok fee)).
    apply terminates_bind; [done|]. intros. by terminate.
  - intros fee H. inv_result. bool_to_prop.
    destruct (core_price_mul p scaled Hp) as (E & _); [unfold nonneg64; lia|].
    match goal with H : asset_mul_price (Asset scaled _) _ = _ |- _ => rewrite E in H;
      apply converted_Ok in H as [-> Hm] end.
    match goal with H : raise_fee _ _ _ _ = _ |- _ =>
      apply (raise_fee_spec p scaled _ Hp (conj Hs0 Hle) eq_refl Hm) in H as (? & ? & ?) end.
    split_and!; done || lia.
Qed.

(** ** Witnesses *)

Lemma calculate_fee_spec_witness :
  calculate_fee (FC := fc_ref) 20100 5000 (Price (Asset 3 1) (Asset 1000 CORE_ASSET))
    = Ok (Asset 31 1) /\ 10050 <= 31 * 1000 / 3.
Proof.
  assert (H : calculate_fee (FC := fc_ref) 20100 5000 (Price (Asset 3 1) (Asset 1000 CORE_ASSET))
    = Ok (Asset 31 1)) by by vm_compute.
  split; [exact H|].
  destruct (@calculate_fee_spec fc_ref fc_ref_laws 20100 5000 (Price (Asset 3 1) (Asset 1000 CORE_ASSET)))
    as (_ & H1 & _); [ground|ground|split; [split; ground|split; [ground|by right]]|].
  destruct (H1 _ H) as (_ & _ & _ & Hx). apply (Hx 31); simpl; lia.
Defined.
