(* ===== verification/MarketOps.v ===== *)
(** * The market operations

    Models [libraries/chain/market_evaluator.cpp] and [protocol/market.cpp]:
    placing and cancelling limit orders, updating margin positions and
    configuring the fee of an exchange.  Each operation is an instance of
    [Evaluator] and keeps the promise [Conserving]. *)

From S2P Require Import Prelude FcLib Asset Vesting Objects Database Ledger Market Trading Deflation Evaluator.

Record limit_order_fee_config_operation := Limit_order_fee_config_operation {
  fo_fee : asset;
  fo_receiver : N;
  fo_asset_a : N;
  fo_rate_a : Z;
  fo_asset_b : N;
  fo_rate_b : Z;
}.

Record limit_order_create_operation := Limit_order_create_operation {
  lo_fee : asset;
  lo_seller : N;
  amount_to_sell : asset;
  min_to_receive : asset;
  lo_expiration : Z;
  fill_or_kill : bool;
  exchange_fee_extensions : list N;   (* the receivers, in the order of the set *)
}.

Record limit_order_cancel_operation := Limit_order_cancel_operation {
  lx_fee : asset;
  lx_order : N;
  lx_fee_paying_account : N;
}.

Record call_order_update_operation := Call_order_update_operation {
  cu_fee : asset;
  funding_account : N;
  delta_collateral : asset;
  delta_debt : asset;
}.

Section MarketOps.
Context `{FC : FcLib}.
Implicit Types (db : database) (st : fee_state) (i : N).

(** ** The fee of an exchange *)

Definition limit_order_fee_config_validate (op : limit_order_fee_config_operation) : result unit :=
  FC_ASSERT (0 <=? amount (fo_fee op)) "fee.amount >= 0".

(** All checks are inside a [try] whose [catch( ... )] only writes a log line. *)
Definition limit_order_fee_config_do_evaluate db st (op : limit_order_fee_config_operation)
  : result fee_state := Ok st.

Definition limit_order_fee_config_do_apply db (op : limit_order_fee_config_operation) : result database :=
  let '(key, rates) :=
    if (fo_asset_b op <? fo_asset_a op)%N
    then ((fo_asset_b op, fo_asset_a op), (fo_rate_b op, fo_rate_a op))
    else ((fo_asset_a op, fo_asset_b op), (fo_rate_a op, fo_rate_b op)) in
  let old := default ∅ (fee_configs db !! fo_receiver op) in
  Ok (db <| fee_configs ::= <[fo_receiver op := <[key := rates]> old]> |>).

(** ** Limit orders *)

Definition limit_order_create_validate (op : limit_order_create_operation) : result unit :=
  _ ← FC_ASSERT (negb (asset_id (amount_to_sell op) =? asset_id (min_to_receive op))%N)
        "amount_to_sell.asset_id != min_to_receive.asset_id";
  _ ← FC_ASSERT (0 <=? amount (lo_fee op)) "fee.amount >= 0";
  _ ← FC_ASSERT (0 <? amount (amount_to_sell op)) "amount_to_sell.amount > 0";
  FC_ASSERT (0 <? amount (min_to_receive op)) "min_to_receive.amount > 0".

(** The markets the sold asset may enter. *)
Definition market_allowed (a : asset_object) (receive : N) : bool :=
  (bool_decide (whitelist_markets (options a) = ∅) || bool_decide (receive ∈ whitelist_markets (options a)))
  && (bool_decide (blacklist_markets (options a) = ∅)
      || negb (bool_decide (receive ∈ blacklist_markets (options a)))).

Definition limit_order_create_do_evaluate db st (op : limit_order_create_operation) : result fee_state :=
  let sell := asset_id (amount_to_sell op) in
  let receive := asset_id (min_to_receive op) in
  _ ← FC_ASSERT (head_block_time db <=? lo_expiration op) "op.expiration >= d.head_block_time()";
  sell_asset ← tbl_get (assets db) sell;
  receive_asset ← tbl_get (assets db) receive;
  seller ← tbl_get (accounts db) (lo_seller op);
  _ ← FC_ASSERT (market_allowed sell_asset receive) "whitelist_markets, blacklist_markets";
  _ ← FC_ASSERT (is_authorized_asset db seller sell sell_asset) "is_authorized_asset( d, *_seller, *_sell_asset )";
  _ ← FC_ASSERT (is_authorized_asset db seller receive receive_asset)
        "is_authorized_asset( d, *_seller, *_receive_asset )";
  dlft ← (if (sell =? CORE_ASSET)%N then account_cut db (lo_seller op) else Ok 0);
  _ ← (match account_unvisited db (lo_seller op) with
       | Some _ =>
           if (receive =? CORE_ASSET)%N then
             x ← account_cut db (lo_seller op);
             needed ← asset_add (op.(lo_fee)) (Asset x CORE_ASSET);
             ge ← asset_geb (get_balance db (lo_seller op) CORE_ASSET) needed;
             FC_ASSERT ge "not enough PIC for deflation"
           else Ok tt
       | None => Ok tt
       end);
  needed ← asset_add (amount_to_sell op) (Asset dlft sell);
  ge ← asset_geb (get_balance db (lo_seller op) sell) needed;
  _ ← FC_ASSERT ge "insufficient balance";
  Ok st.

Definition limit_order_create_pay_fee (ctx : evaluation_context) db (account : N) st
  : result (fee_state * database) :=
  if head_block_time db <=? HARDFORK_445_TIME then generic_pay_fee ctx db account st
  else Ok (st <| deferred := core_fee_paid st |>, db).

(** The cut of the seller by a running deflation: taken when core is sold; when
    core is bought it is recorded, but not taken. *)
Definition limit_order_cuts db (op : limit_order_create_operation) : result (Z * database) :=
  '(x, db) ← (if (asset_id (amount_to_sell op) =? CORE_ASSET)%N then freeze_cut db (lo_seller op)
              else Ok (0, db));
  '(_, db) ← (if (asset_id (min_to_receive op) =? CORE_ASSET)%N then freeze_cut db (lo_seller op)
              else Ok (0, db));
  Ok (x, db).

Definition new_limit_order st (op : limit_order_create_operation) (p : price) : limit_order_object :=
  Limit_order_object (lo_expiration op) (lo_seller op) (amount (amount_to_sell op)) p (deferred st)
    (last (exchange_fee_extensions op)).

Definition limit_order_create_do_apply db st (op : limit_order_create_operation) : result database :=
  '(dlft, db) ← limit_order_cuts db op;
  s ← get_statistics db (lo_seller op);
  t ← (if (asset_id (amount_to_sell op) =? CORE_ASSET)%N
       then safe_add fc_safe (total_core_in_orders s) (amount (amount_to_sell op))
       else Ok (total_core_in_orders s));
  let db := put_statistics db (lo_seller op) (s <| total_core_in_orders := t |>) in
  n ← asset_neg (amount_to_sell op);
  out ← asset_sub n (Asset dlft (asset_id (amount_to_sell op)));
  db ← adjust_balance db (lo_seller op) out;
  p ← asset_div (amount_to_sell op) (min_to_receive op);
  let new := tbl_create (limit_orders db) (new_limit_order st op p) in
  '(filled, db) ← apply_order (db <| limit_orders := new.2 |>) new.1 true;
  _ ← FC_ASSERT (negb (fill_or_kill op) || filled) "!op.fill_or_kill || filled";
  Ok db.

Definition limit_order_cancel_validate (op : limit_order_cancel_operation) : result unit :=
  FC_ASSERT (0 <=? amount (lx_fee op)) "fee.amount >= 0".

Definition limit_order_cancel_do_evaluate db st (op : limit_order_cancel_operation) : result fee_state :=
  o ← tbl_get (limit_orders db) (lx_order op);
  _ ← FC_ASSERT (seller o =? lx_fee_paying_account op)%N "_order->seller == o.fee_paying_account";
  Ok st.

(** Here too the cut of the seller is recorded without being taken. *)
Definition limit_order_cancel_do_apply db (op : limit_order_cancel_operation) : result database :=
  o ← limit_at db (lx_order op);
  let base_asset := asset_id (base (sell_price o)) in
  let quote_asset := asset_id (quote (sell_price o)) in
  '(_, db) ← (if (base_asset =? CORE_ASSET)%N then freeze_cut db (seller o) else Ok (0, db));
  db ← cancel_limit_order db (lx_order op) false;
  '(_, db) ← check_call_orders db base_asset true;
  '(_, db) ← check_call_orders db quote_asset true;
  Ok db.

(** ** Margin positions *)

Definition call_order_update_validate (op : call_order_update_operation) : result unit :=
  _ ← FC_ASSERT (0 <=? amount (cu_fee op)) "fee.amount >= 0";
  _ ← FC_ASSERT (negb (asset_id (delta_collateral op) =? asset_id (delta_debt op))%N)
        "delta_collateral.asset_id != delta_debt.asset_id";
  FC_ASSERT (negb (amount (delta_collateral op) =? 0) || negb (amount (delta_debt op) =? 0))
    "delta_collateral.amount != 0 || delta_debt.amount != 0".

Definition call_order_update_do_evaluate db st (op : call_order_update_operation) : result fee_state :=
  _ ← tbl_get (accounts db) (funding_account op);
  debt_asset ← tbl_get (assets db) (asset_id (delta_debt op));
  _ ← FC_ASSERT (is_market_issued debt_asset) "Unable to cover as it is not a collateralized asset.";
  '(_, bit) ← bitasset_data db debt_asset;
  _ ← FC_ASSERT (negb (has_settlement bit)) "!_bitasset_data->has_settlement()";
  _ ← FC_ASSERT (asset_id (delta_collateral op) =? short_backing_asset (bit_options bit))%N
        "o.delta_collateral.asset_id == _bitasset_data->options.short_backing_asset";
  _ ← (if is_prediction_market bit then
         FC_ASSERT (amount (delta_collateral op) =? amount (delta_debt op))
           "o.delta_collateral.amount == o.delta_debt.amount"
       else if is_null (settlement_price (current_feed bit)) then
         Err (graphene_exception "insufficient_feeds")
       else Ok tt);
  _ ← (if amount (delta_debt op) <? 0 then
         ge ← asset_geb (get_balance db (funding_account op) (asset_id (delta_debt op))) (delta_debt op);
         FC_ASSERT ge "Cannot cover"
       else Ok tt);
  _ ← (if 0 <? amount (delta_collateral op) then
         _ ← tbl_get (assets db) (short_backing_asset (bit_options bit));
         ge ← asset_geb (get_balance db (funding_account op) (short_backing_asset (bit_options bit)))
                (delta_collateral op);
         FC_ASSERT ge "Cannot increase collateral"
       else Ok tt);
  Ok st.

(** The borrowed or repaid amount, in the balance and in the supply. *)
Definition change_debt db (debt_asset : asset_object) (op : call_order_update_operation) : result database :=
  if amount (delta_debt op) =? 0 then Ok db
  else
    db ← adjust_balance db (funding_account op) (delta_debt op);
    dyn ← get_dynamic db debt_asset;
    s ← safe_add fc_safe (current_supply dyn) (amount (delta_debt op));
    _ ← C_ASSERT (0 <=? s) "dynamic_asset.current_supply >= 0";
    Ok (put_dynamic db debt_asset (dyn <| current_supply := s |>)).

Definition change_collateral db (op : call_order_update_operation) : result database :=
  if amount (delta_collateral op) =? 0 then Ok db
  else
    n ← asset_neg (delta_collateral op);
    db ← adjust_balance db (funding_account op) n;
    if (asset_id (delta_collateral op) =? CORE_ASSET)%N then
      s ← get_statistics db (funding_account op);
      t ← safe_add fc_safe (total_core_in_orders s) (amount (delta_collateral op));
      Ok (put_statistics db (funding_account op) (s <| total_core_in_orders := t |>))
    else Ok db.

(** The by_account index: at most one position of a borrower in an asset. *)
Definition call_by_account db (account debt_asset : N) : option (N * call_order_object) :=
  head (filter (fun x => borrower x.2 = account /\ debt_type x.2 = debt_asset)
          (map_to_list (objs (call_orders db)))).

(** The new or changed position. *)
Definition update_position db (bit : asset_bitasset_data_object) (op : call_order_update_operation)
  : result (N * database) :=
  let mcr := maintenance_collateral_ratio (current_feed bit) in
  match call_by_account db (funding_account op) (asset_id (delta_debt op)) with
  | None =>
      _ ← FC_ASSERT (0 <? amount (delta_collateral op)) "o.delta_collateral.amount > 0";
      _ ← FC_ASSERT (0 <? amount (delta_debt op)) "o.delta_debt.amount > 0";
      p ← call_price (delta_debt op) (delta_collateral op) mcr;
      let new := tbl_create (call_orders db)
        (Call_order_object (funding_account op) (amount (delta_collateral op)) (amount (delta_debt op)) p) in
      Ok (new.1, db <| call_orders := new.2 |>)
  | Some (i, c) =>
      x ← safe_add fc_safe (collateral c) (amount (delta_collateral op));
      d ← safe_add fc_safe (debt c) (amount (delta_debt op));
      let c := c <| collateral := x |> <| debt := d |> in
      p ← (if 0 <? d then call_price (get_debt c) (get_collateral c) mcr else Ok (call_order_price c));
      Ok (i, db <| call_orders ::= fun t => tbl_modify t i (fun _ => c <| call_order_price := p |>) |>)
  end.

(** The position must survive a look at the margin calls, or be filled by them. *)
Definition check_position db i (debt_asset : N) (feed : price) : result database :=
  '(called, db) ← check_call_orders db debt_asset false;
  if called : bool then
    _ ← GRAPHENE_ASSERT (match objs (call_orders db) !! i with None => true | Some _ => false end)
          "call_order_update_unfilled_margin_call";
    Ok db
  else
    c ← of_option (objs (call_orders db) !! i)
          (assert_exception "no margin call was executed and yet the call object was deleted");
    _ ← GRAPHENE_ASSERT (price_ltb (price_inv (call_order_price c)) feed)
          "call_order_update_unfilled_margin_call";
    Ok db.

Definition call_order_update_do_apply db (op : call_order_update_operation) : result database :=
  debt_asset ← tbl_get (assets db) (asset_id (delta_debt op));
  '(_, bit) ← bitasset_data db debt_asset;
  db ← change_debt db debt_asset op;
  db ← change_collateral db op;
  '(i, db) ← update_position db bit op;
  c ← call_at db i;
  if debt c =? 0 then
    _ ← FC_ASSERT (collateral c =? 0) "call_obj->collateral == 0";
    Ok (db <| call_orders ::= fun t => tbl_remove t i |>)
  else
    _ ← FC_ASSERT ((0 <? collateral c) && (0 <? debt c)) "call_obj->collateral > 0 && call_obj->debt > 0";
    if is_prediction_market bit then Ok db
    else check_position db i (asset_id (delta_debt op)) (settlement_price (current_feed bit)).
End MarketOps.

(** ** Instances *)

#[export] Instance limit_order_fee_config_evaluator `{FC : FcLib} : Evaluator limit_order_fee_config_operation := {|
  validate := limit_order_fee_config_validate;
  fee_payer := fo_receiver;
  op_fee := fo_fee;
  do_evaluate := limit_order_fee_config_do_evaluate;
  pay_fee := generic_pay_fee;
  do_apply db _ op := limit_order_fee_config_do_apply db op;
|}.

#[export] Instance limit_order_create_evaluator `{FC : FcLib} : Evaluator limit_order_create_operation := {|
  validate := limit_order_create_validate;
  fee_payer := lo_seller;
  op_fee := lo_fee;
  do_evaluate := limit_order_create_do_evaluate;
  pay_fee := limit_order_create_pay_fee;
  do_apply := limit_order_create_do_apply;
|}.

#[export] Instance limit_order_cancel_evaluator `{FC : FcLib} : Evaluator limit_order_cancel_operation := {|
  validate := limit_order_cancel_validate;
  fee_payer := lx_fee_paying_account;
  op_fee := lx_fee;
  do_evaluate := limit_order_cancel_do_evaluate;
  pay_fee := generic_pay_fee;
  do_apply db _ op := limit_order_cancel_do_apply db op;
|}.

#[export] Instance call_order_update_evaluator `{FC : FcLib} : Evaluator call_order_update_operation := {|
  validate := call_order_update_validate;
  fee_payer := funding_account;
  op_fee := cu_fee;
  do_evaluate := call_order_update_do_evaluate;
  pay_fee := generic_pay_fee;
  do_apply db _ op := call_order_update_do_apply db op;
|}.

Section Facts.
Context `{FC : FcLib, !FcLaws FC}.
Implicit Types (db : database) (st : fee_state) (i : N).

(** Recording a cut leaves the books alone. *)
Lemma freeze_cut_moves db i x db' :
  freeze_cut db i = Ok (x, db') ->
  pays_out db db' (fun _ => 0) /\ deflations db' = deflations db /\ (no_deflation db = true -> x = 0).
Proof.
  unfold freeze_cut, account_unvisited, no_deflation. intros H.
  destruct (tbl_last _) as [[di d]|]; [|inv_results; by split_and!; [apply pays_out_refl|..]].
  destruct (negb _ && _) eqn:Hc; inv_results; [|by split_and!; [apply pays_out_refl|..]].
  split_and!; [split; [by split|by apply moves_same]|done|].
  intros [_ Hb]%andb_true_iff. by rewrite Hb in Hc.
Qed.

Lemma new_limit_moves db o :
  in_int64 (for_sale o) -> 0 <= deferred_fee o ->
  moves db (db <| limit_orders := (tbl_create (limit_orders db) o).2 |>) (fun a => order_part a 0 o).
Proof.
  intros Hs Hd [[]]. split_and!; [split; try done; [|by apply tbl_create_wf]|done|].
  { intros j oj. simpl. rewrite lookup_insert_Some. intros [[_ <-]|[_ ?]]; eauto. }
  intros a. unfold unbacked, holdings, supply, fees_of, dynamic_of; simpl.
  rewrite map_sum_insert_new by by apply wf_table_fresh.
  change (order_part a 0 o) with (order_part a (next_instance (limit_orders db)) o). lia.
Qed.

Lemma limit_order_cuts_drains db op x db' :
  limit_order_cuts db op = Ok (x, db') ->
  pays_out db db' (fun _ => 0) /\ deflations db' = deflations db /\ (no_deflation db = true -> x = 0) /\
  (asset_id (amount_to_sell op) <> CORE_ASSET -> x = 0).
Proof.
  unfold limit_order_cuts. intros H. inv_results.
  assert (A1 : pays_out db d (fun _ => 0) /\ deflations d = deflations db /\ (no_deflation db = true -> x = 0) /\
    (asset_id (amount_to_sell op) <> CORE_ASSET -> x = 0)).
  { destruct (N.eqb_spec (asset_id (amount_to_sell op)) CORE_ASSET); inv_results.
    - destruct (freeze_cut_moves _ _ _ _ H0) as (? & ? & ?). done.
    - split_and!; [apply pays_out_refl|done..]. }
  destruct A1 as (P1 & D1 & Z1 & Z2).
  destruct (N.eqb_spec (asset_id (min_to_receive op)) CORE_ASSET); inv_results; [|done].
  destruct (freeze_cut_moves _ _ _ _ H1) as (P2 & D2 & _). split_and!; [|congruence|done..].
  by eapply pays_out_eq; [by eapply pays_out_step|].
Qed.

(** A new order holds what its seller paid for it, the deferred fee included. *)
Lemma limit_order_create_drains db st op db' :
  limit_order_create_do_apply db st op = Ok db' ->
  in_int64 (amount (amount_to_sell op)) -> 0 <= deferred st ->
  drains db db' (fun a => core_in a (deferred st)).
Proof.
  unfold limit_order_create_do_apply, get_statistics. cbv zeta. intros H Hi Hd. inv_results.
  match goal with H : limit_order_cuts _ _ = _ |- _ =>
    destruct (limit_order_cuts_drains _ _ _ _ H) as ([_ M1] & _ & Hz & Hn) end.
  match goal with H : asset_neg _ = _, H' : asset_sub _ _ = _, H'' : asset_div _ _ = _ |- _ =>
    apply asset_neg_inv in H as ->; apply asset_sub_inv in H' as [-> _]; apply asset_div_inv in H'' as [-> _] end.
  match goal with H : statistics ?d !! _ = Some ?s, H' : adjust_balance (put_statistics _ _ (_ <| total_core_in_orders := ?t |>)) _ _ = _ |- _ =>
    pose proof (proj2 (put_core_in_orders_pays d (lo_seller op) s t H)) as M2;
    apply adjust_balance_moves in H' as M3 end.
  match goal with H : apply_order _ _ _ = _ |- _ => apply apply_order_burns, burns_drains in H as B end.
  match type of M3 with moves _ ?d _ =>
    pose proof (new_limit_moves d (new_limit_order st op (Price (amount_to_sell op) (min_to_receive op))) Hi Hd) as M4 end.
  eapply drains_eq; [eapply drains_step; [|exact B]|].
  - eapply (drains_loss _ _ (fun a => core_in a (deferred st))); [exact Hz|].
    eapply moves_eq; [exact (moves_step _ _ _ _ _ (moves_step _ _ _ _ _ (moves_step _ _ _ _ _ M1 M2) M3) M4)|].
    intros c. cbv beta. unfold order_part; simpl. destruct (amount_to_sell op) as [v id]; simpl in *.
    replace (- v - z) with (0 - v - z) by lia. rewrite !amount_in_sub, amount_in_0.
    destruct (N.eq_dec id CORE_ASSET) as [->|Hne]; [rewrite !amount_in_core; lia|].
    rewrite (Hn Hne), amount_in_0, core_in_0. lia.
  - intros c. simpl. lia.
Qed.

Lemma limit_order_cancel_drains db op db' :
  limit_order_cancel_do_apply db op = Ok db' -> drains db db' (fun _ => 0).
Proof.
  unfold limit_order_cancel_do_apply, limit_at. cbv zeta. intros H. inv_results.
  assert (M : moves db d (fun _ => 0)).
  { destruct (_ =? CORE_ASSET)%N; inv_results; [|apply moves_refl].
    by match goal with H : freeze_cut _ _ = _ |- _ => destruct (freeze_cut_moves _ _ _ _ H) as ([_ ?] & _) end. }
  repeat match goal with
  | H : cancel_limit_order _ _ _ = _ |- _ => apply cancel_limit_order_burns in H
  | H : check_call_orders _ _ _ = _ |- _ => apply check_call_orders_burns in H
  end.
  apply burns_drains. eapply burns_trans; [apply moves_burns, M|].
  eapply burns_trans; [eassumption|]. eapply burns_trans; eassumption.
Qed.

(** *** Margin positions *)

Lemma new_call_moves db c :
  moves db (db <| call_orders := (tbl_create (call_orders db) c).2 |>) (fun a => call_part a 0 c).
Proof.
  intros [[]]. split_and!; [split; try done; by apply tbl_create_wf|done|].
  intros a. unfold unbacked, holdings, supply, fees_of, dynamic_of; simpl.
  rewrite map_sum_insert_new by by apply wf_table_fresh.
  change (call_part a 0 c) with (call_part a (next_instance (call_orders db)) c). lia.
Qed.

Lemma change_debt_moves db a op db' :
  objs (assets db) !! asset_id (delta_debt op) = Some a -> change_debt db a op = Ok db' ->
  moves db db' (fun _ => 0) /\ call_orders db' = call_orders db /\ bitassets db' = bitassets db.
Proof.
  unfold change_debt, get_dynamic. intros Ha H.
  destruct (_ =? 0); inv_result; [by split; [apply moves_refl|]|]. inv_get. inv_safe.
  match goal with H : adjust_balance _ _ _ = _ |- _ => apply adjust_balance_pays in H as [S M] end.
  split; [|split; [exact (same_call_orders _ _ S)|exact (same_bitassets _ _ S)]].
  eapply moves_eq.
  { eapply moves_step; [exact M|]. eapply put_dynamic_moves; [|eassumption].
    rewrite (same_assets _ _ S). exact Ha. }
  intros c. cbv beta. simpl. rewrite Z.sub_diag, core_in_0. destruct (delta_debt op) as [x i]; simpl.
  unfold amount_in; simpl. case_match; lia.
Qed.

Lemma change_collateral_moves db op db' :
  change_collateral db op = Ok db' ->
  moves db db' (fun a => - amount_in a (delta_collateral op)) /\ call_orders db' = call_orders db.
Proof.
  unfold change_collateral, get_statistics. intros H. destruct (Z.eqb_spec (amount (delta_collateral op)) 0).
  { inv_result. split; [|done]. eapply moves_eq; [apply moves_refl|]. intros a.
    unfold amount_in. rewrite e. case_match; lia. }
  inv_result. match goal with H : asset_neg _ = _ |- _ => apply asset_neg_inv in H as -> end.
  match goal with H : adjust_balance _ _ _ = _ |- _ => apply adjust_balance_pays in H as [S M] end.
  assert (M0 : moves db a0 (fun a => - amount_in a (delta_collateral op))).
  { eapply moves_eq; [exact M|]. intros c. apply amount_in_opp. }
  destruct (_ =? CORE_ASSET)%N; inv_result; [|split; [exact M0|apply (same_call_orders _ _ S)]].
  split; [|exact (same_call_orders _ _ S)].
  eapply moves_eq; [eapply moves_step; [exact M0|by apply put_core_in_orders_pays]|]. intros c. simpl. lia.
Qed.

Lemma call_price_ids d c r p :
  call_price d c r = Ok p -> asset_id (base p) = asset_id c /\ asset_id (quote p) = asset_id d.
Proof.
  unfold call_price. intros H. inv_result.
  match goal with H : asset_div _ _ = _ |- _ => apply asset_div_inv in H as [-> _] end. done.
Qed.

Lemma call_by_account_elem db account a i c :
  call_by_account db account a = Some (i, c) ->
  objs (call_orders db) !! i = Some c /\ borrower c = account /\ debt_type c = a.
Proof.
  unfold call_by_account. destruct (filter _ _) as [|x l] eqn:Hl; [done|]. intros [= ->].
  assert (He : (i, c) ∈ filter (fun x => borrower x.2 = account /\ debt_type x.2 = a)
    (map_to_list (objs (call_orders db)))) by (rewrite Hl; apply list_elem_of_here).
  apply list_elem_of_filter in He as [[? ?] He%elem_of_map_to_list]. done.
Qed.

(** A position gains the collateral the funding account pays. *)
Lemma update_position_moves db bit op i db' :
  (forall j c, objs (call_orders db) !! j = Some c -> borrower c = funding_account op ->
     debt_type c = asset_id (delta_debt op) ->
     asset_id (base (call_order_price c)) = asset_id (delta_collateral op)) ->
  update_position db bit op = Ok (i, db') ->
  moves db db' (fun a => amount_in a (delta_collateral op)).
Proof.
  unfold update_position. cbv zeta. intros Hpos H.
  destruct (call_by_account _ _ _) as [[j c]|] eqn:Hc; inv_result.
  - apply call_by_account_elem in Hc as (Hj & Hb & Hd). specialize (Hpos _ _ Hj Hb Hd). inv_safe.
    eapply moves_eq; [by eapply put_call_moves|]. intros a'. cbv beta. unfold call_part; simpl.
    assert (asset_id (base a1) = asset_id (base (call_order_price c))) as ->.
    { destruct (0 <? _) in *; [|by inv_result].
      match goal with H : call_price _ _ _ = _ |- _ => apply call_price_ids in H as [-> _] end. done. }
    rewrite Hpos, amount_in_add. destruct (delta_collateral op); simpl. lia.
  - match goal with H : call_price _ _ _ = _ |- _ => apply call_price_ids in H as [Hb _] end.
    eapply moves_eq; [apply new_call_moves|]. intros a'. unfold call_part; simpl. rewrite Hb.
    by destruct (delta_collateral op).
Qed.

Lemma check_position_drains db i a feed db' :
  check_position db i a feed = Ok db' -> drains db db' (fun _ => 0).
Proof.
  unfold check_position. intros H. inv_results.
  match goal with H : check_call_orders _ _ _ = _ |- _ => apply check_call_orders_burns, burns_drains in H as B end.
  match goal with H : (if ?b then _ else _) = Ok _ |- _ => destruct b end; by inv_results.
Qed.

Lemma call_order_update_drains db op db' :
  (forall j c, objs (call_orders db) !! j = Some c -> borrower c = funding_account op ->
     debt_type c = asset_id (delta_debt op) ->
     asset_id (base (call_order_price c)) = asset_id (delta_collateral op)) ->
  call_order_update_do_apply db op = Ok db' -> drains db db' (fun _ => 0).
Proof.
  unfold call_order_update_do_apply, call_at. intros Hpos H. inv_results. inv_get.
  match goal with H : change_debt _ _ _ = _ |- _ => eapply change_debt_moves in H as (M1 & C1 & _); [|eassumption] end.
  match goal with H : change_collateral _ _ = _ |- _ => apply change_collateral_moves in H as (M2 & C2) end.
  match goal with H : update_position _ _ _ = _ |- _ =>
    apply update_position_moves in H as M3; [|by rewrite C2, C1] end.
  pose proof (moves_step _ _ _ _ _ (moves_step _ _ _ _ _ M1 M2) M3) as M.
  destruct (_ =? 0); inv_results; bool_to_prop.
  - apply moves_drains. eapply moves_eq; [eapply moves_step; [exact M|by eapply remove_call_moves]|].
    intros c. cbv beta. unfold call_part. match goal with H : collateral _ = 0 |- _ => rewrite H end.
    rewrite amount_in_0. lia.
  - match goal with H : (if is_prediction_market _ then _ else _) = _ |- _ =>
      destruct (is_prediction_market _); inv_results; [|apply check_position_drains in H] end.
    + apply moves_drains. eapply moves_eq; [exact M|]. intros c. simpl. lia.
    + eapply drains_eq; [eapply drains_step; [apply moves_drains, M|exact H]|]. intros c. simpl. lia.
Qed.

(** ** The promises *)

#[export] Instance limit_order_fee_config_conserving : Conserving limit_order_fee_config_operation.
Proof.
  refine {| pre := fun _ _ => True; applies := _ |}.
  intros db st st1 db1 op ctx st2 db2 db3 Hwf _ _ _ _ [= <-] S _ D W Hskip Hpay Happ.
  split; [done|]. eapply generic_applies; [done|exact Hpay|intros _ _ _ _|done].
  cbn [do_apply limit_order_fee_config_evaluator] in Happ. unfold limit_order_fee_config_do_apply in Happ.
  destruct (if (_ <? _)%N then _ else _). inv_result. by apply moves_drains, moves_same.
Defined.

Lemma limit_order_create_applies db st st1 db1 op ctx st2 db2 db3 :
  in_int64 (amount (amount_to_sell op)) -> 0 <= core_fee_paid st -> deferred st = 0 ->
  limit_order_create_do_evaluate db st op = Ok st1 -> skip_fee ctx = false ->
  limit_order_create_pay_fee ctx db1 (lo_seller op) st1 = Ok (st2, db2) -> limit_order_create_do_apply db2 st2 op = Ok db3 ->
  st1 = st /\ fee_from_account st2 = fee_from_account st /\
  drains db1 db3 (fun a => core_in a (core_fee_paid st)).
Proof.
  intros Hi Hc Hd0 He Hskip Hpay Happ. unfold limit_order_create_do_evaluate in He. inv_result. split; [done|].
  unfold limit_order_create_pay_fee in Hpay. destruct (_ <=? HARDFORK_445_TIME).
  - apply generic_pay_fee_moves in Hpay as (-> & _ & _ & _ & _ & _ & M); [|done]. split; [done|].
    eapply drains_eq; [eapply drains_step; [apply moves_drains, M|]|].
    + apply limit_order_create_drains in Happ; [exact Happ|done|lia].
    + intros a'. cbv beta. rewrite Hd0, core_in_0. lia.
  - inv_result. split; [done|]. by apply limit_order_create_drains in Happ.
Qed.

#[export] Instance limit_order_create_conserving : Conserving limit_order_create_operation.
Proof.
  refine {| pre := fun _ op => in_int64 (amount (amount_to_sell op)); applies := _ |}.
  intros db st st1 db1 op ctx st2 db2 db3 Hwf Hi _ Hc Hd0 He S _ D W Hskip Hpay Happ.
  exact (limit_order_create_applies db st st1 db1 op ctx st2 db2 db3 Hi Hc Hd0 He Hskip Hpay Happ).
Defined.

#[export] Instance limit_order_cancel_conserving : Conserving limit_order_cancel_operation.
Proof.
  refine {| pre := fun _ _ => True; applies := _ |}.
  intros db st st1 db1 op ctx st2 db2 db3 Hwf _ _ _ _ He S _ D W Hskip Hpay Happ.
  cbn in He, Hpay, Happ. unfold limit_order_cancel_do_evaluate in He. inv_result. split; [done|].
  eapply generic_applies; [done|exact Hpay|intros _ _ _ _|done]. by apply limit_order_cancel_drains in Happ.
Defined.

(** A position is kept in the asset the funding account pays in; the evaluator
    checks that against the backing asset only. *)
#[export] Instance call_order_update_conserving : Conserving call_order_update_operation.
Proof.
  refine {| pre := fun db op => forall j c, objs (call_orders db) !! j = Some c -> borrower c = funding_account op ->
    debt_type c = asset_id (delta_debt op) ->
    asset_id (base (call_order_price c)) = asset_id (delta_collateral op); applies := _ |}.
  intros db st st1 db1 op ctx st2 db2 db3 Hwf Hpos _ _ _ He S _ D W Hskip Hpay Happ.
  cbn in He, Hpay, Happ. unfold call_order_update_do_evaluate in He. inv_results. split; [done|].
  eapply generic_applies; [done|exact Hpay|intros S2 _ _ _|done].
  eapply call_order_update_drains; [|exact Happ].
  by rewrite (same_call_orders _ _ S2), (same_call_orders _ _ S).
Defined.
End Facts.
