(* ===== verification/Feeds.v ===== *)
(** * Price feeds

    Models the price feeds of [libraries/chain/asset_object.cpp]: the median of
    the current feeds and the volume of forced settlements.

    [std::nth_element] leaves the order of the elements around the n-th open: it
    is a parameter with the guarantee of the C++ standard, instantiated by
    sorting. *)

From S2P Require Import Prelude FcLib Asset Vesting Objects Database Ledger Trading.

Definition GRAPHENE_DEFAULT_MAINTENANCE_COLLATERAL_RATIO : Z := 1750.
Definition GRAPHENE_DEFAULT_MAX_SHORT_SQUEEZE_RATIO : Z := 1500.

(** ** [std::nth_element] *)

Class NthElement := nth_element : forall A : Type, (A -> A -> bool) -> nat -> list A -> list A.
Arguments nth_element {_ A} lt k l.

(** [lt] is a strict weak order on the elements of [l]. *)
Record strict_weak_order {A} (lt : A -> A -> bool) (l : list A) : Prop := {
  swo_asym x y : x ∈ l -> y ∈ l -> lt x y = true -> lt y x = false;
  swo_trans x y z : x ∈ l -> y ∈ l -> z ∈ l -> lt x y = false -> lt y z = false -> lt x z = false;
}.

(** What is before the [k]-th element is not greater, what is after not smaller. *)
Class NthElementLaws (NE : NthElement) : Prop := {
  nth_element_permutes A (lt : A -> A -> bool) k (l : list A) : Permutation (nth_element lt k l) l;
  nth_element_before A (lt : A -> A -> bool) k (l : list A) i x m :
    strict_weak_order lt l -> nth_element lt k l !! k = Some m -> (i < k)%nat ->
    nth_element lt k l !! i = Some x -> lt m x = false;
  nth_element_after A (lt : A -> A -> bool) k (l : list A) i x m :
    strict_weak_order lt l -> nth_element lt k l !! k = Some m -> (k < i)%nat ->
    nth_element lt k l !! i = Some x -> lt x m = false;
}.

(** ** Feeds *)

(** [price_feed()] *)
Definition no_feed : price_feed :=
  Price_feed null_price null_price GRAPHENE_DEFAULT_MAINTENANCE_COLLATERAL_RATIO
    GRAPHENE_DEFAULT_MAX_SHORT_SQUEEZE_RATIO.

Section Feeds.
Context `{FC : FcLib, NE : NthElement}.
Implicit Types (b : asset_bitasset_data_object).

(** [operator ==] leaves the core exchange rate out. *)
Definition price_feed_eqb (x y : price_feed) : bool :=
  price_eqb (settlement_price x) (settlement_price y)
  && (maintenance_collateral_ratio x =? maintenance_collateral_ratio y)
  && (maximum_short_squeeze_ratio x =? maximum_short_squeeze_ratio y).

Definition feed_expiration_time b : Z :=
  wrap32 (current_feed_publication_time b + feed_lifetime_sec (bit_options b)).
Definition feed_is_expired_before_hardfork_615 b (now : Z) : bool := now <=? feed_expiration_time b.
Definition feed_is_expired b (now : Z) : bool := feed_expiration_time b <=? now.

(** The feeds that count, in the order of their publishers. *)
Definition feed_is_current b (now : Z) (f : Z * price_feed) : bool :=
  (now - f.1 <? feed_lifetime_sec (bit_options b)) && negb (f.1 =? 0).

Definition feeds_in_order b : list (Z * price_feed) :=
  omap (fun i => feeds b !! i) (merge_sort N.le (map_to_list (feeds b)).*1).

Definition current_feeds b (now : Z) : list (Z * price_feed) :=
  filter (fun f => Is_true (feed_is_current b now f)) (feeds_in_order b).

(** One [CALCULATE_MEDIAN_VALUE]: the feeds are reordered, and the median of
    the field is that of the feed in the middle. *)
Definition median_field {K} (lt : K -> K -> bool) (field : price_feed -> K) (fs : list price_feed)
  : result (K * list price_feed) :=
  let k := Nat.div2 (length fs) in
  let fs := nth_element (fun x y => lt (field x) (field y)) k fs in
  m ← of_option (fs !! k) (undefined_behaviour "*median_itr");
  Ok (field m, fs).

Definition median_feed (fs : list price_feed) : result price_feed :=
  '(sp, fs) ← median_field price_ltb settlement_price fs;
  '(mcr, fs) ← median_field Z.ltb maintenance_collateral_ratio fs;
  '(mssr, fs) ← median_field Z.ltb maximum_short_squeeze_ratio fs;
  '(cer, fs) ← median_field price_ltb core_exchange_rate fs;
  Ok (Price_feed sp cer mcr mssr).

Definition update_median_feeds b (now : Z) : result asset_bitasset_data_object :=
  let fs := current_feeds b now in
  let oldest := foldr Z.min now fs.*1 in
  if Z.of_nat (length fs) <? minimum_feeds (bit_options b) then
    Ok (b <| current_feed_publication_time := now |> <| current_feed := no_feed |>)
  else
    m ← (match fs with [f] => Ok f.2 | _ => median_feed fs.*2 end);
    Ok (b <| current_feed_publication_time := oldest |> <| current_feed := m |>).

Definition max_force_settlement_volume b (supply : Z) : result Z :=
  if maximum_force_settlement_volume (bit_options b) =? 0 then Ok 0
  else if maximum_force_settlement_volume (bit_options b) =? GRAPHENE_100_PERCENT then
    safe_add fc_safe supply (force_settled_volume b)
  else
    r ← u128_to_uint64 fc_u128
          (u128_div fc_u128
             (u128_mul fc_u128 (u128_of fc_u128 (supply + force_settled_volume b))
                (u128_of fc_u128 (maximum_force_settlement_volume (bit_options b))))
             (u128_of fc_u128 GRAPHENE_100_PERCENT));
    Ok (to_int64 r).
End Feeds.

(** ** A reference instance: insertion sort *)

Section Sort.
Context {A : Type} (lt : A -> A -> bool).

Fixpoint insert_by (x : A) (l : list A) : list A :=
  match l with
  | [] => [x]
  | y :: l => if lt y x then y :: insert_by x l else x :: y :: l
  end.
Definition sort_by (l : list A) : list A := foldr insert_by [] l.

Lemma insert_by_permutes x l : Permutation (insert_by x l) (x :: l).
Proof.
  induction l as [|y l IH]; simpl; [done|]. destruct (lt y x); [|done].
  rewrite IH. apply Permutation_swap.
Qed.

Lemma sort_by_permutes l : Permutation (sort_by l) l.
Proof. induction l as [|x l IH]; simpl; [done|]. by rewrite insert_by_permutes, IH. Qed.

Definition not_after (x y : A) : Prop := lt y x = false.

Lemma insert_by_sorted x l l0 :
  strict_weak_order lt l0 -> x ∈ l0 -> (forall y, y ∈ l -> y ∈ l0) ->
  StronglySorted not_after l -> StronglySorted not_after (insert_by x l).
Proof.
  intros Hswo Hx. induction l as [|y l IH]; intros Hl Hs; simpl; [by repeat constructor|].
  apply StronglySorted_inv in Hs as [Hs Hy].
  assert (y ∈ l0) by apply Hl, list_elem_of_here.
  assert (Hl' : forall z, z ∈ l -> z ∈ l0) by (intros; by apply Hl, list_elem_of_further).
  destruct (lt y x) eqn:Hyx; constructor.
  - by apply IH.
  - rewrite insert_by_permutes. constructor; [by eapply swo_asym|done].
  - by constructor.
  - constructor; [done|]. apply Forall_forall. intros z Hz. rewrite Forall_forall in Hy.
    apply (swo_trans lt l0 Hswo z y x); auto. by apply Hy.
Qed.

Lemma sort_by_sorted l l0 :
  strict_weak_order lt l0 -> (forall y, y ∈ l -> y ∈ l0) -> StronglySorted not_after (sort_by l).
Proof.
  intros Hswo. induction l as [|x l IH]; intros Hl; simpl; [constructor|].
  apply (insert_by_sorted _ _ l0); [done|by apply Hl, list_elem_of_here| |].
  - intros y Hy. rewrite sort_by_permutes in Hy. by apply Hl, list_elem_of_further.
  - apply IH. intros y Hy. by apply Hl, list_elem_of_further.
Qed.
End Sort.

Lemma StronglySorted_lookup {A} (R : A -> A -> Prop) l i j x y :
  StronglySorted R l -> (i < j)%nat -> l !! i = Some x -> l !! j = Some y -> R x y.
Proof.
  intros Hs. revert i j. induction Hs as [|z l Hs IH Hz]; intros [|i] [|j] Hij; simpl; try lia; try done.
  - intros [= <-] Hy. rewrite Forall_forall in Hz. by eapply Hz, list_elem_of_lookup_2.
  - apply IH. lia.
Qed.

Definition sorting_nth_element : NthElement := fun A lt _ l => sort_by lt l.

#[export] Instance sorting_nth_element_laws : NthElementLaws sorting_nth_element.
Proof.
  split; intros A lt k l.
  - apply sort_by_permutes.
  - intros i x m Hswo Hm Hi Hx. change (not_after lt x m).
    eapply StronglySorted_lookup; [by apply (sort_by_sorted lt l l)|exact Hi|exact Hx|exact Hm].
  - intros i x m Hswo Hm Hi Hx. change (not_after lt m x).
    eapply StronglySorted_lookup; [by apply (sort_by_sorted lt l l)|exact Hi|exact Hm|exact Hx].
Qed.

(** ** Medians *)

(** At most half of the values are below [m] and less than half above. *)
Record is_median {K} (lt : K -> K -> bool) (m : K) (ks : list K) : Prop := {
  median_in : m ∈ ks;
  median_below : (length (filter (fun x => Is_true (lt x m)) ks) <= Nat.div2 (length ks))%nat;
  median_above : (length (filter (fun x => Is_true (lt m x)) ks) <= length ks - 1 - Nat.div2 (length ks))%nat;
}.

Section Facts.
Context `{FC : FcLib, !FcLaws FC, NE : NthElement, !NthElementLaws NE}.

Lemma filter_none {A} (P : A -> Prop) `{HD : !forall x, Decision (P x)} l :
  (forall i x, l !! i = Some x -> ~ P x) -> filter P l = [].
Proof.
  intros H. destruct (filter P l) as [|x l'] eqn:Hf; [done|]. exfalso.
  assert (Hx : x ∈ filter P l) by (rewrite Hf; apply list_elem_of_here).
  apply list_elem_of_filter in Hx as [HP [i Hi]%list_elem_of_lookup]. by eapply H.
Qed.

(** What is on one side of the middle of a list does not exceed that side. *)
Lemma filter_before {A} (P : A -> Prop) `{HD : !forall x, Decision (P x)} (l : list A) k :
  (forall i x, (k <= i)%nat -> l !! i = Some x -> ~ P x) -> (length (filter P l) <= k)%nat.
Proof.
  intros H. rewrite <-(take_drop k l), filter_app, (filter_none P (drop k l)), app_nil_r.
  - etrans; [apply length_filter|]. rewrite length_take. lia.
  - intros i x. rewrite lookup_drop. apply H. lia.
Qed.

Lemma filter_after {A} (P : A -> Prop) `{HD : !forall x, Decision (P x)} (l : list A) k :
  (forall i x, (i <= k)%nat -> l !! i = Some x -> ~ P x) ->
  (length (filter P l) <= length l - 1 - k)%nat.
Proof.
  intros H. rewrite <-(take_drop (S k) l) at 1. rewrite filter_app, (filter_none P (take (S k) l)); simpl.
  - etrans; [apply length_filter|]. rewrite length_drop. lia.
  - intros i x Hx. destruct (decide (i < S k)%nat) as [Hi|Hi].
    + rewrite lookup_take_lt in Hx by done. apply (H i); [lia|done].
    + rewrite lookup_take_ge in Hx by lia. done.
Qed.

Lemma swo_pullback {A K} (lt : K -> K -> bool) (f : A -> K) l :
  strict_weak_order lt (f <$> l) -> strict_weak_order (fun x y => lt (f x) (f y)) l.
Proof.
  intros H. split.
  - intros x y Hx Hy. eapply swo_asym; [exact H|by apply list_elem_of_fmap_2..].
  - intros x y z Hx Hy Hz. eapply swo_trans; [exact H|by apply list_elem_of_fmap_2..].
Qed.

Lemma is_median_permutes {K} (lt : K -> K -> bool) m ks ks' :
  Permutation ks ks' -> is_median lt m ks -> is_median lt m ks'.
Proof.
  intros Hp [Hin Hb Ha]. split.
  - by rewrite <-Hp.
  - by rewrite <-Hp.
  - by rewrite <-Hp.
Qed.

Lemma median_field_spec {K} (lt : K -> K -> bool) (field : price_feed -> K) fs :
  fs <> [] -> strict_weak_order lt (field <$> fs) ->
  exists m fs', median_field lt field fs = Ok (m, fs') /\ Permutation fs' fs /\ is_median lt m (field <$> fs).
Proof.
  intros Hne Hswo. unfold median_field. set (k := Nat.div2 (length fs)).
  set (lt' := fun x y => lt (field x) (field y)). set (fs' := nth_element lt' k fs).
  assert (Hp : Permutation fs' fs) by apply nth_element_permutes.
  assert (Hk : (k < length fs')%nat).
  { rewrite Hp. subst k. apply Nat.lt_div2. destruct fs; simpl; [done|lia]. }
  destruct (lookup_lt_is_Some_2 _ _ Hk) as [m Hm]. rewrite Hm. cbn [mbind result_bind of_option].
  exists (field m), fs'. split_and!; [done..|].
  apply (is_median_permutes _ _ (field <$> fs')); [by rewrite Hp|].
  assert (Hs : strict_weak_order lt' fs) by exact (swo_pullback lt field fs Hswo).
  assert (Hin : m ∈ fs) by by rewrite <-Hp; eapply list_elem_of_lookup_2.
  assert (Hirr : lt' m m = false).
  { destruct (lt' m m) eqn:E; [|done]. by rewrite (swo_asym _ _ Hs m m Hin Hin E) in E. }
  assert (Hlen : length (field <$> fs') = length fs) by by rewrite length_fmap, Hp.
  split.
  - by eapply list_elem_of_fmap_2, list_elem_of_lookup_2.
  - rewrite Hlen. fold k. apply filter_before. intros i y Hi. rewrite list_lookup_fmap_Some.
    intros (x & -> & Hx) Hlt%Is_true_true. change (lt' x m = true) in Hlt.
    destruct (decide (i = k)) as [->|]; [simplify_eq; congruence|].
    rewrite (nth_element_after _ lt' k fs i x m) in Hlt; [done|done|done|lia|done].
  - rewrite Hlen. fold k. rewrite <-Hlen. apply filter_after. intros i y Hi. rewrite list_lookup_fmap_Some.
    intros (x & -> & Hx) Hlt%Is_true_true. change (lt' m x = true) in Hlt.
    destruct (decide (i = k)) as [->|]; [simplify_eq; congruence|].
    rewrite (nth_element_before _ lt' k fs i x m) in Hlt; [done|done|done|lia|done].
Qed.

Lemma price_swo (ps : list price) : (forall p, p ∈ ps -> pos_price p) -> strict_weak_order price_ltb ps.
Proof.
  intros H. split.
  - intros x y _ _. apply price_ltb_asym.
  - intros x y z Hx Hy Hz Hxy Hyz. apply (price_not_lt_trans z y x); auto.
Qed.

Lemma Z_swo (zs : list Z) : strict_weak_order Z.ltb zs.
Proof. split; intros *; rewrite ?Z.ltb_lt, ?Z.ltb_ge; lia. Qed.

(** The feed has the median of [fs] in every field. *)
Record median_of (m : price_feed) (fs : list price_feed) : Prop := {
  median_settlement : is_median price_ltb (settlement_price m) (settlement_price <$> fs);
  median_mcr : is_median Z.ltb (maintenance_collateral_ratio m) (maintenance_collateral_ratio <$> fs);
  median_mssr : is_median Z.ltb (maximum_short_squeeze_ratio m) (maximum_short_squeeze_ratio <$> fs);
  median_cer : is_median price_ltb (core_exchange_rate m) (core_exchange_rate <$> fs);
}.

Definition pos_feed (f : price_feed) : Prop :=
  pos_price (settlement_price f) /\ pos_price (core_exchange_rate f).

Lemma median_feed_spec fs :
  fs <> [] -> (forall f, f ∈ fs -> pos_feed f) -> exists m, median_feed fs = Ok m /\ median_of m fs.
Proof.
  intros Hne Hpos. unfold median_feed.
  assert (Hs : forall fs', Permutation fs' fs -> strict_weak_order price_ltb (settlement_price <$> fs')).
  { intros fs' Hp. apply price_swo. intros p (f & -> & Hf)%list_elem_of_fmap. rewrite Hp in Hf. by apply Hpos. }
  assert (Hc : forall fs', Permutation fs' fs -> strict_weak_order price_ltb (core_exchange_rate <$> fs')).
  { intros fs' Hp. apply price_swo. intros p (f & -> & Hf)%list_elem_of_fmap. rewrite Hp in Hf. by apply Hpos. }
  assert (Hn : forall fs', Permutation fs' fs -> fs' <> []).
  { intros fs' Hp ->. apply Permutation_nil_l in Hp. congruence. }
  destruct (median_field_spec price_ltb settlement_price fs) as (m1 & f1 & E1 & P1 & M1); [auto..|].
  rewrite E1. cbn [mbind result_bind].
  destruct (median_field_spec Z.ltb maintenance_collateral_ratio f1) as (m2 & f2 & E2 & P2 & M2);
    [by apply Hn|apply Z_swo|]. rewrite E2. cbn [mbind result_bind].
  assert (P2' : Permutation f2 fs) by by rewrite P2.
  destruct (median_field_spec Z.ltb maximum_short_squeeze_ratio f2) as (m3 & f3 & E3 & P3 & M3);
    [by apply Hn|apply Z_swo|]. rewrite E3. cbn [mbind result_bind].
  assert (P3' : Permutation f3 fs) by by rewrite P3.
  destruct (median_field_spec price_ltb core_exchange_rate f3) as (m4 & f4 & E4 & P4 & M4);
    [by apply Hn|by apply Hc|]. rewrite E4. cbn [mbind result_bind].
  eexists. split; [done|]. split; simpl; [done|..].
  - eapply is_median_permutes; [|exact M2]. by apply fmap_Permutation.
  - eapply is_median_permutes; [|exact M3]. by apply fmap_Permutation.
  - eapply is_median_permutes; [|exact M4]. by apply fmap_Permutation.
Qed.

Lemma is_median_single {K} (lt : K -> K -> bool) m : lt m m = false -> is_median lt m [m].
Proof.
  intros H. split; [by apply list_elem_of_here| |]; rewrite filter_cons, filter_nil, decide_False by (rewrite H; by intros []);
    simpl; lia.
Qed.

Lemma median_of_single f : median_of f [f].
Proof.
  assert (Hp : forall p, price_ltb p p = false).
  { intros p. destruct (price_ltb p p) eqn:E; [|done]. pose proof (price_ltb_asym _ _ E). congruence. }
  split; simpl; apply is_median_single; auto using Z.ltb_irrefl.
Qed.

Lemma current_feeds_elem b now t f :
  (t, f) ∈ current_feeds b now <->
  (exists i, feeds b !! i = Some (t, f)) /\ now - t < feed_lifetime_sec (bit_options b) /\ t <> 0.
Proof.
  unfold current_feeds, feeds_in_order. rewrite list_elem_of_filter, Is_true_true.
  unfold feed_is_current. rewrite andb_true_iff, Z.ltb_lt, negb_true_iff, Z.eqb_neq. simpl.
  rewrite list_elem_of_omap. split.
  - intros [? (i & _ & Hi)]. naive_solver.
  - intros [[i Hi] ?]. split; [done|]. exists i. split; [|done]. rewrite merge_sort_Permutation.
    apply list_elem_of_fmap. exists (i, (t, f)). split; [done|]. by apply elem_of_map_to_list.
Qed.

Lemma foldr_min_le now ts t : t ∈ ts -> foldr Z.min now ts <= t.
Proof. induction 1; simpl; lia. Qed.
Lemma foldr_min_elem now ts : ts <> [] -> (forall t, t ∈ ts -> t <= now) -> foldr Z.min now ts ∈ ts.
Proof.
  induction ts as [|t ts IH]; [done|]. intros _ Hn. simpl. rewrite elem_of_cons.
  destruct (Z.min_spec t (foldr Z.min now ts)) as [[_ ->]|[Hle ->]]; [by left|].
  destruct ts as [|t' ts]; [|right; apply IH; [done|intros x Hx; apply Hn; by right]].
  left. simpl in *. specialize (Hn t ltac:(by left)). lia.
Qed.
End Facts.

(** ** Properties *)

(** The feed of a market-issued asset becomes, in every field, the median of
    the current feeds, those that were published and have not expired (at most half of
    them are below it and less than half above), if the prices of these are positive,
    and it is as old as the oldest of them; with fewer feeds than required there is no
    feed.  Nothing else of the asset changes. *)
Theorem update_median_feeds_spec `{FC : FcLib, !FcLaws FC, NE : NthElement, !NthElementLaws NE}
    (b : asset_bitasset_data_object) (now : Z) :
  let fs := current_feeds b now in
  0 < minimum_feeds (bit_options b) ->
  (forall t f, (t, f) ∈ fs -> pos_feed f /\ t <= now) ->
  (forall t f, (t, f) ∈ fs <->
     (exists i, feeds b !! i = Some (t, f)) /\ now - t < feed_lifetime_sec (bit_options b) /\ t <> 0) /\
  exists b', update_median_feeds b now = Ok b' /\
    b' = b <| current_feed_publication_time := current_feed_publication_time b' |>
           <| current_feed := current_feed b' |> /\
    if Z.of_nat (length fs) <? minimum_feeds (bit_options b) then
      current_feed b' = no_feed /\ current_feed_publication_time b' = now
    else
      median_of (current_feed b') fs.*2 /\
      (current_feed_publication_time b' ∈ fs.*1) /\
      forall t, t ∈ fs.*1 -> current_feed_publication_time b' <= t.
Proof.
  intros fs Hmin Hpos. split; [apply current_feeds_elem|]. unfold update_median_feeds. cbv zeta. fold fs.
  destruct (Z.ltb_spec (Z.of_nat (length fs)) (minimum_feeds (bit_options b))); [eexists; split; [done|by split_and!]|].
  assert (Hfs : forall f, f ∈ fs.*2 -> pos_feed f).
  { intros f ([t f'] & -> & Hf)%list_elem_of_fmap. by eapply Hpos. }
  assert (exists m, match fs with [f] => Ok f.2 | _ => median_feed fs.*2 end = Ok m /\ median_of m fs.*2)
    as (m & -> & Hm).
  { destruct fs as [|f1 [|f2 fs1]] eqn:Efs; [simpl in *; lia|exists f1.2; split; [done|apply median_of_single]|].
    by apply median_feed_spec. }
  cbn [mbind result_bind]. eexists. split; [done|]. split; [done|].
  split; [exact Hm|]. split; [|intros t Ht; by apply foldr_min_le].
  apply foldr_min_elem; [by destruct fs; [simpl in *; lia|]|].
  intros t ([t' f] & -> & Ht)%list_elem_of_fmap. by eapply Hpos.
Qed.

(** ** Witnesses *)

Definition ex_fed : asset_bitasset_data_object :=
  let feed x := Price_feed (Price (Asset x 2) (Asset 5 CORE_ASSET)) (Price (Asset x 2) (Asset 5 CORE_ASSET)) (1700 + x) 1100 in
  ex_bitasset <| feeds := map_of [(10%N, (1000, feed 30)); (11%N, (2000, feed 10)); (12%N, (1500, feed 20));
    (13%N, (0, no_feed))] |>.

Lemma update_median_feeds_spec_witness :
  exists b', update_median_feeds (FC := fc_ref) (NE := sorting_nth_element) ex_fed 3000 = Ok b' /\
    median_of (FC := fc_ref) (current_feed b') (current_feeds ex_fed 3000).*2 /\
    maintenance_collateral_ratio (current_feed b') = 1720.
Proof.
  destruct (@update_median_feeds_spec fc_ref fc_ref_laws sorting_nth_element _ ex_fed 3000)
    as [_ (b' & E & _ & H)].
  - by vm_compute.
  - intros t f Hf. assert (Hc : bool_decide (Forall (fun x => (0 < amount (base (settlement_price x.2)) <= INT64_MAX
      /\ 0 < amount (quote (settlement_price x.2)) <= INT64_MAX
      /\ 0 < amount (base (core_exchange_rate x.2)) <= INT64_MAX
      /\ 0 < amount (quote (core_exchange_rate x.2)) <= INT64_MAX) /\ x.1 <= 3000) (current_feeds ex_fed 3000)) = true)
      by by vm_compute.
    apply bool_decide_eq_true in Hc. destruct (proj1 (Forall_forall _ _) Hc (t, f) Hf) as ((? & ? & ? & ?) & ?).
    split; [by split; split|done].
  - exists b'. split; [exact E|].
    assert (L : (Z.of_nat (length (current_feeds ex_fed 3000)) <? minimum_feeds (bit_options ex_fed)) = false)
      by by vm_compute.
    rewrite L in H. split; [apply H|]. vm_compute in E. injection E as <-. by vm_compute.
Defined.
