(* ===== verification/AssetOps.v ===== *)
(** * The asset operations

    Models [libraries/chain/asset_evaluator.cpp] and [protocol/asset_ops.cpp]:
    creating and updating assets, issuing and destroying user-issued assets,
    funding fee pools and claiming fees, publishing price feeds, and forced and
    global settlement.  Each operation is an instance of [Evaluator]. *)

From Stdlib Require Import Ascii.
From S2P Require Import Prelude FcLib Asset Vesting Objects Database Ledger Market Trading Deflation Evaluator Feeds.

Definition GRAPHENE_MIN_ASSET_SYMBOL_LENGTH : nat := 3.
Definition GRAPHENE_MAX_ASSET_SYMBOL_LENGTH : nat := 16.

Definition ASSET_ISSUER_PERMISSION_MASK : Z :=
  Z.lor charge_market_fee (Z.lor white_list (Z.lor override_authority (Z.lor transfer_restricted
    (Z.lor disable_force_settle (Z.lor global_settle (Z.lor disable_confidential
      (Z.lor witness_fed_asset committee_fed_asset))))))).

(** ** Operations *)

Record asset_create_operation := Asset_create_operation {
  ac_fee : asset;
  ac_issuer : N;
  ac_symbol : string;
  ac_precision : Z;
  common_options : asset_options;
  bitasset_opts : option bitasset_options;
  ac_is_prediction_market : bool;
}.

Record asset_global_settle_operation := Asset_global_settle_operation {
  gs_fee : asset;
  gs_issuer : N;
  asset_to_settle : N;
  settle_price : price;
}.

Record asset_settle_operation := Asset_settle_operation {
  as_fee : asset;
  as_account : N;
  as_amount : asset;
}.

Record asset_fund_fee_pool_operation := Asset_fund_fee_pool_operation {
  ff_fee : asset;
  from_account : N;
  ff_asset_id : N;
  ff_amount : Z;
}.

Record asset_update_operation := Asset_update_operation {
  au_fee : asset;
  au_issuer : N;
  asset_to_update : N;
  new_issuer : option N;
  new_options : asset_options;
}.

Record asset_update_bitasset_operation := Asset_update_bitasset_operation {
  ub_fee : asset;
  ub_issuer : N;
  ub_asset_to_update : N;
  ub_new_options : bitasset_options;
}.

Record asset_update_feed_producers_operation := Asset_update_feed_producers_operation {
  fp_fee : asset;
  fp_issuer : N;
  fp_asset_to_update : N;
  new_feed_producers : gset N;
}.

Record asset_publish_feed_operation := Asset_publish_feed_operation {
  pf_fee : asset;
  publisher : N;
  pf_asset_id : N;
  feed : price_feed;
}.

Record asset_issue_operation := Asset_issue_operation {
  ai_fee : asset;
  ai_issuer : N;
  asset_to_issue : asset;
  issue_to_account : N;
}.

Record asset_reserve_operation := Asset_reserve_operation {
  ar_fee : asset;
  payer : N;
  amount_to_reserve : asset;
}.

Record asset_claim_fees_operation := Asset_claim_fees_operation {
  cf_fee : asset;
  cf_issuer : N;
  amount_to_claim : asset;
}.

(** ** Symbols *)

Definition isupper (c : ascii) : bool := bool_decide (65 <= N_of_ascii c <= 90)%N.
Definition isalpha (c : ascii) : bool := isupper c || bool_decide (97 <= N_of_ascii c <= 122)%N.
Definition isdigit (c : ascii) : bool := bool_decide (48 <= N_of_ascii c <= 57)%N.

(** The loop over the characters, with [dot_already_present]. *)
Fixpoint symbol_chars (dot_already_present : bool) (s : list ascii) : bool :=
  match s with
  | [] => true
  | c :: s =>
      if (isalpha c && isupper c) || isdigit c then symbol_chars dot_already_present s
      else if bool_decide (c = "."%char) then negb dot_already_present && symbol_chars true s
      else false
  end.

Definition is_valid_symbol (symbol : string) : bool :=
  let s := String.list_ascii_of_string symbol in
  if (length s <? GRAPHENE_MIN_ASSET_SYMBOL_LENGTH)%nat then false
  else if bool_decide (take 3 s = ["B"; "I"; "T"]%char) then false
  else if (GRAPHENE_MAX_ASSET_SYMBOL_LENGTH <? length s)%nat then false
  else
    match head s, last s with
    | Some front, Some back =>
        if negb (isalpha front) then false
        else if negb (isalpha back) then false
        else symbol_chars false s
    | _, _ => false
    end.

(** [symbol.find( '.' )] and [symbol.rfind( '.' )]: the prefix before the dot. *)
Fixpoint before_dot (s : list ascii) : option (list ascii) :=
  match s with
  | [] => None
  | c :: s => if bool_decide (c = "."%char) then Some [] else cons c <$> before_dot s
  end.

Fixpoint before_last_dot (s : list ascii) : option (list ascii) :=
  match s with
  | [] => None
  | c :: s =>
      match before_last_dot s with
      | Some p => Some (c :: p)
      | None => if bool_decide (c = "."%char) then Some [] else None
      end
  end.

Section AssetOps.
Context `{FC : FcLib, NE : NthElement}.
Implicit Types (db : database) (st : fee_state) (i : N).

(** ** Validation *)

Definition asset_options_validate (o : asset_options) : result unit :=
  _ ← FC_ASSERT (0 <? max_supply o) "max_supply > 0";
  _ ← FC_ASSERT (max_supply o <=? GRAPHENE_MAX_SHARE_SUPPLY) "max_supply <= GRAPHENE_MAX_SHARE_SUPPLY";
  _ ← FC_ASSERT (market_fee_percent o <=? GRAPHENE_100_PERCENT) "market_fee_percent <= GRAPHENE_100_PERCENT";
  _ ← FC_ASSERT ((0 <=? max_market_fee o) && (max_market_fee o <=? GRAPHENE_MAX_SHARE_SUPPLY))
        "max_market_fee >= 0 && max_market_fee <= GRAPHENE_MAX_SHARE_SUPPLY";
  _ ← FC_ASSERT (Z.land (issuer_permissions o) (Z.lnot ASSET_ISSUER_PERMISSION_MASK) =? 0)
        "!(issuer_permissions & ~ASSET_ISSUER_PERMISSION_MASK)";
  _ ← FC_ASSERT (negb (has_flag (flags o) global_settle)) "!(flags & global_settle)";
  _ ← FC_ASSERT (negb (Z.land (flags o) (Z.lor witness_fed_asset committee_fed_asset)
                       =? Z.lor witness_fed_asset committee_fed_asset))
        "(flags & (witness_fed_asset | committee_fed_asset)) != (witness_fed_asset | committee_fed_asset)";
  _ ← price_validate (opt_core_exchange_rate o);
  _ ← FC_ASSERT ((asset_id (base (opt_core_exchange_rate o)) =? 0)%N
                 || (asset_id (quote (opt_core_exchange_rate o)) =? 0)%N)
        "core_exchange_rate.base.asset_id == 0 || core_exchange_rate.quote.asset_id == 0";
  _ ← (if negb (bool_decide (whitelist_authorities o = ∅)) || negb (bool_decide (blacklist_authorities o = ∅))
       then FC_ASSERT (has_flag (flags o) white_list) "flags & white_list" else Ok tt);
  FC_ASSERT (bool_decide (whitelist_markets o ∩ blacklist_markets o = ∅))
    "blacklist_markets.find(item) == blacklist_markets.end()".

Definition bitasset_options_validate (o : bitasset_options) : result unit :=
  _ ← FC_ASSERT (0 <? minimum_feeds o) "minimum_feeds > 0";
  _ ← FC_ASSERT (force_settlement_offset_percent o <=? GRAPHENE_100_PERCENT)
        "force_settlement_offset_percent <= GRAPHENE_100_PERCENT";
  FC_ASSERT (maximum_force_settlement_volume o <=? GRAPHENE_100_PERCENT)
    "maximum_force_settlement_volume <= GRAPHENE_100_PERCENT".

(** [asset_object::validate] *)
Definition asset_object_validate (a : asset_object) : result unit :=
  if is_market_issued a then Ok tt
  else
    _ ← FC_ASSERT (negb (has_flag (flags (options a)) disable_force_settle
                         || has_flag (flags (options a)) global_settle))
          "!(options.flags & disable_force_settle || options.flags & global_settle)";
    FC_ASSERT (negb (has_flag (issuer_permissions (options a)) disable_force_settle
                     || has_flag (issuer_permissions (options a)) global_settle))
      "!(options.issuer_permissions & disable_force_settle || options.issuer_permissions & global_settle)".


Definition asset_create_validate (op : asset_create_operation) : result unit :=
  _ ← fee_nonneg (ac_fee op);
  _ ← FC_ASSERT (is_valid_symbol (ac_symbol op)) "is_valid_symbol(symbol)";
  _ ← asset_options_validate (common_options op);
  let mia := match bitasset_opts op with Some _ => true | None => false end in
  _ ← (if has_flag (issuer_permissions (common_options op)) (Z.lor disable_force_settle global_settle)
       then FC_ASSERT mia "bitasset_opts.valid()" else Ok tt);
  _ ← (if ac_is_prediction_market op then
         _ ← FC_ASSERT mia "Cannot have a User-Issued Asset implement a prediction market.";
         FC_ASSERT (has_flag (issuer_permissions (common_options op)) global_settle)
           "common_options.issuer_permissions & global_settle"
       else Ok tt);
  _ ← (match bitasset_opts op with Some o => bitasset_options_validate o | None => Ok tt end);
  dummy ← asset_mul_price (Asset 1 CORE_ASSET) (opt_core_exchange_rate (common_options op));
  _ ← FC_ASSERT (asset_id dummy =? 1)%N "dummy.asset_id == asset_id_type(1)";
  FC_ASSERT (ac_precision op <=? 12) "precision <= 12".

Definition asset_update_validate (op : asset_update_operation) : result unit :=
  _ ← fee_nonneg (au_fee op);
  _ ← (match new_issuer op with
       | Some n => FC_ASSERT (negb (au_issuer op =? n)%N) "issuer != *new_issuer"
       | None => Ok tt
       end);
  _ ← asset_options_validate (new_options op);
  dummy ← asset_mul_price (Asset 1 (asset_to_update op)) (opt_core_exchange_rate (new_options op));
  FC_ASSERT (asset_id dummy =? CORE_ASSET)%N "dummy.asset_id == asset_id_type()".

Definition asset_publish_feed_validate (op : asset_publish_feed_operation) : result unit :=
  let f := feed op in
  _ ← fee_nonneg (pf_fee op);
  _ ← price_feed_validate f;
  _ ← (if negb (is_null (core_exchange_rate f)) then price_validate (core_exchange_rate f) else Ok tt);
  _ ← (if negb (is_null (settlement_price f)) && negb (is_null (core_exchange_rate f)) then
         FC_ASSERT (asset_id (base (settlement_price f)) =? asset_id (base (core_exchange_rate f)))%N
           "feed.settlement_price.base.asset_id == feed.core_exchange_rate.base.asset_id"
       else Ok tt);
  _ ← FC_ASSERT (negb (is_null (settlement_price f))) "!feed.settlement_price.is_null()";
  _ ← FC_ASSERT (negb (is_null (core_exchange_rate f))) "!feed.core_exchange_rate.is_null()";
  FC_ASSERT (is_for f (pf_asset_id op)) "feed.is_for( asset_id )".

Definition asset_reserve_validate (op : asset_reserve_operation) : result unit :=
  _ ← fee_nonneg (ar_fee op);
  _ ← FC_ASSERT (amount (amount_to_reserve op) <=? GRAPHENE_MAX_SHARE_SUPPLY)
        "amount_to_reserve.amount.value <= GRAPHENE_MAX_SHARE_SUPPLY";
  FC_ASSERT (0 <? amount (amount_to_reserve op)) "amount_to_reserve.amount.value > 0".

Definition asset_issue_validate (op : asset_issue_operation) : result unit :=
  _ ← fee_nonneg (ai_fee op);
  _ ← FC_ASSERT (amount (asset_to_issue op) <=? GRAPHENE_MAX_SHARE_SUPPLY)
        "asset_to_issue.amount.value <= GRAPHENE_MAX_SHARE_SUPPLY";
  _ ← FC_ASSERT (0 <? amount (asset_to_issue op)) "asset_to_issue.amount.value > 0";
  FC_ASSERT (negb (asset_id (asset_to_issue op) =? 0)%N) "asset_to_issue.asset_id != asset_id_type(0)".

Definition asset_fund_fee_pool_validate (op : asset_fund_fee_pool_operation) : result unit :=
  _ ← fee_nonneg (ff_fee op);
  _ ← FC_ASSERT (asset_id (ff_fee op) =? CORE_ASSET)%N "fee.asset_id == asset_id_type()";
  FC_ASSERT (0 <? ff_amount op) "amount > 0".

Definition asset_settle_validate (op : asset_settle_operation) : result unit :=
  _ ← fee_nonneg (as_fee op);
  FC_ASSERT (0 <=? amount (as_amount op)) "amount.amount >= 0".

Definition asset_update_bitasset_validate (op : asset_update_bitasset_operation) : result unit :=
  _ ← fee_nonneg (ub_fee op);
  bitasset_options_validate (ub_new_options op).

Definition asset_update_feed_producers_validate (op : asset_update_feed_producers_operation) : result unit :=
  fee_nonneg (fp_fee op).

Definition asset_global_settle_validate (op : asset_global_settle_operation) : result unit :=
  _ ← fee_nonneg (gs_fee op);
  FC_ASSERT (asset_to_settle op =? asset_id (base (settle_price op)))%N
    "asset_to_settle == settle_price.base.asset_id".

Definition asset_claim_fees_validate (op : asset_claim_fees_operation) : result unit :=
  _ ← fee_nonneg (cf_fee op);
  FC_ASSERT (0 <? amount (amount_to_claim op)) "amount_to_claim.amount > 0".

(** ** Checks the evaluators share *)

(** The listed accounts exist. *)
Definition get_accounts db (s : gset N) : result unit :=
  foldM (fun _ i => _ ← tbl_get (accounts db) i; Ok tt) tt (elements s).

(** The by_symbol index. *)
Definition asset_by_symbol db (s : string) : option (N * asset_object) :=
  head (filter (fun x => symbol x.2 = s) (map_to_list (objs (assets db)))).

(** The asset at the end of a chain of backings must be the core asset, if the
    committee account issues the asset. *)
Definition check_backing db (backing_id : N) (backing : asset_object) (committee deep : bool) : result unit :=
  if is_market_issued backing then
    '(_, bit) ← bitasset_data db backing;
    let bb_id := short_backing_asset (bit_options bit) in
    backing_backing ← tbl_get (assets db) bb_id;
    _ ← FC_ASSERT (negb (deep && is_market_issued backing_backing))
          "May not create a bitasset backed by a bitasset backed by a bitasset.";
    FC_ASSERT (negb committee || (bb_id =? CORE_ASSET)%N)
      "May not create a blockchain-controlled market asset which is not backed by CORE."
  else
    FC_ASSERT (negb committee || (backing_id =? CORE_ASSET)%N)
      "May not create a blockchain-controlled market asset which is not backed by CORE.".

(** ** Creating an asset *)

(** A symbol with a dot belongs to the issuer of its prefix. *)
Definition check_prefix db (op : asset_create_operation) : result unit :=
  let s := String.list_ascii_of_string (ac_symbol op) in
  let issued_by parent :=
    match asset_by_symbol db parent with
    | Some (_, a) => FC_ASSERT (issuer a =? ac_issuer op)%N "Asset may only be created by the issuer of its prefix"
    | None => Err (assert_exception "the prefix has not been registered")
    end in
  if HARDFORK_385_TIME <? head_block_time db then
    if head_block_time db <=? HARDFORK_409_TIME then
      match before_dot s with Some _ => issued_by (ac_symbol op) | None => Ok tt end
    else
      match before_last_dot s with
      | Some parent => issued_by (String.string_of_list_ascii parent)
      | None => Ok tt
      end
  else Ok tt.

Definition asset_create_do_evaluate db st (op : asset_create_operation) : result fee_state :=
  let o := common_options op in
  let max := maximum_asset_whitelist_authorities (parameters db) in
  _ ← FC_ASSERT (Z.of_nat (size (whitelist_authorities o)) <=? max) "whitelist_authorities.size()";
  _ ← FC_ASSERT (Z.of_nat (size (blacklist_authorities o)) <=? max) "blacklist_authorities.size()";
  _ ← get_accounts db (whitelist_authorities o);
  _ ← get_accounts db (blacklist_authorities o);
  _ ← FC_ASSERT (match asset_by_symbol db (ac_symbol op) with Some _ => false | None => true end)
        "asset_symbol_itr == asset_indx.end()";
  _ ← check_prefix db op;
  c ← safe_sub fc_safe (core_fee_paid st) (Z.quot (core_fee_paid st) 2);
  _ ← (match bitasset_opts op with
       | Some o =>
           backing ← tbl_get (assets db) (short_backing_asset o);
           _ ← check_backing db (short_backing_asset o) backing (ac_issuer op =? GRAPHENE_COMMITTEE_ACCOUNT)%N true;
           FC_ASSERT ((block_interval (parameters db) <? feed_lifetime_sec o)
                      && (block_interval (parameters db) <? force_settlement_delay_sec o))
             "op.bitasset_opts->feed_lifetime_sec > chain_parameters.block_interval"
       | None => Ok tt
       end);
  _ ← (if ac_is_prediction_market op then
         match bitasset_opts op with
         | Some o =>
             backing ← tbl_get (assets db) (short_backing_asset o);
             FC_ASSERT (ac_precision op =? precision backing)
               "op.precision == op.bitasset_opts->short_backing_asset(d).precision"
         | None => Err (assert_exception "op.bitasset_opts")
         end
       else Ok tt);
  Ok (st <| core_fee_paid := c |>).

(** The core exchange rate names the new asset. *)
Definition own_exchange_rate (p : price) (id : N) : price :=
  if (asset_id (base p) =? 0)%N then Price (base p) (Asset (amount (quote p)) id)
  else Price (Asset (amount (base p)) id) (quote p).

Definition new_bitasset (op : asset_create_operation) (o : bitasset_options) : asset_bitasset_data_object :=
  Asset_bitasset_data_object o ∅ no_feed 0 (ac_is_prediction_market op) 0 null_price 0.

Definition new_asset (op : asset_create_operation) (id dyn : N) (bit : option N) : asset_object :=
  Asset_object (ac_symbol op) (ac_precision op) (ac_issuer op)
    ((common_options op) <| opt_core_exchange_rate ::= fun p => own_exchange_rate p id |>) dyn bit None.

Definition asset_create_do_apply db st (op : asset_create_operation) : result database :=
  let dyn := tbl_create (dynamic_data db) (Asset_dynamic_data_object 0 0 (core_fee_paid st)) in
  let db := db <| dynamic_data := dyn.2 |> in
  let '(bit, db) :=
    match bitasset_opts op with
    | Some o => let new := tbl_create (bitassets db) (new_bitasset op o) in
                (Some new.1, db <| bitassets := new.2 |>)
    | None => (None, db)
    end in
  let a := new_asset op (next_instance (assets db)) dyn.1 bit in
  Ok (db <| assets := (tbl_create (assets db) a).2 |>).

(** ** Updating an asset *)

Definition asset_update_do_evaluate db st (op : asset_update_operation) : result fee_state :=
  a ← tbl_get (assets db) (asset_to_update op);
  let o := new_options op in
  _ ← asset_object_validate (a <| options := o |>);
  _ ← (match new_issuer op with
       | Some n =>
           _ ← FC_ASSERT (match objs (accounts db) !! n with Some _ => true | None => false end)
                 "d.find_object(*o.new_issuer)";
           if is_market_issued a && (n =? GRAPHENE_COMMITTEE_ACCOUNT)%N then
             '(_, bit) ← bitasset_data db a;
             backing ← tbl_get (assets db) (short_backing_asset (bit_options bit));
             check_backing db (short_backing_asset (bit_options bit)) backing true false
           else Ok tt
       | None => Ok tt
       end);
  _ ← (if HARDFORK_572_TIME <=? head_block_time db then
         dyn ← get_dynamic db a; Ok (negb (current_supply dyn =? 0))
       else Ok true) ≫=
      (fun restricted : bool =>
         FC_ASSERT (negb restricted
                    || (Z.land (issuer_permissions o) (Z.lnot (issuer_permissions (options a))) =? 0))
           "Cannot reinstate previously revoked issuer permissions on an asset.");
  _ ← FC_ASSERT (Z.land (Z.lxor (flags o) (flags (options a))) (Z.lnot (issuer_permissions (options a))) =? 0)
        "Flag change is forbidden by issuer permissions";
  _ ← FC_ASSERT (au_issuer op =? issuer a)%N "o.issuer == a.issuer";
  let max := maximum_asset_whitelist_authorities (parameters db) in
  _ ← FC_ASSERT (Z.of_nat (size (whitelist_authorities o)) <=? max) "whitelist_authorities.size()";
  _ ← get_accounts db (whitelist_authorities o);
  _ ← FC_ASSERT (Z.of_nat (size (blacklist_authorities o)) <=? max) "blacklist_authorities.size()";
  _ ← get_accounts db (blacklist_authorities o);
  Ok st.

(** The first force settlement of the asset in the by_expiration index. *)
Definition settlement_before (x y : N * force_settlement_object) : Prop :=
  settlement_date x.2 < settlement_date y.2 \/ settlement_date x.2 = settlement_date y.2 /\ (x.1 <= y.1)%N.
#[export] Instance settlement_before_dec x y : Decision (settlement_before x y).
Proof. unfold settlement_before. apply _. Defined.

Definition settlements_of db (a : N) : list (N * force_settlement_object) :=
  merge_sort settlement_before
    (filter (fun x => asset_id (settle_balance x.2) = a) (map_to_list (objs (settlements db)))).

(** [for( itr = idx.lower_bound( a ); ...; itr = idx.lower_bound( a ) ) d.cancel_order( *itr )] *)
Definition cancel_settlements db (a : N) : result database :=
  while (fun db => match settlements_of db a with [] => false | _ => true end)
    (fun db => match settlements_of db a with
               | (i, _) :: _ => cancel_settlement db i true
               | [] => Ok db
               end)
    (S (size (objs (settlements db)))) db.

Definition asset_update_do_apply db (op : asset_update_operation) : result database :=
  a ← tbl_get (assets db) (asset_to_update op);
  db ← (if has_flag (flags (new_options op)) disable_force_settle && can_force_settle a
        then cancel_settlements db (asset_to_update op) else Ok db);
  Ok (db <| assets ::= fun t => tbl_modify t (asset_to_update op) (fun a =>
        (match new_issuer op with Some n => a <| issuer := n |> | None => a end)
          <| options := new_options op |>) |>).

(** The new backing asset must exist; the old one is looked at for the committee. *)
Definition asset_update_bitasset_do_evaluate db st (op : asset_update_bitasset_operation) : result fee_state :=
  a ← tbl_get (assets db) (ub_asset_to_update op);
  _ ← FC_ASSERT (is_market_issued a) "Cannot update BitAsset-specific settings on a non-BitAsset.";
  '(_, b) ← bitasset_data db a;
  _ ← FC_ASSERT (negb (has_settlement b)) "Cannot update a bitasset after a settlement has executed";
  let old := short_backing_asset (bit_options b) in
  let new := short_backing_asset (ub_new_options op) in
  _ ← (if negb (new =? old)%N then
         dyn ← get_dynamic db a;
         _ ← FC_ASSERT (current_supply dyn =? 0) "a.dynamic_asset_data_id(d).current_supply == 0";
         _ ← FC_ASSERT (match objs (assets db) !! new with Some _ => true | None => false end)
               "d.find_object(o.new_options.short_backing_asset)";
         if (issuer a =? GRAPHENE_COMMITTEE_ACCOUNT)%N then
           backing ← tbl_get (assets db) old;
           check_backing db old backing true false
         else Ok tt
       else Ok tt);
  _ ← FC_ASSERT (ub_issuer op =? issuer a)%N "o.issuer == a.issuer";
  Ok st.

Definition put_bitasset db (bi : N) (b : asset_bitasset_data_object) : database :=
  db <| bitassets ::= fun t => tbl_modify t bi (fun _ => b) |>.

Definition asset_update_bitasset_do_apply db (op : asset_update_bitasset_operation) : result database :=
  a ← tbl_get (assets db) (ub_asset_to_update op);
  '(bi, b) ← bitasset_data db a;
  let b' := b <| bit_options := ub_new_options op |> in
  b' ← (if negb (minimum_feeds (ub_new_options op) =? minimum_feeds (bit_options b))
        then update_median_feeds b' (head_block_time db) else Ok b');
  Ok (put_bitasset db bi b').

(** ** Price feeds *)

Definition asset_update_feed_producers_do_evaluate db st (op : asset_update_feed_producers_operation)
  : result fee_state :=
  _ ← FC_ASSERT (Z.of_nat (size (new_feed_producers op)) <=? maximum_asset_feed_publishers (parameters db))
        "o.new_feed_producers.size() <= maximum_asset_feed_publishers";
  _ ← get_accounts db (new_feed_producers op);
  a ← tbl_get (assets db) (fp_asset_to_update op);
  _ ← FC_ASSERT (is_market_issued a) "Cannot update feed producers on a non-BitAsset.";
  _ ← FC_ASSERT (negb (has_flag (flags (options a)) committee_fed_asset))
        "Cannot set feed producers on a committee-fed asset.";
  _ ← FC_ASSERT (negb (has_flag (flags (options a)) witness_fed_asset))
        "Cannot set feed producers on a witness-fed asset.";
  _ ← bitasset_data db a;
  _ ← FC_ASSERT (issuer a =? fp_issuer op)%N "a.issuer == o.issuer";
  Ok st.

(** Feeds of former producers go, new producers start with an empty feed. *)
Definition replace_producers (fs : gmap N (Z * price_feed)) (producers : gset N) : gmap N (Z * price_feed) :=
  filter (fun x => x.1 ∈ producers) fs ∪ set_to_map (fun i => (i, (0, no_feed))) producers.

Definition asset_update_feed_producers_do_apply db (op : asset_update_feed_producers_operation) : result database :=
  a ← tbl_get (assets db) (fp_asset_to_update op);
  '(bi, b) ← bitasset_data db a;
  b' ← update_median_feeds (b <| feeds ::= fun fs => replace_producers fs (new_feed_producers op) |>)
         (head_block_time db);
  '(_, db) ← check_call_orders (put_bitasset db bi b') (fp_asset_to_update op) true;
  Ok db.

(** Who may publish: the witnesses, the committee, or the appointed producers. *)
Definition may_publish db (a : asset_object) (b : asset_bitasset_data_object) (who : N) : result bool :=
  if has_flag (flags (options a)) witness_fed_asset then
    w ← tbl_get (accounts db) GRAPHENE_WITNESS_ACCOUNT; Ok (bool_decide (who ∈ active_account_auths w))
  else if has_flag (flags (options a)) committee_fed_asset then
    c ← tbl_get (accounts db) GRAPHENE_COMMITTEE_ACCOUNT; Ok (bool_decide (who ∈ active_account_auths c))
  else Ok (match feeds b !! who with Some _ => true | None => false end).

Definition asset_publish_feed_do_evaluate db st (op : asset_publish_feed_operation) : result fee_state :=
  let f := feed op in
  a ← tbl_get (assets db) (pf_asset_id op);
  _ ← FC_ASSERT (is_market_issued a) "base.is_market_issued()";
  '(_, b) ← bitasset_data db a;
  _ ← FC_ASSERT (negb (has_settlement b)) "No further feeds may be published after a settlement event";
  _ ← FC_ASSERT (asset_id (quote (settlement_price f)) =? short_backing_asset (bit_options b))%N
        "o.feed.settlement_price.quote.asset_id == bitasset.options.short_backing_asset";
  _ ← (if HARDFORK_480_TIME <? head_block_time db then
         if negb (is_null (core_exchange_rate f)) then
           FC_ASSERT (asset_id (quote (core_exchange_rate f)) =? CORE_ASSET)%N
             "o.feed.core_exchange_rate.quote.asset_id == asset_id_type()"
         else Ok tt
       else if negb (is_null (settlement_price f)) && negb (is_null (core_exchange_rate f)) then
         FC_ASSERT (asset_id (quote (settlement_price f)) =? asset_id (quote (core_exchange_rate f)))%N
           "o.feed.settlement_price.quote.asset_id == o.feed.core_exchange_rate.quote.asset_id"
       else Ok tt);
  may ← may_publish db a b (publisher op);
  _ ← FC_ASSERT may "bitasset.feeds.count(o.publisher)";
  Ok st.

Definition asset_publish_feed_do_apply db (op : asset_publish_feed_operation) : result database :=
  a ← tbl_get (assets db) (pf_asset_id op);
  '(bi, bad) ← bitasset_data db a;
  b' ← update_median_feeds
         (bad <| feeds ::= <[publisher op := (head_block_time db, feed op)]> |>) (head_block_time db);
  let db := put_bitasset db bi b' in
  if price_feed_eqb (current_feed bad) (current_feed b') then Ok db
  else '(_, db) ← check_call_orders db (pf_asset_id op) true; Ok db.

(** ** Issuing, destroying and funding *)

Definition asset_issue_do_evaluate db st (op : asset_issue_operation) : result fee_state :=
  a ← tbl_get (assets db) (asset_id (asset_to_issue op));
  _ ← FC_ASSERT (ai_issuer op =? issuer a)%N "o.issuer == a.issuer";
  _ ← FC_ASSERT (negb (is_market_issued a)) "Cannot manually issue a market-issued asset.";
  to_account ← tbl_get (accounts db) (issue_to_account op);
  _ ← FC_ASSERT (is_authorized_asset db to_account (asset_id (asset_to_issue op)) a)
        "is_authorized_asset( d, *to_account, a )";
  dyn ← get_dynamic db a;
  s ← safe_add fc_safe (current_supply dyn) (amount (asset_to_issue op));
  _ ← FC_ASSERT (s <=? max_supply (options a))
        "(asset_dyn_data->current_supply + o.asset_to_issue.amount) <= a.options.max_supply";
  Ok st.

(** The dynamic data of the asset changes by the function [f]. *)
Definition modify_dynamic db (id : N)
    (f : asset_dynamic_data_object -> result asset_dynamic_data_object) : result database :=
  a ← tbl_get (assets db) id;
  dyn ← get_dynamic db a;
  dyn' ← f dyn;
  Ok (put_dynamic db a dyn').

Definition add_supply (x : Z) (d : asset_dynamic_data_object) : result asset_dynamic_data_object :=
  s ← safe_add fc_safe (current_supply d) x; Ok (d <| current_supply := s |>).
Definition sub_supply (x : Z) (d : asset_dynamic_data_object) : result asset_dynamic_data_object :=
  s ← safe_sub fc_safe (current_supply d) x; Ok (d <| current_supply := s |>).

Definition asset_issue_do_apply db (op : asset_issue_operation) : result database :=
  db ← adjust_balance db (issue_to_account op) (asset_to_issue op);
  modify_dynamic db (asset_id (asset_to_issue op)) (add_supply (amount (asset_to_issue op))).

Definition asset_reserve_do_evaluate db st (op : asset_reserve_operation) : result fee_state :=
  a ← tbl_get (assets db) (asset_id (amount_to_reserve op));
  _ ← GRAPHENE_ASSERT (negb (is_market_issued a)) "asset_reserve_invalid_on_mia";
  from ← tbl_get (accounts db) (payer op);
  _ ← FC_ASSERT (is_authorized_asset db from (asset_id (amount_to_reserve op)) a)
        "is_authorized_asset( d, *from_account, a )";
  dyn ← get_dynamic db a;
  s ← safe_sub fc_safe (current_supply dyn) (amount (amount_to_reserve op));
  _ ← FC_ASSERT (0 <=? s) "(asset_dyn_data->current_supply - o.amount_to_reserve.amount) >= 0";
  Ok st.

Definition asset_reserve_do_apply db (op : asset_reserve_operation) : result database :=
  n ← asset_neg (amount_to_reserve op);
  db ← adjust_balance db (payer op) n;
  modify_dynamic db (asset_id (amount_to_reserve op)) (sub_supply (amount (amount_to_reserve op))).

Definition asset_fund_fee_pool_do_evaluate db st (op : asset_fund_fee_pool_operation) : result fee_state :=
  a ← tbl_get (assets db) (ff_asset_id op);
  _ ← get_dynamic db a;
  Ok st.

(** [o.amount] is a number; it becomes an amount of core. *)
Definition asset_fund_fee_pool_do_apply db (op : asset_fund_fee_pool_operation) : result database :=
  n ← safe_neg fc_safe (ff_amount op);
  db ← adjust_balance db (from_account op) (Asset n CORE_ASSET);
  modify_dynamic db (ff_asset_id op) (fun d =>
    p ← safe_add fc_safe (fee_pool d) (ff_amount op); Ok (d <| fee_pool := p |>)).

Definition asset_claim_fees_do_evaluate db st (op : asset_claim_fees_operation) : result fee_state :=
  _ ← FC_ASSERT (HARDFORK_413_TIME <? head_block_time db) "db().head_block_time() > HARDFORK_413_TIME";
  a ← tbl_get (assets db) (asset_id (amount_to_claim op));
  _ ← FC_ASSERT (issuer a =? cf_issuer op)%N "Asset fees may only be claimed by the issuer";
  Ok st.

Definition asset_claim_fees_do_apply db (op : asset_claim_fees_operation) : result database :=
  db ← modify_dynamic db (asset_id (amount_to_claim op)) (fun d =>
    _ ← FC_ASSERT (amount (amount_to_claim op) <=? accumulated_fees d)
          "Attempt to claim more fees than have accumulated";
    f ← safe_sub fc_safe (accumulated_fees d) (amount (amount_to_claim op));
    Ok (d <| accumulated_fees := f |>));
  adjust_balance db (cf_issuer op) (amount_to_claim op).

(** ** Settlement *)

(** [idx.lower_bound( p )] in the by_collateral index. *)
Definition calls_from db (p : price) : option (N * call_order_object) :=
  head (filter (fun x => Is_true (negb (price_ltb (Price (get_collateral x.2) (get_debt x.2)) p)))
          (calls_by_collateral db)).

Definition asset_global_settle_do_evaluate db st (op : asset_global_settle_operation) : result fee_state :=
  a ← tbl_get (assets db) (asset_to_settle op);
  _ ← FC_ASSERT (is_market_issued a) "asset_to_settle->is_market_issued()";
  _ ← FC_ASSERT (can_global_settle a) "asset_to_settle->can_global_settle()";
  _ ← FC_ASSERT (issuer a =? gs_issuer op)%N "asset_to_settle->issuer == op.issuer";
  dyn ← get_dynamic db a;
  _ ← FC_ASSERT (0 <? current_supply dyn) "asset_to_settle->dynamic_data(d).current_supply > 0";
  '(_, bit) ← bitasset_data db a;
  lowest ← price_min (short_backing_asset (bit_options bit)) (asset_to_settle op);
  '(_, short) ← of_option (calls_from db lowest) (c_assert "itr != idx.end()");
  _ ← C_ASSERT (debt_type short =? asset_to_settle op)%N "itr->debt_type() == op.asset_to_settle";
  due ← asset_mul_price (get_debt short) (settle_price op);
  le ← asset_leb due (get_collateral short);
  _ ← FC_ASSERT le
        "Cannot force settle at supplied price: least collateralized short lacks sufficient collateral to settle.";
  Ok st.

Definition asset_global_settle_do_apply db (op : asset_global_settle_operation) : result database :=
  globally_settle_asset db (asset_to_settle op) (settle_price op).

Definition asset_settle_do_evaluate db st (op : asset_settle_operation) : result fee_state :=
  a ← tbl_get (assets db) (asset_id (as_amount op));
  _ ← FC_ASSERT (is_market_issued a) "asset_to_settle->is_market_issued()";
  '(_, bit) ← bitasset_data db a;
  _ ← FC_ASSERT (can_force_settle a || has_settlement bit)
        "asset_to_settle->can_force_settle() || bitasset.has_settlement()";
  _ ← (if is_prediction_market bit then
         FC_ASSERT (has_settlement bit)
           "global settlement must occur before force settling a prediction market"
       else if is_null (settlement_price (current_feed bit)) then
         Err (graphene_exception "insufficient_feeds")
       else Ok tt);
  _ ← tbl_get (accounts db) (as_account op);
  ge ← asset_geb (get_balance db (as_account op) (asset_id (as_amount op))) (as_amount op);
  _ ← FC_ASSERT ge "d.get_balance(d.get(op.account), *asset_to_settle) >= op.amount";
  Ok st.

(** After a global settlement the fund pays at the settlement price. *)
Definition settle_from_fund db (bi : N) (bit : asset_bitasset_data_object) (op : asset_settle_operation)
  : result database :=
  settled ← asset_mul_price (as_amount op) (bit_settlement_price bit);
  _ ← FC_ASSERT (amount settled <=? settlement_fund bit) "settled_amount.amount <= bitasset.settlement_fund";
  f ← safe_sub fc_safe (settlement_fund bit) (amount settled);
  let db := put_bitasset db bi (bit <| settlement_fund := f |>) in
  db ← adjust_balance db (as_account op) settled;
  modify_dynamic db (asset_id (as_amount op)) (sub_supply (amount (as_amount op))).

(** [time_point_sec + uint32_t] wraps around. *)
Definition asset_settle_do_apply db (op : asset_settle_operation) : result database :=
  n ← asset_neg (as_amount op);
  db ← adjust_balance db (as_account op) n;
  a ← tbl_get (assets db) (asset_id (as_amount op));
  '(bi, bit) ← bitasset_data db a;
  if has_settlement bit then settle_from_fund db bi bit op
  else
    let date := wrap32 (head_block_time db + force_settlement_delay_sec (bit_options bit)) in
    let new := tbl_create (settlements db) (Force_settlement_object (as_account op) (as_amount op) date) in
    Ok (db <| settlements := new.2 |>).
End AssetOps.

(** ** Instances *)

#[export] Instance asset_create_evaluator `{FC : FcLib} : Evaluator asset_create_operation := {|
  validate := asset_create_validate; fee_payer := ac_issuer; op_fee := ac_fee;
  do_evaluate := asset_create_do_evaluate; pay_fee := generic_pay_fee; do_apply := asset_create_do_apply;
|}.
#[export] Instance asset_update_evaluator `{FC : FcLib} : Evaluator asset_update_operation := {|
  validate := asset_update_validate; fee_payer := au_issuer; op_fee := au_fee;
  do_evaluate := asset_update_do_evaluate; pay_fee := generic_pay_fee;
  do_apply db _ op := asset_update_do_apply db op;
|}.
#[export] Instance asset_update_bitasset_evaluator `{FC : FcLib, NE : NthElement}
  : Evaluator asset_update_bitasset_operation := {|
  validate := asset_update_bitasset_validate; fee_payer := ub_issuer; op_fee := ub_fee;
  do_evaluate := asset_update_bitasset_do_evaluate; pay_fee := generic_pay_fee;
  do_apply db _ op := asset_update_bitasset_do_apply db op;
|}.
#[export] Instance asset_update_feed_producers_evaluator `{FC : FcLib, NE : NthElement}
  : Evaluator asset_update_feed_producers_operation := {|
  validate := asset_update_feed_producers_validate; fee_payer := fp_issuer; op_fee := fp_fee;
  do_evaluate := asset_update_feed_producers_do_evaluate; pay_fee := generic_pay_fee;
  do_apply db _ op := asset_update_feed_producers_do_apply db op;
|}.
#[export] Instance asset_publish_feed_evaluator `{FC : FcLib, NE : NthElement}
  : Evaluator asset_publish_feed_operation := {|
  validate := asset_publish_feed_validate; fee_payer := publisher; op_fee := pf_fee;
  do_evaluate := asset_publish_feed_do_evaluate; pay_fee := generic_pay_fee;
  do_apply db _ op := asset_publish_feed_do_apply db op;
|}.
#[export] Instance asset_issue_evaluator `{FC : FcLib} : Evaluator asset_issue_operation := {|
  validate := asset_issue_validate; fee_payer := ai_issuer; op_fee := ai_fee;
  do_evaluate := asset_issue_do_evaluate; pay_fee := generic_pay_fee;
  do_apply db _ op := asset_issue_do_apply db op;
|}.
#[export] Instance asset_reserve_evaluator `{FC : FcLib} : Evaluator asset_reserve_operation := {|
  validate := asset_reserve_validate; fee_payer := payer; op_fee := ar_fee;
  do_evaluate := asset_reserve_do_evaluate; pay_fee := generic_pay_fee;
  do_apply db _ op := asset_reserve_do_apply db op;
|}.
#[export] Instance asset_fund_fee_pool_evaluator `{FC : FcLib} : Evaluator asset_fund_fee_pool_operation := {|
  validate := asset_fund_fee_pool_validate; fee_payer := from_account; op_fee := ff_fee;
  do_evaluate := asset_fund_fee_pool_do_evaluate; pay_fee := generic_pay_fee;
  do_apply db _ op := asset_fund_fee_pool_do_apply db op;
|}.
#[export] Instance asset_claim_fees_evaluator `{FC : FcLib} : Evaluator asset_claim_fees_operation := {|
  validate := asset_claim_fees_validate; fee_payer := cf_issuer; op_fee := cf_fee;
  do_evaluate := asset_claim_fees_do_evaluate; pay_fee := generic_pay_fee;
  do_apply db _ op := asset_claim_fees_do_apply db op;
|}.
#[export] Instance asset_global_settle_evaluator `{FC : FcLib} : Evaluator asset_global_settle_operation := {|
  validate := asset_global_settle_validate; fee_payer := gs_issuer; op_fee := gs_fee;
  do_evaluate := asset_global_settle_do_evaluate; pay_fee := generic_pay_fee;
  do_apply db _ op := asset_global_settle_do_apply db op;
|}.
#[export] Instance asset_settle_evaluator `{FC : FcLib} : Evaluator asset_settle_operation := {|
  validate := asset_settle_validate; fee_payer := as_account; op_fee := as_fee;
  do_evaluate := asset_settle_do_evaluate; pay_fee := generic_pay_fee;
  do_apply db _ op := asset_settle_do_apply db op;
|}.
