(* ===== verification/AssetFacts.v ===== *)
(** * The asset operations keep the books

    The theorems about [AssetOps.v]: every asset operation but the creation of an
    asset moves its fee into the books and nothing else; creating an asset makes
    new core out of the fee; options, supplies and feed producers stay sound. *)

From S2P Require Import Prelude FcLib Asset Vesting Objects Database Ledger Market Trading Deflation Evaluator Feeds AssetOps.

Section Facts.
Context `{FC : FcLib, !FcLaws FC, NE : NthElement}.
Implicit Types (db : database) (st : fee_state) (i : N).

(** ** The tables *)

Lemma put_bitasset_moves db bi b b' :
  objs (bitassets db) !! bi = Some b -> (has_settlement b' = false -> settlement_fund b' = 0) ->
  moves db (put_bitasset db bi b') (fun a => fund_part a bi b' - fund_part a bi b).
Proof.
  intros Hb Hf [[]]. split_and!; [split; try done|done|].
  { intros j bj. simpl. intros [(<- & x & Hx & ->)|[_ ?]]%lookup_alter_Some; eauto. }
  intros a. unfold unbacked, holdings, supply, fees_of, dynamic_of; simpl.
  rewrite map_sum_alter, Hb. simpl. lia.
Qed.

Lemma new_settlement_moves db s :
  moves db (db <| settlements := (tbl_create (settlements db) s).2 |>) (fun a => amount_in a (settle_balance s)).
Proof.
  intros [[]]. split_and!; [split; try done; by apply tbl_create_wf|done|].
  intros a. unfold unbacked, holdings, supply, fees_of, dynamic_of; simpl.
  rewrite map_sum_insert_new by by apply wf_table_fresh. unfold settlement_part. lia.
Qed.

(** A change of an asset that keeps its dynamic data, with sound fee options. *)
Lemma modify_asset_moves db i (f : asset_object -> asset_object) :
  (forall a, dynamic_asset_data_id (f a) = dynamic_asset_data_id a) ->
  (forall a, objs (assets db) !! i = Some a ->
     0 <= market_fee_percent (options (f a)) <= GRAPHENE_100_PERCENT /\ 0 <= max_market_fee (options (f a))) ->
  moves db (db <| assets ::= fun t => tbl_modify t i f |>) (fun _ => 0).
Proof.
  intros Hid Hopt [[Hinj [ao [Hcore Hcid]] Hfees]]. set (db' := db <| assets ::= _ |>).
  assert (Hat : forall j a, objs (assets db') !! j = Some a -> exists a0, objs (assets db) !! j = Some a0 /\
    dynamic_asset_data_id a = dynamic_asset_data_id a0 /\ (a = a0 \/ j = i /\ a = f a0)).
  { intros j a. simpl. intros [(<- & x & Hx & ->)|[_ ?]]%lookup_alter_Some; [|eauto 10].
    exists x. split_and!; [done|apply Hid|auto]. }
  assert (Hdyn : forall c, dynamic_of db' c = dynamic_of db c).
  { intros c. unfold dynamic_of. simpl. destruct (decide (c = i)) as [->|].
    - rewrite lookup_alter_eq. destruct (objs (assets db) !! i); simpl; [by rewrite Hid|done].
    - by rewrite lookup_alter_ne. }
  split_and!; [|done|].
  - split; try done. split.
    + intros j k a b (a0 & Ha & Ea & _)%Hat (b0 & Hb & Eb & _)%Hat E. eapply Hinj; [done..|congruence].
    + destruct (decide (i = CORE_ASSET)) as [->|].
      * exists (f ao). split; [|by rewrite Hid]. simpl. by rewrite lookup_alter_eq, Hcore.
      * exists ao. split; [|done]. simpl. by rewrite lookup_alter_ne.
    + intros j a (a0 & Ha & _ & [->|[-> ->]])%Hat; [by eapply Hfees|by apply Hopt].
  - intros a. unfold unbacked, holdings, supply, fees_of. rewrite !Hdyn. simpl. lia.
Qed.

Lemma modify_dynamic_moves db id f db' p x :
  modify_dynamic db id f = Ok db' ->
  (forall d d', f d = Ok d' -> fee_pool d' - fee_pool d = p /\
     accumulated_fees d' - accumulated_fees d - (current_supply d' - current_supply d) = x) ->
  moves db db' (fun c => core_in c p + amount_in c (Asset x id)).
Proof.
  unfold modify_dynamic, get_dynamic. intros H Hf. inv_result. inv_get.
  match goal with H : f _ = Ok _ |- _ => apply Hf in H as [<- <-] end. by apply put_dynamic_moves.
Qed.

Lemma add_supply_spec x d d' :
  add_supply x d = Ok d' -> d' = d <| current_supply := current_supply d + x |>.
Proof. unfold add_supply. intros H. inv_result. by inv_safe. Qed.
Lemma sub_supply_spec x d d' :
  sub_supply x d = Ok d' -> d' = d <| current_supply := current_supply d - x |>.
Proof. unfold sub_supply. intros H. inv_result. by inv_safe. Qed.

Lemma add_supply_moves db id x db' :
  modify_dynamic db id (add_supply x) = Ok db' -> moves db db' (fun c => - amount_in c (Asset x id)).
Proof.
  intros H. eapply moves_eq.
  - eapply (modify_dynamic_moves _ _ _ _ 0 (0 - x) H). intros d d' ->%add_supply_spec. simpl. lia.
  - intros c. simpl. rewrite core_in_0, amount_in_sub, amount_in_0. lia.
Qed.

Lemma sub_supply_moves db id x db' :
  modify_dynamic db id (sub_supply x) = Ok db' -> moves db db' (fun c => amount_in c (Asset x id)).
Proof.
  intros H. eapply moves_eq.
  - eapply (modify_dynamic_moves _ _ _ _ 0 x H). intros d d' ->%sub_supply_spec. simpl. lia.
  - intros c. simpl. rewrite core_in_0. lia.
Qed.

(** ** The operations *)

Lemma asset_issue_moves db op db' : asset_issue_do_apply db op = Ok db' -> moves db db' (fun _ => 0).
Proof.
  unfold asset_issue_do_apply. intros H. inv_result.
  match goal with H : adjust_balance _ _ _ = _, H' : modify_dynamic _ _ _ = _ |- _ =>
    apply adjust_balance_moves in H; apply add_supply_moves in H';
    eapply moves_eq; [exact (moves_step _ _ _ _ _ H H')|] end.
  intros c. cbv beta. rewrite asset_eta. lia.
Qed.

Lemma asset_reserve_moves db op db' : asset_reserve_do_apply db op = Ok db' -> moves db db' (fun _ => 0).
Proof.
  unfold asset_reserve_do_apply. intros H. inv_result.
  match goal with H : asset_neg _ = _ |- _ => apply asset_neg_inv in H as -> end.
  match goal with H : adjust_balance _ _ _ = _, H' : modify_dynamic _ _ _ = _ |- _ =>
    apply adjust_balance_moves in H; apply sub_supply_moves in H';
    eapply moves_eq; [exact (moves_step _ _ _ _ _ H H')|] end.
  intros c. cbv beta. rewrite amount_in_opp, asset_eta. lia.
Qed.

Lemma asset_fund_fee_pool_moves db op db' :
  asset_fund_fee_pool_do_apply db op = Ok db' -> moves db db' (fun _ => 0).
Proof.
  unfold asset_fund_fee_pool_do_apply. intros H. inv_result. inv_safe.
  match goal with H : adjust_balance _ _ _ = _, H' : modify_dynamic _ _ _ = _ |- _ =>
    apply adjust_balance_moves in H; eapply (modify_dynamic_moves _ _ _ _ (ff_amount op) 0) in H' end.
  { eapply moves_eq; [eapply moves_step; eassumption|]. intros c. cbv beta.
    rewrite amount_in_core, amount_in_0. unfold core_in. case_match; lia. }
  intros d d' Hd. inv_result. inv_safe. simpl. lia.
Qed.

Lemma asset_claim_fees_moves db op db' :
  asset_claim_fees_do_apply db op = Ok db' -> moves db db' (fun _ => 0).
Proof.
  unfold asset_claim_fees_do_apply. intros H. inv_result.
  match goal with H : adjust_balance _ _ _ = _, H' : modify_dynamic _ _ _ = _ |- _ =>
    apply adjust_balance_moves in H;
    eapply (modify_dynamic_moves _ _ _ _ 0 (0 - amount (amount_to_claim op))) in H' end.
  { eapply moves_eq; [eapply moves_step; eassumption|]. intros c. cbv beta.
    rewrite core_in_0, amount_in_sub, amount_in_0, asset_eta. lia. }
  intros d d' Hd. inv_result. inv_safe. simpl. lia.
Qed.

Lemma cancel_settlement_keeps db i b db' :
  cancel_settlement db i b = Ok db' ->
  moves db db' (fun _ => 0) /\ settlements db' = tbl_remove (settlements db) i /\ assets db' = assets db.
Proof.
  intros H. split; [by eapply cancel_settlement_moves|]. unfold cancel_settlement in H. cbv zeta in H.
  inv_result. match goal with H : adjust_balance _ _ _ = _ |- _ => apply adjust_balance_inv in H as (? & -> & _) end.
  by destruct b.
Qed.

Lemma settlements_of_elem db a i s :
  (i, s) ∈ settlements_of db a <-> objs (settlements db) !! i = Some s /\ asset_id (settle_balance s) = a.
Proof.
  unfold settlements_of. rewrite merge_sort_Permutation, list_elem_of_filter, elem_of_map_to_list. naive_solver.
Qed.

(** The loop cancels every settlement of the asset; each round removes one. *)
Lemma cancel_settlements_moves db a db' :
  cancel_settlements db a = Ok db' ->
  moves db db' (fun _ => 0) /\ assets db' = assets db /\ settlements_of db' a = [].
Proof.
  unfold cancel_settlements. intros H.
  apply (while_inv _ _ (fun d => moves db d (fun _ => 0) /\ assets d = assets db)) in H as [[M A] E].
  - split_and!; [done..|]. by destruct (settlements_of db' a).
  - intros d d' [M A] _ Hd. destruct (settlements_of d a) as [|[i s] l]; [inv_result; done|].
    apply cancel_settlement_keeps in Hd as (M' & _ & A'). split; [|congruence].
    eapply moves_eq; [by eapply moves_step|done].
  - split; [apply moves_refl|done].
Qed.

Lemma cancel_settlements_terminates db a : terminates (cancel_settlements db a).
Proof.
  apply (while_fuel _ _ (fun _ => True) (fun d => size (objs (settlements d)))); [| |done|lia].
  - intros d d' _ Hne H. destruct (settlements_of d a) as [|[i s] l] eqn:Hl; [done|]. split; [done|].
    assert (He : (i, s) ∈ settlements_of d a) by (rewrite Hl; apply list_elem_of_here).
    apply settlements_of_elem in He as [He _]. apply cancel_settlement_keeps in H as (_ & -> & _).
    simpl. rewrite map_size_delete_Some by eauto.
    assert (size (objs (settlements d)) <> 0%nat) by (apply map_size_ne_0_lookup; eauto). lia.
  - intros d _. destruct (settlements_of d a) as [|[i s] l]; [done|].
    change (terminates (cancel_settlement d i true)). unfold cancel_settlement, settlement_at. terminate.
Qed.

(** ** Feeds and settlements *)

(** A new feed moves no value. *)
Lemma update_median_feeds_inv b now b' :
  update_median_feeds b now = Ok b' ->
  bit_options b' = bit_options b /\ feeds b' = feeds b /\ settlement_fund b' = settlement_fund b /\
  bit_settlement_price b' = bit_settlement_price b.
Proof.
  unfold update_median_feeds. cbv zeta. intros H.
  destruct (_ <? _); inv_result; done.
Qed.

Lemma bitasset_data_inv db a bi b :
  bitasset_data db a = Ok (bi, b) -> bitasset_data_id a = Some bi /\ objs (bitassets db) !! bi = Some b.
Proof. unfold bitasset_data. intros H. inv_result. by inv_get. Qed.

Lemma median_feeds_moves db bi b b0 now b' :
  objs (bitassets db) !! bi = Some b -> update_median_feeds b0 now = Ok b' ->
  bit_options b0 = bit_options b -> settlement_fund b0 = settlement_fund b ->
  bit_settlement_price b0 = bit_settlement_price b -> moves db (put_bitasset db bi b') (fun _ => 0).
Proof.
  intros Hb (Ho & _ & Hf & Hp)%update_median_feeds_inv Eo Ef Ep W. revert W.
  enough (wf_db db -> moves db (put_bitasset db bi b') (fun _ => 0)) as Hm by exact (fun W => Hm W W). intros W.
  eapply moves_eq; [apply (put_bitasset_moves _ _ b); [done|]|].
  - unfold has_settlement. rewrite Hf, Hp, Ef, Ep. by apply (wf_db_funds db W bi b).
  - intros a. unfold fund_part. rewrite Ho, Hf, Eo, Ef. simpl. lia.
Qed.

Lemma update_feeds_moves db bi b fs now b' :
  objs (bitassets db) !! bi = Some b -> update_median_feeds (b <| feeds ::= fs |>) now = Ok b' ->
  moves db (put_bitasset db bi b') (fun _ => 0).
Proof. intros Hb H. by eapply median_feeds_moves. Qed.

Lemma asset_update_moves db op db' :
  asset_options_validate (new_options op) = Ok tt -> 0 <= market_fee_percent (new_options op) ->
  asset_update_do_apply db op = Ok db' -> moves db db' (fun _ => 0).
Proof.
  unfold asset_update_do_apply, asset_options_validate. intros Hv Hm H. inv_result. bool_to_prop.
  assert (M : moves db a0 (fun _ => 0)).
  { destruct (has_flag _ _ && _); [by eapply cancel_settlements_moves|inv_result; apply moves_refl]. }
  eapply moves_eq; [eapply moves_step; [exact M|apply modify_asset_moves]|done].
  - intros x. by destruct (new_issuer op).
  - intros x _. simpl. lia.
Qed.

Lemma asset_update_bitasset_moves db op db' a bi b :
  objs (assets db) !! ub_asset_to_update op = Some a -> bitasset_data db a = Ok (bi, b) ->
  has_settlement b = false ->
  asset_update_bitasset_do_apply db op = Ok db' -> moves db db' (fun _ => 0).
Proof.
  unfold asset_update_bitasset_do_apply. intros Ha Hb Hs H W. revert W.
  enough (wf_db db -> moves db db' (fun _ => 0)) as Hm by exact (fun W => Hm W W). intros W.
  assert (Hg : tbl_get (assets db) (ub_asset_to_update op) = Ok a) by by apply tbl_get_inv.
  rewrite Hg in H. cbn [mbind result_bind] in H. rewrite Hb in H. cbn [mbind result_bind] in H. inv_result.
  apply bitasset_data_inv in Hb as [_ Hb]. pose proof (wf_db_funds db W bi b Hb Hs) as Hz.
  assert (E : settlement_fund a0 = 0).
  { destruct (negb _); [|inv_result; done].
    match goal with H : update_median_feeds _ _ = _ |- _ => apply update_median_feeds_inv in H as (_ & _ & -> & _) end.
    done. }
  eapply moves_eq; [by apply (put_bitasset_moves _ _ b)|]. intros c. unfold fund_part.
  rewrite E, Hz, !amount_in_0. lia.
Qed.

Lemma asset_update_feed_producers_burns db op db' :
  asset_update_feed_producers_do_apply db op = Ok db' -> burns db db' (fun _ => 0).
Proof.
  unfold asset_update_feed_producers_do_apply. intros H. inv_results. inv_get.
  match goal with H : bitasset_data _ _ = _ |- _ => apply bitasset_data_inv in H as [_ Hb] end.
  match goal with H : update_median_feeds _ _ = _ |- _ => eapply update_feeds_moves in H; [|exact Hb] end.
  match goal with H : check_call_orders _ _ _ = _ |- _ => apply check_call_orders_burns in H as B end.
  eapply burns_trans; [apply moves_burns; eassumption|exact B].
Qed.

Lemma asset_publish_feed_burns db op db' :
  asset_publish_feed_do_apply db op = Ok db' -> burns db db' (fun _ => 0).
Proof.
  unfold asset_publish_feed_do_apply. cbv zeta. intros H. inv_results. inv_get.
  match goal with H : bitasset_data _ _ = _ |- _ => apply bitasset_data_inv in H as [_ Hb] end.
  match goal with H : update_median_feeds _ _ = _ |- _ => eapply update_feeds_moves in H as M; [|exact Hb] end.
  destruct (price_feed_eqb _ _); inv_results; [by apply moves_burns|].
  match goal with H : check_call_orders _ _ _ = _ |- _ => apply check_call_orders_burns in H as B end.
  eapply burns_trans; [apply moves_burns; exact M|exact B].
Qed.

(** The price of a settled asset converts it to the backing asset. *)
Definition fund_price (db : database) (id : N) : Prop :=
  forall a bi b, objs (assets db) !! id = Some a -> bitasset_data_id a = Some bi ->
    objs (bitassets db) !! bi = Some b -> has_settlement b = true ->
    asset_id (base (bit_settlement_price b)) = id /\
    asset_id (quote (bit_settlement_price b)) = short_backing_asset (bit_options b).

Lemma asset_settle_moves db op db' :
  fund_price db (asset_id (as_amount op)) ->
  asset_settle_do_apply db op = Ok db' -> moves db db' (fun _ => 0).
Proof.
  unfold asset_settle_do_apply, settle_from_fund. cbv zeta. intros Hfp H. inv_results. inv_get.
  match goal with H : asset_neg _ = _ |- _ => apply asset_neg_inv in H as -> end.
  match goal with H : bitasset_data _ _ = _ |- _ => apply bitasset_data_inv in H as [Hbi Hb] end.
  match goal with H : adjust_balance db _ _ = _ |- _ => apply adjust_balance_pays in H as [S M1] end.
  destruct (has_settlement _) eqn:Hs; inv_results.
  - inv_safe. match goal with H : asset_mul_price _ _ = Ok ?r |- _ =>
      rename r into settled; apply asset_mul_price_range in H as (_ & Hid & _) end.
    destruct (Hfp _ _ _ ltac:(rewrite <-(same_assets _ _ S); eassumption) Hbi
      ltac:(rewrite <-(same_bitassets _ _ S); eassumption) Hs) as [E1 E2].
    rewrite E1, N.eqb_refl, E2 in Hid.
    match goal with H : adjust_balance _ _ _ = _ |- _ => apply adjust_balance_moves in H as M3 end.
    match goal with H : modify_dynamic _ _ _ = _ |- _ => apply sub_supply_moves in H as M4 end.
    eapply moves_eq.
    { eapply moves_step; [eapply moves_step; [eapply moves_step; [exact M1|]|exact M3]|exact M4].
      eapply put_bitasset_moves; [eassumption|]. unfold has_settlement in *. simpl. congruence. }
    intros c. cbv beta. rewrite amount_in_opp, asset_eta. unfold fund_part; simpl.
    rewrite amount_in_sub. destruct settled as [x k]; simpl in *. subst k. lia.
  - eapply moves_eq; [eapply moves_step; [exact M1|apply new_settlement_moves]|].
    intros c. cbv beta. rewrite amount_in_opp. simpl. lia.
Qed.

(** ** The promises *)

#[export] Instance asset_issue_conserving : Conserving asset_issue_operation.
Proof.
  refine {| pre := fun _ _ => True; applies := _ |}.
  conserving @asset_issue_do_evaluate ltac:(by eapply moves_drains, asset_issue_moves).
Defined.

#[export] Instance asset_reserve_conserving : Conserving asset_reserve_operation.
Proof.
  refine {| pre := fun _ _ => True; applies := _ |}.
  conserving @asset_reserve_do_evaluate ltac:(by eapply moves_drains, asset_reserve_moves).
Defined.

#[export] Instance asset_fund_fee_pool_conserving : Conserving asset_fund_fee_pool_operation.
Proof.
  refine {| pre := fun _ _ => True; applies := _ |}.
  conserving @asset_fund_fee_pool_do_evaluate ltac:(by eapply moves_drains, asset_fund_fee_pool_moves).
Defined.

#[export] Instance asset_claim_fees_conserving : Conserving asset_claim_fees_operation.
Proof.
  refine {| pre := fun _ _ => True; applies := _ |}.
  conserving @asset_claim_fees_do_evaluate ltac:(by eapply moves_drains, asset_claim_fees_moves).
Defined.

#[export] Instance asset_update_conserving : Conserving asset_update_operation.
Proof.
  refine {| pre := fun _ op => 0 <= market_fee_percent (new_options op); applies := _ |}.
  conserving @asset_update_do_evaluate ltac:(idtac). apply moves_drains.
  eapply asset_update_moves; [|exact Hpre|exact Happ].
  unfold asset_update_validate in Hval. inv_result. by match goal with u : unit |- _ => destruct u end.
Defined.

#[export] Instance asset_update_bitasset_conserving : Conserving asset_update_bitasset_operation.
Proof.
  refine {| pre := fun _ _ => True; applies := _ |}.
  conserving @asset_update_bitasset_do_evaluate ltac:(idtac).
  unfold asset_update_bitasset_do_evaluate in He. cbv zeta in He. inv_results. inv_get. bool_to_prop.
  apply moves_drains. eapply asset_update_bitasset_moves; [|unfold bitasset_data in *|eassumption|exact Happ].
  - by rewrite (same_assets _ _ S2).
  - by rewrite (same_bitassets _ _ S2).
Defined.

#[export] Instance asset_update_feed_producers_conserving : Conserving asset_update_feed_producers_operation.
Proof.
  refine {| pre := fun _ _ => True; applies := _ |}.
  conserving @asset_update_feed_producers_do_evaluate
    ltac:(by eapply burns_drains, asset_update_feed_producers_burns).
Defined.

#[export] Instance asset_publish_feed_conserving : Conserving asset_publish_feed_operation.
Proof.
  refine {| pre := fun _ _ => True; applies := _ |}.
  conserving @asset_publish_feed_do_evaluate ltac:(by eapply burns_drains, asset_publish_feed_burns).
Defined.

#[export] Instance asset_global_settle_conserving : Conserving asset_global_settle_operation.
Proof.
  refine {| pre := fun _ _ => True; applies := _ |}.
  conserving @asset_global_settle_do_evaluate ltac:(by eapply moves_drains, globally_settle_asset_moves).
Defined.

#[export] Instance asset_settle_conserving : Conserving asset_settle_operation.
Proof.
  refine {| pre := fun db op => fund_price db (asset_id (as_amount op)); applies := _ |}.
  conserving @asset_settle_do_evaluate ltac:(eapply moves_drains, asset_settle_moves; [|exact Happ]).
  unfold fund_price in *. by rewrite (same_assets _ _ S2), (same_bitassets _ _ S2).
Defined.

(** ** Creating an asset *)

(** The ids of assets and their data are handed out once. *)
Record wf_ids db : Prop := {
  wf_ids_assets : wf_table (assets db);
  wf_ids_dynamic : wf_table (dynamic_data db);
  wf_ids_bitassets : wf_table (bitassets db);
  wf_ids_of i a : objs (assets db) !! i = Some a -> is_Some (objs (dynamic_data db) !! dynamic_asset_data_id a);
}.

Lemma new_dynamic_moves db d :
  wf_ids db ->
  moves db (db <| dynamic_data := (tbl_create (dynamic_data db) d).2 |>) (fun a => core_in a (fee_pool d)).
Proof.
  intros [_ Hd _ Ha] [[]]. split_and!; [by split|done|]. intros a.
  assert (Hdyn : forall c, dynamic_of (db <| dynamic_data := (tbl_create (dynamic_data db) d).2 |>) c = dynamic_of db c).
  { intros c. unfold dynamic_of; simpl. destruct (objs (assets db) !! c) as [ao|] eqn:Hc; simpl; [|done].
    rewrite lookup_insert_ne; [done|]. intros E. apply Ha, Hd in Hc. lia. }
  unfold unbacked, holdings, supply, fees_of. rewrite !Hdyn. simpl.
  rewrite map_sum_insert_new by by apply wf_table_fresh. unfold pool_part. lia.
Qed.

Lemma new_bitasset_moves db b :
  settlement_fund b = 0 ->
  wf_table (bitassets db) ->
  moves db (db <| bitassets := (tbl_create (bitassets db) b).2 |>) (fun _ => 0).
Proof.
  intros Hf Hb [[]]. split_and!; [split; try done|done|].
  { intros j bj. simpl. intros [[_ <-]|[_ ?]]%lookup_insert_Some; eauto. }
  intros a. unfold unbacked, holdings, supply, fees_of, dynamic_of; simpl.
  rewrite map_sum_insert_new by by apply wf_table_fresh. unfold fund_part. rewrite Hf, amount_in_0. lia.
Qed.

Lemma new_asset_moves db a :
  wf_table (assets db) ->
  (forall j b, objs (assets db) !! j = Some b -> dynamic_asset_data_id b <> dynamic_asset_data_id a) ->
  (exists d, objs (dynamic_data db) !! dynamic_asset_data_id a = Some d /\
     current_supply d = 0 /\ accumulated_fees d = 0) ->
  0 <= market_fee_percent (options a) <= GRAPHENE_100_PERCENT -> 0 <= max_market_fee (options a) ->
  moves db (db <| assets := (tbl_create (assets db) a).2 |>) (fun _ => 0).
Proof.
  intros Ht Hnew (d & Hd & Hs & Hf) Hp Hm [[Hinj [ao [Hcore Hcid]] Hfees]]. set (db' := db <| assets := _ |>).
  pose proof (wf_table_fresh _ Ht) as Hfresh.
  split_and!; [|done|].
  - split; try done. split.
    + intros j k b c. simpl. intros [[<- <-]|[_ Hj]]%lookup_insert_Some [[<- <-]|[_ Hk]]%lookup_insert_Some E;
        [done|..|by eapply Hinj].
      * by apply Hnew in Hk.
      * by apply Hnew in Hj.
    + exists ao. split; [|done]. simpl. rewrite lookup_insert_ne; [done|congruence].
    + intros j b. simpl. intros [[_ <-]|[_ Hj]]%lookup_insert_Some; [done|by eapply Hfees].
  - assert (Hdyn : forall c, supply db' c = supply db c /\ fees_of db' c = fees_of db c).
    { intros c. unfold supply, fees_of, dynamic_of. simpl. destruct (decide (c = next_instance (assets db))) as [->|].
      - rewrite lookup_insert_eq, Hfresh. simpl. by rewrite Hd.
      - by rewrite lookup_insert_ne. }
    intros c. destruct (Hdyn c) as [E1 E2]. unfold unbacked, holdings. rewrite E1, E2. simpl. lia.
Qed.

Lemma asset_create_moves db st op db' :
  wf_ids db -> asset_create_validate op = Ok tt -> 0 <= market_fee_percent (common_options op) ->
  asset_create_do_apply db st op = Ok db' -> moves db db' (fun a => core_in a (core_fee_paid st)).
Proof.
  unfold asset_create_do_apply. cbv zeta. intros Hid Hv Hm H.
  assert (Ho : market_fee_percent (common_options op) <= GRAPHENE_100_PERCENT /\
               0 <= max_market_fee (common_options op)).
  { unfold asset_create_validate, asset_options_validate in Hv. inv_result. bool_to_prop. done. }
  set (db1 := db <| dynamic_data := (tbl_create (dynamic_data db) (Asset_dynamic_data_object 0 0 (core_fee_paid st))).2 |>) in *.
  set (d := next_instance (dynamic_data db)).
  assert (M1 : moves db db1 (fun a => core_in a (core_fee_paid st))) by by apply new_dynamic_moves.
  assert (Hsame : forall db2 bit, moves db1 db2 (fun _ => 0) -> assets db2 = assets db -> dynamic_data db2 = dynamic_data db1 ->
    moves db (db2 <| assets := (tbl_create (assets db2) (new_asset op (next_instance (assets db2)) d bit)).2 |>)
      (fun a => core_in a (core_fee_paid st))).
  { intros db2 bit M2 A2 D2. eapply moves_eq.
    - eapply moves_step; [exact (moves_step _ _ _ _ _ M1 M2)|]. apply new_asset_moves.
      + rewrite A2. apply Hid.
      + rewrite A2. simpl. intros j b Hj E. apply (wf_ids_of _ Hid), (wf_ids_dynamic _ Hid) in Hj. unfold d in E. lia.
      + rewrite D2. simpl. unfold d. rewrite lookup_insert_eq. eauto.
      + simpl. lia.
      + simpl. lia.
    - intros a. simpl. lia. }
  destruct (bitasset_opts op) as [o|]; inv_result.
  - set (db2 := db1 <| bitassets := (tbl_create (bitassets db1) (new_bitasset op o)).2 |>).
    refine (Hsame db2 _ _ eq_refl eq_refl). apply new_bitasset_moves; [done|]. exact (wf_ids_bitassets _ Hid).
  - refine (Hsame db1 _ _ eq_refl eq_refl). apply moves_refl.
Qed.
End Facts.

Section Specifications.
Context `{FC : FcLib, !FcLaws FC, NE : NthElement}.
Implicit Types (db : database) (st : fee_state) (i : N).

(** The supply of an asset is what its dynamic data say. *)
Lemma supply_of db id a d :
  objs (assets db) !! id = Some a -> objs (dynamic_data db) !! dynamic_asset_data_id a = Some d ->
  supply db id = current_supply d.
Proof. intros Ha Hd. unfold supply, dynamic_of. rewrite Ha. simpl. by rewrite Hd. Qed.

Lemma testbit_masked x m n : Z.land x (Z.lnot m) = 0 -> 0 <= n -> Z.testbit x n = true -> Z.testbit m n = true.
Proof.
  intros H Hn Hx. assert (Hb : Z.testbit (Z.land x (Z.lnot m)) n = false) by by rewrite H, Z.bits_0.
  rewrite Z.land_spec, Z.lnot_spec, Hx in Hb by done. simpl in Hb. by apply negb_false_iff in Hb.
Qed.
End Specifications.

(** ** Properties *)

(** C35: creating an asset makes new core: half of the fee, rounded up, is both
    recorded as paid and put into the new fee pool, while only the whole fee is
    taken.  Of a fee paid in core one unit is created when it is odd; of a fee
    paid in another asset the whole new fee pool is. *)
Theorem asset_create_fee `{FC : FcLib, !FcLaws FC} (ctx : evaluation_context) (db db' : database)
    (op : asset_create_operation) :
  wf_db db -> wf_ids db -> skip_fee ctx = false -> asset_create_validate op = Ok tt ->
  0 <= market_fee_percent (common_options op) ->
  start_evaluate ctx db op = Ok db' ->
  wf_db db' /\ exists st, prepare_fee db (ac_issuer op) (ac_fee op) = Ok st /\
    forall a, holdings db' a - supply db' a = holdings db a - supply db a
      + core_in a (if (asset_id (ac_fee op) =? CORE_ASSET)%N then amount (ac_fee op) mod 2
                   else core_fee_paid st - core_fee_paid st / 2).
Proof.
  intros W Hid Hskip Hval Hm (st & st1 & db1 & st2 & db2 & db3 & Hp & He & Hc & Hpay & Happ & Hadj)%start_evaluate_inv.
  apply prepare_fee_inv in Hp as Hst. destruct Hst as (Hf & Hc0 & _ & Hf0 & Hcore).
  simpl in *. unfold asset_create_do_evaluate in He. inv_result. inv_safe. rewrite Z.quot_div_nonneg in * by lia.
  apply convert_fee_frame in Hc as Fc. destruct (convert_fee_moves _ _ _ _ Hc Hskip) as (_ & _ & M1).
  apply generic_pay_fee_moves in Hpay as (-> & S2 & _ & _ & _ & D2 & M2); [|done].
  assert (Hid2 : wf_ids db2).
  { destruct Hid as [Ha Hd Hb Ho].
    assert (Hdyn : next_instance (dynamic_data db1) = next_instance (dynamic_data db) /\
      forall j, is_Some (objs (dynamic_data db1) !! j) <-> is_Some (objs (dynamic_data db) !! j)).
    { clear -Hc Hskip. unfold convert_fee in Hc. rewrite Hskip in Hc.
      destruct (_ =? CORE_ASSET)%N; inv_result; [done|]. split; [done|]. intros j. apply tbl_modify_is_Some. }
    destruct Hdyn as [Hn Hs]. rewrite Fc in S2.
    split; rewrite ?D2, ?(same_assets _ _ S2), ?(same_bitassets _ _ S2); try done.
    - intros j Hj. rewrite Hn. by apply Hd, Hs.
    - intros j a Hj. apply Hs. by eapply Ho. }
  apply asset_create_moves in Happ as M3; [|done..]. apply adjust_balance_moves in Hadj as M4.
  destruct (moves_step _ _ _ _ _ (moves_step _ _ _ _ _ (moves_step _ _ _ _ _ M1 M2) M3) M4 W) as (W' & _ & E).
  split; [done|]. exists st. split; [exact Hp|]. intros a. specialize (E a). unfold unbacked in E.
  simpl in E. rewrite amount_in_opp, Hf in E.
  destruct (N.eqb_spec (asset_id (ac_fee op)) CORE_ASSET) as [Hi|].
  - rewrite <-(asset_eta (ac_fee op)), Hi, amount_in_core in E at 1. rewrite (Hcore Hi) in E.
    pose proof (Z.div_mod (amount (ac_fee op)) 2 ltac:(done)) as Hdm.
    revert E. unfold core_in. destruct (a =? CORE_ASSET)%N; lia.
  - revert E. unfold core_in. destruct (a =? CORE_ASSET)%N; lia.
Qed.

(** An accepted update changes the issuer, if a new one is named, and the
    options, and nothing else of the asset: only its issuer can do it, flags
    change only where the issuer is permitted to, permissions given up are not
    taken back while the asset is in circulation, and once forced settlement is
    disabled no settlement of the asset is left. *)
Theorem asset_update_safety `{FC : FcLib, !FcLaws FC} (ctx : evaluation_context) (db db' : database)
    (op : asset_update_operation) :
  start_evaluate ctx db op = Ok db' ->
  exists a a' d, objs (assets db) !! asset_to_update op = Some a /\
    objs (assets db') !! asset_to_update op = Some a' /\
    a' = a <| issuer := default (issuer a) (new_issuer op) |> <| options := new_options op |> /\
    au_issuer op = issuer a /\
    (forall n, 0 <= n -> Z.testbit (flags (options a')) n <> Z.testbit (flags (options a)) n ->
       Z.testbit (issuer_permissions (options a)) n = true) /\
    (objs (dynamic_data db) !! dynamic_asset_data_id a = Some d -> current_supply d <> 0 ->
       forall n, 0 <= n -> Z.testbit (issuer_permissions (options a')) n = true ->
         Z.testbit (issuer_permissions (options a)) n = true) /\
    (can_force_settle a = true -> can_force_settle a' = false -> settlements_of db' (asset_to_update op) = []).
Proof.
  intros (st & st1 & db1 & st2 & db2 & db3 & Hp & He & Hc & Hpay & Happ & Hadj)%start_evaluate_inv.
  apply convert_fee_frame in Hc. apply generic_pay_fee_frame in Hpay as (_ & Hpay & _). apply adjust_balance_frame' in Hadj.
  cbn [do_evaluate do_apply asset_update_evaluator] in *. unfold asset_update_do_evaluate in He.
  unfold asset_update_do_apply in Happ. cbv zeta in He. inv_result. inv_get.
  match goal with H : objs (assets db) !! _ = Some ?x, H' : objs (assets db2) !! _ = Some ?y |- _ =>
    rename x into ao; assert (y = ao) as -> by (rewrite Hpay, Hc in H'; simpl in H'; congruence) end.
  match goal with H : (if _ && can_force_settle _ then _ else _) = Ok ?d |- _ => rename d into db4, H into Hcan end.
  assert (A4 : assets db4 = assets db).
  { trans (assets db2); [|by rewrite Hpay, Hc]. destruct (_ && _); [|by inv_result]. by eapply cancel_settlements_moves. }
  set (d := default (Asset_dynamic_data_object 0 0 0) (objs (dynamic_data db) !! dynamic_asset_data_id ao)).
  eexists ao, _, d. split; [done|]. split.
  { rewrite Hadj. simpl. rewrite lookup_alter_eq, A4.
    match goal with H : objs (assets db) !! _ = Some ao |- _ => rewrite H end. done. }
  bool_to_prop. split_and!.
  - by destruct ao, (new_issuer op).
  - by apply N.eqb_eq.
  - simpl. intros n Hn Hne. eapply testbit_masked; [eassumption|done|]. rewrite Z.lxor_spec.
    by destruct (Z.testbit (flags (new_options op)) n), (Z.testbit (flags (options ao)) n).
  - simpl. intros Hd Hs n Hn. match goal with H : _ || _ = true |- _ => rename H into Hor end.
    match goal with H : (if HARDFORK_572_TIME <=? _ then _ else _) = Ok ?r |- _ => assert (r = true) as -> end.
    { destruct (HARDFORK_572_TIME <=? _); [|by inv_result]. unfold get_dynamic in *. inv_result. inv_get.
      match goal with H : objs (dynamic_data db) !! _ = Some ?x |- context [current_supply ?x] => assert (x = d) as -> by congruence end. by apply negb_true_iff, Z.eqb_neq. }
    simpl in Hor. apply Z.eqb_eq in Hor. by apply testbit_masked.
  - unfold can_force_settle at 2. simpl. intros Hf Hn%negb_false_iff. rewrite Hf, Hn in Hcan. simpl in Hcan.
    apply cancel_settlements_moves in Hcan as (_ & _ & E). rewrite Hadj. exact E.
Qed.

(** An accepted issue adds the amount to the receiver's balance and to the
    supply, which does not exceed the maximum the issuer has set; no other supply
    changes, and market-issued assets cannot be issued. *)
Theorem asset_issue_spec `{FC : FcLib, !FcLaws FC} (ctx : evaluation_context) (db db' : database)
    (op : asset_issue_operation) :
  let x := amount (asset_to_issue op) in let id := asset_id (asset_to_issue op) in
  wf_db db -> start_evaluate ctx db op = Ok db' ->
  (exists a d, objs (assets db) !! id = Some a /\ is_market_issued a = false /\ issuer a = ai_issuer op /\
     objs (dynamic_data db) !! dynamic_asset_data_id a = Some d /\ supply db id = current_supply d /\
     supply db' id <= max_supply (options a)) /\
  (forall c, supply db' c = supply db c + amount_in c (asset_to_issue op)) /\
  (forall j c, (j, c) <> (ai_issuer op, asset_id (ai_fee op)) ->
     amount (get_balance db' j c) = amount (get_balance db j c)
       + (if decide ((j, c) = (issue_to_account op, id)) then x else 0)).
Proof.
  cbv zeta. intros W (st & st1 & db1 & st2 & db2 & db3 & Hp & He & Hc & Hpay & Happ & Hadj)%start_evaluate_inv.
  apply prepare_fee_inv in Hp as (Hf & _). pose proof (convert_fee_supply _ _ _ _ W Hc) as Sc.
  apply convert_fee_frame in Hc. apply generic_pay_fee_frame in Hpay as (-> & Hpay & _).
  cbn [do_evaluate do_apply fee_payer op_fee asset_issue_evaluator] in *.
  unfold asset_issue_do_evaluate, get_dynamic in He. unfold asset_issue_do_apply, modify_dynamic, get_dynamic in Happ.
  inv_result. inv_get. inv_safe. bool_to_prop.
  set (x := amount (asset_to_issue op)) in *. set (id := asset_id (asset_to_issue op)) in *.
  match goal with H : adjust_balance db2 _ _ = Ok _ |- _ => apply adjust_balance_inv in H as (b & -> & Hb & _) end.
  match goal with H : add_supply _ _ = Ok _ |- _ => apply add_supply_spec in H as -> end.
  assert (A2 : assets db2 = assets db) by by rewrite Hpay, Hc.
  match goal with H : objs (assets db) !! _ = Some ?y, H' : objs (assets (db2 <| balances := _ |>)) !! _ = Some ?z |- _ =>
    change (objs (assets db2) !! id = Some z) in H'; rename y into ao; rename H into Ha; rename H' into Ha2; assert (z = ao) as -> by (rewrite A2 in Ha2; congruence) end.
  match goal with H : objs (dynamic_data db) !! _ = Some _, H' : objs (dynamic_data (db2 <| balances := _ |>)) !! ?k = Some ?e |- _ =>
    change (objs (dynamic_data db2) !! k = Some e) in H'; rename H into Hd; rename e into d2; rename H' into Hd2 end.
  assert (Sup : forall c, supply db' c = supply db c + amount_in c (asset_to_issue op)).
  { intros c. trans (supply (put_dynamic db2 ao (d2 <| current_supply := current_supply d2 + x |>)) c);
      [by rewrite (adjust_balance_frame' _ _ _ _ Hadj)|].
    rewrite (put_dynamic_supply db2 id ao d2); [|by destruct (wf_db_assets db W); split; rewrite ?A2|done|done].
    simpl. replace (current_supply d2 + x - current_supply d2) with x by lia. unfold x, id. rewrite asset_eta.
    rewrite <-Sc. unfold supply, dynamic_of. by rewrite Hpay. }
  split; [|split; [exact Sup|]].
  - eexists ao, _. split_and!; [done|done|by symmetry; apply N.eqb_eq|exact Hd|by eapply supply_of|].
    rewrite Sup, (supply_of _ _ _ _ Ha Hd). unfold amount_in. rewrite N.eqb_refl. fold x. lia.
  - intros j c Hne. apply adjust_balance_inv in Hadj as (b' & -> & Hb' & _). rewrite Hb', decide_False; [|by rewrite Hf].
    rewrite Z.add_0_r. trans (amount (get_balance (db2 <| balances := b |>) j c)); [done|].
    rewrite Hb. f_equal. by rewrite Hpay, Hc.
Qed.

(** ** Witnesses *)

Definition ex_context : evaluation_context := Evaluation_context false false 20 10000.

Definition ids_check (db : database) : bool :=
  table_check (assets db) && table_check (dynamic_data db) && table_check (bitassets db) &&
  bool_decide (map_Forall (fun _ a => is_Some (objs (dynamic_data db) !! dynamic_asset_data_id a)) (objs (assets db))).

Lemma ids_check_ok db : ids_check db = true -> wf_ids db.
Proof.
  unfold ids_check. rewrite !andb_true_iff. intros [[[? ?] ?] Hd]. apply bool_decide_eq_true in Hd.
  split; [by apply table_check_ok..|]. intros i a Hi. exact (Hd i a Hi).
Qed.

Definition ex_silver : asset_create_operation :=
  Asset_create_operation (Asset 101 CORE_ASSET) 10 "SILVER" 2
    ((ex_options 1) <| issuer_permissions := 79 |>) None false.

Lemma asset_create_fee_witness :
  exists db', start_evaluate (E := asset_create_evaluator (FC := fc_ref)) (FC := fc_ref) ex_context ex_state ex_silver = Ok db' /\
    holdings db' CORE_ASSET - supply db' CORE_ASSET = holdings ex_state CORE_ASSET - supply ex_state CORE_ASSET + 1.
Proof.
  destruct (result_ok_true (start_evaluate (E := asset_create_evaluator (FC := fc_ref)) (FC := fc_ref)
    ex_context ex_state ex_silver)) as [db' H]; [by vm_compute|].
  exists db'. split; [exact H|].
  destruct (@asset_create_fee fc_ref fc_ref_laws ex_context ex_state db' ex_silver ex_state_wf)
    as (_ & st & _ & Hx); [apply ids_check_ok; by vm_compute|done|by vm_compute|by vm_compute|exact H|].
  rewrite Hx. by vm_compute.
Defined.

Definition ex_gold_update : asset_update_operation :=
  Asset_update_operation (Asset 25 CORE_ASSET) 10 1 (Some 12%N) ((ex_options 3) <| issuer_permissions := 15 |>).

Lemma asset_update_safety_witness :
  exists db' a, start_evaluate (E := asset_update_evaluator (FC := fc_ref)) (FC := fc_ref) ex_context ex_state ex_gold_update = Ok db' /\
    objs (assets db') !! 1%N = Some a /\ issuer a = 12%N /\ flags (options a) = 3.
Proof.
  destruct (result_ok_true (start_evaluate (E := asset_update_evaluator (FC := fc_ref)) (FC := fc_ref)
    ex_context ex_state ex_gold_update)) as [db' H]; [by vm_compute|].
  destruct (@asset_update_safety fc_ref fc_ref_laws ex_context ex_state db' ex_gold_update H)
    as (a & a' & d & Ha & Ha' & -> & _).
  exists db'. eexists. split; [exact H|]. split; [exact Ha'|]. by split.
Defined.

Definition ex_gold_issue : asset_issue_operation :=
  Asset_issue_operation (Asset 20 CORE_ASSET) 10 (Asset 700 1) 12.

Lemma asset_issue_spec_witness :
  exists db', start_evaluate (E := asset_issue_evaluator (FC := fc_ref)) (FC := fc_ref) ex_context ex_state ex_gold_issue = Ok db' /\
    supply db' 1 = 1000 /\ amount (get_balance db' 12 1) = 700.
Proof.
  destruct (result_ok_true (start_evaluate (E := asset_issue_evaluator (FC := fc_ref)) (FC := fc_ref)
    ex_context ex_state ex_gold_issue)) as [db' H]; [by vm_compute|].
  exists db'. split; [exact H|].
  destruct (@asset_issue_spec fc_ref fc_ref_laws ex_context ex_state db' ex_gold_issue ex_state_wf H)
    as (_ & Hs & Hb).
  split; [by rewrite Hs; vm_compute|]. rewrite Hb by done. by vm_compute.
Defined.
