(* ===== verification/Accounts.v ===== *)
(** * Accounts

    Models [account_evaluator.cpp], the account operations of
    [protocol/account.cpp], [special_authority.cpp] and [buyback.cpp]: creating
    accounts, also by a transfer to a key, updating them, the lists of accounts
    an account recommends or rejects, and membership.

    [accounts_sound] is the well-formedness of the accounts; every operation
    keeps it. *)

From S2P Require Import Prelude FcLib Block Asset Vesting Objects Database Names Ledger Market Trading Deflation Evaluator MarketOps Feeds AssetOps AssetFacts.

Definition GRAPHENE_DEFAULT_MAX_BUYBACK_MARKETS : nat := 4.

Definition HARDFORK_453_TIME : Z := 1450288800.
Definition HARDFORK_516_TIME : Z := 1456250400.
Definition HARDFORK_538_TIME : Z := 1456250400.
Definition HARDFORK_599_TIME : Z := 1459789200.
Definition HARDFORK_607_TIME : Z := 1458752400.
Definition HARDFORK_613_TIME : Z := 1458752400.

Definition days (n : Z) : Z := n * 86400.
Definition time_point_sec_maximum : Z := 2 ^ 32 - 1.

Record buyback_account_options := Buyback_account_options {
  asset_to_buy : N;
  asset_to_buy_issuer : N;
  bb_markets : gset N;
}.

Record account_create_operation := Account_create_operation {
  an_fee : asset;
  an_registrar : N;
  an_referrer : N;
  an_referrer_percent : Z;
  an_name : string;
  an_owner : authority;
  an_active : authority;
  an_options : account_options;
  an_null_ext : bool;
  an_owner_special : option special_authority;
  an_active_special : option special_authority;
  an_buyback : option buyback_account_options;
}.

Record account_update_operation := Account_update_operation {
  ap_fee : asset;
  ap_account : N;
  ap_owner : option authority;
  ap_active : option authority;
  ap_new_options : option account_options;
  ap_null_ext : bool;
  ap_owner_special : option special_authority;
  ap_active_special : option special_authority;
}.

Record account_whitelist_operation := Account_whitelist_operation {
  aw_fee : asset;
  authorizing_account : N;
  account_to_list : N;
  new_listing : Z;
}.

Record account_upgrade_operation := Account_upgrade_operation {
  ag_fee : asset;
  account_to_upgrade : N;
  upgrade_to_lifetime_member : bool;
}.

Record account_create_by_transfer_operation := Account_create_by_transfer_operation {
  ct_fee : asset;
  ct_from : N;
  account_key : public_key;
  ct_amount : asset;
}.

Definition is_some {A} (o : option A) : bool := match o with Some _ => true | None => false end.

(** [for( auto& x : optional )]: run on the value, if there is one. *)
Definition if_valid {A} (o : option A) (f : A -> result unit) : result unit :=
  match o with Some x => f x | None => Ok tt end.

(** The catch clause of [GRAPHENE_RECODE_EXC( from, to )]. *)
Definition recode {A} (from to : string) (r : result A) : result A :=
  match r with
  | Err (graphene_exception n) => if String.eqb n from then Err (graphene_exception to) else r
  | _ => r
  end.

Section AccountOps.
Context `{FC : FcLib}.
Implicit Types (db : database) (st : fee_state).

(** ** Authorities, votes and special authorities *)

Definition verify_authority_accounts db (a : authority) : result unit :=
  _ ← GRAPHENE_ASSERT (num_auths a <=? maximum_authority_membership (parameters db))
        "internal_verify_auth_max_auth_exceeded";
  foldM (fun _ acnt => GRAPHENE_ASSERT (is_some (objs (accounts db) !! acnt.1))
                         "internal_verify_auth_account_not_found") tt (account_auths a).

Definition is_worker_vote (t : Z) : bool := t =? type_code vote_worker.

Definition verify_account_votes db (o : account_options) : result unit :=
  _ ← FC_ASSERT (num_witness o <=? maximum_witness_count (parameters db))
        "Voted for more witnesses than currently allowed";
  _ ← FC_ASSERT (num_committee o <=? maximum_committee_count (parameters db))
        "Voted for more committee members than currently allowed";
  let ids := map_to_list (votes o) in
  _ ← foldM (fun _ id => FC_ASSERT (Z.of_N id.1 <? next_available_vote_id (gov db)) "id < max_vote_id") tt ids;
  if existsb (fun id => is_worker_vote id.2) ids && (HARDFORK_607_TIME <=? head_block_time db) then
    foldM (fun _ id =>
      if is_worker_vote id.2 then
        FC_ASSERT (negb (is_some (tbl_find_by (fun w => vote_against w = id.1) (workers (gov db)))))
          "against_worker_idx.find( id ) == against_worker_idx.end()"
      else Ok tt) tt ids
  else Ok tt.

(** [needed_witnesses], [needed_committee] of [account_options::validate]. *)
Definition count_vote (needed : Z * Z) (t : Z) : Z * Z :=
  let '(w, c) := needed in
  if (t =? type_code vote_witness) && negb (w =? 0) then (w - 1, c)
  else if (t =? type_code vote_committee) && negb (c =? 0) then (w, c - 1)
  else (w, c).

Definition account_options_validate (o : account_options) : result unit :=
  let '(w, c) := foldl count_vote (num_witness o, num_committee o) (map_to_list (votes o)).*2 in
  FC_ASSERT ((w =? 0) && (c =? 0))
    "May not specify fewer witnesses or committee members than the number voted for.".

Definition validate_special_authority (a : special_authority) : result unit :=
  match a with
  | no_special_authority => Ok tt
  | top_holders_special_authority _ n => FC_ASSERT (0 <? n) "a.num_top_holders > 0"
  end.

Definition evaluate_special_authority db (a : special_authority) : result unit :=
  match a with
  | no_special_authority => Ok tt
  | top_holders_special_authority i _ => _ ← tbl_get (assets db) i; Ok tt
  end.

Definition evaluate_buyback_account_options db (bbo : buyback_account_options) : result unit :=
  _ ← FC_ASSERT (HARDFORK_538_TIME <=? head_block_time db) "db.head_block_time() >= HARDFORK_538_TIME";
  a ← tbl_get (assets db) (asset_to_buy bbo);
  _ ← GRAPHENE_ASSERT (issuer a =? asset_to_buy_issuer bbo)%N "account_create_buyback_incorrect_issuer";
  _ ← GRAPHENE_ASSERT (negb (is_some (buyback_account a))) "account_create_buyback_already_exists";
  GRAPHENE_ASSERT (size (bb_markets bbo) <? GRAPHENE_DEFAULT_MAX_BUYBACK_MARKETS)%nat
    "account_create_buyback_too_many_markets".

Definition has_special_authority (a : account_object) : bool :=
  negb (bool_decide (owner_special_authority a = no_special_authority))
  || negb (bool_decide (active_special_authority a = no_special_authority)).

(** ** Tables with unique keys *)

Definition account_by_name db (name : string) : option (N * account_object) :=
  tbl_find_by (fun a => account_name a = name) (accounts db).

Definition insert_account db (a : account_object) : result (N * database) :=
  '(i, t) ← tbl_create_unique (fun b => account_name b = account_name a) (accounts db) a;
  Ok (i, db <| accounts := t |> <| statistics ::= <[i := Account_statistics_object 0 0 0 0]> |>).

Definition insert_special_authority db (account : N) : result database :=
  '(_, t) ← tbl_create_unique (fun b => b = account) (special_authorities (gov db)) account;
  Ok (db <| gov ::= fun g => g <| special_authorities := t |> |>).

Definition insert_buyback db (asset_to_buy : N) : result database :=
  '(_, t) ← tbl_create_unique (fun b => b = asset_to_buy) (buybacks (gov db)) asset_to_buy;
  Ok (db <| gov ::= fun g => g <| buybacks := t |> |>).

(** The count of new accounts, and the fee that doubles with it. *)
Definition count_registration db : result database :=
  let n := wrap32 (accounts_registered_this_interval (dgpo db) + 1) in
  let p := parameters db in
  let db := db <| dgpo ::= fun d => d <| accounts_registered_this_interval := n |> |> in
  if accounts_per_fee_scale p =? 0 then Err (undefined_behaviour "division by zero")
  else if n mod accounts_per_fee_scale p =? 0 then
    if 64 <=? account_fee_scale_bitshifts p then Err (undefined_behaviour "shift")
    else
      let fee := wrap64 (Z.shiftl (account_create_basic_fee p) (account_fee_scale_bitshifts p)) in
      Ok (db <| parameters := p <| account_create_basic_fee := fee |> |>)
  else Ok db.

(** ** Creating an account *)

Definition validate_authority (a : authority) : result unit :=
  _ ← FC_ASSERT (negb (num_auths a =? 0)) "num_auths() != 0";
  FC_ASSERT (length (address_auths a) =? 0)%nat "address_auths.size() == 0".

Definition account_create_validate (op : account_create_operation) : result unit :=
  _ ← fee_nonneg (an_fee op);
  valid ← is_valid_name fc_now (an_name op);
  _ ← FC_ASSERT valid "is_valid_name( name )";
  _ ← FC_ASSERT (an_referrer_percent op <=? GRAPHENE_100_PERCENT) "referrer_percent <= GRAPHENE_100_PERCENT";
  _ ← validate_authority (an_owner op);
  _ ← validate_authority (an_active op);
  _ ← FC_ASSERT (negb (is_impossible (an_owner op))) "impossible owner authority threshold";
  _ ← FC_ASSERT (negb (is_impossible (an_active op))) "impossible active authority threshold";
  _ ← account_options_validate (an_options op);
  _ ← if_valid (an_owner_special op) validate_special_authority;
  _ ← if_valid (an_active_special op) validate_special_authority;
  if_valid (an_buyback op) (fun bbo =>
    _ ← FC_ASSERT (negb (is_some (an_owner_special op))) "!owner_special_authority.valid()";
    _ ← FC_ASSERT (negb (is_some (an_active_special op))) "!active_special_authority.valid()";
    _ ← FC_ASSERT (bool_decide (an_owner op = null_authority)) "owner == authority::null_authority()";
    _ ← FC_ASSERT (bool_decide (an_active op = null_authority)) "active == authority::null_authority()";
    _ ← FC_ASSERT (0 <? size (bb_markets bbo))%nat "n_markets > 0";
    FC_ASSERT (negb (bool_decide (asset_to_buy bbo ∈ bb_markets bbo))) "m != asset_to_buy").

(** Extensions before their hard forks. *)
Definition check_extensions db (null_ext : bool) (owner_special active_special : option special_authority)
    (buyback : option buyback_account_options) : result unit :=
  _ ← (if head_block_time db <? HARDFORK_516_TIME then
         _ ← FC_ASSERT (negb (is_some owner_special)) "!owner_special_authority.valid()";
         FC_ASSERT (negb (is_some active_special)) "!active_special_authority.valid()"
       else Ok tt);
  if head_block_time db <? HARDFORK_599_TIME then
    _ ← FC_ASSERT (negb null_ext) "!null_ext.valid()";
    _ ← FC_ASSERT (negb (is_some owner_special)) "!owner_special_authority.valid()";
    _ ← FC_ASSERT (negb (is_some active_special)) "!active_special_authority.valid()";
    FC_ASSERT (negb (is_some buyback)) "!buyback_options.valid()"
  else Ok tt.

Definition account_create_do_evaluate db (op : account_create_operation) : result unit :=
  _ ← check_extensions db (an_null_ext op) (an_owner_special op) (an_active_special op) (an_buyback op);
  _ ← FC_ASSERT (is_some (objs (accounts db) !! voting_account (an_options op)))
        "Invalid proxy account specified.";
  payer ← tbl_get (accounts db) (an_registrar op);
  _ ← FC_ASSERT (is_lifetime_member payer) "Only Lifetime members may register an account.";
  ref ← tbl_get (accounts db) (an_referrer op);
  _ ← FC_ASSERT (is_member ref (head_block_time db))
        "The referrer must be either a lifetime or annual subscriber.";
  _ ← recode "internal_verify_auth_account_not_found" "account_create_auth_account_not_found"
        (recode "internal_verify_auth_max_auth_exceeded" "account_create_max_auth_exceeded"
          (_ ← verify_authority_accounts db (an_owner op); verify_authority_accounts db (an_active op)));
  _ ← if_valid (an_owner_special op) (evaluate_special_authority db);
  _ ← if_valid (an_active_special op) (evaluate_special_authority db);
  _ ← if_valid (an_buyback op) (evaluate_buyback_account_options db);
  _ ← verify_account_votes db (an_options op);
  if String.eqb (an_name op) "" then Ok tt
  else FC_ASSERT (negb (is_some (account_by_name db (an_name op)))) "current_account_itr == end".

(** Before hard fork 453 a small percentage was taken for a fraction of 100. *)
Definition effective_referrer_percent db (op : account_create_operation) : Z :=
  let p := an_referrer_percent op in
  if (head_block_time db <=? HARDFORK_453_TIME) && negb (an_referrer op =? an_registrar op)%N
     && negb (p =? 0) && (p <=? 256)
  then Z.min (wrap16 (p * 100)) GRAPHENE_100_PERCENT else p.

Definition new_account db (op : account_create_operation) (lifetime_referrer : N) : account_object :=
  Account_object 0 0 (an_registrar op) (an_referrer op) lifetime_referrer
    (network_percent_of_fee (parameters db)) (lifetime_referrer_percent_of_fee (parameters db))
    (effective_referrer_percent db op) (an_name op) (an_owner op) (an_active op) (an_options op) ∅ ∅ ∅ ∅ None
    (default no_special_authority (an_owner_special op)) (default no_special_authority (an_active_special op)) 0
    ((fun bbo => {[ asset_to_buy bbo ]} ∪ bb_markets bbo) <$> an_buyback op).

Definition account_create_do_apply db (op : account_create_operation) : result database :=
  ref ← tbl_get (accounts db) (an_referrer op);
  '(i, db) ← insert_account db (new_account db op (lifetime_referrer ref));
  db ← count_registration db;
  db ← (if is_some (an_owner_special op) || is_some (an_active_special op)
        then insert_special_authority db i else Ok db);
  match an_buyback op with
  | None => Ok db
  | Some bbo =>
      db ← insert_buyback db (asset_to_buy bbo);
      _ ← tbl_get (assets db) (asset_to_buy bbo);
      Ok (db <| assets ::= fun t => tbl_modify t (asset_to_buy bbo) (fun a => a <| buyback_account := Some i |>) |>)
  end.

(** ** Updating an account *)

Definition account_update_validate (op : account_update_operation) : result unit :=
  _ ← FC_ASSERT (negb (ap_account op =? GRAPHENE_TEMP_ACCOUNT)%N) "account != GRAPHENE_TEMP_ACCOUNT";
  _ ← fee_nonneg (ap_fee op);
  _ ← FC_ASSERT (negb (ap_account op =? 0)%N) "account != account_id_type()";
  _ ← FC_ASSERT (is_some (ap_owner op) || is_some (ap_active op) || is_some (ap_new_options op)
                 || is_some (ap_owner_special op) || is_some (ap_active_special op)) "has_action";
  let authority_ok a := _ ← validate_authority a; FC_ASSERT (negb (is_impossible a)) "impossible threshold" in
  _ ← if_valid (ap_owner op) authority_ok;
  _ ← if_valid (ap_active op) authority_ok;
  _ ← if_valid (ap_new_options op) account_options_validate;
  _ ← if_valid (ap_owner_special op) validate_special_authority;
  if_valid (ap_active_special op) validate_special_authority.

Definition account_update_do_evaluate db (op : account_update_operation) : result unit :=
  _ ← check_extensions db (ap_null_ext op) (ap_owner_special op) (ap_active_special op) None;
  _ ← recode "internal_verify_auth_account_not_found" "account_update_auth_account_not_found"
        (recode "internal_verify_auth_max_auth_exceeded" "account_update_max_auth_exceeded"
          (_ ← if_valid (ap_owner op) (verify_authority_accounts db);
           if_valid (ap_active op) (verify_authority_accounts db)));
  _ ← if_valid (ap_owner_special op) (evaluate_special_authority db);
  _ ← if_valid (ap_active_special op) (evaluate_special_authority db);
  _ ← tbl_get (accounts db) (ap_account op);
  if_valid (ap_new_options op) (verify_account_votes db).

(** The fields the operation sets; setting an authority takes it out of the hands
    of the top holders. *)
Definition updated_account (op : account_update_operation) (a : account_object) : account_object :=
  let a := match ap_owner op with
           | Some x => a <| owner_authority := x |> <| top_n_control_flags := 0 |> | None => a end in
  let a := match ap_active op with
           | Some x => a <| active_authority := x |> <| top_n_control_flags := 0 |> | None => a end in
  let a := match ap_new_options op with Some x => a <| account_opts := x |> | None => a end in
  let a := match ap_owner_special op with
           | Some x => a <| owner_special_authority := x |> <| top_n_control_flags := 0 |> | None => a end in
  match ap_active_special op with
  | Some x => a <| active_special_authority := x |> <| top_n_control_flags := 0 |> | None => a end.

Definition account_update_do_apply db (op : account_update_operation) : result database :=
  a ← tbl_get (accounts db) (ap_account op);
  let sa_before := has_special_authority a in
  let sa_after := has_special_authority (updated_account op a) in
  let db := db <| accounts ::= fun t => tbl_modify t (ap_account op) (updated_account op) |> in
  if sa_before && negb sa_after then
    '(i, _) ← of_option (tbl_find_by (fun b => b = ap_account op) (special_authorities (gov db)))
                (c_assert "sa_it != sa_idx.end()");
    Ok (db <| gov ::= fun g => g <| special_authorities ::= fun t => tbl_remove t i |> |>)
  else if negb sa_before && sa_after then insert_special_authority db (ap_account op)
  else Ok db.

(** ** Lists of accounts *)

Definition white_listed : Z := 1.
Definition black_listed : Z := 2.

Definition account_whitelist_validate (op : account_whitelist_operation) : result unit :=
  _ ← fee_nonneg (aw_fee op);
  FC_ASSERT (new_listing op <? 4) "new_listing < 0x4".

Definition account_whitelist_do_evaluate db (op : account_whitelist_operation) : result unit :=
  _ ← tbl_get (accounts db) (account_to_list op);
  if allow_non_member_whitelists (parameters db) then Ok tt
  else
    a ← tbl_get (accounts db) (authorizing_account op);
    FC_ASSERT (is_lifetime_member a) "o.authorizing_account(d).is_lifetime_member()".

(** Insert or erase [i], as [listing & mask] says. *)
Definition list_account (listing mask : Z) (i : N) (s : gset N) : gset N :=
  if has_flag listing mask then {[ i ]} ∪ s else s ∖ {[ i ]}.

Definition account_whitelist_do_apply db (op : account_whitelist_operation) : result database :=
  let by_ := authorizing_account op in
  let on := account_to_list op in
  _ ← tbl_get (accounts db) on;
  let db := db <| accounts ::= fun t => tbl_modify t on (fun a =>
    a <| whitelisting_accounts ::= list_account (new_listing op) white_listed by_ |>
      <| blacklisting_accounts ::= list_account (new_listing op) black_listed by_ |>) |> in
  _ ← tbl_get (accounts db) by_;
  Ok (db <| accounts ::= fun t => tbl_modify t by_ (fun a =>
    a <| whitelisted_accounts ::= list_account (new_listing op) white_listed on |>
      <| blacklisted_accounts ::= list_account (new_listing op) black_listed on |>) |>).

(** ** Membership *)

Definition account_upgrade_validate (op : account_upgrade_operation) : result unit := fee_nonneg (ag_fee op).

Definition account_upgrade_do_evaluate db (op : account_upgrade_operation) : result unit :=
  a ← tbl_get (accounts db) (account_to_upgrade op);
  FC_ASSERT (negb (is_lifetime_member a)) "!account->is_lifetime_member()".

Definition become_lifetime_member (i : N) (a : account_object) : account_object :=
  a <| membership_expiration_date := time_point_sec_maximum |>
    <| referrer := i |> <| registrar := i |> <| lifetime_referrer := i |>
    <| lifetime_referrer_fee_percentage := wrap16 (GRAPHENE_100_PERCENT - network_fee_percentage a) |>.

(** Fees are paid out inside the modification of the account, which sees what
    that changes. *)
Definition account_upgrade_do_apply db (op : account_upgrade_operation) : result database :=
  let i := account_to_upgrade op in
  let now := head_block_time db in
  let modify db f := db <| accounts ::= fun t => tbl_modify t i f |> in
  a ← tbl_get (accounts db) i;
  if upgrade_to_lifetime_member op then
    db ← process_fees db i;
    Ok (modify db (become_lifetime_member i))
  else if is_annual_member a now then
    _ ← FC_ASSERT (now <=? HARDFORK_613_TIME) "d.head_block_time() <= HARDFORK_613_TIME";
    _ ← FC_ASSERT (membership_expiration_date a - now <? days 3650)
          "May not extend annual membership more than a decade into the future.";
    Ok (modify db (fun a => a <| membership_expiration_date ::= fun t => wrap32 (t + days 365) |>))
  else
    _ ← FC_ASSERT (now <=? HARDFORK_613_TIME) "d.head_block_time() <= HARDFORK_613_TIME";
    db ← process_fees db i;
    _ ← C_ASSERT (is_basic_account a now) "a.is_basic_account( d.head_block_time() )";
    Ok (modify db (fun a => a <| referrer := i |> <| membership_expiration_date := wrap32 (now + days 365) |>)).

(** ** Creating an account by a transfer *)

Definition generated_name (key : public_key) : string := ("n" ++ fc_to_base36 key)%string.

Definition account_create_by_transfer_validate (op : account_create_by_transfer_operation) : result unit :=
  _ ← fee_nonneg (ct_fee op);
  FC_ASSERT (0 <? amount (ct_amount op)) "amount.amount > 0".

Definition account_create_by_transfer_do_evaluate db (op : account_create_by_transfer_operation) : result unit :=
  from ← tbl_get (accounts db) (ct_from op);
  let id := asset_id (ct_amount op) in
  asset_type ← tbl_get (assets db) id;
  _ ← FC_ASSERT (negb (is_some (account_by_name db (generated_name (account_key op)))))
        "auto generated account name already used.";
  _ ← GRAPHENE_ASSERT (is_authorized_asset db from id asset_type) "transfer_from_account_not_whitelisted";
  _ ← (if is_transfer_restricted asset_type then
         GRAPHENE_ASSERT (ct_from op =? issuer asset_type)%N "transfer_restricted_transfer_asset"
       else Ok tt);
  FC_ASSERT (amount (ct_amount op) <=? amount (get_balance db (ct_from op) id)) "Insufficient Balance".

Definition key_authority (key : public_key) : authority := Authority 1 [] [(key, 1)] [].

Definition account_of_key db (key : public_key) (introducer : N) : account_object :=
  Account_object 0 0 introducer introducer introducer
    (network_percent_of_fee (parameters db)) (lifetime_referrer_percent_of_fee (parameters db)) 0
    (generated_name key) (key_authority key) (key_authority key)
    (Account_options key GRAPHENE_PROXY_TO_SELF_ACCOUNT 0 0 ∅) ∅ ∅ ∅ ∅ None
    no_special_authority no_special_authority 0 None.

Definition account_create_by_transfer_do_apply db (op : account_create_by_transfer_operation) : result database :=
  from ← tbl_get (accounts db) (ct_from op);
  '(i, db) ← insert_account db (account_of_key db (account_key op)
                                  (if is_lifetime_member from then ct_from op else GRAPHENE_NULL_ACCOUNT));
  db ← count_registration db;
  n ← asset_neg (ct_amount op);
  db ← adjust_balance db (ct_from op) n;
  adjust_balance db i (ct_amount op).
End AccountOps.

(** ** Instances *)

#[export] Instance account_create_evaluator `{FC : FcLib} : Evaluator account_create_operation := {|
  validate := account_create_validate; fee_payer := an_registrar; op_fee := an_fee;
  do_evaluate db st op := keep st (account_create_do_evaluate db op); pay_fee := generic_pay_fee;
  do_apply db _ op := account_create_do_apply db op;
|}.
#[export] Instance account_update_evaluator `{FC : FcLib} : Evaluator account_update_operation := {|
  validate := account_update_validate; fee_payer := ap_account; op_fee := ap_fee;
  do_evaluate db st op := keep st (account_update_do_evaluate db op); pay_fee := generic_pay_fee;
  do_apply db _ op := account_update_do_apply db op;
|}.
#[export] Instance account_whitelist_evaluator `{FC : FcLib} : Evaluator account_whitelist_operation := {|
  validate := account_whitelist_validate; fee_payer := authorizing_account; op_fee := aw_fee;
  do_evaluate db st op := keep st (account_whitelist_do_evaluate db op); pay_fee := generic_pay_fee;
  do_apply db _ op := account_whitelist_do_apply db op;
|}.
#[export] Instance account_upgrade_evaluator `{FC : FcLib} : Evaluator account_upgrade_operation := {|
  validate := account_upgrade_validate; fee_payer := account_to_upgrade; op_fee := ag_fee;
  do_evaluate db st op := keep st (account_upgrade_do_evaluate db op); pay_fee := generic_pay_fee;
  do_apply db _ op := account_upgrade_do_apply db op;
|}.
#[export] Instance account_create_by_transfer_evaluator `{FC : FcLib} :
    Evaluator account_create_by_transfer_operation := {|
  validate := account_create_by_transfer_validate; fee_payer := ct_from; op_fee := ct_fee;
  do_evaluate db st op := keep st (account_create_by_transfer_do_evaluate db op); pay_fee := generic_pay_fee;
  do_apply db _ op := account_create_by_transfer_do_apply db op;
|}.

(** ** Sound accounts *)

(** The accounts an account's authorities name. *)
Definition members (a : account_object) : list N :=
  (account_auths (owner_authority a)).*1 ++ (account_auths (active_authority a)).*1.

(** Names are unique, authorities name accounts that exist, and every account has
    its statistics. *)
Record people_ok (t : table account_object) (stats : gmap N account_statistics_object) : Prop := {
  people_ids : wf_table t;
  people_names i j a b : objs t !! i = Some a -> objs t !! j = Some b -> account_name a = account_name b -> i = j;
  people_members i a m : objs t !! i = Some a -> m ∈ members a -> is_Some (objs t !! m);
  people_stats i : stats !! i = None <-> objs t !! i = None;
}.

(** Every account with a special authority is recorded, once. *)
Record specials_ok (t : table account_object) (sp : table N) : Prop := {
  specials_recorded i a : objs t !! i = Some a -> has_special_authority a = true ->
    exists j, objs sp !! j = Some i;
  specials_ids : wf_table sp;
  specials_once j k i : objs sp !! j = Some i -> objs sp !! k = Some i -> j = k;
}.

Definition accounts_sound (db : database) : Prop :=
  people_ok (accounts db) (statistics db) /\ specials_ok (accounts db) (special_authorities (gov db)).

(** What soundness depends on; and the clock, the witnesses and the parameters
    stay, too. *)
Definition identity (a : account_object) :=
  (account_name a, owner_authority a, active_authority a, owner_special_authority a, active_special_authority a).

Record same_people (db db' : database) : Prop := {
  same_identity i : identity <$> objs (accounts db') !! i = identity <$> objs (accounts db) !! i;
  same_next : next_instance (accounts db') = next_instance (accounts db);
  same_stats i : statistics db' !! i = None <-> statistics db !! i = None;
  same_governance : gov db' = gov db;
  same_clock : dgpo db' = dgpo db;
  same_elected : witnesses db' = witnesses db;
  same_slots : active_witnesses db' = active_witnesses db /\
    current_shuffled_witnesses db' = current_shuffled_witnesses db;
  same_params : parameters db' = parameters db;
}.

Section Facts.
Context `{FC : FcLib, !FcLaws FC}.
Implicit Types (db : database) (st : fee_state) (i : N).

(** ** What the operations do to the books *)

Lemma insert_account_inv db a i db' :
  insert_account db a = Ok (i, db') ->
  i = next_instance (accounts db) /\
  (forall j b, objs (accounts db) !! j = Some b -> account_name b <> account_name a) /\
  db' = db <| accounts := (tbl_create (accounts db) a).2 |>
           <| statistics ::= <[i := Account_statistics_object 0 0 0 0]> |>.
Proof.
  unfold insert_account. intros H. apply bind_Ok in H as ([j t] & H & E).
  apply tbl_create_unique_inv in H as [[= -> ->] Hn]. injection E as <- <-. done.
Qed.

Lemma insert_account_moves db a i db' :
  statistics db !! next_instance (accounts db) = None ->
  insert_account db a = Ok (i, db') -> moves db db' (fun _ => 0).
Proof.
  intros Hf (-> & _ & ->)%insert_account_inv [[]]. split_and!; [by split|done|].
  intros c. unfold unbacked, holdings, supply, fees_of, dynamic_of; simpl.
  rewrite map_sum_insert_new by done. unfold statistics_part at 1. simpl. rewrite core_in_0. lia.
Qed.

Lemma insert_special_authority_inv db i db' :
  insert_special_authority db i = Ok db' ->
  (forall j b, objs (special_authorities (gov db)) !! j = Some b -> b <> i) /\
  db' = db <| gov ::= fun g => g <| special_authorities := (tbl_create (special_authorities g) i).2 |> |>.
Proof.
  unfold insert_special_authority. intros H. apply bind_Ok in H as ([j t] & H & E).
  apply tbl_create_unique_inv in H as [[= -> ->] Hn]. injection E as <-. done.
Qed.

Lemma insert_buyback_inv db i db' :
  insert_buyback db i = Ok db' ->
  (forall j b, objs (buybacks (gov db)) !! j = Some b -> b <> i) /\
  db' = db <| gov ::= fun g => g <| buybacks := (tbl_create (buybacks g) i).2 |> |>.
Proof.
  unfold insert_buyback. intros H. apply bind_Ok in H as ([j t] & H & E).
  apply tbl_create_unique_inv in H as [[= -> ->] Hn]. injection E as <-. done.
Qed.

(** Counting a registration changes the count and the fee only. *)
Lemma count_registration_inv db db' :
  count_registration db = Ok db' ->
  exists n fee, db' = db <| dgpo ::= fun d => d <| accounts_registered_this_interval := n |> |>
                         <| parameters ::= fun p => p <| account_create_basic_fee := fee |> |>.
Proof.
  unfold count_registration. cbv zeta. intros H. destruct (_ =? 0); [done|]. destruct (_ =? 0).
  - destruct (64 <=? _); [done|]. inv_result. eexists _, _. reflexivity.
  - inv_result. exists (wrap32 (accounts_registered_this_interval (dgpo db) + 1)),
      (account_create_basic_fee (parameters db)). destruct db as []; cbn.
    by match goal with p : chain_parameters |- _ => destruct p end.
Qed.

Lemma count_registration_moves db db' : count_registration db = Ok db' -> moves db db' (fun _ => 0).
Proof. intros (n & fee & ->)%count_registration_inv. by apply moves_same. Qed.

Lemma set_buyback_moves db i o :
  moves db (db <| assets ::= fun t => tbl_modify t i (fun a => a <| buyback_account := o |>) |>) (fun _ => 0).
Proof.
  intros W. refine (modify_asset_moves db i _ _ _ W); [done|].
  intros a Ha. exact (wf_market_fees _ (wf_db_assets _ W) i a Ha).
Qed.

Lemma moves_step0 db1 db2 db3 :
  moves db1 db2 (fun _ => 0) -> moves db2 db3 (fun _ => 0) -> moves db1 db3 (fun _ => 0).
Proof. intros M1 M2. by eapply moves_eq; [by eapply moves_step|]. Qed.

Lemma account_create_moves db op db' :
  statistics db !! next_instance (accounts db) = None ->
  account_create_do_apply db op = Ok db' -> moves db db' (fun _ => 0).
Proof.
  unfold account_create_do_apply. intros Hf H. inv_results.
  match goal with H : insert_account _ _ = _ |- _ => apply insert_account_moves in H as M1; [|done] end.
  match goal with H : count_registration _ = _ |- _ => apply count_registration_moves in H as M2 end.
  match goal with H : (if _ || _ then _ else Ok ?d) = Ok ?d' |- _ =>
    assert (M3 : moves d d' (fun _ => 0)); [rename H into Hs|clear H] end.
  { destruct (_ || _); [|inv_result; apply moves_refl].
    apply insert_special_authority_inv in Hs as [_ ->]. by apply moves_same. }
  pose proof (moves_step0 _ _ _ (moves_step0 _ _ _ M1 M2) M3) as M.
  destruct (an_buyback op); inv_result; [|done].
  match goal with H : insert_buyback _ _ = _ |- _ => apply insert_buyback_inv in H as [_ ->] end.
  eapply moves_step0; [exact M|]. eapply moves_step0; [|apply set_buyback_moves]. by apply moves_same.
Qed.

Lemma account_update_moves db op db' : account_update_do_apply db op = Ok db' -> moves db db' (fun _ => 0).
Proof.
  unfold account_update_do_apply. cbv zeta. intros H. inv_results.
  repeat match goal with H : (if _ then _ else _) = Ok _ |- _ => destruct (_ && _) in H end; inv_results;
    try match goal with H : insert_special_authority _ _ = _ |- _ => apply insert_special_authority_inv in H as [_ ->] end;
    by apply moves_same.
Qed.

Lemma account_whitelist_moves db op db' : account_whitelist_do_apply db op = Ok db' -> moves db db' (fun _ => 0).
Proof. unfold account_whitelist_do_apply. cbv zeta. intros H. inv_result. by apply moves_same. Qed.

Lemma account_upgrade_moves db op db' : account_upgrade_do_apply db op = Ok db' -> moves db db' (fun _ => 0).
Proof.
  unfold account_upgrade_do_apply. cbv zeta. intros H. inv_result.
  destruct (upgrade_to_lifetime_member op); [|destruct is_annual_member]; inv_result; try by apply moves_same.
  all: match goal with H : process_fees _ _ = _ |- _ => apply process_fees_moves in H as M end.
  all: eapply moves_step0; [exact M|by apply moves_same].
Qed.

Lemma account_create_by_transfer_moves db op db' :
  statistics db !! next_instance (accounts db) = None ->
  account_create_by_transfer_do_apply db op = Ok db' -> moves db db' (fun _ => 0).
Proof.
  unfold account_create_by_transfer_do_apply. intros Hf H. inv_results.
  match goal with H : insert_account _ _ = _ |- _ => apply insert_account_moves in H as M1; [|done] end.
  match goal with H : count_registration _ = _ |- _ => apply count_registration_moves in H as M2 end.
  match goal with H : asset_neg _ = _ |- _ => apply asset_neg_inv in H as -> end.
  repeat match goal with H : adjust_balance _ _ _ = _ |- _ => apply adjust_balance_moves in H end.
  eapply moves_eq; [eapply moves_step; [eapply moves_step; [exact (moves_step0 _ _ _ M1 M2)|eassumption]|eassumption]|].
  intros c. cbv beta. rewrite amount_in_opp. lia.
Qed.

(** The promises of the operations that make no account. *)
#[export] Instance account_update_conserving : Conserving account_update_operation.
Proof.
  refine {| pre := fun _ _ => True; applies := _ |}.
  conserving @keep ltac:(by eapply moves_drains, account_update_moves).
Defined.
#[export] Instance account_whitelist_conserving : Conserving account_whitelist_operation.
Proof.
  refine {| pre := fun _ _ => True; applies := _ |}.
  conserving @keep ltac:(by eapply moves_drains, account_whitelist_moves).
Defined.
#[export] Instance account_upgrade_conserving : Conserving account_upgrade_operation.
Proof.
  refine {| pre := fun _ _ => True; applies := _ |}.
  conserving @keep ltac:(by eapply moves_drains, account_upgrade_moves).
Defined.

(** An operation that makes an account needs the statistics of the new id to be free. *)
Lemma makes_account {Op} `{E : !Evaluator Op} ctx db (op : Op) db' :
  skip_fee ctx = false -> pay_fee (Op := Op) = generic_pay_fee ->
  (forall st st1, do_evaluate db st op = Ok st1 -> st1 = st) ->
  (forall db2 st db3, statistics db2 !! next_instance (accounts db2) = None ->
     do_apply db2 st op = Ok db3 -> moves db2 db3 (fun _ => 0)) ->
  statistics db !! next_instance (accounts db) = None ->
  start_evaluate ctx db op = Ok db' -> wf_db db ->
  wf_db db' /\ forall a, unbacked db' a = unbacked db a + core_in a 0.
Proof.
  intros Hs Hp He Happ Hf. refine (generic_makes ctx db op db' 0 Hs Hp He _).
  intros db2 st db3 F Hn H W. destruct (Happ db2 st db3) with (3 := W) as (W3 & _ & E3); [|done|].
  { apply Hn. by replace (accounts db2) with (accounts db) by by rewrite F. }
  split; [done|]. intros a. rewrite E3, core_in_0. lia.
Qed.

(** ** Soundness *)

#[export] Instance same_people_preorder : PreOrder same_people.
Proof.
  split; [by intros db|]. intros db1 db2 db3 [] []. destruct_and!. split; try congruence; [naive_solver|split; congruence].
Qed.

Lemma same_people_lookup db db' i a :
  same_people db db' -> objs (accounts db') !! i = Some a ->
  exists a0, objs (accounts db) !! i = Some a0 /\ identity a0 = identity a.
Proof.
  intros S Ha. pose proof (same_identity _ _ S i) as E. rewrite Ha in E. cbn in E.
  destruct (objs (accounts db) !! i) as [a0|]; [|done]. injection E as E. unfold identity.
  exists a0. split; [done|congruence].
Qed.

Lemma same_people_is_Some db db' i :
  same_people db db' -> is_Some (objs (accounts db') !! i) <-> is_Some (objs (accounts db) !! i).
Proof. intros S. rewrite <-(fmap_is_Some identity), (same_identity _ _ S), fmap_is_Some. done. Qed.

Lemma accounts_sound_same db db' : same_people db db' -> accounts_sound db -> accounts_sound db'.
Proof.
  intros S [P Q]. pose proof (fun i a => same_people_lookup db db' i a S) as L.
  pose proof (fun i => same_people_is_Some db db' i S) as D. split.
  - split.
    + intros i Hi. rewrite (same_next _ _ S). by apply (people_ids _ _ P), D.
    + intros i j a b (a0 & Ha & Ea)%L (b0 & Hb & Eb)%L En. unfold identity in *.
      eapply (people_names _ _ P); [done..|congruence].
    + intros i a m (a0 & Ha & Ea)%L Hm. apply D. eapply (people_members _ _ P); [done|].
      unfold members, identity in *. by injection Ea as _ -> -> _ _.
    + intros i. by rewrite (same_stats _ _ S), (people_stats _ _ P), !eq_None_not_Some, D.
  - rewrite (same_governance _ _ S). split.
    + intros i a (a0 & Ha & Ea)%L Hs. eapply (specials_recorded _ _ Q); [done|].
      unfold has_special_authority, identity in *. by injection Ea as _ _ _ -> ->.
    + apply Q.
    + apply Q.
Qed.

(** A change of one account that keeps its identity. *)
Lemma modify_account_same db i f :
  (forall a, identity (f a) = identity a) -> same_people db (db <| accounts ::= fun t => tbl_modify t i f |>).
Proof.
  intros Hf. split; [|done..]. intros j. simpl. destruct (decide (j = i)) as [->|].
  - rewrite lookup_alter_eq. destruct (_ !! i); simpl; [by rewrite Hf|done].
  - by rewrite lookup_alter_ne.
Qed.

Lemma deposit_lazy_vesting_same db o x s owner b v db' :
  deposit_lazy_vesting db o x s owner b = Ok (v, db') -> same_people db db'.
Proof.
  unfold deposit_lazy_vesting, new_lazy_vesting, tbl_create. intros H.
  destruct (x =? 0); [by inv_result|]. destruct o; inv_result; [destruct lazy_target; inv_result|]; by split.
Qed.

Lemma deposit_cashback_same db i x b db' : deposit_cashback db i x b = Ok db' -> same_people db db'.
Proof.
  unfold deposit_cashback. intros H. destruct (x =? 0); [by inv_result|].
  destruct is_blockchain_account; inv_results; [by split|].
  match goal with H : deposit_lazy_vesting _ _ _ _ _ _ = _ |- _ => apply deposit_lazy_vesting_same in H as S end.
  match goal with H : match ?v with _ => _ end = _ |- _ => destruct v end; inv_result; [|done].
  etrans; [exact S|by apply modify_account_same].
Qed.

Lemma pay_out_fees_same db i x b db' : pay_out_fees db i x b = Ok db' -> same_people db db'.
Proof.
  unfold pay_out_fees. cbv zeta. intros H. inv_result. inv_get.
  repeat match goal with H : deposit_cashback _ _ _ _ = _ |- _ => apply deposit_cashback_same in H end.
  repeat (etrans; [|eassumption]). split; [|done..]. intros j. simpl. destruct (decide (j = i)) as [->|].
  - rewrite lookup_alter_eq. simplify_map_eq. destruct (is_basic_account _ _); done.
  - by rewrite lookup_alter_ne.
Qed.

Lemma process_fees_same db i db' : process_fees db i = Ok db' -> same_people db db'.
Proof.
  unfold process_fees. intros H. inv_result. destruct (_ || _); inv_result; [|done].
  repeat match goal with H : pay_out_fees _ _ _ _ = _ |- _ => apply pay_out_fees_same in H end.
  repeat (etrans; [eassumption|]). split; try done. intros j. apply lookup_alter_None.
Qed.

Lemma recode_Ok {A} x y (r : result A) a : recode x y r = Ok a -> r = Ok a.
Proof. unfold recode. destruct r as [|[]]; try done. by destruct (String.eqb _ _). Qed.

Lemma verify_authority_members db a u :
  verify_authority_accounts db a = Ok u -> forall m, m ∈ (account_auths a).*1 -> is_Some (objs (accounts db) !! m).
Proof.
  unfold verify_authority_accounts. intros H. inv_result. revert H.
  induction (account_auths a) as [|x l IH]; cbn [foldM]; intros H m Hm; [by apply elem_of_nil in Hm|].
  inv_result. repeat match goal with v : unit |- _ => destruct v end. cbn [fmap list_fmap] in Hm. apply elem_of_cons in Hm as [->|Hm]; [|by apply IH].
  match goal with H : is_some ?o = true |- _ => by destruct o end.
Qed.

Lemma evaluated_members db op u m :
  account_create_do_evaluate db op = Ok u -> m ∈ (account_auths (an_owner op)).*1 ++ (account_auths (an_active op)).*1 ->
  is_Some (objs (accounts db) !! m).
Proof.
  unfold account_create_do_evaluate. intros H Hm. apply elem_of_app in Hm. inv_result.
  repeat match goal with H : recode _ _ _ = Ok _ |- _ => apply recode_Ok in H end. inv_result.
  destruct Hm as [Hm|Hm];
    match goal with V : verify_authority_accounts _ _ = Ok _ |- _ => exact (verify_authority_members _ _ _ V _ Hm) end.
Qed.

Lemma insert_account_people db a i db' :
  people_ok (accounts db) (statistics db) -> (forall m, m ∈ members a -> is_Some (objs (accounts db) !! m)) ->
  insert_account db a = Ok (i, db') ->
  people_ok (accounts db') (statistics db') /\ gov db' = gov db /\
  objs (accounts db) !! i = None /\ objs (accounts db') = <[i := a]> (objs (accounts db)).
Proof.
  intros P Hm (-> & Hn & ->)%insert_account_inv. pose proof (wf_table_fresh _ (people_ids _ _ P)) as Hf.
  split_and!; try done. split.
  - by apply tbl_create_wf, P.
  - intros j k b c. simpl. rewrite !lookup_insert_Some. intros [[<- <-]|[Hj Hb]] [[<- <-]|[Hk Hc]] E; try done.
    + by apply Hn in Hc.
    + by apply Hn in Hb.
    + by eapply (people_names _ _ P).
  - intros j b m. simpl. rewrite lookup_insert_Some, lookup_insert_is_Some'. intros [[<- <-]|[_ Hb]] Hin; [eauto|].
    right. by eapply (people_members _ _ P).
  - intros j. simpl. rewrite !lookup_insert_None, (people_stats _ _ P). done.
Qed.

(** The record of special authorities follows an account that is set. *)
Section Specials.
Context (t t' : table account_object) (sp : table N) (i : N) (a : account_object).
Context (Hset : objs t' = <[i := a]> (objs t)) (Q : specials_ok t sp).

Lemma specials_none : has_special_authority a = false -> specials_ok t' sp.
Proof.
  intros Hs. split; [|apply Q..]. intros j b. rewrite Hset, lookup_insert_Some.
  intros [[<- <-]|[_ Hb]]; [congruence|]. by apply (specials_recorded _ _ Q).
Qed.

Lemma specials_kept a0 : objs t !! i = Some a0 -> has_special_authority a0 = true -> specials_ok t' sp.
Proof.
  intros H0 Hs. split; [|apply Q..]. intros j b. rewrite Hset, lookup_insert_Some.
  intros [[<- <-]|[_ Hb]] Hb'; by eapply (specials_recorded _ _ Q).
Qed.

Lemma specials_added : (forall j b, objs sp !! j = Some b -> b <> i) -> specials_ok t' (tbl_create sp i).2.
Proof.
  intros Hn. pose proof (wf_table_fresh _ (specials_ids _ _ Q)) as Hf. split.
  - intros j b. rewrite Hset, lookup_insert_Some. simpl. intros [[<- <-]|[_ Hb]] Hs.
    + exists (next_instance sp). apply lookup_insert_eq.
    + destruct (specials_recorded _ _ Q _ _ Hb Hs) as [k Hk]. exists k.
      rewrite lookup_insert_ne; [done|]. intros <-. congruence.
  - by apply tbl_create_wf, Q.
  - intros j k b. simpl. rewrite !lookup_insert_Some. intros [[<- <-]|[_ Hj]] [[<- Hk]|[_ Hk]]; try done.
    + by apply Hn in Hk.
    + subst b. by apply Hn in Hj.
    + by eapply (specials_once _ _ Q).
Qed.

Lemma specials_removed j : objs sp !! j = Some i -> has_special_authority a = false -> specials_ok t' (tbl_remove sp j).
Proof.
  intros Hj Hs. split.
  - intros k b. rewrite Hset, lookup_insert_Some. intros [[<- <-]|[Hk Hb]] Hs'; [congruence|].
    destruct (specials_recorded _ _ Q _ _ Hb Hs') as [x Hx]. exists x. simpl.
    rewrite lookup_delete_ne; [done|]. intros <-. congruence.
  - apply tbl_remove_wf, Q.
  - intros x y b. simpl. intros [_ Hx]%lookup_delete_Some [_ Hy]%lookup_delete_Some. by eapply (specials_once _ _ Q).
Qed.
End Specials.

(** Each operation keeps the accounts sound; what its evaluation found was found in
    a state [db0] with the same accounts. *)

Lemma count_registration_parts db db' :
  count_registration db = Ok db' ->
  accounts db' = accounts db /\ statistics db' = statistics db /\ gov db' = gov db /\ assets db' = assets db.
Proof. by intros (n & fee & ->)%count_registration_inv. Qed.

Lemma account_create_sound db op db' u :
  account_create_do_evaluate db op = Ok u ->
  forall db2, accounts db2 = accounts db -> accounts_sound db2 ->
  account_create_do_apply db2 op = Ok db' -> accounts_sound db'.
Proof.
  unfold account_create_do_apply. intros He db2 Ea [P Q] H. inv_results.
  pose proof (fun m => evaluated_members _ _ _ m He) as Hm. rewrite <-Ea in Hm.
  match goal with H : insert_account _ ?x = Ok _ |- _ =>
    set (acnt := x) in H; apply insert_account_people in H as (P1 & G1 & Hi & Hs); [|done|exact Hm] end.
  match goal with H : count_registration _ = _ |- _ => apply count_registration_parts in H as (A2 & S2 & G2 & _) end.
  match goal with H : (if _ || _ then _ else Ok ?d) = Ok ?d' |- _ => rename H into Hsp; set (db3 := d) in *; set (db4 := d') in * end.
  assert (R : accounts_sound db4).
  { rewrite <-A2 in Hs. destruct (_ || _) eqn:Hext in Hsp.
    - apply insert_special_authority_inv in Hsp as [Hn ->]. split; cbn; [by rewrite A2, S2|].
      rewrite G2, G1 in *. by eapply specials_added.
    - injection Hsp as <-. split; [by rewrite A2, S2|]. rewrite G2, G1. eapply specials_none; [exact Hs|done|].
      unfold acnt, has_special_authority, new_account. cbn.
      destruct (an_owner_special op), (an_active_special op); done. }
  clearbody db4. destruct (an_buyback op); inv_result; [|done].
  match goal with H : insert_buyback _ _ = _ |- _ => apply insert_buyback_inv in H as [_ ->] end. exact R.
Qed.

Lemma updated_members db op a u m :
  account_update_do_evaluate db op = Ok u -> m ∈ members (updated_account op a) ->
  m ∈ members a \/ is_Some (objs (accounts db) !! m).
Proof.
  unfold account_update_do_evaluate, members. intros He Hm. inv_result.
  repeat match goal with H : recode _ _ _ = Ok _ |- _ => apply recode_Ok in H end. inv_result.
  rewrite elem_of_app in *. unfold updated_account in Hm.
  destruct (ap_owner op), (ap_active op), (ap_new_options op), (ap_owner_special op), (ap_active_special op);
    simpl in *; destruct Hm as [Hm|Hm]; first [by auto|right;
    match goal with V : verify_authority_accounts _ _ = Ok _ |- _ => exact (verify_authority_members _ _ _ V _ Hm) end].
Qed.

(** Setting an account to one of the same name, with members that exist. *)
Lemma people_ok_set t stats i f a0 :
  objs t !! i = Some a0 -> account_name (f a0) = account_name a0 ->
  (forall m, m ∈ members (f a0) -> is_Some (objs t !! m)) -> people_ok t stats -> people_ok (tbl_modify t i f) stats.
Proof.
  intros H0 Hname Hmem P. pose proof (tbl_modify_insert t i f a0 H0) as Hset. split.
  - apply tbl_modify_wf, P.
  - intros j k b c. rewrite Hset, !lookup_insert_Some. intros [[<- <-]|[Hj Hb]] [[<- <-]|[Hk Hc]] E; try done;
      eapply (people_names _ _ P); try done; congruence.
  - intros j b m. rewrite Hset, lookup_insert_Some, lookup_insert_is_Some'. intros [[<- <-]|[_ Hb]] Hm; right; [by apply Hmem|].
    by eapply (people_members _ _ P).
  - intros j. rewrite Hset, lookup_insert_None, (people_stats _ _ P). split; [|naive_solver].
    intros Hj. split; [done|]. intros <-. congruence.
Qed.

Lemma account_update_sound db op db' u :
  account_update_do_evaluate db op = Ok u ->
  forall db2, accounts db2 = accounts db -> accounts_sound db2 ->
  account_update_do_apply db2 op = Ok db' -> accounts_sound db'.
Proof.
  unfold account_update_do_apply. cbv zeta. intros He db2 Ea [P Q] H. inv_results. inv_get.
  match goal with H : objs (accounts db2) !! _ = Some ?x |- _ => rename x into a0, H into H0 end.
  set (i := ap_account op) in *. set (f := updated_account op) in *.
  assert (Hset : objs (tbl_modify (accounts db2) i f) = <[i := f a0]> (objs (accounts db2))) by by apply tbl_modify_insert.
  assert (Hname : account_name (f a0) = account_name a0).
  { unfold f, updated_account. by destruct (ap_owner op), (ap_active op), (ap_new_options op), (ap_owner_special op), (ap_active_special op). }
  assert (Hmem : forall m, m ∈ members (f a0) -> is_Some (objs (accounts db2) !! m)).
  { intros m Hm. destruct (updated_members _ _ _ _ _ He Hm) as [Ho|Hn]; [by apply (people_members _ _ P i a0)|by rewrite Ea]. }
  pose proof (people_ok_set _ _ i f a0 H0 Hname Hmem P) as P1.
  destruct (has_special_authority a0) eqn:Hb, (has_special_authority (f a0)) eqn:Hafter; cbn [andb negb] in H; inv_results.
  - split; [done|]. cbn. by eapply specials_kept.
  - match goal with H : tbl_find_by _ _ = Some _ |- _ => apply tbl_find_by_Some in H as [Hj Hji]; cbn in Hj end.
    split; [done|]. cbn. eapply specials_removed; [exact Hset|exact Q|by rewrite <-Hji|done].
  - match goal with H : insert_special_authority _ _ = _ |- _ => apply insert_special_authority_inv in H as [Hn ->] end.
    split; [done|]. cbn in *. by eapply specials_added.
  - split; [done|]. cbn. by eapply specials_none.
Qed.

Lemma account_whitelist_same db op db' : account_whitelist_do_apply db op = Ok db' -> same_people db db'.
Proof.
  unfold account_whitelist_do_apply. cbv zeta. intros H. inv_result.
  match goal with H : tbl_get (accounts ?d) (authorizing_account op) = Ok _ |- _ => set (db1 := d) in * end.
  trans db1; [by apply modify_account_same|]. by refine (modify_account_same db1 (authorizing_account op) _ _).
Qed.

Lemma account_upgrade_same db op db' : account_upgrade_do_apply db op = Ok db' -> same_people db db'.
Proof.
  unfold account_upgrade_do_apply. cbv zeta. intros H. inv_result.
  destruct (upgrade_to_lifetime_member op); [|destruct is_annual_member]; inv_result; try by apply modify_account_same.
  all: match goal with H : process_fees _ _ = Ok ?d |- _ => apply process_fees_same in H; trans d; [done|] end.
  all: by apply modify_account_same.
Qed.

Lemma account_create_by_transfer_sound db op db' :
  accounts_sound db -> account_create_by_transfer_do_apply db op = Ok db' -> accounts_sound db'.
Proof.
  unfold account_create_by_transfer_do_apply. intros [P Q] H. inv_results.
  match goal with H : insert_account _ _ = Ok _ |- _ => apply insert_account_people in H as (P1 & G1 & Hi & Hs) end;
    [|done|by intros m Hm%elem_of_nil].
  match goal with H : count_registration _ = _ |- _ => apply count_registration_parts in H as (A2 & S2 & G2 & _) end.
  repeat match goal with H : adjust_balance _ _ _ = _ |- _ => apply adjust_balance_inv in H as (? & -> & _) end.
  split; cbn; rewrite A2; [by rewrite S2|]. rewrite G2, G1. eapply specials_none; [exact Hs|done..].
Qed.
End Facts.

(** ** Properties *)

Section Votes.
Implicit Types (l : list Z).

Definition votes_of (t : vote_type) (o : account_options) : Z :=
  Z.of_nat (length (filter (fun x => x = type_code t) (map_to_list (votes o)).*2)).

Lemma count_votes l : forall w c, 0 <= w -> 0 <= c ->
  foldl count_vote (w, c) l =
  (Z.max 0 (w - Z.of_nat (length (filter (fun x => x = type_code vote_witness) l))),
   Z.max 0 (c - Z.of_nat (length (filter (fun x => x = type_code vote_committee) l)))).
Proof.
  induction l as [|x l IH]; intros w c Hw Hc; [simpl; f_equal; lia|].
  cbn [foldl]. destruct (count_vote (w, c) x) as [w' c'] eqn:E. unfold count_vote in E.
  rewrite !filter_cons. cbn [type_code] in *. destruct (Z.eqb_spec x 1) as [->|H1]; cbn [andb] in E.
  - rewrite decide_True, decide_False by lia. cbn [length].
    destruct (Z.eqb_spec w 0); cbn [negb andb Z.eqb] in E; injection E as <- <-; rewrite IH by lia; f_equal; lia.
  - rewrite (decide_False (P := x = 1)) by done. destruct (Z.eqb_spec x 0) as [->|H0]; cbn [andb] in E.
    + rewrite decide_True by done. cbn [length].
      destruct (Z.eqb_spec c 0); cbn [negb andb] in E; injection E as <- <-; rewrite IH by lia; f_equal; lia.
    + rewrite decide_False by done. injection E as <- <-. by rewrite IH.
Qed.
End Votes.

(** The options of an account are accepted exactly when it votes for at least
    as many witnesses and committee members as it wants to have. *)
Theorem account_options_validate_spec (o : account_options) :
  0 <= num_witness o -> 0 <= num_committee o ->
  account_options_validate o = Ok tt <->
  num_witness o <= votes_of vote_witness o /\ num_committee o <= votes_of vote_committee o.
Proof.
  intros Hw Hc. unfold account_options_validate, votes_of. rewrite count_votes by done.
  rewrite guard_or_Ok, andb_true_iff, !Z.eqb_eq. lia.
Qed.

(** What an upgrade does: to a lifetime member, whose fees so far are paid out
    under the old terms, and who is from then on its own registrar, referrer and
    lifetime referrer and gets all but the share of the network; the annual
    membership ended with hard fork 613. *)
Theorem account_upgrade_spec `{FC : FcLib, !FcLaws FC} (db db' : database) (op : account_upgrade_operation) :
  account_upgrade_do_apply db op = Ok db' ->
  if upgrade_to_lifetime_member op then
    exists db1 a, process_fees db (account_to_upgrade op) = Ok db1 /\
      objs (accounts db1) !! account_to_upgrade op = Some a /\
      objs (accounts db') = <[account_to_upgrade op := become_lifetime_member (account_to_upgrade op) a]> (objs (accounts db1)) /\
      is_lifetime_member (become_lifetime_member (account_to_upgrade op) a) = true /\
      (forall i x, i <> account_to_upgrade op -> objs (accounts db') !! i = Some x -> objs (accounts db1) !! i = Some x)
  else head_block_time db <= HARDFORK_613_TIME.
Proof.
  unfold account_upgrade_do_apply. cbv zeta. intros H. inv_result. inv_get.
  destruct (upgrade_to_lifetime_member op); [|destruct is_annual_member; inv_result; by bool_to_prop].
  inv_result. match goal with H : process_fees _ _ = Ok ?d |- _ => rename d into db1, H into Hp end.
  destruct (proj2 (same_people_is_Some _ _ (account_to_upgrade op) (process_fees_same _ _ _ Hp))) as [b Hb]; [by eexists|].
  exists db1, b. split_and!; [done|done|by apply tbl_modify_insert|by vm_compute|].
  intros i x Hi. cbn. by rewrite lookup_alter_ne.
Qed.

(** An account made with an explicit [no_special_authority] for its owner and
    nothing for its active authority gets no special active authority by the first update
    after its creation: the record of special authorities names it already, and adding it
    again fails. *)
Theorem no_special_authority_blocks (db db1 : database) (op : account_create_operation)
    (up : account_update_operation) (n : N) (k : Z) :
  an_owner_special op = Some no_special_authority -> an_active_special op = None ->
  account_create_do_apply db op = Ok db1 ->
  ap_account up = next_instance (accounts db) ->
  ap_active_special up = Some (top_holders_special_authority n k) ->
  account_update_do_apply db1 up =
    Err (assert_exception "Could not create object! Most likely a uniqueness constraint is violated.").
Proof.
  unfold account_create_do_apply. intros Ho Ha H Hi Hs. rewrite Ho, Ha in H. cbn [is_some orb] in H. inv_results.
  match goal with H : insert_account _ _ = _ |- _ => apply insert_account_inv in H as (-> & _ & E) end.
  match goal with H : count_registration _ = _ |- _ => apply count_registration_parts in H as (A2 & _ & _ & _) end.
  match goal with H : insert_special_authority _ _ = Ok ?d |- _ =>
    rename d into db3; apply insert_special_authority_inv in H as [_ E3] end.
  apply (f_equal (fun d => (accounts d, special_authorities (gov d)))) in E3. injection E3 as E3 E4.
  assert (R : exists j a0, objs (special_authorities (gov db1)) !! j = Some (ap_account up) /\
    objs (accounts db1) !! ap_account up = Some a0 /\ has_special_authority a0 = false).
  { rewrite Hi. assert (Hr : forall d, accounts d = accounts db3 ->
      special_authorities (gov d) = special_authorities (gov db3) -> exists j a0,
      objs (special_authorities (gov d)) !! j = Some (next_instance (accounts db)) /\
      objs (accounts d) !! next_instance (accounts db) = Some a0 /\ has_special_authority a0 = false).
    { intros d0 Ed Eg. rewrite Ed, Eg, E3, E4. cbn. rewrite A2, E. cbn. eexists _, _.
      split; [apply lookup_insert_eq|]. split; [apply lookup_insert_eq|].
      unfold has_special_authority, new_account. cbn. by rewrite Ho, Ha. }
    destruct (an_buyback op); inv_result; [|by apply Hr].
    match goal with H : insert_buyback _ _ = _ |- _ => apply insert_buyback_inv in H as [_ ->] end.
    by apply Hr. }
  destruct R as (j & ac & Hj & Ha0 & Hsp). unfold account_update_do_apply. cbv zeta. cbn.
  unfold tbl_get. rewrite Ha0. cbn. rewrite Hsp. cbn.
  assert (Hafter : has_special_authority (updated_account up ac) = true).
  { unfold updated_account, has_special_authority. rewrite Hs. cbn. by rewrite orb_true_r. }
  rewrite Hafter. unfold insert_special_authority, tbl_create_unique. cbn.
  destruct (tbl_find_by _ _) eqn:Hf; [done|]. by eapply (proj1 (tbl_find_by_None _ _) Hf) in Hj.
Qed.

(** C40: creating an account by a transfer makes an account that the key alone
    controls, named after it, and moves the whole amount there: unlike a
    transfer, it takes no part in a running deflation, whatever is left of the
    walk over the accounts. *)
Theorem account_create_by_transfer_spec `{FC : FcLib, !FcLaws FC} (db db' : database)
    (op : account_create_by_transfer_operation) :
  account_create_by_transfer_do_apply db op = Ok db' ->
  let i := next_instance (accounts db) in
  let x := amount (ct_amount op) in
  let c := asset_id (ct_amount op) in
  (exists a, objs (accounts db') = <[i := a]> (objs (accounts db)) /\
     account_name a = generated_name (account_key op) /\
     owner_authority a = key_authority (account_key op) /\ active_authority a = key_authority (account_key op)) /\
  (forall j b, objs (accounts db) !! j = Some b -> account_name b <> generated_name (account_key op)) /\
  (forall j d, amount (get_balance db' j d) = amount (get_balance db j d)
     - (if decide ((j, d) = (ct_from op, c)) then x else 0) + (if decide ((j, d) = (i, c)) then x else 0)) /\
  deflations db' = deflations db /\ account_deflations db' = account_deflations db.
Proof.
  unfold account_create_by_transfer_do_apply. intros H. inv_results.
  match goal with H : insert_account _ _ = _ |- _ => apply insert_account_inv in H as (-> & Hn & E1) end.
  match goal with H : count_registration _ = _ |- _ => apply count_registration_inv in H as (m & fee & E2) end.
  match goal with H : asset_neg _ = _ |- _ => apply asset_neg_inv in H as -> end.
  repeat match goal with H : adjust_balance _ _ _ = Ok _ |- _ => apply adjust_balance_inv in H as (? & ? & ? & _) end.
  subst. cbv zeta. split; [eexists; split; [reflexivity|done]|]. split; [exact Hn|]. split; [|done].
  intros j d. match goal with H1 : forall _ _, _, H2 : forall _ _, _ |- _ => rewrite H1, H2 || rewrite H2, H1 end.
  cbn [amount asset_id]. change (get_balance (update _ _ _) j d) with (get_balance db j d).
  destruct (decide _), (decide _); lia.
Qed.

(** ** Witnesses *)

Lemma account_options_validate_spec_witness :
  account_options_validate (Account_options 1 5 1 0 {[ 3%N := 1 ]}) = Ok tt.
Proof.
  refine (proj2 (account_options_validate_spec (Account_options 1 5 1 0 {[ 3%N := 1 ]}) _ _) _); vm_compute; repeat split; congruence.
Defined.

(** Deciding soundness by evaluation. *)
Definition accounts_check (db : database) : bool :=
  table_check (accounts db)
  && bool_decide (map_Forall (fun i a => map_Forall (fun j b => account_name a = account_name b -> i = j)
       (objs (accounts db))) (objs (accounts db)))
  && bool_decide (map_Forall (fun _ a => Forall (fun m => is_Some (objs (accounts db) !! m)) (members a)) (objs (accounts db)))
  && bool_decide (dom (statistics db) = dom (objs (accounts db)))
  && bool_decide (map_Forall (fun _ a => has_special_authority a = false) (objs (accounts db)))
  && bool_decide (objs (special_authorities (gov db)) = ∅).

Lemma accounts_check_ok db : accounts_check db = true -> accounts_sound db.
Proof.
  unfold accounts_check. rewrite !andb_true_iff, !bool_decide_eq_true.
  intros [[[[[Ht Hn] Hm] Hs] Hsp] He]. split; split.
  - by apply table_check_ok.
  - intros i j a b Ha Hb. exact (Hn i a Ha j b Hb).
  - intros i a m Ha Hin. specialize (Hm i a Ha). simpl in Hm. rewrite Forall_forall in Hm. by apply Hm.
  - intros i. by rewrite <-!not_elem_of_dom, Hs.
  - intros i a Ha Hh. specialize (Hsp i a Ha). simpl in Hsp. congruence.
  - intros i Hi. rewrite He in Hi. by apply lookup_empty_is_Some in Hi.
  - intros j k i Hj. rewrite He in Hj. by apply lookup_empty_Some in Hj.
Qed.

Lemma ex_state_sound : accounts_sound ex_state.
Proof. apply accounts_check_ok. by vm_compute. Qed.

(** Bob's membership has run out. *)
Definition ex_basic : database :=
  ex_state <| accounts ::= fun t => tbl_modify t 11 (fun a => a <| membership_expiration_date := 0 |>) |>.

Lemma account_upgrade_spec_witness :
  exists db', account_upgrade_do_apply (FC := fc_ref) ex_basic (Account_upgrade_operation (Asset 0 CORE_ASSET) 11 true) = Ok db' /\
    exists a, objs (accounts db') !! 11%N = Some a /\ is_lifetime_member a = true.
Proof.
  set (op := Account_upgrade_operation _ _ _).
  destruct (result_ok_true (account_upgrade_do_apply (FC := fc_ref) ex_basic op)) as [db' H]; [by vm_compute|].
  exists db'. split; [exact H|].
  destruct (@account_upgrade_spec fc_ref fc_ref_laws ex_basic db' op H) as (db1 & a & _ & _ & E & Hm & _).
  rewrite E. eexists. split; [apply lookup_insert_eq|exact Hm].
Defined.

Definition ex_create (special : option special_authority) : account_create_operation :=
  Account_create_operation (Asset 100 CORE_ASSET) 10 10 5000 "dave" ex_authority ex_authority
    (Account_options 7 10 0 0 ∅) false special None None.

Lemma no_special_authority_blocks_witness :
  exists db1, account_create_do_apply ex_state (ex_create (Some no_special_authority)) = Ok db1 /\
    account_update_do_apply db1 (Account_update_operation (Asset 0 CORE_ASSET) 13 None None None false None
        (Some (top_holders_special_authority 1 5))) =
    Err (assert_exception "Could not create object! Most likely a uniqueness constraint is violated.").
Proof.
  destruct (result_ok_true (account_create_do_apply ex_state (ex_create (Some no_special_authority))))
    as [db1 H]; [by vm_compute|].
  exists db1. split; [exact H|]. set (up := Account_update_operation _ _ _ _ _ _ _ _).
  exact (@no_special_authority_blocks ex_state db1 (ex_create (Some no_special_authority)) up 1 5 eq_refl eq_refl H eq_refl eq_refl).
Defined.

Lemma account_create_by_transfer_spec_witness :
  exists db', account_create_by_transfer_do_apply (FC := fc_ref) ex_state
      (Account_create_by_transfer_operation (Asset 10 CORE_ASSET) 11 4242 (Asset 300 CORE_ASSET)) = Ok db' /\
    amount (get_balance db' 13 CORE_ASSET) = 300.
Proof.
  set (op := Account_create_by_transfer_operation _ _ _ _).
  destruct (result_ok_true (account_create_by_transfer_do_apply (FC := fc_ref) ex_state op)) as [db' H]; [by vm_compute|].
  exists db'. split; [exact H|].
  destruct (@account_create_by_transfer_spec fc_ref fc_ref_laws ex_state db' op H) as (_ & _ & E & _).
  rewrite E. by vm_compute.
Defined.
