(* ===== verification/Governance.v ===== *)
(** * Witnesses, committee, workers and recurring withdrawals

    Models [witness_evaluator.cpp], [committee_member_evaluator.cpp] (the operations
    a transaction may hold; those of proposals are not modelled),
    [worker_evaluator.cpp], [withdraw_permission_evaluator.cpp], the validation in
    [protocol/], [get_next_vote_id] and [database::update_withdraw_permissions].

    [vote_ids_ok]: every vote id belongs to one thing one can vote on.
    [claims_bounded]: within a period no more than the limit is withdrawn. *)

From S2P Require Import Prelude FcLib Block Asset Vesting Objects Database Ledger Market Trading Deflation Evaluator.
From S2P Require Import MarketOps Feeds AssetOps AssetFacts Accounts.

Definition GRAPHENE_MAX_URL_LENGTH : nat := 127.
Definition GRAPHENE_MAX_WORKER_NAME_LENGTH : nat := 63.

Record witness_create_operation := Witness_create_operation {
  wn_fee : asset;
  wn_account : N;
  wn_url : string;
  block_signing_key : public_key;
}.

Record witness_update_operation := Witness_update_operation {
  wu_fee : asset;
  wu_witness : N;
  wu_account : N;
  wu_new_url : option string;
  new_signing_key : option public_key;
}.

Record committee_member_create_operation := Committee_member_create_operation {
  cmn_fee : asset;
  cmn_account : N;
  cmn_url : string;
}.

Record committee_member_update_operation := Committee_member_update_operation {
  cmu_fee : asset;
  cmu_committee_member : N;
  cmu_account : N;
  cmu_new_url : option string;
}.

Inductive worker_initializer :=
  | refund_worker_initializer
  | vesting_balance_worker_initializer (pay_vesting_period_days : Z)
  | burn_worker_initializer.

Record worker_create_operation := Worker_create_operation {
  wk_fee : asset;
  wk_owner : N;
  wk_begin_date : Z;
  wk_end_date : Z;
  wk_daily_pay : Z;
  wk_name : string;
  wk_url : string;
  wk_initializer : worker_initializer;
}.

Record withdraw_permission_create_operation := Withdraw_permission_create_operation {
  wpc_fee : asset;
  wpc_from : N;
  wpc_authorized : N;
  wpc_limit : asset;
  wpc_period_sec : Z;
  wpc_periods : Z;
  wpc_start : Z;
}.

Record withdraw_permission_update_operation := Withdraw_permission_update_operation {
  wpu_fee : asset;
  wpu_from : N;
  wpu_authorized : N;
  permission_to_update : N;
  wpu_limit : asset;
  wpu_period_sec : Z;
  wpu_start : Z;
  wpu_periods : Z;
}.

Record withdraw_permission_claim_operation := Withdraw_permission_claim_operation {
  wpl_fee : asset;
  withdraw_permission : N;
  wpl_from : N;
  wpl_to : N;
  amount_to_withdraw : asset;
}.

Record withdraw_permission_delete_operation := Withdraw_permission_delete_operation {
  wpd_fee : asset;
  wpd_from : N;
  wpd_authorized : N;
  withdrawal_permission : N;
}.

Section GovernanceOps.
Context `{FC : FcLib}.
Implicit Types (db : database) (st : fee_state).

Definition url_ok (url : string) : result unit :=
  FC_ASSERT (String.length url <? GRAPHENE_MAX_URL_LENGTH)%nat "url.size() < GRAPHENE_MAX_URL_LENGTH".

(** A vote id is shown by its instance, the upper 24 bits of its content. *)
Definition get_next_vote_id db (t : vote_type) : N * database :=
  let n := next_available_vote_id (gov db) in
  (Z.to_N (vote_instance (vote_content t n)),
   db <| gov ::= fun g => g <| next_available_vote_id := wrap32 (n + 1) |> |>).

(** ** Witnesses *)

Definition witness_create_validate (op : witness_create_operation) : result unit :=
  _ ← fee_nonneg (wn_fee op); url_ok (wn_url op).

Definition witness_create_do_evaluate db (op : witness_create_operation) : result unit :=
  a ← tbl_get (accounts db) (wn_account op);
  FC_ASSERT (is_lifetime_member a) "db().get(op.witness_account).is_lifetime_member()".

Definition witness_create_do_apply db (op : witness_create_operation) : result database :=
  let '(vote_id, db) := get_next_vote_id db vote_witness in
  '(_, t) ← tbl_create_unique (fun w => witness_account w = wn_account op \/ wit_vote_id w = vote_id) (witnesses db)
              (Witness_object (wn_account op) (block_signing_key op) vote_id 0 (wn_url op) 0 None 0 0);
  Ok (db <| witnesses := t |>).

Definition witness_update_validate (op : witness_update_operation) : result unit :=
  _ ← fee_nonneg (wu_fee op); if_valid (wu_new_url op) url_ok.

Definition witness_update_do_evaluate db (op : witness_update_operation) : result unit :=
  w ← tbl_get (witnesses db) (wu_witness op);
  FC_ASSERT (witness_account w =? wu_account op)%N "db().get(op.witness).witness_account == op.witness_account".

Definition witness_update_do_apply db (op : witness_update_operation) : result database :=
  _ ← tbl_get (witnesses db) (wu_witness op);
  Ok (db <| witnesses ::= fun t => tbl_modify t (wu_witness op) (fun w =>
        let w := match wu_new_url op with Some u => w <| wit_url := u |> | None => w end in
        match new_signing_key op with Some k => w <| signing_key := k |> | None => w end) |>).

(** ** Committee *)

Definition committee_member_create_validate (op : committee_member_create_operation) : result unit :=
  _ ← fee_nonneg (cmn_fee op); url_ok (cmn_url op).

Definition committee_member_create_do_evaluate db (op : committee_member_create_operation) : result unit :=
  a ← tbl_get (accounts db) (cmn_account op);
  FC_ASSERT (is_lifetime_member a) "db().get(op.committee_member_account).is_lifetime_member()".

Definition committee_member_create_do_apply db (op : committee_member_create_operation) : result database :=
  let '(vote_id, db) := get_next_vote_id db vote_committee in
  '(_, t) ← tbl_create_unique
              (fun c => committee_member_account c = cmn_account op \/ cm_vote_id c = vote_id) (committee_members (gov db))
              (Committee_member_object (cmn_account op) vote_id 0 (cmn_url op));
  Ok (db <| gov ::= fun g => g <| committee_members := t |> |>).

Definition committee_member_update_validate (op : committee_member_update_operation) : result unit :=
  _ ← fee_nonneg (cmu_fee op); if_valid (cmu_new_url op) url_ok.

Definition committee_member_update_do_evaluate db (op : committee_member_update_operation) : result unit :=
  c ← tbl_get (committee_members (gov db)) (cmu_committee_member op);
  FC_ASSERT (committee_member_account c =? cmu_account op)%N
    "db().get(op.committee_member).committee_member_account == op.committee_member_account".

Definition committee_member_update_do_apply db (op : committee_member_update_operation) : result database :=
  _ ← tbl_get (committee_members (gov db)) (cmu_committee_member op);
  Ok (db <| gov ::= fun g => g <| committee_members ::= fun t => tbl_modify t (cmu_committee_member op) (fun c =>
        match cmu_new_url op with Some u => c <| cm_url := u |> | None => c end) |> |>).

(** ** Workers *)

Definition worker_create_validate (op : worker_create_operation) : result unit :=
  _ ← fee_nonneg (wk_fee op);
  _ ← FC_ASSERT (wk_begin_date op <? wk_end_date op) "work_end_date > work_begin_date";
  _ ← FC_ASSERT (0 <? wk_daily_pay op) "daily_pay > 0";
  _ ← FC_ASSERT (wk_daily_pay op <? GRAPHENE_MAX_SHARE_SUPPLY) "daily_pay < GRAPHENE_MAX_SHARE_SUPPLY";
  _ ← FC_ASSERT (String.length (wk_name op) <? GRAPHENE_MAX_WORKER_NAME_LENGTH)%nat
        "name.size() < GRAPHENE_MAX_WORKER_NAME_LENGTH";
  url_ok (wk_url op).

Definition worker_create_do_evaluate db (op : worker_create_operation) : result unit :=
  a ← tbl_get (accounts db) (wk_owner op);
  _ ← FC_ASSERT (is_lifetime_member a) "d.get(o.owner).is_lifetime_member()";
  FC_ASSERT (head_block_time db <=? wk_begin_date op) "o.work_begin_date >= d.head_block_time()".

(** [worker_init_visitor] *)
Definition init_worker db (owner : N) (i : worker_initializer) : worker_type * database :=
  match i with
  | refund_worker_initializer => (refund_worker 0, db)
  | burn_worker_initializer => (burn_worker 0, db)
  | vesting_balance_worker_initializer d =>
      let vbo := Vesting_balance_object owner (Asset 0 CORE_ASSET)
                   (cdd_policy (Cdd_vesting_policy (days d) (u128_of fc_u128 0) 0 (head_block_time db))) in
      let '(v, t) := tbl_create (vesting_balances db) vbo in
      (vesting_balance_worker v, db <| vesting_balances := t |>)
  end.

Definition worker_create_do_apply db (op : worker_create_operation) : result database :=
  let '(for_id, db) := get_next_vote_id db vote_worker in
  let '(against_id, db) := get_next_vote_id db vote_worker in
  let '(worker, db) := init_worker db (wk_owner op) (wk_initializer op) in
  '(_, t) ← tbl_create_unique (fun w => vote_for w = for_id \/ vote_against w = against_id) (workers (gov db))
              (Worker_object (wk_owner op) (wk_begin_date op) (wk_end_date op) (wk_daily_pay op) worker
                 (wk_name op) (wk_url op) for_id against_id 0 0);
  Ok (db <| gov ::= fun g => g <| workers := t |> |>).

(** ** Recurring withdrawals *)

(** [period_start_time + periods_until_expiration * withdrawal_period_sec], in
    32 bits. *)
Definition permission_expiration (start periods period_sec : Z) : Z := wrap32 (start + wrap32 (periods * period_sec)).

(** [withdraw_permission_object::available_this_period] *)
Definition available_this_period (p : withdraw_permission_object) (now : Z) : result asset :=
  if wrap32 (period_start_time p + withdrawal_period_sec p) <=? now then Ok (withdrawal_limit p)
  else
    x ← (if claimed_this_period p <? amount (withdrawal_limit p)
         then safe_sub fc_safe (amount (withdrawal_limit p)) (claimed_this_period p) else Ok 0);
    Ok (Asset x (asset_id (withdrawal_limit p))).

Definition withdraw_permission_create_validate (op : withdraw_permission_create_operation) : result unit :=
  _ ← fee_nonneg (wpc_fee op);
  _ ← FC_ASSERT (negb (wpc_from op =? wpc_authorized op)%N) "withdraw_from_account != authorized_account";
  _ ← FC_ASSERT (0 <? amount (wpc_limit op)) "withdrawal_limit.amount > 0";
  _ ← FC_ASSERT (0 <? wpc_period_sec op) "withdrawal_period_sec > 0";
  FC_ASSERT (0 <? wpc_periods op) "periods_until_expiration > 0".

Definition withdraw_permission_create_do_evaluate db (op : withdraw_permission_create_operation) : result unit :=
  let now := head_block_time db in
  _ ← FC_ASSERT (is_some (objs (accounts db) !! wpc_from op)) "d.find_object(op.withdraw_from_account)";
  _ ← FC_ASSERT (is_some (objs (accounts db) !! wpc_authorized op)) "d.find_object(op.authorized_account)";
  _ ← FC_ASSERT (is_some (objs (assets db) !! asset_id (wpc_limit op))) "d.find_object(op.withdrawal_limit.asset_id)";
  _ ← FC_ASSERT (now <? wpc_start op) "op.period_start_time > d.head_block_time()";
  _ ← FC_ASSERT (now <? permission_expiration (wpc_start op) (wpc_periods op) (wpc_period_sec op))
        "period_start_time + periods_until_expiration * withdrawal_period_sec > d.head_block_time()";
  FC_ASSERT (block_interval (parameters db) <=? wpc_period_sec op) "op.withdrawal_period_sec >= block_interval".

Definition withdraw_permission_create_do_apply db (op : withdraw_permission_create_operation) : result database :=
  let p := Withdraw_permission_object (wpc_from op) (wpc_authorized op) (wpc_limit op) (wpc_period_sec op)
             (wpc_start op) (permission_expiration (wpc_start op) (wpc_periods op) (wpc_period_sec op)) 0 in
  Ok (db <| gov ::= fun g => g <| withdraw_permissions ::= fun t => (tbl_create t p).2 |> |>).

Definition withdraw_permission_claim_validate (op : withdraw_permission_claim_operation) : result unit :=
  _ ← FC_ASSERT (negb (wpl_to op =? wpl_from op)%N) "withdraw_to_account != withdraw_from_account";
  _ ← FC_ASSERT (0 <? amount (amount_to_withdraw op)) "amount_to_withdraw.amount > 0";
  fee_nonneg (wpl_fee op).

(** The amount that may be claimed at the time [now]. *)
Definition may_claim (p : withdraw_permission_object) (now : Z) (x : asset) : result unit :=
  available ← available_this_period p now;
  le ← asset_leb x available;
  FC_ASSERT le "op.amount_to_withdraw <= permit.available_this_period( d.head_block_time() )".

(** The names [from] and [to] are swapped in the source; both are checked. *)
Definition withdraw_permission_claim_do_evaluate db (op : withdraw_permission_claim_operation) : result unit :=
  let x := amount_to_withdraw op in
  p ← tbl_get (withdraw_permissions (gov db)) (withdraw_permission op);
  _ ← FC_ASSERT (head_block_time db <? wp_expiration p) "permit.expiration > d.head_block_time()";
  _ ← FC_ASSERT (authorized_account p =? wpl_to op)%N "permit.authorized_account == op.withdraw_to_account";
  _ ← FC_ASSERT (withdraw_from_account p =? wpl_from op)%N "permit.withdraw_from_account == op.withdraw_from_account";
  _ ← may_claim p (head_block_time db) x;
  ge ← asset_geb (get_balance db (wpl_from op) (asset_id x)) x;
  _ ← FC_ASSERT ge "d.get_balance(op.withdraw_from_account, op.amount_to_withdraw.asset_id) >= op.amount_to_withdraw";
  a ← tbl_get (assets db) (asset_id x);
  _ ← (if is_transfer_restricted a then
         FC_ASSERT ((issuer a =? authorized_account p)%N || (issuer a =? withdraw_from_account p)%N)
           "_asset.issuer == permit.authorized_account || _asset.issuer == permit.withdraw_from_account"
       else Ok tt);
  from ← tbl_get (accounts db) (wpl_to op);
  to ← tbl_get (accounts db) (authorized_account p);
  _ ← FC_ASSERT (is_authorized_asset db to (asset_id x) a) "is_authorized_asset( d, to, _asset )";
  FC_ASSERT (is_authorized_asset db from (asset_id x) a) "is_authorized_asset( d, from, _asset )".

(** The periods that have passed, rounded towards zero. *)
Definition claim (p : withdraw_permission_object) (now : Z) (x : Z) : result withdraw_permission_object :=
  if withdrawal_period_sec p =? 0 then Err (undefined_behaviour "division by zero")
  else
    let periods := Z.quot (now - period_start_time p) (withdrawal_period_sec p) in
    let p := p <| period_start_time ::= fun t => wrap32 (t + periods * withdrawal_period_sec p) |> in
    c ← (if periods =? 0 then safe_add fc_safe (claimed_this_period p) x else Ok x);
    Ok (p <| claimed_this_period := c |>).

Definition withdraw_permission_claim_do_apply db (op : withdraw_permission_claim_operation) : result database :=
  let x := amount_to_withdraw op in
  p ← tbl_get (withdraw_permissions (gov db)) (withdraw_permission op);
  p ← claim p (head_block_time db) (amount x);
  let db := db <| gov ::= fun g =>
    g <| withdraw_permissions ::= fun t => tbl_modify t (withdraw_permission op) (fun _ => p) |> |> in
  n ← asset_neg x;
  db ← adjust_balance db (wpl_from op) n;
  adjust_balance db (wpl_to op) x.

Definition withdraw_permission_update_validate (op : withdraw_permission_update_operation) : result unit :=
  _ ← FC_ASSERT (0 <? amount (wpu_limit op)) "withdrawal_limit.amount > 0";
  _ ← fee_nonneg (wpu_fee op);
  _ ← FC_ASSERT (0 <? wpu_period_sec op) "withdrawal_period_sec > 0";
  _ ← FC_ASSERT (negb (wpu_from op =? wpu_authorized op)%N) "withdraw_from_account != authorized_account";
  FC_ASSERT (0 <? wpu_periods op) "periods_until_expiration > 0".

Definition withdraw_permission_update_do_evaluate db (op : withdraw_permission_update_operation) : result unit :=
  let now := head_block_time db in
  p ← tbl_get (withdraw_permissions (gov db)) (permission_to_update op);
  _ ← FC_ASSERT (authorized_account p =? wpu_authorized op)%N "permit.authorized_account == op.authorized_account";
  _ ← FC_ASSERT (withdraw_from_account p =? wpu_from op)%N "permit.withdraw_from_account == op.withdraw_from_account";
  _ ← FC_ASSERT (is_some (objs (assets db) !! asset_id (wpu_limit op))) "d.find_object(op.withdrawal_limit.asset_id)";
  _ ← FC_ASSERT (now <=? wpu_start op) "op.period_start_time >= d.head_block_time()";
  _ ← FC_ASSERT (now <? permission_expiration (wpu_start op) (wpu_periods op) (wpu_period_sec op))
        "period_start_time + periods_until_expiration * withdrawal_period_sec > d.head_block_time()";
  FC_ASSERT (block_interval (parameters db) <=? wpu_period_sec op) "op.withdrawal_period_sec >= block_interval".

Definition withdraw_permission_update_do_apply db (op : withdraw_permission_update_operation) : result database :=
  _ ← tbl_get (withdraw_permissions (gov db)) (permission_to_update op);
  Ok (db <| gov ::= fun g => g <| withdraw_permissions ::= fun t => tbl_modify t (permission_to_update op) (fun p =>
    p <| period_start_time := wpu_start op |>
      <| wp_expiration := permission_expiration (wpu_start op) (wpu_periods op) (wpu_period_sec op) |>
      <| withdrawal_limit := wpu_limit op |> <| withdrawal_period_sec := wpu_period_sec op |>) |> |>).

Definition withdraw_permission_delete_validate (op : withdraw_permission_delete_operation) : result unit :=
  _ ← fee_nonneg (wpd_fee op);
  FC_ASSERT (negb (wpd_from op =? wpd_authorized op)%N) "withdraw_from_account != authorized_account".

Definition withdraw_permission_delete_do_evaluate db (op : withdraw_permission_delete_operation) : result unit :=
  p ← tbl_get (withdraw_permissions (gov db)) (withdrawal_permission op);
  _ ← FC_ASSERT (authorized_account p =? wpd_authorized op)%N "permit.authorized_account == op.authorized_account";
  FC_ASSERT (withdraw_from_account p =? wpd_from op)%N "permit.withdraw_from_account == op.withdraw_from_account".

Definition remove_permission db (i : N) : database :=
  db <| gov ::= fun g => g <| withdraw_permissions ::= fun t => tbl_remove t i |> |>.

Definition withdraw_permission_delete_do_apply db (op : withdraw_permission_delete_operation) : result database :=
  _ ← tbl_get (withdraw_permissions (gov db)) (withdrawal_permission op);
  Ok (remove_permission db (withdrawal_permission op)).

(** [permit_index.begin()] of the by_expiration index. *)
Definition sooner (x y : N * withdraw_permission_object) : Prop :=
  wp_expiration x.2 < wp_expiration y.2 \/ wp_expiration x.2 = wp_expiration y.2 /\ (x.1 <= y.1)%N.
#[local] Instance sooner_dec : RelDecision sooner.
Proof. intros x y. unfold sooner. apply _. Defined.

Definition first_permission db : option (N * withdraw_permission_object) :=
  head (merge_sort sooner (map_to_list (objs (withdraw_permissions (gov db))))).

Definition update_withdraw_permissions db : result database :=
  let expired db := match first_permission db with
                    | Some (_, p) => wp_expiration p <=? head_block_time db
                    | None => false end in
  let drop_first db := match first_permission db with
                       | Some (i, _) => Ok (remove_permission db i)
                       | None => Ok db end in
  while expired drop_first (size (objs (withdraw_permissions (gov db)))) db.
End GovernanceOps.

(** ** Instances *)

#[export] Instance witness_create_evaluator `{FC : FcLib} : Evaluator witness_create_operation := {|
  validate := witness_create_validate; fee_payer := wn_account; op_fee := wn_fee;
  do_evaluate db st op := keep st (witness_create_do_evaluate db op); pay_fee := generic_pay_fee;
  do_apply db _ op := witness_create_do_apply db op;
|}.
#[export] Instance witness_update_evaluator `{FC : FcLib} : Evaluator witness_update_operation := {|
  validate := witness_update_validate; fee_payer := wu_account; op_fee := wu_fee;
  do_evaluate db st op := keep st (witness_update_do_evaluate db op); pay_fee := generic_pay_fee;
  do_apply db _ op := witness_update_do_apply db op;
|}.
#[export] Instance committee_member_create_evaluator `{FC : FcLib} : Evaluator committee_member_create_operation := {|
  validate := committee_member_create_validate; fee_payer := cmn_account; op_fee := cmn_fee;
  do_evaluate db st op := keep st (committee_member_create_do_evaluate db op); pay_fee := generic_pay_fee;
  do_apply db _ op := committee_member_create_do_apply db op;
|}.
#[export] Instance committee_member_update_evaluator `{FC : FcLib} : Evaluator committee_member_update_operation := {|
  validate := committee_member_update_validate; fee_payer := cmu_account; op_fee := cmu_fee;
  do_evaluate db st op := keep st (committee_member_update_do_evaluate db op); pay_fee := generic_pay_fee;
  do_apply db _ op := committee_member_update_do_apply db op;
|}.
#[export] Instance worker_create_evaluator `{FC : FcLib} : Evaluator worker_create_operation := {|
  validate := worker_create_validate; fee_payer := wk_owner; op_fee := wk_fee;
  do_evaluate db st op := keep st (worker_create_do_evaluate db op); pay_fee := generic_pay_fee;
  do_apply db _ op := worker_create_do_apply db op;
|}.
#[export] Instance withdraw_permission_create_evaluator `{FC : FcLib} : Evaluator withdraw_permission_create_operation := {|
  validate := withdraw_permission_create_validate; fee_payer := wpc_from; op_fee := wpc_fee;
  do_evaluate db st op := keep st (withdraw_permission_create_do_evaluate db op); pay_fee := generic_pay_fee;
  do_apply db _ op := withdraw_permission_create_do_apply db op;
|}.
#[export] Instance withdraw_permission_update_evaluator `{FC : FcLib} : Evaluator withdraw_permission_update_operation := {|
  validate := withdraw_permission_update_validate; fee_payer := wpu_from; op_fee := wpu_fee;
  do_evaluate db st op := keep st (withdraw_permission_update_do_evaluate db op); pay_fee := generic_pay_fee;
  do_apply db _ op := withdraw_permission_update_do_apply db op;
|}.
#[export] Instance withdraw_permission_claim_evaluator `{FC : FcLib} : Evaluator withdraw_permission_claim_operation := {|
  validate := withdraw_permission_claim_validate; fee_payer := wpl_to; op_fee := wpl_fee;
  do_evaluate db st op := keep st (withdraw_permission_claim_do_evaluate db op); pay_fee := generic_pay_fee;
  do_apply db _ op := withdraw_permission_claim_do_apply db op;
|}.
#[export] Instance withdraw_permission_delete_evaluator `{FC : FcLib} : Evaluator withdraw_permission_delete_operation := {|
  validate := withdraw_permission_delete_validate; fee_payer := wpd_from; op_fee := wpd_fee;
  do_evaluate db st op := keep st (withdraw_permission_delete_do_evaluate db op); pay_fee := generic_pay_fee;
  do_apply db _ op := withdraw_permission_delete_do_apply db op;
|}.

Section Facts.
Context `{FC : FcLib, !FcLaws FC}.
Implicit Types (db : database) (st : fee_state).

(** ** What the operations do to the books *)

Lemma tbl_create_unique_bind {A} (P : A -> Prop) `{forall a, Decision (P a)} t a (f : table A -> database) db' :
  ('(_, t') ← tbl_create_unique P t a; Ok (f t')) = Ok db' ->
  db' = f (tbl_create t a).2 /\ forall j b, objs t !! j = Some b -> ~ P b.
Proof. intros ([i t'] & (E & Hn)%tbl_create_unique_inv & Hok)%bind_Ok. injection E as -> ->. injection Hok as <-. done. Qed.

Lemma witness_create_moves db op db' : witness_create_do_apply db op = Ok db' -> moves db db' (fun _ => 0).
Proof.
  unfold witness_create_do_apply. cbn [get_next_vote_id]. intros [-> _]%tbl_create_unique_bind. by apply moves_same.
Qed.

Lemma witness_update_moves db op db' : witness_update_do_apply db op = Ok db' -> moves db db' (fun _ => 0).
Proof. unfold witness_update_do_apply. intros H. inv_result. by apply moves_same. Qed.

Lemma committee_member_create_moves db op db' :
  committee_member_create_do_apply db op = Ok db' -> moves db db' (fun _ => 0).
Proof.
  unfold committee_member_create_do_apply. cbn [get_next_vote_id].
  intros [-> _]%(tbl_create_unique_bind _ _ _ (fun t => _ <| gov ::= fun g => g <| committee_members := t |> |>)).
  by apply moves_same.
Qed.

Lemma committee_member_update_moves db op db' :
  committee_member_update_do_apply db op = Ok db' -> moves db db' (fun _ => 0).
Proof. unfold committee_member_update_do_apply. intros H. inv_result. by apply moves_same. Qed.

Lemma init_worker_moves db owner i w db' : init_worker db owner i = (w, db') -> moves db db' (fun _ => 0).
Proof.
  destruct i; cbn [init_worker]; intros [= <- <-]; [apply moves_refl| |apply moves_refl].
  eapply moves_eq; [apply new_vesting_moves|]. intros a. apply amount_in_0.
Qed.

Lemma worker_create_moves db op db' : worker_create_do_apply db op = Ok db' -> moves db db' (fun _ => 0).
Proof.
  unfold worker_create_do_apply. cbn [get_next_vote_id]. intros H.
  match type of H with context [init_worker ?d ?o ?i] =>
    set (db1 := d) in H; destruct (init_worker db1 o i) as [w db2] eqn:E end.
  apply init_worker_moves in E as M.
  apply (tbl_create_unique_bind _ _ _ (fun t => db2 <| gov ::= fun g => g <| workers := t |> |>)) in H as [-> _].
  refine (moves_step0 db db2 _ (moves_step0 db db1 db2 _ M) _); by apply moves_same.
Qed.

Lemma withdraw_permission_create_moves db op db' :
  withdraw_permission_create_do_apply db op = Ok db' -> moves db db' (fun _ => 0).
Proof. unfold withdraw_permission_create_do_apply. intros [= <-]. by apply moves_same. Qed.

Lemma withdraw_permission_update_moves db op db' :
  withdraw_permission_update_do_apply db op = Ok db' -> moves db db' (fun _ => 0).
Proof. unfold withdraw_permission_update_do_apply. intros H. inv_result. by apply moves_same. Qed.

Lemma withdraw_permission_delete_moves db op db' :
  withdraw_permission_delete_do_apply db op = Ok db' -> moves db db' (fun _ => 0).
Proof. unfold withdraw_permission_delete_do_apply. intros H. inv_result. by apply moves_same. Qed.

Lemma withdraw_permission_claim_moves db op db' :
  withdraw_permission_claim_do_apply db op = Ok db' -> moves db db' (fun _ => 0).
Proof.
  unfold withdraw_permission_claim_do_apply. cbv zeta. intros H. inv_result.
  match goal with H : asset_neg _ = _ |- _ => apply asset_neg_inv in H as -> end.
  match goal with H : adjust_balance ?d (wpl_from op) _ = _ |- _ =>
    assert (M : moves db d (fun _ => 0)) by by apply moves_same end.
  repeat match goal with H : adjust_balance _ _ _ = _ |- _ => apply adjust_balance_moves in H end.
  eapply moves_eq; [eapply moves_step; [eapply moves_step; [exact M|eassumption]|eassumption]|].
  intros c. cbv beta. rewrite amount_in_opp. lia.
Qed.

(** ** What they change *)

(** Witnesses, what else is voted on, permissions, and for a worker or a claim a
    vesting balance or balances. *)
Record governance_frame (db db' : database) : Prop := {
  gf_state : db' = db <| gov := gov db' |> <| witnesses := witnesses db' |>
    <| vesting_balances := vesting_balances db' |> <| balances := balances db' |>;
  gf_specials : special_authorities (gov db') = special_authorities (gov db);
}.

Lemma governance_frame_gov db g :
  special_authorities g = special_authorities (gov db) -> governance_frame db (db <| gov := g |>).
Proof. by destruct db. Qed.

Lemma witness_create_frame db op db' : witness_create_do_apply db op = Ok db' -> governance_frame db db'.
Proof.
  unfold witness_create_do_apply. cbn [get_next_vote_id].
  intros [-> _]%(tbl_create_unique_bind _ _ _ (fun t => _ <| witnesses := t |>)). by destruct db.
Qed.

Lemma witness_update_frame db op db' : witness_update_do_apply db op = Ok db' -> governance_frame db db'.
Proof. unfold witness_update_do_apply. intros H. inv_result. by destruct db. Qed.

Lemma committee_member_create_frame db op db' :
  committee_member_create_do_apply db op = Ok db' -> governance_frame db db' /\ witnesses db' = witnesses db.
Proof.
  unfold committee_member_create_do_apply. cbn [get_next_vote_id].
  intros [-> _]%(tbl_create_unique_bind _ _ _ (fun t => _ <| gov ::= fun g => g <| committee_members := t |> |>)).
  by destruct db.
Qed.

Lemma committee_member_update_frame db op db' :
  committee_member_update_do_apply db op = Ok db' -> governance_frame db db' /\ witnesses db' = witnesses db.
Proof. unfold committee_member_update_do_apply. intros H. inv_result. by destruct db. Qed.

Lemma worker_create_frame db op db' :
  worker_create_do_apply db op = Ok db' -> governance_frame db db' /\ witnesses db' = witnesses db.
Proof.
  unfold worker_create_do_apply. cbn [get_next_vote_id]. intros H.
  destruct (wk_initializer op); cbn [init_worker] in H;
    apply bind_Ok in H as ([i t] & _ & [= <-]); by destruct db.
Qed.

Lemma permission_frame db f :
  governance_frame db (db <| gov ::= fun g => g <| withdraw_permissions ::= f |> |>).
Proof. by destruct db. Qed.

Lemma withdraw_permission_claim_frame db op db' :
  withdraw_permission_claim_do_apply db op = Ok db' -> governance_frame db db' /\ witnesses db' = witnesses db.
Proof.
  unfold withdraw_permission_claim_do_apply. cbv zeta. intros H. inv_result.
  repeat match goal with H : adjust_balance _ _ _ = _ |- _ => apply adjust_balance_inv in H as (? & -> & _) end.
  by destruct db.
Qed.

(** ** The promises *)

#[export] Instance witness_create_conserving : Conserving witness_create_operation.
Proof.
  refine {| pre := fun _ _ => True; applies := _ |}. conserving @keep ltac:(exact (moves_drains _ _ _ (witness_create_moves _ op _ Happ))).
Defined.
#[export] Instance witness_update_conserving : Conserving witness_update_operation.
Proof.
  refine {| pre := fun _ _ => True; applies := _ |}. conserving @keep ltac:(exact (moves_drains _ _ _ (witness_update_moves _ op _ Happ))).
Defined.
#[export] Instance committee_member_create_conserving : Conserving committee_member_create_operation.
Proof.
  refine {| pre := fun _ _ => True; applies := _ |}.
  conserving @keep ltac:(exact (moves_drains _ _ _ (committee_member_create_moves _ op _ Happ))).
Defined.
#[export] Instance committee_member_update_conserving : Conserving committee_member_update_operation.
Proof.
  refine {| pre := fun _ _ => True; applies := _ |}.
  conserving @keep ltac:(exact (moves_drains _ _ _ (committee_member_update_moves _ op _ Happ))).
Defined.
#[export] Instance worker_create_conserving : Conserving worker_create_operation.
Proof.
  refine {| pre := fun _ _ => True; applies := _ |}. conserving @keep ltac:(exact (moves_drains _ _ _ (worker_create_moves _ op _ Happ))).
Defined.
#[export] Instance withdraw_permission_create_conserving : Conserving withdraw_permission_create_operation.
Proof.
  refine {| pre := fun _ _ => True; applies := _ |}.
  conserving @keep ltac:(exact (moves_drains _ _ _ (withdraw_permission_create_moves _ op _ Happ))).
Defined.
#[export] Instance withdraw_permission_update_conserving : Conserving withdraw_permission_update_operation.
Proof.
  refine {| pre := fun _ _ => True; applies := _ |}.
  conserving @keep ltac:(exact (moves_drains _ _ _ (withdraw_permission_update_moves _ op _ Happ))).
Defined.
#[export] Instance withdraw_permission_claim_conserving : Conserving withdraw_permission_claim_operation.
Proof.
  refine {| pre := fun _ _ => True; applies := _ |}.
  conserving @keep ltac:(exact (moves_drains _ _ _ (withdraw_permission_claim_moves _ op _ Happ))).
Defined.
#[export] Instance withdraw_permission_delete_conserving : Conserving withdraw_permission_delete_operation.
Proof.
  refine {| pre := fun _ _ => True; applies := _ |}.
  conserving @keep ltac:(exact (moves_drains _ _ _ (withdraw_permission_delete_moves _ op _ Happ))).
Defined.
End Facts.

(** ** Vote ids *)

(** What one can vote on. *)
Inductive votable :=
  | votable_witness (i : N)
  | votable_committee_member (i : N)
  | votable_worker (i : N)
  | votable_against_worker (i : N).

#[export] Instance votable_eq_dec : EqDecision votable.
Proof. solve_decision. Defined.

Definition vote_id_of (db : database) (v : votable) : option N :=
  match v with
  | votable_witness i => wit_vote_id <$> objs (witnesses db) !! i
  | votable_committee_member i => cm_vote_id <$> objs (committee_members (gov db)) !! i
  | votable_worker i => vote_for <$> objs (workers (gov db)) !! i
  | votable_against_worker i => vote_against <$> objs (workers (gov db)) !! i
  end.

(** A vote id was handed out once, to one of them. *)
Record vote_ids_ok (db : database) : Prop := {
  ids_handed_out v n : vote_id_of db v = Some n -> Z.of_N n < next_available_vote_id (gov db);
  ids_unique v w n : vote_id_of db v = Some n -> vote_id_of db w = Some n -> v = w;
}.

Section VoteIds.
Implicit Types (db : database).

Lemma vote_ids_same db db' :
  (forall v, vote_id_of db' v = vote_id_of db v) ->
  next_available_vote_id (gov db') = next_available_vote_id (gov db) -> vote_ids_ok db -> vote_ids_ok db'.
Proof.
  intros E En [H1 H2]. split.
  - intros v n. rewrite E, En. apply H1.
  - intros v w n. rewrite !E. apply H2.
Qed.

(** New ids beyond those handed out so far. *)
Lemma vote_ids_grow db db' (new : votable -> option N) :
  (forall v, vote_id_of db' v = match new v with Some n => Some n | None => vote_id_of db v end) ->
  (forall v n, new v = Some n -> next_available_vote_id (gov db) <= Z.of_N n < next_available_vote_id (gov db')) ->
  (forall v w n, new v = Some n -> new w = Some n -> v = w) ->
  next_available_vote_id (gov db) <= next_available_vote_id (gov db') -> vote_ids_ok db -> vote_ids_ok db'.
Proof.
  intros E Hn Hi Hle [H1 H2]. split.
  - intros v n. rewrite E. destruct (new v) eqn:Hv.
    + intros [= <-]. apply Hn in Hv. lia.
    + intros Hv'. apply H1 in Hv'. lia.
  - intros v w n. rewrite !E. destruct (new v) eqn:Hv, (new w) eqn:Hw.
    + intros [= ->] [= ->]. by eapply Hi.
    + intros [= ->] Hw'. apply H1 in Hw'. apply Hn in Hv. lia.
    + intros Hv' [= ->]. apply H1 in Hv'. apply Hn in Hw. lia.
    + apply H2.
Qed.

Lemma next_vote_id db t : 0 <= next_available_vote_id (gov db) < 2 ^ 24 ->
  exists n, get_next_vote_id db t =
    (n, db <| gov ::= fun g => g <| next_available_vote_id := next_available_vote_id (gov db) + 1 |> |>) /\
    Z.of_N n = next_available_vote_id (gov db).
Proof.
  intros Hb. unfold get_next_vote_id. eexists. split.
  { unfold wrap32. rewrite (Z.mod_small (_ + 1)) by lia. reflexivity. }
  set (x := next_available_vote_id (gov db)) in *. clearbody x.
  unfold vote_instance, vote_content, wrap32. rewrite Z.shiftl_mul_pow2, Z.mod_small by lia.
  rewrite Z.shiftr_lor, Z.shiftr_div_pow2, Z.div_mul by lia.
  replace (Z.shiftr (type_code t) 8) with 0 by by destruct t. rewrite Z.lor_0_r. lia.
Qed.
End VoteIds.

Section VoteIdOps.
Context `{FC : FcLib, !FcLaws FC}.
Implicit Types (db : database).

(** Room for the next two ids. *)
Definition room (db : database) : Prop := 0 <= next_available_vote_id (gov db) < 2 ^ 24 - 1.

(** A lookup in a table that got a new object. *)
Lemma created_lookup {A B} (f : A -> B) (t : table A) a i :
  f <$> objs (tbl_create t a).2 !! i = if decide (i = next_instance t) then Some (f a) else f <$> objs t !! i.
Proof.
  cbn. case_decide as E; [subst; by rewrite lookup_insert_eq|]. by rewrite lookup_insert_ne.
Qed.

Lemma witness_create_ids db op db' :
  room db -> vote_ids_ok db -> witness_create_do_apply db op = Ok db' -> vote_ids_ok db'.
Proof.
  unfold room, witness_create_do_apply. intros Hr W H. destruct (next_vote_id db vote_witness) as (n & E & Hn); [lia|]. rewrite E in H. clear E.
  apply (tbl_create_unique_bind _ _ _ (fun t => _ <| witnesses := t |>)) in H as [-> _].
  refine (vote_ids_grow db _ (fun v => if decide (v = votable_witness (next_instance (witnesses db))) then Some n else None) _ _ _ _ W).
  - intros [i|i|i|i]; cbn [vote_id_of]; try done. cbn [witnesses update]. rewrite created_lookup.
    destruct (decide (i = _)), (decide (_ = _)); by simplify_eq.
  - intros v m. case_decide; [|done]. intros [= <-]. cbn. lia.
  - intros v w m. destruct (decide (v = _)), (decide (w = _)); intros; by simplify_eq.
  - cbn. lia.
Qed.

Lemma committee_member_create_ids db op db' :
  room db -> vote_ids_ok db -> committee_member_create_do_apply db op = Ok db' -> vote_ids_ok db'.
Proof.
  unfold room, committee_member_create_do_apply. intros Hr W H.
  destruct (next_vote_id db vote_committee) as (n & E & Hn); [lia|]. rewrite E in H. clear E.
  apply (tbl_create_unique_bind _ _ _ (fun t => _ <| gov ::= fun g => g <| committee_members := t |> |>)) in H as [-> _].
  refine (vote_ids_grow db _ (fun v =>
    if decide (v = votable_committee_member (next_instance (committee_members (gov db)))) then Some n else None) _ _ _ _ W).
  - intros [i|i|i|i]; cbn [vote_id_of]; try done. cbn [gov committee_members update]. rewrite created_lookup.
    destruct (decide (i = _)), (decide (_ = _)); by simplify_eq.
  - intros v m. case_decide; [|done]. intros [= <-]. cbn. lia.
  - intros v w m. destruct (decide (v = _)), (decide (w = _)); intros; by simplify_eq.
  - cbn. lia.
Qed.

Lemma init_worker_frame db owner i w db' :
  init_worker db owner i = (w, db') -> gov db' = gov db /\ witnesses db' = witnesses db.
Proof. by destruct i; cbn [init_worker]; intros [= <- <-]. Qed.

Lemma worker_create_ids db op db' :
  room db -> vote_ids_ok db -> worker_create_do_apply db op = Ok db' -> vote_ids_ok db'.
Proof.
  unfold room, worker_create_do_apply. intros Hr W H.
  destruct (next_vote_id db vote_worker) as (n & E & Hn); [lia|]. rewrite E in H. clear E.
  set (db1 := db <| gov ::= _ |>) in H.
  destruct (next_vote_id db1 vote_worker) as (m & E & Hm); [cbn; lia|]. rewrite E in H. clear E.
  set (db2 := db1 <| gov ::= _ |>) in H.
  destruct (init_worker db2 _ _) as [w db3] eqn:Hw. apply init_worker_frame in Hw as [Hg Hwit].
  apply (tbl_create_unique_bind _ _ _ (fun t => db3 <| gov ::= fun g => g <| workers := t |> |>)) in H as [-> _].
  set (i0 := next_instance (workers (gov db))).
  refine (vote_ids_grow db _ (fun v => if decide (v = votable_worker i0) then Some n
    else if decide (v = votable_against_worker i0) then Some m else None) _ _ _ _ W).
  - intros [i|i|i|i]; cbn [vote_id_of]; cbn [gov workers committee_members witnesses update]; rewrite ?Hg, ?Hwit; try done;
      rewrite created_lookup; change (next_instance (workers (gov db2))) with i0;
      repeat case_decide; by simplify_eq.
  - intros v k. cbn. rewrite Hg. cbn in *. repeat case_decide; intros; simplify_eq; lia.
  - intros v x k. cbn in Hm. repeat case_decide; intros; simplify_eq; try done; lia.
  - cbn. rewrite Hg. cbn. lia.
Qed.

Lemma witness_update_ids db op db' :
  vote_ids_ok db -> witness_update_do_apply db op = Ok db' -> vote_ids_ok db'.
Proof.
  unfold witness_update_do_apply. intros W H. inv_result. eapply vote_ids_same; [| |exact W]; [|done].
  intros [i|i|i|i]; try done. cbn. destruct (decide (i = wu_witness op)) as [->|]; [|by rewrite lookup_alter_ne].
  rewrite lookup_alter_eq. destruct (objs (witnesses db) !! _); cbn; [|done].
  by destruct (wu_new_url op), (new_signing_key op).
Qed.

Lemma committee_member_update_ids db op db' :
  vote_ids_ok db -> committee_member_update_do_apply db op = Ok db' -> vote_ids_ok db'.
Proof.
  unfold committee_member_update_do_apply. intros W H. inv_result. eapply vote_ids_same; [| |exact W]; [|done].
  intros [i|i|i|i]; try done. cbn. destruct (decide (i = cmu_committee_member op)) as [->|]; [|by rewrite lookup_alter_ne].
  rewrite lookup_alter_eq. destruct (objs (committee_members (gov db)) !! _); cbn; [|done].
  by destruct (cmu_new_url op).
Qed.
End VoteIdOps.

(** ** Withdrawals within a period *)

(** Claims of amounts at times, as their evaluation and application treat the
    permission. *)
Definition claim_step `{FC : FcLib} (p : withdraw_permission_object) (c : Z * asset) : result withdraw_permission_object :=
  _ ← may_claim p c.1 c.2; claim p c.1 (amount c.2).
Definition claims `{FC : FcLib} (p : withdraw_permission_object) (l : list (Z * asset)) : result withdraw_permission_object :=
  foldM claim_step p l.

(** What is claimed in the period [k], when periods begin at [start]. *)
Definition in_period (start sec k t : Z) : bool := (t - start) / sec =? k.
Definition claimed_in (start sec k : Z) (l : list (Z * asset)) : Z :=
  foldr (fun c s => (if in_period start sec k c.1 then amount c.2 else 0) + s) 0 l.

(** Times do not decrease, and stay clear of the end of 32 bits. *)
Fixpoint in_order (lo sec : Z) (l : list (Z * asset)) : Prop :=
  match l with
  | [] => True
  | c :: l => lo <= c.1 /\ c.1 + sec < 2 ^ 32 /\ 0 <= amount c.2 /\ in_order c.1 sec l
  end.

Section Claims.
Context `{FC : FcLib, !FcLaws FC}.
Context (start sec : Z) (limit : asset).
Context (Hstart : 0 <= start) (Hsec : 0 < sec) (Hlimit : 0 <= amount limit <= INT64_MAX).
Implicit Types (p : withdraw_permission_object) (l past : list (Z * asset)).

(** The permission after the claims [past], at the time [now]. *)
Record claims_inv p past (now : Z) : Prop := {
  ci_limit : withdrawal_limit p = limit;
  ci_sec : withdrawal_period_sec p = sec;
  ci_start : exists j, 0 <= j /\ period_start_time p = start + j * sec /\ period_start_time p <= now /\
    claimed_in start sec j past = claimed_this_period p /\
    (forall c, c ∈ past -> (c.1 - start) / sec <= j);
  ci_claimed : 0 <= claimed_this_period p <= amount limit;
  ci_bound k : claimed_in start sec k past <= amount limit;
}.

Lemma asset_leb_amount (x y : asset) : asset_leb x y = Ok true -> amount x <= amount y.
Proof.
  unfold asset_leb, asset_eqb, asset_ltb. destruct (_ && _) eqn:E; intros H; inv_result; bool_to_prop; lia.
Qed.

Lemma claimed_in_cons k c l :
  claimed_in start sec k (c :: l) = (if (c.1 - start) / sec =? k then amount c.2 else 0) + claimed_in start sec k l.
Proof. done. Qed.

Lemma claimed_in_later j l k : (forall c, c ∈ l -> (c.1 - start) / sec <= j) -> j < k -> claimed_in start sec k l = 0.
Proof.
  intros Hl Hk. induction l as [|c l IH]; [done|]. rewrite claimed_in_cons.
  destruct (Z.eqb_spec ((c.1 - start) / sec) k) as [E|].
  - specialize (Hl c (list_elem_of_here _ _)). lia.
  - rewrite IH; [done|]. intros d Hd. apply Hl. by apply list_elem_of_further.
Qed.

Lemma claim_step_inv p past now c p' :
  claims_inv p past now -> now <= c.1 -> c.1 + sec < 2 ^ 32 -> 0 <= amount c.2 ->
  claim_step p c = Ok p' -> claims_inv p' (c :: past) c.1.
Proof.
  intros [Hl Hs (j & Hj & Hst & Hnow & Hcl & Hpast) Hc Hb] Ht Hw Hx H. destruct c as [t x]; cbn [fst snd] in *.
  unfold claim_step, may_claim, available_this_period, claim in H. cbn [fst snd] in H. rewrite Hl, Hs in H.
  unfold wrap32 in H. rewrite Z.mod_small in H by lia. destruct (Z.eqb_spec sec 0); [lia|].
  assert (Hdiv : (t - start) / sec = j + (t - period_start_time p) / sec).
  { rewrite Hst. replace (t - start) with (t - (start + j * sec) + j * sec) by lia. rewrite Z.div_add by lia. lia. }
  rewrite Z.quot_div_nonneg in H by lia. set (q := (t - period_start_time p) / sec) in *.
  assert (Hq : 0 <= q) by (apply Z.div_pos; lia).
  assert (Hqs : q * sec <= t - period_start_time p) by (rewrite Z.mul_comm; apply Z.mul_div_le; lia).
  assert (Hnew : period_start_time p + q * sec = start + (j + q) * sec) by (rewrite Hst; lia).
  cbn [period_start_time claimed_this_period update] in H.
  destruct (Z.leb_spec (period_start_time p + sec) t) as [Hge|Hlt].
  - assert (1 <= q) by (apply Z.div_le_lower_bound; lia). cbn [mbind result_bind] in H.
    destruct (Z.eqb_spec q 0); [lia|]. inv_result. subst.
    match goal with H : asset_leb _ _ = Ok true |- _ => apply asset_leb_amount in H end.
    assert (E0 : claimed_in start sec (j + q) past = 0) by (eapply claimed_in_later; [exact Hpast|lia]).
    split; cbn; [done|done| | |].
    + exists (j + q). rewrite Z.mod_small by lia. split_and!; try lia.
      * change (claimed_in start sec (j + q) ((t, x) :: past) = amount x).
        rewrite claimed_in_cons, E0. cbn. rewrite Hdiv, Z.eqb_refl. lia.
      * intros c [->|Hin]%elem_of_cons; cbn; [lia|]. apply Hpast in Hin. lia.
    + lia.
    + intros k. change (claimed_in start sec k ((t, x) :: past) <= amount limit). rewrite claimed_in_cons. cbn.
      destruct (Z.eqb_spec ((t - start) / sec) k) as [<-|]; [rewrite Hdiv, E0; lia|apply Hb].
  - assert (q = 0) as Hq0 by (apply Z.div_small; lia). rewrite Hq0 in *. cbn [Z.eqb] in H. inv_result.
    inv_safe. subst. match goal with H : asset_leb _ _ = Ok true |- _ => apply asset_leb_amount in H end. cbn in *.
    assert (Hle : claimed_this_period p + amount x <= amount limit).
    { destruct (Z.ltb_spec (claimed_this_period p) (amount limit)); inv_result; inv_safe; lia. }
    split; cbn; [done|done| | |].
    + exists j. rewrite Z.mod_small by lia. split_and!; try lia.
      * change (claimed_in start sec j ((t, x) :: past) = claimed_this_period p + amount x).
        rewrite claimed_in_cons. cbn. rewrite Hdiv. replace (j + 0) with j by lia. rewrite Z.eqb_refl. lia.
      * intros c [->|Hin]%elem_of_cons; cbn; [lia|]. by apply Hpast.
    + lia.
    + intros k. change (claimed_in start sec k ((t, x) :: past) <= amount limit). rewrite claimed_in_cons. cbn.
      destruct (Z.eqb_spec ((t - start) / sec) k) as [<-|]; [|apply Hb]. rewrite Hdiv. replace (j + 0) with j by lia. lia.
Qed.
End Claims.

(** ** Expired permissions *)

Section Expiry.
Implicit Types (db : database).

#[local] Instance sooner_total : Total sooner.
Proof. intros [i x] [j y]. unfold sooner; simpl. lia. Qed.
#[local] Instance sooner_trans : Transitive sooner.
Proof. intros [i x] [j y] [k z]. unfold sooner; simpl. lia. Qed.

Lemma first_permission_Some db i p :
  first_permission db = Some (i, p) ->
  objs (withdraw_permissions (gov db)) !! i = Some p /\
  forall j q, objs (withdraw_permissions (gov db)) !! j = Some q -> wp_expiration p <= wp_expiration q.
Proof.
  unfold first_permission. intros [Hi Hm]%(merge_sort_head sooner). apply elem_of_map_to_list in Hi. split; [done|].
  intros j q Hq%elem_of_map_to_list. specialize (Hm _ Hq). unfold sooner in Hm. simpl in Hm. lia.
Qed.

Lemma first_permission_None db : first_permission db = None -> objs (withdraw_permissions (gov db)) = ∅.
Proof.
  unfold first_permission. by intros ?%(merge_sort_head_None sooner)%map_to_list_empty_iff.
Qed.
End Expiry.

(** ** Properties *)

(** Of a permission of which nothing has been claimed yet, and if no claim comes
    before [period_start_time], no more than the limit is withdrawn in any period,
    whatever the claims are.  The code accepts earlier claims: [early_claims]. *)
Theorem claims_bounded `{FC : FcLib, !FcLaws FC} (p p' : withdraw_permission_object) (l : list (Z * asset)) (k : Z) :
  0 <= period_start_time p -> 0 < withdrawal_period_sec p -> 0 <= amount (withdrawal_limit p) <= INT64_MAX ->
  claimed_this_period p = 0 -> in_order (period_start_time p) (withdrawal_period_sec p) l ->
  claims p l = Ok p' ->
  claimed_in (period_start_time p) (withdrawal_period_sec p) k l <= amount (withdrawal_limit p).
Proof.
  intros H0 Hs Hl Hc Ho H. set (start := period_start_time p) in *. set (sec := withdrawal_period_sec p) in *.
  assert (W : claims_inv start sec (withdrawal_limit p) p [] start).
  { split; try done; [|rewrite Hc; lia|cbn; lia]. exists 0. split_and!; [done|lia|done|by rewrite Hc|].
    intros c Hin. by apply elem_of_nil in Hin. }
  assert (G : forall l q past now, claims_inv start sec (withdrawal_limit p) q past now -> in_order now sec l ->
    claims q l = Ok p' -> claimed_in start sec k l + claimed_in start sec k past <= amount (withdrawal_limit p)).
  { clear W Ho H l. induction l as [|c l IH]; intros q past now W Ho H; [cbn; apply W|].
    destruct Ho as (Ht & Hw & Hx & Ho). unfold claims in H. cbn [foldM] in H. inv_result.
    assert (W' : claims_inv start sec (withdrawal_limit p) a (c :: past) c.1) by (by eapply claim_step_inv).
    specialize (IH _ _ _ W' Ho H). rewrite !claimed_in_cons in *. lia. }
  specialize (G l p [] start W Ho H). cbn in G. lia.
Qed.

Lemma update_withdraw_permissions_ok (db : database) :
  exists db', update_withdraw_permissions db = Ok db' /\
    objs (withdraw_permissions (gov db')) =
      filter (fun x => head_block_time db < wp_expiration x.2) (objs (withdraw_permissions (gov db))) /\
    db' = db <| gov ::= fun g => g <| withdraw_permissions := withdraw_permissions (gov db') |> |>.
Proof.
  unfold update_withdraw_permissions. cbv zeta.
  match goal with |- context [while ?c ?b _ _] => set (cond := c); set (body := b) end.
  set (perms := fun d => objs (withdraw_permissions (gov d))).
  set (kept := filter (fun x => head_block_time db < wp_expiration x.2) (perms db)).
  destruct (while_total cond body
    (fun d => filter (fun x => head_block_time db < wp_expiration x.2) (perms d) = kept /\
       d = db <| gov ::= fun g => g <| withdraw_permissions := withdraw_permissions (gov d) |> |>)
    (fun d => size (perms d))) with (fuel := size (perms db)) (s := db) as (db' & H & [Hk Hd] & Hc).
  - intros d [Hk Hd] Hcond. unfold cond, body in *. assert (Ht : head_block_time d = head_block_time db) by by rewrite Hd.
    destruct (first_permission d) as [[i p]|] eqn:Hf; [|done]. apply first_permission_Some in Hf as [Hi _].
    bool_to_prop. rewrite Ht in Hcond. eexists. split; [reflexivity|]. split; [split|].
    + unfold perms, remove_permission. cbn. rewrite <-Hk. unfold perms. apply map_filter_delete_not.
      intros q Hq. rewrite Hi in Hq. injection Hq as <-. cbn. lia.
    + rewrite Hd. done.
    + unfold perms, remove_permission. cbn. rewrite (map_size_delete_Some _ _ (mk_is_Some _ _ Hi)). unfold perms in *.
      assert (size (objs (withdraw_permissions (gov d))) <> 0%nat) by (apply (map_size_ne_0_lookup_2 _ i); eauto). lia.
  - split; [done|by destruct db as [? ? ? ? ? ? ? ? ? ? ? ? ? ? ? ? ? ? ? ? ? ? ? [] ?]].
  - done.
  - exists db'. split; [exact H|]. split; [|exact Hd]. fold (perms db) (perms db'). fold kept. rewrite <-Hk.
    symmetry. apply map_filter_id. intros j q Hq. cbn. unfold cond in Hc.
    assert (Ht : head_block_time db' = head_block_time db) by by rewrite Hd.
    destruct (first_permission db') as [[i p]|] eqn:Hf.
    + apply first_permission_Some in Hf as [_ Hmin]. specialize (Hmin j q Hq). bool_to_prop. lia.
    + apply first_permission_None in Hf. unfold perms in Hq. rewrite Hf in Hq. by apply lookup_empty_Some in Hq.
Qed.

(** The loop over expired permissions ends, and removes those that have
    expired and no other. *)
Theorem update_withdraw_permissions_spec (db : database) :
  exists db', update_withdraw_permissions db = Ok db' /\
    objs (withdraw_permissions (gov db')) =
      filter (fun x => head_block_time db < wp_expiration x.2) (objs (withdraw_permissions (gov db))) /\
    db' = db <| gov ::= fun g => g <| withdraw_permissions := withdraw_permissions (gov db') |> |>.
Proof. apply update_withdraw_permissions_ok. Qed.

(** ** Witnesses *)

(** What is voted on, with its ids. *)
Definition vote_list (db : database) : list (votable * N) :=
  ((fun x => (votable_witness x.1, wit_vote_id x.2)) <$> map_to_list (objs (witnesses db)))
  ++ ((fun x => (votable_committee_member x.1, cm_vote_id x.2)) <$> map_to_list (objs (committee_members (gov db))))
  ++ ((fun x => (votable_worker x.1, vote_for x.2)) <$> map_to_list (objs (workers (gov db))))
  ++ ((fun x => (votable_against_worker x.1, vote_against x.2)) <$> map_to_list (objs (workers (gov db)))).

Definition vote_ids_check (db : database) : bool :=
  bool_decide (NoDup (vote_list db).*2)
  && bool_decide (Forall (fun x => Z.of_N x.2 < next_available_vote_id (gov db)) (vote_list db)).

Lemma vote_list_spec db v n : vote_id_of db v = Some n -> (v, n) ∈ vote_list db.
Proof.
  unfold vote_list. rewrite !elem_of_app, !list_elem_of_fmap.
  destruct v as [i|i|i|i]; cbn; intros (x & Hx & ->)%fmap_Some; [left|right; left|right; right; left|right; right; right];
    exists (i, x); (split; [done|by apply elem_of_map_to_list]).
Qed.

Lemma vote_ids_check_ok db : vote_ids_check db = true -> vote_ids_ok db.
Proof.
  unfold vote_ids_check. rewrite andb_true_iff, !bool_decide_eq_true. intros [Hd Hf]. split.
  - intros v n Hv%vote_list_spec. rewrite Forall_forall in Hf. by apply Hf in Hv.
  - intros v w n [i Hi]%vote_list_spec%list_elem_of_lookup [j Hj]%vote_list_spec%list_elem_of_lookup.
    assert (i = j) as <-; [|congruence].
    eapply NoDup_lookup; [exact Hd| |]; rewrite list_lookup_fmap; by rewrite ?Hi, ?Hj.
Qed.

Lemma ex_state_ids : vote_ids_ok ex_state.
Proof. apply vote_ids_check_ok. by vm_compute. Qed.

(** 100 core in every hour from the time 1000. *)
Definition ex_permission : withdraw_permission_object :=
  Withdraw_permission_object 10 11 (Asset 100 CORE_ASSET) 3600 1000 (10 ^ 9) 0.
Definition ex_claims : list (Z * asset) :=
  [(1500, Asset 60 CORE_ASSET); (2000, Asset 40 CORE_ASSET); (9000, Asset 100 CORE_ASSET)].

Lemma claims_bounded_witness :
  exists p', claims (FC := fc_ref) ex_permission ex_claims = Ok p' /\ claimed_in 1000 3600 0 ex_claims <= 100.
Proof.
  destruct (result_ok_true (claims (FC := fc_ref) ex_permission ex_claims)) as [p' H]; [by vm_compute|].
  exists p'. split; [exact H|].
  refine (@claims_bounded fc_ref fc_ref_laws ex_permission p' ex_claims 0 _ _ _ _ _ H); [ground..|done|ground].
Defined.

(** Before the first period has begun it can be claimed twice: the second claim
    finds the period moved to the present. *)
Example early_claims :
  result_ok (claims (FC := fc_ref) (ex_permission <| period_start_time := 100000 |>)
    [(1000, Asset 100 CORE_ASSET); (97000, Asset 100 CORE_ASSET)]) = true.
Proof. by vm_compute. Qed.
