(* ===== verification/Capital.v ===== *)
(** * Construction capital and incentives

    Models [libraries/chain/construction_capital_evaluator.cpp],
    [incentive_evaluator.cpp] and [db_incentive.cpp]: core locked as construction
    capital, the votes that speed up its release, and the incentives that pay it
    back with interest, one period at a time. *)

From S2P Require Import Prelude FcLib Asset Vesting Objects Database Ledger Market Trading Evaluator.

Definition GRAPHENE_SECONDS_PER_YEAR : Z := 31536000.
Definition GRAPHENE_ISSUANCE_RATE_SCALE : Z := 100000000.
Definition GRAPHENE_DEFAULT_INSTANT_PAYBACL_RATE : Z := 15000000.

Record construction_capital_create_operation := Construction_capital_create_operation {
  co_fee : asset;
  co_account_id : N;
  co_amount : Z;
  co_period : Z;
  co_total_periods : Z;
}.

Record construction_capital_vote_operation := Construction_capital_vote_operation {
  cv_fee : asset;
  cv_account_id : N;
  cc_from : N;
  cc_to : N;
}.

Record construction_capital_rate_vote_operation := Construction_capital_rate_vote_operation {
  rv_fee : asset;
  rv_account_id : N;
  vote_option : Z;
}.

Record incentive_operation := Incentive_operation {
  in_amount : Z;
  in_fee : asset;
  ccid : N;
  reason : Z;
}.

Section Capital.
Context `{FC : FcLib}.
Implicit Types (db : database) (st : fee_state) (c : construction_capital_object).

(** [fc::uint128] of the product that measures the weight of a capital. *)
Definition capital_weight c : Z :=
  u128_mul fc_u128 (u128_mul fc_u128 (u128_of fc_u128 (cc_amount c)) (u128_of fc_u128 (period c)))
    (u128_of fc_u128 (total_periods c)).

(** ** Creation *)

Definition construction_capital_create_do_evaluate db st (op : construction_capital_create_operation)
  : result fee_state :=
  let gpo := parameters db in
  _ ← FC_ASSERT (0 <=? amount (co_fee op)) "op.fee.amount >= 0";
  _ ← FC_ASSERT (min_construction_capital_amount gpo <=? co_amount op)
        "op.amount >= gpo.parameters.min_construction_capital_amount";
  _ ← FC_ASSERT ((min_construction_capital_period gpo <=? co_period op)
                 && (co_period op <=? max_construction_capital_period gpo))
        "op.period >= min_construction_capital_period && op.period <= max_construction_capital_period";
  _ ← FC_ASSERT ((min_construction_capital_period_len gpo <=? co_total_periods op)
                 && negb (max_construction_capital_period_len gpo =? 0))
        "op.total_periods >= min_construction_capital_period_len && max_construction_capital_period_len";
  _ ← FC_ASSERT (co_amount op <=? amount (get_balance db (co_account_id op) CORE_ASSET))
        "balance.amount >= op.amount";
  Ok st.

Definition instant_payback (x : Z) : result (real128 fc_real) :=
  m ← real_mul fc_real (real_of fc_real (wrap64 x)) (real_of fc_real GRAPHENE_DEFAULT_INSTANT_PAYBACL_RATE);
  real_div fc_real m (real_of fc_real GRAPHENE_ISSUANCE_RATE_SCALE).

(** [adjust_balance( account, asset( amount.to_uint64() ) )] *)
Definition pay_back db (account : N) (r : real128 fc_real) : result database :=
  x ← real_to_uint64 fc_real r;
  adjust_balance db account (Asset (to_int64 x) CORE_ASSET).

Definition new_capital db (op : construction_capital_create_operation) : construction_capital_object := {|
  cc_owner := co_account_id op;
  cc_amount := co_amount op;
  period := co_period op;
  total_periods := co_total_periods op;
  achieved := 0;
  pending := 0;
  left_vote_point := 0;
  next_slot := wrap32 (head_block_time db + co_period op);
  cc_timestamp := head_block_time db;
|}.

Definition count_deposit (x : Z) (o : construction_capital_summary_object) : construction_capital_summary_object :=
  o <| count_all_time ::= fun n => wrap64 (n + 1) |>
    <| count_in_life ::= fun n => wrap64 (n + 1) |>
    <| deposit_all_time ::= fun n => u128_add fc_u128 n (u128_of fc_u128 x) |>
    <| deposit_in_life ::= fun n => u128_add fc_u128 n (u128_of fc_u128 x) |>.

Definition construction_capital_create_do_apply db (op : construction_capital_create_operation) : result database :=
  n ← asset_neg (Asset (co_amount op) CORE_ASSET);
  db ← adjust_balance db (co_account_id op) n;
  let db := db <| construction_capitals := (tbl_create (construction_capitals db) (new_capital db op)).2 |> in
  acc_obj ← tbl_get (accounts db) (co_account_id op);
  share ← instant_payback (co_amount op);
  db ← (if is_instant_payback acc_obj (head_block_time db) then pay_back db (co_account_id op) share else Ok db);
  db ← pay_back db GRAPHENE_MARKET_FOUND_ACCOUNT share;
  let db := db <| cc_summary ::= count_deposit (co_amount op) |> in
  adjust_balance db GRAPHENE_CONSTRUCTION_CAPITAL_ACCOUNT (Asset (co_amount op) CORE_ASSET).

(** ** Votes *)

Definition construction_capital_vote_do_evaluate db st (op : construction_capital_vote_operation)
  : result fee_state :=
  _ ← FC_ASSERT (negb (cc_from op =? cc_to op)%N) "op.cc_from != op.cc_to";
  _ ← FC_ASSERT (bool_decide ((cc_from op, cc_to op) ∉ cc_votes db)) "vote pair already exist";
  from ← of_option (tbl_find (construction_capitals db) (cc_from op))
           (assert_exception "source construction capital not exist");
  _ ← FC_ASSERT (achieved from <? total_periods from) "source constuction capital has expired";
  _ ← FC_ASSERT (cc_owner from =? cv_account_id op)%N "account is not owner of construction capital";
  to ← of_option (tbl_find (construction_capitals db) (cc_to op))
         (assert_exception "destination construction capital not exist");
  _ ← FC_ASSERT (achieved to <? total_periods to) "destination constuction capital has expired";
  let count := length (filter (fun v : N * N => v.1 = cc_from op) (cc_votes db)) in
  _ ← FC_ASSERT (Z.of_nat count <=? max_construction_capital_vote (parameters db)) "No more vote share left";
  Ok st.

(** The loop that turns vote points into pending releases; its state is
    [obj.pending] and [total_point]. *)
Definition accelerating (share : Z) c (s : Z * Z) : bool :=
  (share <=? s.2) && (s.1 + achieved c <? total_periods c).
Definition accelerate_step (share : Z) (s : Z * Z) : result (Z * Z) :=
  Ok (wrap16 (s.1 + 1), u128_sub fc_u128 s.2 share).

(** Each round leaves one release less. *)
Definition accelerate_fuel c : nat := Z.to_nat (total_periods c - achieved c - pending c).

Definition accelerate (share points : Z) c : result construction_capital_object :=
  '(p, rest) ← while (accelerating share c) (accelerate_step share) (accelerate_fuel c) (pending c, points);
  Ok (c <| pending := p |> <| left_vote_point := rest |>).

(** Of the indices of the votes, [by_vote_from] and [by_vote_to] admit equal
    keys; [by_vote_pair] is unique. *)
Definition create_vote db (from to : N) : result database :=
  _ ← FC_ASSERT (bool_decide ((from, to) ∉ cc_votes db))
        "Could not create object! Most likely a uniqueness constraint is violated.";
  Ok (db <| cc_votes ::= fun l => l ++ [(from, to)] |>).

Definition construction_capital_vote_do_apply db (op : construction_capital_vote_operation) : result database :=
  to ← of_option (tbl_find (construction_capitals db) (cc_to op)) (undefined_behaviour "cc_to");
  from ← of_option (tbl_find (construction_capitals db) (cc_from op)) (undefined_behaviour "cc_from");
  let total_point := u128_add fc_u128 (capital_weight from) (left_vote_point to) in
  to' ← accelerate (capital_weight to) total_point to;
  create_vote (db <| construction_capitals ::= fun t => tbl_modify t (cc_to op) (fun _ => to') |>)
    (cc_from op) (cc_to op).

Definition construction_capital_rate_vote_do_evaluate db st (op : construction_capital_rate_vote_operation)
  : result fee_state :=
  _ ← FC_ASSERT ((vote_option op =? 0) || (vote_option op =? 1) || (vote_option op =? 2)) "Unknow vote option";
  Ok st.

(** Created or modified, the vote of the account is this one. *)
Definition construction_capital_rate_vote_do_apply db (op : construction_capital_rate_vote_operation)
  : result database :=
  Ok (db <| cc_rate_votes ::= <[rv_account_id op := (vote_option op, head_block_time db)]> |>).

(** ** Incentives *)

(** What one release of a capital pays: a share of the capital and the interest. *)
Definition incentive_amount db c : result (real128 fc_real) :=
  amount0 ← real_div fc_real (real_of fc_real (wrap64 (cc_amount c))) (real_of fc_real (total_periods c));
  m ← real_mul fc_real (real_of fc_real (wrap64 (cc_amount c))) (real_of fc_real (period c));
  y ← real_div fc_real m (real_of fc_real GRAPHENE_SECONDS_PER_YEAR);
  i ← real_mul fc_real y (real_of fc_real (issuance_rate (parameters db)));
  amount1 ← real_div fc_real i (real_of fc_real GRAPHENE_ISSUANCE_RATE_SCALE);
  Ok (real_add fc_real amount0 amount1).

Definition incentive_do_evaluate db st (op : incentive_operation) : result fee_state :=
  it ← of_option (tbl_find (construction_capitals db) (ccid op))
         (assert_exception "construction capital not found");
  r ← incentive_amount db it;
  x ← real_to_uint64 fc_real r;
  _ ← FC_ASSERT (to_int64 x =? in_amount op) "incentive amount invalid";
  _ ← FC_ASSERT (achieved it <? total_periods it) "all periods are released already";
  _ ← (if reason op =? 0 then
         FC_ASSERT (next_slot it <=? head_block_time db) "incentive by period should reach the time slot"
       else if reason op =? 1 then
         FC_ASSERT (1 <=? pending it) "only construction capital has pending can be incentive by vote"
       else Ok tt);
  Ok st.

(** The capital after a release. *)
Definition released (why : Z) c : construction_capital_object :=
  (if why =? 0 then c <| next_slot := wrap32 (next_slot c + period c) |>
   else c <| pending := wrap16 (pending c - 1) |>)
  <| achieved := wrap16 (achieved c + 1) |>.

Definition count_release (c : construction_capital_object) (deposit profit : Z)
    (o : construction_capital_summary_object) : construction_capital_summary_object :=
  let o := o <| deposit_in_life ::= fun n => u128_sub fc_u128 n (u128_of fc_u128 deposit) |>
             <| profit_all_time ::= fun n => u128_add fc_u128 n (u128_of fc_u128 profit) |> in
  if total_periods c <=? achieved c then o <| count_in_life ::= fun n => wrap64 (n - 1) |> else o.

Definition incentive_do_apply db (op : incentive_operation) : result database :=
  it ← of_option (tbl_find (construction_capitals db) (ccid op)) (undefined_behaviour "it");
  let obj := released (reason op) it in
  db ← adjust_balance (db <| construction_capitals ::= fun t => tbl_modify t (ccid op) (fun _ => obj) |>)
         (cc_owner obj) (Asset (in_amount op) CORE_ASSET);
  deposit ← safe_div fc_safe (cc_amount obj) (total_periods obj);
  profit ← safe_sub fc_safe (in_amount op) deposit;
  let db := db <| cc_summary ::= count_release obj deposit profit |> in
  if total_periods obj <=? achieved obj
  then Ok (db <| construction_capitals ::= fun t => tbl_remove t (ccid op) |>) else Ok db.

(** ** The generated transaction *)

(** The lambda [generate_op]: nothing once the transaction is full. *)
Definition generate_op db (ops : list incentive_operation) (o : N * Z) : result (list incentive_operation) :=
  if max_incentive_operations_per_block (parameters db) <=? Z.of_nat (length ops) then Ok ops
  else
    c ← tbl_get (construction_capitals db) o.1;
    r ← incentive_amount db c;
    x ← real_to_uint64 fc_real r;
    Ok (ops ++ [Incentive_operation (to_int64 x) (Asset 0 CORE_ASSET) o.1 o.2]).

(** The capitals the two loops visit, in order, with the reason.  The orders of
    the two indices are arguments: capitals with equal keys are in the order in
    which they came to have the key, which the state does not record. *)
Definition due_by_slot db (by_next_slot : list N) : list (N * Z) :=
  i ← by_next_slot;
  match objs (construction_capitals db) !! i with
  | Some c => if next_slot c <=? head_block_time db then [(i, 0)] else []
  | None => []
  end.
Definition due_by_vote db (by_pending : list N) : list (N * Z) :=
  i ← reverse by_pending;
  match objs (construction_capitals db) !! i with
  | Some c => replicate (Z.to_nat (pending c)) (i, 1)
  | None => []
  end.

Definition generate_incentive_operations db (by_next_slot by_pending : list N)
  : result (list incentive_operation) :=
  foldM (generate_op db) [] (due_by_slot db by_next_slot ++ due_by_vote db by_pending).
End Capital.

(** ** Instances *)

#[export] Instance construction_capital_create_evaluator `{FC : FcLib}
  : Evaluator construction_capital_create_operation := {|
  validate _ := Ok tt; fee_payer := co_account_id; op_fee := co_fee;
  do_evaluate := construction_capital_create_do_evaluate; pay_fee := generic_pay_fee;
  do_apply db _ op := construction_capital_create_do_apply db op;
|}.
#[export] Instance construction_capital_vote_evaluator `{FC : FcLib}
  : Evaluator construction_capital_vote_operation := {|
  validate _ := Ok tt; fee_payer := cv_account_id; op_fee := cv_fee;
  do_evaluate := construction_capital_vote_do_evaluate; pay_fee := generic_pay_fee;
  do_apply db _ op := construction_capital_vote_do_apply db op;
|}.
#[export] Instance construction_capital_rate_vote_evaluator `{FC : FcLib}
  : Evaluator construction_capital_rate_vote_operation := {|
  validate _ := Ok tt; fee_payer := rv_account_id; op_fee := rv_fee;
  do_evaluate := construction_capital_rate_vote_do_evaluate; pay_fee := generic_pay_fee;
  do_apply db _ op := construction_capital_rate_vote_do_apply db op;
|}.
#[export] Instance incentive_evaluator `{FC : FcLib} : Evaluator incentive_operation := {|
  validate _ := Ok tt; fee_payer _ := GRAPHENE_TEMP_ACCOUNT; op_fee := in_fee;
  do_evaluate := incentive_do_evaluate; pay_fee := generic_pay_fee;
  do_apply db _ op := incentive_do_apply db op;
|}.

(** The evaluation state of [apply_incentive]: nothing skipped, and a fee of 0. *)
Definition incentive_context : evaluation_context := Evaluation_context false false 0 GRAPHENE_100_PERCENT.

Definition apply_incentive `{FC : FcLib} (db : database) (ops : list incentive_operation) : result database :=
  foldM (start_evaluate incentive_context) db ops.

(** ** Specification *)

(** The releases that [points] buy at [share] each when [room] are left. *)
Definition bought (share points room : Z) : Z :=
  Z.max 0 (if share =? 0 then room else Z.min (points / share) room).

(** The core that opening a capital makes: the share paid back at once goes to
    the market fund, and once more to an account with instant payback. *)
Definition payback_created `{FC : FcLib} (db : database) (op : construction_capital_create_operation) : Z :=
  match instant_payback (co_amount op) ≫= real_to_uint64 fc_real with
  | Ok x =>
      let instant := match tbl_find (accounts db) (co_account_id op) with
                     | Some a => is_instant_payback a (head_block_time db)
                     | None => false
                     end in
      to_int64 x + (if instant then to_int64 x else 0)
  | Err _ => 0
  end.

(** Fields of the width of their types. *)
Record capital_ok (c : construction_capital_object) : Prop := {
  capital_amount : 0 <= cc_amount c <= INT64_MAX;
  capital_period : 0 <= period c < 2 ^ 32;
  capital_periods : 0 <= total_periods c < 2 ^ 16;
  capital_achieved : 0 <= achieved c < 2 ^ 16;
  capital_pending : 0 <= pending c < 2 ^ 16;
  capital_points : in_uint128 (left_vote_point c);
}.

Definition weight (c : construction_capital_object) : Z := cc_amount c * period c * total_periods c.

(** The life of the capitals: a step is one of their operations, or whatever else
    leaves them alone. *)
Inductive capital_step `{FC : FcLib} : database -> option incentive_operation -> database -> Prop :=
  | create_step ctx db (op : construction_capital_create_operation) db' :
      start_evaluate ctx db op = Ok db' -> capital_step db None db'
  | vote_step ctx db (op : construction_capital_vote_operation) db' :
      start_evaluate ctx db op = Ok db' -> capital_step db None db'
  | rate_vote_step ctx db (op : construction_capital_rate_vote_operation) db' :
      start_evaluate ctx db op = Ok db' -> capital_step db None db'
  | incentive_step ctx db (op : incentive_operation) db' :
      start_evaluate ctx db op = Ok db' -> capital_step db (Some op) db'
  | other_step db db' : construction_capitals db' = construction_capitals db -> capital_step db None db'.

(** A run, and the incentives paid in it. *)
Inductive capital_run `{FC : FcLib} : database -> list incentive_operation -> database -> Prop :=
  | run_nil db : capital_run db [] db
  | run_cons db1 db2 db3 o ops :
      capital_step db1 o db2 -> capital_run db2 ops db3 -> capital_run db1 (option_list o ++ ops) db3.

Definition payments (i : N) (ops : list incentive_operation) : Z :=
  Z.of_nat (length (filter (fun op => ccid op = i) ops)).

(** What never changes of a capital. *)
Definition same_terms (c c' : construction_capital_object) : Prop :=
  cc_owner c' = cc_owner c /\ cc_amount c' = cc_amount c /\ period c' = period c /\
  total_periods c' = total_periods c.

Section Facts.
Context `{FC : FcLib, !FcLaws FC}.
Implicit Types (db : database) (c : construction_capital_object).

Lemma capital_weight_ok c : capital_ok c -> capital_weight c = weight c /\ 0 <= weight c < 2 ^ 111.
Proof.
  intros [Ha Hp Ht _ _ _]. unfold capital_weight, weight.
  rewrite !(u128_of_ok _ fc_u128_laws) by blia.
  assert (0 <= cc_amount c * period c < 2 ^ 95) by (unfold_bounds; nia).
  assert (0 <= cc_amount c * period c * total_periods c < 2 ^ 111) by nia.
  rewrite (u128_mul_ok _ fc_u128_laws _ (period c)) by blia.
  rewrite (u128_mul_ok _ fc_u128_laws) by blia. done.
Qed.

Lemma bought_step share points room :
  0 <= share <= points -> 0 < room -> bought share points room = 1 + bought share (points - share) (room - 1).
Proof.
  intros Hs Hr. unfold bought. destruct (Z.eqb_spec share 0); [lia|].
  replace points with (points - share + 1 * share) at 1 by lia. rewrite Z.div_add by lia.
  assert (0 <= (points - share) / share) by (apply Z.div_pos; lia). lia.
Qed.

Lemma bought_none share points room :
  0 <= share -> 0 <= points -> points < share \/ room <= 0 -> bought share points room = 0.
Proof.
  intros Hs Hp Hor. unfold bought. destruct (Z.eqb_spec share 0); [lia|].
  destruct Hor; [rewrite Z.div_small by lia; lia|].
  assert (0 <= points / share) by (apply Z.div_pos; lia). lia.
Qed.

(** The loop divides the points by the share, as far as there is room. *)
Lemma accelerate_ok share points c :
  capital_ok c -> 0 <= share -> in_uint128 points ->
  let k := bought share points (total_periods c - achieved c - pending c) in
  accelerate share points c
  = Ok (c <| pending := pending c + k |> <| left_vote_point := points - k * share |>).
Proof.
  intros [_ _ Ht Ha Hpend _] Hs Hp k. unfold accelerate, accelerate_fuel, k. clear k.
  enough (forall fuel p points, 0 <= p -> in_uint128 points ->
    (Z.to_nat (total_periods c - achieved c - p) <= fuel)%nat ->
    while (accelerating share c) (accelerate_step share) fuel (p, points)
    = Ok (p + bought share points (total_periods c - achieved c - p),
          points - bought share points (total_periods c - achieved c - p) * share)) as H
    by (rewrite H; [done|lia|done|lia]).
  clear Hpend points Hp. intros fuel. induction fuel as [|n IH]; intros p points Hp0 Hp Hf; unfold_bounds.
  - rewrite while_done, bought_none; [by rewrite Z.add_0_r, Z.sub_0_r|lia..|unfold accelerating; simpl; lia].
  - destruct (accelerating share c (p, points)) eqn:E; unfold accelerating in E; simpl in E.
    + rewrite while_step by done. unfold accelerate_step, wrap16; simpl. bool_to_prop. rewrite bought_step by lia.
      rewrite (u128_sub_ok _ fc_u128_laws), (Z.mod_small (p + 1)) by blia. rewrite IH by blia.
      replace (total_periods c - achieved c - (p + 1)) with (total_periods c - achieved c - p - 1) by lia.
      f_equal. f_equal; lia.
    + rewrite while_done by (unfold accelerating; simpl; lia).
      rewrite bought_none by lia. by rewrite Z.add_0_r, Z.sub_0_r.
Qed.

Lemma accelerate_frame share points c c' :
  accelerate share points c = Ok c' -> exists p r, c' = c <| pending := p |> <| left_vote_point := r |>.
Proof. unfold accelerate. intros H. inv_results. eauto. Qed.

(** ** What the operations move *)

Lemma capitals_moves db f : moves db (db <| construction_capitals ::= f |>) (fun _ => 0).
Proof. by apply moves_same. Qed.

Lemma summary_moves db f : moves db (db <| cc_summary ::= f |>) (fun _ => 0).
Proof. by apply moves_same. Qed.

Lemma pay_back_moves db i r db' :
  pay_back db i r = Ok db' ->
  exists x, real_to_uint64 fc_real r = Ok x /\ moves db db' (fun a => core_in a (to_int64 x)).
Proof.
  unfold pay_back. intros H. inv_result. eexists; split; [done|].
  match goal with H : adjust_balance _ _ _ = _ |- _ => apply adjust_balance_moves in H end.
  eapply moves_eq; [done|]. intros k. apply amount_in_core.
Qed.

Lemma construction_capital_create_moves db op db' :
  construction_capital_create_do_apply db op = Ok db' ->
  moves db db' (fun a => core_in a (payback_created db op)).
Proof.
  unfold construction_capital_create_do_apply, payback_created, tbl_find. cbv zeta. intros H. inv_result. inv_get.
  match goal with H : asset_neg _ = _ |- _ => apply asset_neg_inv in H as -> end.
  match goal with H : adjust_balance db _ _ = Ok ?d |- _ => rename d into db1;
    pose proof (adjust_balance_frame' _ _ _ _ H) as F1; apply adjust_balance_moves in H as M1 end.
  match goal with H : adjust_balance _ _ _ = Ok db' |- _ => apply adjust_balance_moves in H as M4 end.
  match goal with H : objs (accounts _) !! _ = Some ?x |- _ => rename x into acc; rename H into Ha; simpl in Ha end.
  match goal with H : pay_back ?d _ _ = Ok ?e |- _ => rename d into db2; rename e into db3;
    apply pay_back_moves in H as (x & Hx & M3) end.
  match goal with H : (if ?b then _ else _) = Ok db2 |- _ => rename H into Hi; set (instant := b) in * end.
  set (db1' := db1 <| construction_capitals := _ |>) in *.
  assert (M2 : moves db1' db2 (fun a => core_in a (if instant then to_int64 x else 0))).
  { destruct instant.
    - apply pay_back_moves in Hi as (x' & Hx' & M2). by assert (x' = x) as -> by congruence.
    - inv_result. eapply moves_eq; [apply moves_refl|]. intros a. by rewrite core_in_0. }
  match goal with H : instant_payback _ = _ |- _ => rewrite H end. cbn [mbind result_bind]. rewrite Hx.
  replace (objs (accounts db)) with (objs (accounts db1)) by by rewrite F1. rewrite Ha.
  replace (is_instant_payback acc (head_block_time db)) with instant by (unfold instant, head_block_time, db1'; simpl; by rewrite F1).
  eapply moves_eq.
  { eapply moves_step; [|exact M4]. eapply moves_step; [|apply (summary_moves db3)].
    eapply moves_step; [|exact M3]. eapply moves_step; [|exact M2]. eapply moves_step; [exact M1|].
    apply (capitals_moves db1). }
  intros a. cbv beta. rewrite amount_in_opp, amount_in_core, core_in_add. lia.
Qed.

Lemma construction_capital_vote_moves db op db' :
  construction_capital_vote_do_apply db op = Ok db' -> moves db db' (fun _ => 0).
Proof. unfold construction_capital_vote_do_apply, create_vote. cbv zeta. intros H. inv_result. by apply moves_same. Qed.

Lemma incentive_moves db op db' :
  incentive_do_apply db op = Ok db' -> moves db db' (fun a => core_in a (in_amount op)).
Proof.
  unfold incentive_do_apply. cbv zeta. intros H. inv_result.
  match goal with H : adjust_balance _ _ _ = Ok ?d |- _ => rename d into db1; apply adjust_balance_moves in H as M end.
  set (db2 := db1 <| cc_summary ::= _ |>) in *.
  assert (M2 : moves db db2 (fun a => core_in a (in_amount op))).
  { eapply moves_eq; [eapply moves_step; [eapply moves_step; [apply capitals_moves|exact M]|apply summary_moves]|].
    intros k. cbv beta. rewrite amount_in_core. lia. }
  destruct (_ <=? _); inv_result; [|done].
  refine (moves_eq _ _ _ _ (moves_step _ _ _ _ _ M2 (capitals_moves db2 _)) _). intros k. cbv beta. lia.
Qed.

(** ** Runs *)

Lemma vote_evaluate_keeps db st st1 op : construction_capital_vote_do_evaluate db st op = Ok st1 -> st1 = st.
Proof. unfold construction_capital_vote_do_evaluate. cbv zeta. intros H. by inv_result. Qed.

Lemma create_evaluate_keeps db st st1 op : construction_capital_create_do_evaluate db st op = Ok st1 -> st1 = st.
Proof. unfold construction_capital_create_do_evaluate. cbv zeta. intros H. by inv_result. Qed.

Lemma rate_vote_evaluate_keeps db st st1 op : construction_capital_rate_vote_do_evaluate db st op = Ok st1 -> st1 = st.
Proof. unfold construction_capital_rate_vote_do_evaluate. intros H. by inv_result. Qed.

Lemma incentive_evaluate_keeps db st st1 op : incentive_do_evaluate db st op = Ok st1 -> st1 = st.
Proof. unfold incentive_do_evaluate. intros H. inv_result. done. Qed.

(** What each operation does to the capitals. *)
Lemma adjust_balance_capitals db i x db' :
  adjust_balance db i x = Ok db' -> construction_capitals db' = construction_capitals db /\ cc_votes db' = cc_votes db.
Proof. intros H%adjust_balance_frame'. by rewrite H. Qed.

Lemma pay_back_capitals db i r db' :
  pay_back db i r = Ok db' -> construction_capitals db' = construction_capitals db.
Proof. unfold pay_back. intros H. inv_result. by eapply adjust_balance_capitals. Qed.

Lemma create_capitals ctx db (op : construction_capital_create_operation) db' :
  start_evaluate ctx db op = Ok db' ->
  exists c, construction_capitals db' = (tbl_create (construction_capitals db) c).2.
Proof.
  intros (st & db2 & db3 & He & F & _ & _ & Happ & Hadj)%generic_run; [|done|intros ??; apply create_evaluate_keeps].
  apply adjust_balance_capitals in Hadj as [-> _]. cbn [do_apply construction_capital_create_evaluator] in Happ.
  unfold construction_capital_create_do_apply in Happ. cbv zeta in Happ. inv_result.
  match goal with H : adjust_balance db2 _ _ = _ |- _ => apply adjust_balance_capitals in H as [E1 _] end.
  match goal with H : adjust_balance _ _ _ = _ |- _ => apply adjust_balance_capitals in H as [-> _] end.
  match goal with H : pay_back _ _ _ = Ok ?d |- _ => rename d into db5; apply pay_back_capitals in H as E5 end.
  match goal with H : (if _ then pay_back ?d _ _ else _) = Ok ?e |- _ =>
    assert (construction_capitals e = construction_capitals d) as E4
      by (case_match; [by eapply pay_back_capitals|by inv_result]) end.
  simpl. rewrite E5, E4. simpl. rewrite E1, F. eauto.
Qed.

Lemma vote_capitals ctx db (op : construction_capital_vote_operation) db' :
  start_evaluate ctx db op = Ok db' ->
  exists st from to to', construction_capital_vote_do_evaluate db st op = Ok st /\
    objs (construction_capitals db) !! cc_from op = Some from /\
    objs (construction_capitals db) !! cc_to op = Some to /\
    accelerate (capital_weight to) (u128_add fc_u128 (capital_weight from) (left_vote_point to)) to = Ok to' /\
    construction_capitals db' = tbl_modify (construction_capitals db) (cc_to op) (fun _ => to') /\
    ((cc_from op, cc_to op) ∉ cc_votes db) /\
    cc_votes db' = cc_votes db ++ [(cc_from op, cc_to op)].
Proof.
  intros (st & db2 & db3 & He & F & _ & _ & Happ & Hadj)%generic_run; [|done|intros ??; apply vote_evaluate_keeps].
  apply adjust_balance_capitals in Hadj as [-> ->]. cbn [do_apply construction_capital_vote_evaluator] in Happ.
  unfold construction_capital_vote_do_apply, create_vote, tbl_find in Happ. cbv zeta in Happ. inv_result. bool_to_prop.
  repeat match goal with H : of_option _ _ = Ok _ |- _ => apply of_option_Ok in H end.
  rewrite F in *. simpl in *. eexists _, _, _, _. split_and!; try done.
Qed.

Lemma rate_vote_capitals ctx db (op : construction_capital_rate_vote_operation) db' :
  start_evaluate ctx db op = Ok db' -> construction_capitals db' = construction_capitals db.
Proof.
  intros (st & db2 & db3 & He & F & _ & _ & Happ & Hadj)%generic_run; [|done|intros ??; apply rate_vote_evaluate_keeps].
  apply adjust_balance_capitals in Hadj as [-> _]. cbn in Happ. unfold construction_capital_rate_vote_do_apply in Happ.
  inv_result. simpl. by rewrite F.
Qed.

Lemma incentive_capitals ctx db (op : incentive_operation) db' :
  start_evaluate ctx db op = Ok db' ->
  exists st c, incentive_do_evaluate db st op = Ok st /\
    objs (construction_capitals db) !! ccid op = Some c /\
    (wf_db db -> forall a, supply db' a = supply db a) /\
    (forall j a, (j, a) <> (GRAPHENE_TEMP_ACCOUNT, asset_id (in_fee op)) ->
       amount (get_balance db' j a) = amount (get_balance db j a)
         + (if decide ((j, a) = (cc_owner c, CORE_ASSET)) then in_amount op else 0)) /\
    construction_capitals db' =
      if total_periods c <=? achieved (released (reason op) c)
      then tbl_remove (tbl_modify (construction_capitals db) (ccid op) (fun _ => released (reason op) c)) (ccid op)
      else tbl_modify (construction_capitals db) (ccid op) (fun _ => released (reason op) c).
Proof.
  intros (st & db2 & db3 & He & F & _ & Hs & Happ & Hadj)%generic_run; [|done|intros ??; apply incentive_evaluate_keeps].
  cbn [do_apply incentive_evaluator] in Happ. unfold incentive_do_apply, tbl_find in Happ. cbv zeta in Happ. inv_result.
  match goal with H : objs _ !! _ = Some _ |- _ => rename H into Hc end.
  rewrite F in Hc. simpl in Hc. rename a into c. exists st, c.
  replace (cc_owner (released (reason op) c)) with (cc_owner c) in * by (unfold released; by destruct (_ =? 0)).
  replace (total_periods (released (reason op) c)) with (total_periods c) in * by (unfold released; by destruct (_ =? 0)).
  match goal with H : adjust_balance _ (cc_owner c) _ = Ok ?d |- _ => rename d into db4; rename H into Hpay end.
  assert (db3 = db4 <| cc_summary := cc_summary db3 |> <| construction_capitals := construction_capitals db3 |>) as E3
    by (destruct (_ <=? _); inv_result; by destruct db4).
  assert (construction_capitals db3 = if total_periods c <=? achieved (released (reason op) c)
    then tbl_remove (construction_capitals db4) (ccid op) else construction_capitals db4) as C3
    by (destruct (_ <=? _); by inv_result).
  clear Happ. apply adjust_balance_capitals in Hpay as E4. apply adjust_balance_capitals in Hadj as E5.
  split_and!; [done|done| | |].
  - intros W a. rewrite <-Hs by done. rewrite (adjust_balance_frame' _ _ _ _ Hadj), E3, (adjust_balance_frame' _ _ _ _ Hpay). done.
  - intros j a Hne. apply adjust_balance_inv in Hadj as (b & -> & Hb & _). rewrite Hb, decide_False by done.
    rewrite Z.add_0_r, E3. apply adjust_balance_inv in Hpay as (b' & -> & Hb' & _).
    trans (amount (get_balance (db2 <| balances := b' |>) j a)); [done|]. etrans; [apply Hb'|].
    simpl. f_equal. by rewrite F.
  - destruct E5 as [-> _]. rewrite C3. destruct E4 as [-> _]. simpl. by rewrite F.
Qed.

(** ** The life of a capital *)

Lemma released_achieved why c :
  0 <= achieved c < total_periods c -> total_periods c < 2 ^ 16 -> achieved (released why c) = achieved c + 1.
Proof. intros. unfold released, wrap16. simpl. rewrite Z.mod_small by lia. done. Qed.

Lemma released_terms why c : same_terms c (released why c).
Proof. unfold released. by destruct (why =? 0). Qed.

(** One step seen from the capital [i]: it is paid once by an incentive for it,
    which only a capital with something left can get, and is kept otherwise. *)
Lemma capital_step_at db o db' i c :
  wf_table (construction_capitals db) -> objs (construction_capitals db) !! i = Some c ->
  0 <= achieved c < total_periods c -> total_periods c < 2 ^ 16 -> capital_step db o db' ->
  let paid := achieved c + payments i (option_list o) in
  match objs (construction_capitals db') !! i with
  | Some c' => same_terms c c' /\ achieved c' = paid /\ paid < total_periods c
  | None => paid = total_periods c
  end.
Proof.
  intros W Hi Ha Ht Hs. unfold payments.
  destruct Hs as [ctx db op db' H|ctx db op db' H|ctx db op db' H|ctx db op db' H|db db' H];
    cbn [option_list]; cbv zeta; rewrite ?Z.add_0_r.
  - apply create_capitals in H as [c0 ->]. simpl. rewrite lookup_insert_ne, Hi; [split_and!; done || lia|].
    intros <-. by rewrite (wf_table_fresh _ W) in Hi.
  - apply vote_capitals in H as (st & from & to & to' & _ & _ & Hto & Hacc & -> & _).
    apply accelerate_frame in Hacc as (p & r & ->). simpl. destruct (decide (i = cc_to op)) as [->|].
    + rewrite lookup_alter_eq, Hto. simpl. simplify_eq. split_and!; done || lia.
    + rewrite lookup_alter_ne, Hi by done. split_and!; done || lia.
  - apply rate_vote_capitals in H as ->. rewrite Hi. split_and!; done || lia.
  - apply incentive_capitals in H as (st & c0 & He & Hc0 & _ & _ & ->). change (option_list (Some op)) with [op]. rewrite filter_cons, filter_nil.
    destruct (decide (ccid op = i)) as [<-|Hne].
    + assert (c0 = c) as -> by congruence. pose proof (released_terms (reason op) c) as T.
      pose proof (released_achieved (reason op) c Ha Ht) as E. revert T E. generalize (released (reason op) c).
      intros c1 T E. simpl. destruct (Z.leb_spec (total_periods c) (achieved c1)); simpl.
      * rewrite lookup_delete_eq. lia.
      * rewrite lookup_alter_eq, Hi. simpl. split_and!; done || apply T || lia.
    + simpl. rewrite Z.add_0_r. destruct (_ <=? _); simpl; rewrite ?lookup_delete_ne by done;
        rewrite lookup_alter_ne, Hi by done; split_and!; done || lia.
  - rewrite H, Hi. split_and!; done || lia.
Qed.

(** A capital that is gone is not paid and does not come back. *)
Lemma capital_step_gone db o db' i :
  wf_table (construction_capitals db) -> (i < next_instance (construction_capitals db))%N ->
  objs (construction_capitals db) !! i = None -> capital_step db o db' ->
  objs (construction_capitals db') !! i = None /\ payments i (option_list o) = 0.
Proof.
  intros W Hlt Hi Hs. unfold payments.
  destruct Hs as [ctx db op db' H|ctx db op db' H|ctx db op db' H|ctx db op db' H|db db' H]; cbn [option_list].
  - apply create_capitals in H as [c0 ->]. split; [|done]. simpl. rewrite lookup_insert_ne; [done|lia].
  - apply vote_capitals in H as (st & from & to & to' & _ & _ & Hto & _ & -> & _). split; [|done]. simpl.
    rewrite lookup_alter_ne; [done|congruence].
  - by apply rate_vote_capitals in H as ->.
  - apply incentive_capitals in H as (st & c0 & He & Hc0 & _ & _ & ->). change (option_list (Some op)) with [op]. rewrite filter_cons, filter_nil.
    destruct (decide (ccid op = i)) as [<-|Hne]; [congruence|]. split; [|done].
    destruct (_ <=? _); simpl; rewrite ?lookup_delete_ne by done; by rewrite lookup_alter_ne.
  - by rewrite H.
Qed.

Lemma capital_step_table db o db' :
  wf_table (construction_capitals db) -> capital_step db o db' ->
  wf_table (construction_capitals db') /\
  (next_instance (construction_capitals db) <= next_instance (construction_capitals db'))%N.
Proof.
  intros W Hs.
  destruct Hs as [ctx db op db' H|ctx db op db' H|ctx db op db' H|ctx db op db' H|db db' H].
  - apply create_capitals in H as [c0 ->]. split; [by apply tbl_create_wf|]. simpl. lia.
  - apply vote_capitals in H as (st & from & to & to' & _ & _ & Hto & _ & -> & _).
    split; [by apply tbl_modify_wf|]. simpl. lia.
  - apply rate_vote_capitals in H as ->. split; [done|lia].
  - apply incentive_capitals in H as (st & c0 & He & Hc0 & _ & _ & ->).
    destruct (_ <=? _); (split; [auto using tbl_remove_wf, tbl_modify_wf|simpl; lia]).
  - rewrite H. split; [done|lia].
Qed.

Lemma payments_app i ops1 ops2 : payments i (ops1 ++ ops2) = payments i ops1 + payments i ops2.
Proof. unfold payments. rewrite filter_app, length_app. lia. Qed.

Lemma capital_run_gone db ops db' i :
  capital_run db ops db' -> wf_table (construction_capitals db) ->
  (i < next_instance (construction_capitals db))%N -> objs (construction_capitals db) !! i = None ->
  objs (construction_capitals db') !! i = None /\ payments i ops = 0.
Proof.
  induction 1 as [db|db1 db2 db3 o ops Hs Hr IH]; intros W Hlt Hi; [done|].
  destruct (capital_step_table _ _ _ W Hs) as [W2 Hle]. destruct (capital_step_gone _ _ _ _ W Hlt Hi Hs) as [Hi2 Hp].
  destruct (IH W2) as [Hi3 Hp3]; [lia|done|]. split; [done|]. rewrite payments_app. lia.
Qed.

Lemma capital_run_at db ops db' i c :
  capital_run db ops db' -> wf_table (construction_capitals db) -> objs (construction_capitals db) !! i = Some c ->
  0 <= achieved c < total_periods c -> total_periods c < 2 ^ 16 ->
  let paid := achieved c + payments i ops in
  match objs (construction_capitals db') !! i with
  | Some c' => same_terms c c' /\ achieved c' = paid /\ paid < total_periods c
  | None => paid = total_periods c
  end.
Proof.
  intros Hr. revert c. induction Hr as [db|db1 db2 db3 o ops Hs Hr IH]; intros c W Hi Ha Ht; cbv zeta.
  { rewrite Hi. unfold payments; simpl. split_and!; done || lia. }
  pose proof (capital_step_at _ _ _ _ _ W Hi Ha Ht Hs) as Hc. cbv zeta in Hc. rewrite payments_app.
  destruct (capital_step_table _ _ _ W Hs) as [W2 Hle].
  destruct (objs (construction_capitals db2) !! i) as [c2|] eqn:Hi2.
  - destruct Hc as (T & E & Hlt). specialize (IH c2 W2 eq_refl). unfold payments in *.
    destruct T as (T1 & T2 & T3 & T4). rewrite T4 in IH. specialize (IH ltac:(lia) Ht). cbv zeta in IH. unfold same_terms in *.
    destruct (objs (construction_capitals db3) !! i); [|lia].
    destruct IH as ((-> & -> & -> & ->) & -> & ?). split_and!; done || lia.
  - destruct (capital_run_gone _ _ _ i Hr W2) as [-> Hp]; [|done|lia].
    assert (i < next_instance (construction_capitals db1))%N by (apply W; eauto). lia.
Qed.

Lemma apply_incentive_run db ops db' : apply_incentive db ops = Ok db' -> capital_run db ops db'.
Proof.
  unfold apply_incentive. revert db. induction ops as [|op ops IH]; intros db H; simpl in H.
  - inv_result. constructor.
  - inv_result. eapply (run_cons _ _ _ (Some op)); [by eapply incentive_step|eauto].
Qed.

(** ** Generation *)

Lemma generate_ops db l : forall ops ops',
  foldM (generate_op db) ops l = Ok ops' ->
  let room := (Z.to_nat (max_incentive_operations_per_block (parameters db)) - length ops)%nat in
  exists new, ops' = ops ++ new /\ (fun op => (ccid op, reason op)) <$> new = take room l /\
    Forall (fun op => exists c r x, objs (construction_capitals db) !! ccid op = Some c /\
      incentive_amount db c = Ok r /\ real_to_uint64 fc_real r = Ok x /\ in_amount op = to_int64 x) new.
Proof.
  induction l as [|[i why] l IH]; intros ops ops' H; cbv zeta; simpl in H.
  { inv_result. exists []. by rewrite app_nil_r, take_nil. }
  inv_result. match goal with H : generate_op _ _ _ = Ok ?o |- _ => rename o into ops1; rename H into Hg end.
  destruct (IH _ _ H) as (new & -> & E & F). clear H. unfold generate_op in Hg. cbn [fst snd] in Hg.
  destruct (Z.leb_spec (max_incentive_operations_per_block (parameters db)) (Z.of_nat (length ops))); inv_result.
  - exists new. rewrite E. replace (_ - _)%nat with O by lia. by rewrite !take_0.
  - inv_get. eexists (_ :: new). rewrite <-app_assoc. split; [done|]. split.
    + cbn [fmap list_fmap]. rewrite E, length_app. simpl.
      replace (Z.to_nat _ - length ops)%nat
        with (S (Z.to_nat (max_incentive_operations_per_block (parameters db)) - (length ops + 1)))%nat by lia. done.
    + constructor; [simpl; eauto 10|done].
Qed.

Lemma due_elem db by_slot by_pending i why :
  (i, why) ∈ due_by_slot db by_slot ++ due_by_vote db by_pending ->
  exists c, objs (construction_capitals db) !! i = Some c /\
    (why = 0 /\ next_slot c <= head_block_time db \/ why = 1 /\ 1 <= pending c).
Proof.
  rewrite elem_of_app. unfold due_by_slot, due_by_vote. rewrite !list_elem_of_bind.
  intros [(j & Hj & _)|(j & Hj & _)]; destruct (objs (construction_capitals db) !! j) as [c|] eqn:Hc; try by apply elem_of_nil in Hj.
  - destruct (Z.leb_spec (next_slot c) (head_block_time db)); [|by apply elem_of_nil in Hj].
    apply list_elem_of_singleton in Hj. simplify_eq. eauto.
  - apply elem_of_replicate in Hj as [? Hn]. simplify_eq. exists c. split; [done|]. right. split; [done|lia].
Qed.
End Facts.

(** ** Properties *)

(** An accepted vote is cast by the owner of the source, which has not voted
    for the target yet and has cast at most [max_construction_capital_vote] votes before this
    one, so that it can cast one more than that in all; it turns the points of the source and those left
    over into releases of the target, as many as the weight of the target divides
    them and as are still open, and keeps the remainder.  Nothing else changes. *)
Theorem capital_vote_spec `{FC : FcLib, !FcLaws FC} (ctx : evaluation_context) (db db' : database)
    (op : construction_capital_vote_operation) :
  (forall i c, objs (construction_capitals db) !! i = Some c ->
     capital_ok c /\ left_vote_point c + 2 ^ 111 < UINT128_MOD) ->
  start_evaluate ctx db op = Ok db' ->
  exists from to, objs (construction_capitals db) !! cc_from op = Some from /\
    objs (construction_capitals db) !! cc_to op = Some to /\ cc_from op <> cc_to op /\
    cc_owner from = cv_account_id op /\ achieved from < total_periods from /\ achieved to < total_periods to /\
    ((cc_from op, cc_to op) ∉ cc_votes db) /\
    Z.of_nat (length (filter (fun v : N * N => v.1 = cc_from op) (cc_votes db)))
      <= max_construction_capital_vote (parameters db) /\
    cc_votes db' = cc_votes db ++ [(cc_from op, cc_to op)] /\
    let points := weight from + left_vote_point to in
    let k := bought (weight to) points (total_periods to - achieved to - pending to) in
    objs (construction_capitals db') = <[cc_to op :=
      to <| pending := pending to + k |> <| left_vote_point := points - k * weight to |>]>
      (objs (construction_capitals db)).
Proof.
  intros Hok (st & from & to & to' & He & Hf & Ht & Hacc & E & V1 & V)%vote_capitals.
  destruct (Hok _ _ Hf) as [Of _], (Hok _ _ Ht) as [Ot Hl].
  destruct (capital_weight_ok _ Of) as [Wf Bf], (capital_weight_ok _ Ot) as [Wt Bt].
  pose proof (capital_points _ Ot) as Hp. unfold in_uint128 in Hp.
  unfold construction_capital_vote_do_evaluate, tbl_find in He. rewrite Hf, Ht in He. cbv zeta in He. simpl in He.
  inv_result. bool_to_prop. rewrite Wf, Wt, (u128_add_ok _ fc_u128_laws), accelerate_ok in Hacc by (done || blia).
  simplify_eq. exists from, to.
  split_and!; try done; [by apply N.eqb_neq|by apply N.eqb_eq|]. by rewrite E, (tbl_modify_insert _ _ _ to).
Qed.

(** An accepted incentive pays the owner of the capital the amount that the
    chain computes itself and counts one release, the last of which removes the
    capital.  A release by period, of reason 0, comes when its slot has come and moves the slot
    on; a release by vote, of reason 1, uses up a pending one; any other reason is paid
    without a check of either.  Balances change for the owner
    only, and no supply does: the amount is new core. *)
Theorem incentive_spec `{FC : FcLib, !FcLaws FC} (ctx : evaluation_context) (db db' : database)
    (op : incentive_operation) :
  wf_db db -> start_evaluate ctx db op = Ok db' ->
  exists c r x, objs (construction_capitals db) !! ccid op = Some c /\
    incentive_amount db c = Ok r /\ real_to_uint64 fc_real r = Ok x /\ in_amount op = to_int64 x /\
    achieved c < total_periods c /\
    (reason op = 0 -> next_slot c <= head_block_time db) /\ (reason op = 1 -> 1 <= pending c) /\
    (0 <= achieved c -> total_periods c < 2 ^ 16 ->
       objs (construction_capitals db') = (if achieved c + 1 =? total_periods c then delete (ccid op)
         else <[ccid op := released (reason op) c]>) (objs (construction_capitals db))) /\
    (forall a, supply db' a = supply db a) /\
    (forall j a, (j, a) <> (GRAPHENE_TEMP_ACCOUNT, asset_id (in_fee op)) ->
       amount (get_balance db' j a) = amount (get_balance db j a)
         + (if decide ((j, a) = (cc_owner c, CORE_ASSET)) then in_amount op else 0)).
Proof.
  intros W H. destruct (incentive_capitals _ _ _ _ H) as (st & c & He & Hc & Hsup & Hbal & E).
  unfold incentive_do_evaluate, tbl_find in He. rewrite Hc in He. simpl in He. inv_result. bool_to_prop.
  match goal with H : incentive_amount _ _ = Ok ?r, H' : real_to_uint64 _ ?r = Ok ?x |- _ => exists c, r, x end.
  split_and!; try done; [| | |by apply Hsup].
  - intros E0. rewrite E0 in *. simpl in *. inv_result. by bool_to_prop.
  - intros E1. rewrite E1 in *. simpl in *. inv_result. by bool_to_prop.
  - intros Ha Ht. rewrite E, released_achieved by done. destruct (Z.eqb_spec (achieved c + 1) (total_periods c)).
    + rewrite (proj2 (Z.leb_le _ _)) by lia. simpl. apply map_eq. intros j.
      destruct (decide (j = ccid op)) as [->|]; [by rewrite !lookup_delete_eq|].
      by rewrite !lookup_delete_ne, lookup_alter_ne by done.
    + rewrite (proj2 (Z.leb_gt _ _)) by lia. by apply (tbl_modify_insert _ _ (fun _ => released (reason op) c) c).
Qed.

(** Whatever happens to a capital, it is paid as often as it has releases
    left and then removed for good: as long as it is there its terms are those it
    was opened with, and its count of releases is that of its payments. *)
Theorem capital_lifetime `{FC : FcLib, !FcLaws FC} (db db' : database) (ops : list incentive_operation)
    (i : N) (c : construction_capital_object) :
  wf_table (construction_capitals db) -> objs (construction_capitals db) !! i = Some c ->
  0 <= achieved c < total_periods c -> total_periods c < 2 ^ 16 ->
  capital_run db ops db' ->
  payments i ops <= total_periods c - achieved c /\
  (objs (construction_capitals db') !! i = None <-> payments i ops = total_periods c - achieved c) /\
  (forall c', objs (construction_capitals db') !! i = Some c' ->
     same_terms c c' /\ achieved c' = achieved c + payments i ops).
Proof.
  intros W Hi Ha Ht Hr. pose proof (capital_run_at _ _ _ _ _ Hr W Hi Ha Ht) as H. cbv zeta in H.
  destruct (objs (construction_capitals db') !! i) as [c'|].
  - destruct H as (T & E & Hlt). split_and!; [lia|split; [done|lia]|]. intros ? [= <-]. done.
  - split_and!; [lia|split; [lia|done]|done].
Qed.

(** The incentives of a block are those that are due, by slot and then by
    vote, up to the limit of a block, and each of them by itself is accepted. *)
Theorem generate_incentive_spec `{FC : FcLib, !FcLaws FC} (db : database) (by_next_slot by_pending : list N)
    (ops : list incentive_operation) :
  generate_incentive_operations db by_next_slot by_pending = Ok ops ->
  (fun op => (ccid op, reason op)) <$> ops
    = take (Z.to_nat (max_incentive_operations_per_block (parameters db)))
        (due_by_slot db by_next_slot ++ due_by_vote db by_pending) /\
  ((forall i c, objs (construction_capitals db) !! i = Some c -> achieved c < total_periods c) ->
   forall op st, op ∈ ops -> incentive_do_evaluate db st op = Ok st).
Proof.
  intros (new & -> & E & F)%generate_ops. simpl in *. rewrite Nat.sub_0_r in E. split; [done|].
  intros Hlive op st Hop. destruct (proj1 (Forall_forall _ _) F op Hop) as (c & r & x & Hc & Hr & Hx & Ha).
  assert (Hdue : (ccid op, reason op) ∈ due_by_slot db by_next_slot ++ due_by_vote db by_pending).
  { eapply subseteq_take. rewrite <-E. by apply (list_elem_of_fmap_2 (fun op => (ccid op, reason op))). }
  apply due_elem in Hdue as (c' & Hc' & Hwhy). simplify_eq. unfold incentive_do_evaluate, tbl_find.
  rewrite Hc. simpl. rewrite Hr. simpl. rewrite Hx. simpl. rewrite Ha, Z.eqb_refl. simpl.
  rewrite (proj2 (Z.ltb_lt _ _) (Hlive _ _ Hc)). simpl.
  destruct Hwhy as [[-> Hs]|[-> Hp]]; simpl; by rewrite (proj2 (Z.leb_le _ _)).
Qed.

(** The transaction as a whole is not: when a capital is due by slot and its votes
    have bought all that is left, one incentive too many is generated, applying
    them fails, and no incentive of the block is paid. *)
Lemma incentives_overrun `{FC : FcLib, !FcLaws FC} (db : database) (ops : list incentive_operation) (i : N)
    (c : construction_capital_object) :
  wf_table (construction_capitals db) -> objs (construction_capitals db) !! i = Some c ->
  0 <= achieved c < total_periods c -> total_periods c < 2 ^ 16 ->
  total_periods c - achieved c < payments i ops -> forall db', apply_incentive db ops <> Ok db'.
Proof.
  intros W Hi Ha Ht Hp db' H%apply_incentive_run.
  pose proof (capital_run_at _ _ _ _ _ H W Hi Ha Ht) as Hc. cbv zeta in Hc.
  destruct (objs (construction_capitals db') !! i); lia.
Qed.

(** ** Witnesses *)

Definition ex_capitals (c : construction_capital_object) : database :=
  ex_state <| accounts ::= fun t => t <| objs ::= <[GRAPHENE_TEMP_ACCOUNT := ex_account "temp-account"]> |> |>
    <| statistics ::= <[GRAPHENE_TEMP_ACCOUNT := ex_statistics]> |>
    <| construction_capitals := table_of [(0%N, c);
         (1%N, Construction_capital_object 11 6000 86400 10 1490000000 0 0 0 1600000000)] 2 |>.

Definition ex_capital (votes : Z) : construction_capital_object :=
  Construction_capital_object 10 3000 86400 3 1490000000 1 votes 0 1499990000.

Lemma ex_capitals_wf v : wf_db (FC := fc_ref) (ex_capitals (ex_capital v)).
Proof. apply db_check_ok. by vm_compute. Qed.

Definition ex_vote : construction_capital_vote_operation :=
  Construction_capital_vote_operation (Asset 20 CORE_ASSET) 11 1 0.
Definition ex_incentive : incentive_operation := Incentive_operation 1000 (Asset 0 CORE_ASSET) 0 0.
Definition ex_vote_context : evaluation_context := Evaluation_context false false 20 10000.

Lemma capital_vote_spec_witness :
  exists db', start_evaluate (E := construction_capital_vote_evaluator (FC := fc_ref)) (FC := fc_ref)
      ex_vote_context (ex_capitals (ex_capital 0)) ex_vote = Ok db' /\
    cc_votes db' = [(1%N, 0%N)].
Proof.
  destruct (result_ok_true (start_evaluate (E := construction_capital_vote_evaluator (FC := fc_ref)) (FC := fc_ref)
    ex_vote_context (ex_capitals (ex_capital 0)) ex_vote)) as [db' H]; [by vm_compute|].
  exists db'. split; [exact H|].
  destruct (@capital_vote_spec fc_ref fc_ref_laws ex_vote_context (ex_capitals (ex_capital 0)) db' ex_vote)
    as (from & to & _ & _ & _ & _ & _ & _ & _ & _ & E & _); [|exact H|exact E].
  intros i c. change (objs (construction_capitals (ex_capitals (ex_capital 0)))) with
    (list_to_map [(0%N, ex_capital 0); (1%N, Construction_capital_object 11 6000 86400 10 1490000000 0 0 0 1600000000)] : gmap N _).
  simpl. intros [[_ <-]|[_ [[_ <-]|[_ ?]]%lookup_insert_Some]]%lookup_insert_Some; [ground..|done].
Defined.

Lemma incentive_spec_witness :
  exists db', start_evaluate (E := incentive_evaluator (FC := fc_ref)) (FC := fc_ref)
      incentive_context (ex_capitals (ex_capital 0)) ex_incentive = Ok db' /\
    supply db' CORE_ASSET = supply ex_state CORE_ASSET.
Proof.
  destruct (result_ok_true (start_evaluate (E := incentive_evaluator (FC := fc_ref)) (FC := fc_ref)
    incentive_context (ex_capitals (ex_capital 0)) ex_incentive)) as [db' H]; [by vm_compute|].
  exists db'. split; [exact H|].
  destruct (@incentive_spec fc_ref fc_ref_laws incentive_context _ db' ex_incentive (ex_capitals_wf 0) H)
    as (c & r & x & _ & _ & _ & _ & _ & _ & _ & _ & E & _).
  rewrite E. by vm_compute.
Defined.

Lemma capital_lifetime_witness :
  exists db', apply_incentive (FC := fc_ref) (ex_capitals (ex_capital 0)) [ex_incentive] = Ok db' /\
    payments 0 [ex_incentive] <= total_periods (ex_capital 0) - achieved (ex_capital 0).
Proof.
  destruct (result_ok_true (apply_incentive (FC := fc_ref) (ex_capitals (ex_capital 0)) [ex_incentive])) as [db' H];
    [by vm_compute|].
  exists db'. split; [exact H|].
  assert (W : wf_table (construction_capitals (ex_capitals (ex_capital 0)))) by (apply table_check_ok; by vm_compute).
  pose proof (@capital_lifetime fc_ref fc_ref_laws _ db' [ex_incentive] 0 (ex_capital 0) W eq_refl) as P.
  destruct P as [Hle _]; [ground|ground|exact (apply_incentive_run _ _ _ H)|exact Hle].
Defined.

Lemma generate_incentive_spec_witness :
  exists ops, generate_incentive_operations (FC := fc_ref) (ex_capitals (ex_capital 1)) [0%N; 1%N] [1%N; 0%N] = Ok ops /\
    (fun op => (ccid op, reason op)) <$> ops = [(0%N, 0); (0%N, 1)].
Proof.
  destruct (result_ok_true (generate_incentive_operations (FC := fc_ref) (ex_capitals (ex_capital 1)) [0%N; 1%N] [1%N; 0%N]))
    as [ops H]; [by vm_compute|].
  exists ops. split; [exact H|].
  destruct (@generate_incentive_spec fc_ref fc_ref_laws (ex_capitals (ex_capital 1)) [0%N; 1%N] [1%N; 0%N] ops H) as [E _].
  rewrite E. by vm_compute.
Defined.

(** The overrun on a concrete state: two votes pending, two releases left, one due. *)
Example incentives_stuck :
  exists ops, generate_incentive_operations (FC := fc_ref) (ex_capitals (ex_capital 2)) [0%N; 1%N] [1%N; 0%N] = Ok ops /\
    result_ok (apply_incentive (FC := fc_ref) (ex_capitals (ex_capital 2)) ops) = false.
Proof. eexists. split; [by vm_compute|by vm_compute]. Qed.

(** A reason other than 0 and 1 is not checked: the capital 1 is paid long before
    its slot, without a vote. *)
Example incentive_unchecked_reason :
  result_ok (start_evaluate (E := incentive_evaluator (FC := fc_ref)) (FC := fc_ref) incentive_context
    (ex_capitals (ex_capital 0)) (Incentive_operation 600 (Asset 0 CORE_ASSET) 1 2)) = true.
Proof. by vm_compute. Qed.
