(* ===== verification/Operations.v ===== *)
(** * Operations

    The operations of a transaction: transfers and vesting balances
    ([transfer_evaluator.cpp], [vesting_balance_evaluator.cpp]) as instances of
    [Evaluator], and the variant type of all modelled operations with the
    dispatch of [database::apply_operation].

    [operation_conserves] is the accounting theorem of the chain: no operation
    creates or destroys value, except where it says so. *)

From S2P Require Import Prelude FcLib Asset Vesting Objects Database Ledger Market Trading Deflation Evaluator.
From S2P Require Import MarketOps Feeds AssetOps AssetFacts Accounts Governance Capital.

Record linear_vesting_policy_initializer := Linear_vesting_policy_initializer {
  li_begin_timestamp : Z;
  li_vesting_cliff_seconds : Z;
  li_vesting_duration_seconds : Z;
}.

Record cdd_vesting_policy_initializer := Cdd_vesting_policy_initializer {
  ci_start_claim : Z;
  ci_vesting_seconds : Z;
}.

Inductive vesting_policy_initializer :=
  | linear_initializer (i : linear_vesting_policy_initializer)
  | cdd_initializer (i : cdd_vesting_policy_initializer).

Record vesting_balance_create_operation := Vesting_balance_create_operation {
  vc_fee : asset;
  vc_creator : N;
  vc_owner : N;
  vc_amount : asset;
  vc_policy : vesting_policy_initializer;
}.

Record vesting_balance_withdraw_operation := Vesting_balance_withdraw_operation {
  vw_fee : asset;
  vesting_balance : N;
  vw_owner : N;
  vw_amount : asset;
}.

Section VestingOps.
Context `{FC : FcLib}.
Implicit Types (db : database) (st : fee_state).

Definition vesting_balance_create_validate (op : vesting_balance_create_operation) : result unit :=
  _ ← fee_nonneg (vc_fee op);
  FC_ASSERT (0 <? amount (vc_amount op)) "amount.amount > 0".

Definition vesting_balance_create_do_evaluate db st (op : vesting_balance_create_operation) : result fee_state :=
  _ ← tbl_get (accounts db) (vc_creator op);
  _ ← tbl_get (accounts db) (vc_owner op);
  _ ← FC_ASSERT (0 <? amount (vc_amount op)) "op.amount.amount > 0";
  ge ← asset_geb (get_balance db (vc_creator op) (asset_id (vc_amount op))) (vc_amount op);
  _ ← FC_ASSERT ge "d.get_balance( creator_account.id, op.amount.asset_id ) >= op.amount";
  a ← tbl_get (assets db) (asset_id (vc_amount op));
  _ ← FC_ASSERT (negb (is_transfer_restricted a)) "!op.amount.asset_id(d).is_transfer_restricted()";
  Ok st.

(** [init_policy_visitor] *)
Definition init_policy (i : vesting_policy_initializer) (begin_balance now : Z) : vesting_policy :=
  match i with
  | linear_initializer i =>
      linear_policy (Linear_vesting_policy (li_begin_timestamp i) (li_vesting_cliff_seconds i)
        (li_vesting_duration_seconds i) begin_balance)
  | cdd_initializer i =>
      cdd_policy (Cdd_vesting_policy (ci_vesting_seconds i) (u128_of fc_u128 0) (ci_start_claim i) now)
  end.

Definition vesting_balance_create_do_apply db (op : vesting_balance_create_operation) : result database :=
  let now := head_block_time db in
  ge ← asset_geb (get_balance db (vc_creator op) (asset_id (vc_amount op))) (vc_amount op);
  _ ← FC_ASSERT ge "d.get_balance( op.creator, op.amount.asset_id ) >= op.amount";
  n ← asset_neg (vc_amount op);
  db ← adjust_balance db (vc_creator op) n;
  let vbo := Vesting_balance_object (vc_owner op) (vc_amount op)
               (init_policy (vc_policy op) (amount (vc_amount op)) now) in
  Ok (db <| vesting_balances := (tbl_create (vesting_balances db) vbo).2 |>).

Definition vesting_balance_withdraw_validate (op : vesting_balance_withdraw_operation) : result unit :=
  _ ← fee_nonneg (vw_fee op);
  FC_ASSERT (0 <? amount (vw_amount op)) "amount.amount > 0".

Definition vesting_balance_withdraw_do_evaluate db st (op : vesting_balance_withdraw_operation) : result fee_state :=
  vbo ← tbl_get (vesting_balances db) (vesting_balance op);
  _ ← FC_ASSERT (vw_owner op =? vbo_owner vbo)%N "op.owner == vbo.owner";
  allowed ← is_withdraw_allowed vbo (head_block_time db) (vw_amount op);
  _ ← FC_ASSERT allowed "vbo.is_withdraw_allowed( now, op.amount )";
  le ← asset_leb (vw_amount op) (vbo_balance vbo);
  _ ← C_ASSERT le "op.amount <= vbo.balance";
  _ ← tbl_get (accounts db) (vw_owner op);
  Ok st.

Definition vesting_balance_withdraw_do_apply db (op : vesting_balance_withdraw_operation) : result database :=
  vbo ← tbl_get (vesting_balances db) (vesting_balance op);
  vbo' ← withdraw vbo (head_block_time db) (vw_amount op);
  adjust_balance (db <| vesting_balances ::= fun t => tbl_modify t (vesting_balance op) (fun _ => vbo') |>)
    (vw_owner op) (vw_amount op).
End VestingOps.

(** ** Instances *)

#[export] Instance transfer_evaluator `{FC : FcLib} : Evaluator transfer_operation := {|
  validate := transfer_validate; fee_payer := tr_from; op_fee := tr_fee;
  do_evaluate db st op := keep st (transfer_do_evaluate db op); pay_fee := generic_pay_fee;
  do_apply db _ op := transfer_do_apply db op;
|}.
#[export] Instance override_transfer_evaluator `{FC : FcLib} : Evaluator override_transfer_operation := {|
  validate := override_transfer_validate; fee_payer := ot_issuer; op_fee := ot_fee;
  do_evaluate db st op := keep st (override_transfer_do_evaluate db op); pay_fee := generic_pay_fee;
  do_apply db _ op := override_transfer_do_apply db op;
|}.
#[export] Instance vesting_balance_create_evaluator `{FC : FcLib} : Evaluator vesting_balance_create_operation := {|
  validate := vesting_balance_create_validate; fee_payer := vc_creator; op_fee := vc_fee;
  do_evaluate := vesting_balance_create_do_evaluate; pay_fee := generic_pay_fee;
  do_apply db _ op := vesting_balance_create_do_apply db op;
|}.
#[export] Instance vesting_balance_withdraw_evaluator `{FC : FcLib} : Evaluator vesting_balance_withdraw_operation := {|
  validate := vesting_balance_withdraw_validate; fee_payer := vw_owner; op_fee := vw_fee;
  do_evaluate := vesting_balance_withdraw_do_evaluate; pay_fee := generic_pay_fee;
  do_apply db _ op := vesting_balance_withdraw_do_apply db op;
|}.
#[export] Instance deflation_evaluator `{FC : FcLib} : Evaluator deflation_operation := {|
  validate _ := Ok tt; fee_payer := do_issuer; op_fee := do_fee;
  do_evaluate db st op := keep st (deflation_do_evaluate db op); pay_fee := generic_pay_fee;
  do_apply db _ op := deflation_do_apply db op;
|}.
#[export] Instance account_deflation_evaluator `{FC : FcLib} : Evaluator account_deflation_operation := {|
  validate _ := Ok tt; fee_payer _ := GRAPHENE_TEMP_ACCOUNT; op_fee := ad_fee;
  do_evaluate db st op := keep st (account_deflation_do_evaluate db (ad_deflation_id op) (ad_owner op));
  pay_fee := generic_pay_fee;
  do_apply db _ op := account_deflation_do_apply db (ad_deflation_id op) (ad_owner op);
|}.
#[export] Instance order_deflation_evaluator `{FC : FcLib} : Evaluator order_deflation_operation := {|
  validate _ := Ok tt; fee_payer _ := GRAPHENE_TEMP_ACCOUNT; op_fee := od_fee;
  do_evaluate db st op := keep st (order_deflation_do_evaluate db (od_deflation_id op) (od_order op));
  pay_fee := generic_pay_fee;
  do_apply db _ op := order_deflation_do_apply db (od_deflation_id op) (od_order op);
|}.

(** ** The variant *)

Inductive operation :=
  | transfer (op : transfer_operation)
  | limit_order_create (op : limit_order_create_operation)
  | limit_order_cancel (op : limit_order_cancel_operation)
  | call_order_update (op : call_order_update_operation)
  | limit_order_fee_config (op : limit_order_fee_config_operation)
  | account_create (op : account_create_operation)
  | account_update (op : account_update_operation)
  | account_whitelist (op : account_whitelist_operation)
  | account_upgrade (op : account_upgrade_operation)
  | asset_create (op : asset_create_operation)
  | asset_update (op : asset_update_operation)
  | asset_update_bitasset (op : asset_update_bitasset_operation)
  | asset_update_feed_producers (op : asset_update_feed_producers_operation)
  | asset_issue (op : asset_issue_operation)
  | asset_reserve (op : asset_reserve_operation)
  | asset_fund_fee_pool (op : asset_fund_fee_pool_operation)
  | asset_settle (op : asset_settle_operation)
  | asset_global_settle (op : asset_global_settle_operation)
  | asset_publish_feed (op : asset_publish_feed_operation)
  | witness_create (op : witness_create_operation)
  | witness_update (op : witness_update_operation)
  | withdraw_permission_create (op : withdraw_permission_create_operation)
  | withdraw_permission_update (op : withdraw_permission_update_operation)
  | withdraw_permission_claim (op : withdraw_permission_claim_operation)
  | withdraw_permission_delete (op : withdraw_permission_delete_operation)
  | committee_member_create (op : committee_member_create_operation)
  | committee_member_update (op : committee_member_update_operation)
  | asset_claim_fees (op : asset_claim_fees_operation)
  | vesting_balance_create (op : vesting_balance_create_operation)
  | vesting_balance_withdraw (op : vesting_balance_withdraw_operation)
  | worker_create (op : worker_create_operation)
  | override_transfer (op : override_transfer_operation)
  | deflation (op : deflation_operation)
  | construction_capital_create (op : construction_capital_create_operation)
  | construction_capital_vote (op : construction_capital_vote_operation)
  | construction_capital_rate_vote (op : construction_capital_rate_vote_operation)
  | incentive (op : incentive_operation)
  | account_create_by_transfer (op : account_create_by_transfer_operation)
  | account_deflation (op : account_deflation_operation)
  | order_deflation (op : order_deflation_operation).

(** The operations that [generate_deflation_transaction] writes. *)
Definition of_walk (op : walk_operation) : operation :=
  match op with account_walk op => account_deflation op | order_walk op => order_deflation op end.

Section Dispatch.
Context `{FC : FcLib, NE : NthElement}.
Implicit Types (db : database).

Definition operation_validate (op : operation) : result unit :=
  match op with
  | transfer op => validate op
  | limit_order_create op => validate op
  | limit_order_cancel op => validate op
  | call_order_update op => validate op
  | limit_order_fee_config op => validate op
  | account_create op => validate op
  | account_update op => validate op
  | account_whitelist op => validate op
  | account_upgrade op => validate op
  | asset_create op => validate op
  | asset_update op => validate op
  | asset_update_bitasset op => validate op
  | asset_update_feed_producers op => validate op
  | asset_issue op => validate op
  | asset_reserve op => validate op
  | asset_fund_fee_pool op => validate op
  | asset_settle op => validate op
  | asset_global_settle op => validate op
  | asset_publish_feed op => validate op
  | witness_create op => validate op
  | witness_update op => validate op
  | withdraw_permission_create op => validate op
  | withdraw_permission_update op => validate op
  | withdraw_permission_claim op => validate op
  | withdraw_permission_delete op => validate op
  | committee_member_create op => validate op
  | committee_member_update op => validate op
  | asset_claim_fees op => validate op
  | vesting_balance_create op => validate op
  | vesting_balance_withdraw op => validate op
  | worker_create op => validate op
  | override_transfer op => validate op
  | deflation op => validate op
  | construction_capital_create op => validate op
  | construction_capital_vote op => validate op
  | construction_capital_rate_vote op => validate op
  | incentive op => validate op
  | account_create_by_transfer op => validate op
  | account_deflation op => validate op
  | order_deflation op => validate op
  end.

(** [database::apply_operation]: the evaluator registered for the operation. *)
Definition apply_operation (ctx : evaluation_context) db (op : operation) : result database :=
  match op with
  | transfer op => start_evaluate ctx db op
  | limit_order_create op => start_evaluate ctx db op
  | limit_order_cancel op => start_evaluate ctx db op
  | call_order_update op => start_evaluate ctx db op
  | limit_order_fee_config op => start_evaluate ctx db op
  | account_create op => start_evaluate ctx db op
  | account_update op => start_evaluate ctx db op
  | account_whitelist op => start_evaluate ctx db op
  | account_upgrade op => start_evaluate ctx db op
  | asset_create op => start_evaluate ctx db op
  | asset_update op => start_evaluate ctx db op
  | asset_update_bitasset op => start_evaluate ctx db op
  | asset_update_feed_producers op => start_evaluate ctx db op
  | asset_issue op => start_evaluate ctx db op
  | asset_reserve op => start_evaluate ctx db op
  | asset_fund_fee_pool op => start_evaluate ctx db op
  | asset_settle op => start_evaluate ctx db op
  | asset_global_settle op => start_evaluate ctx db op
  | asset_publish_feed op => start_evaluate ctx db op
  | witness_create op => start_evaluate ctx db op
  | witness_update op => start_evaluate ctx db op
  | withdraw_permission_create op => start_evaluate ctx db op
  | withdraw_permission_update op => start_evaluate ctx db op
  | withdraw_permission_claim op => start_evaluate ctx db op
  | withdraw_permission_delete op => start_evaluate ctx db op
  | committee_member_create op => start_evaluate ctx db op
  | committee_member_update op => start_evaluate ctx db op
  | asset_claim_fees op => start_evaluate ctx db op
  | vesting_balance_create op => start_evaluate ctx db op
  | vesting_balance_withdraw op => start_evaluate ctx db op
  | worker_create op => start_evaluate ctx db op
  | override_transfer op => start_evaluate ctx db op
  | deflation op => start_evaluate ctx db op
  | construction_capital_create op => start_evaluate ctx db op
  | construction_capital_vote op => start_evaluate ctx db op
  | construction_capital_rate_vote op => start_evaluate ctx db op
  | incentive op => start_evaluate ctx db op
  | account_create_by_transfer op => start_evaluate ctx db op
  | account_deflation op => start_evaluate ctx db op
  | order_deflation op => start_evaluate ctx db op
  end.

(** The operations of a transaction, each with its fee, in order; the temporary
    account must be empty at the end. *)
Definition temp_account_empty db : bool :=
  bool_decide (map_Forall (fun k b => k.1 = GRAPHENE_TEMP_ACCOUNT -> b = 0) (balances db)).

Definition apply_operations db (ops : list (evaluation_context * operation)) : result database :=
  db ← foldM (fun db o => apply_operation o.1 db o.2) db ops;
  _ ← FC_ASSERT (temp_account_empty db) "b.balance == 0";
  Ok db.

(** [transaction::validate] *)
Definition transaction_validate (ops : list operation) : result unit :=
  _ ← FC_ASSERT (0 <? Z.of_nat (length ops)) "A transaction must have at least one operation";
  foldM (fun _ op => operation_validate op) tt ops.
End Dispatch.

Section Facts.
Context `{FC : FcLib, !FcLaws FC, NE : NthElement}.
Implicit Types (db : database) (st : fee_state).

(** ** Transfers and vesting balances *)

Lemma override_transfer_moves db op db' :
  override_transfer_do_apply db op = Ok db' -> moves db db' (fun _ => 0).
Proof.
  unfold override_transfer_do_apply. intros H. inv_result.
  match goal with H : asset_neg _ = _ |- _ => apply asset_neg_inv in H as -> end.
  repeat match goal with H : adjust_balance _ _ _ = _ |- _ => apply adjust_balance_moves in H end.
  eapply moves_eq; [eapply moves_step; eassumption|]. intros c. cbv beta. rewrite amount_in_opp. lia.
Qed.

(** A transfer loses what a running deflation takes from the two sides. *)
Lemma transfer_drains db op db' : transfer_do_apply db op = Ok db' -> drains db db' (fun _ => 0).
Proof.
  unfold transfer_do_apply, transfer_cuts. cbv zeta. intros H. inv_results.
  match goal with H : (if _ then _ else _) = Ok (?x, ?y, ?d) |- _ =>
    rename d into db1; rename H into Hcut; rename x into cut1; rename y into cut2 end.
  assert (Hc : moves db db1 (fun _ => 0) /\ (no_deflation db = true -> cut1 = 0 /\ cut2 = 0) /\
    (asset_id (tr_amount op) <> CORE_ASSET -> cut1 = 0 /\ cut2 = 0)).
  { destruct (N.eqb_spec (asset_id (tr_amount op)) CORE_ASSET); inv_results; [|by split_and!; [apply moves_refl|..]].
    match goal with H : freeze_cut db _ = _, H' : freeze_cut ?d _ = Ok (_, db1) |- _ =>
      destruct (freeze_cut_moves _ _ _ _ H) as ([_ M1] & D1 & Z1);
      destruct (freeze_cut_moves _ _ _ _ H') as ([_ M2] & D2 & Z2) end.
    split_and!; [by eapply moves_eq; [by eapply moves_step|]| |done].
    intros Hn. split; [auto|]. apply Z2. by rewrite (no_deflation_same _ _ D1). }
  destruct Hc as (M0 & Hq & Hne).
  match goal with H : asset_neg _ = _ |- _ => apply asset_neg_inv in H as -> end.
  repeat match goal with H : asset_sub _ _ = _ |- _ => apply asset_sub_inv in H as [-> _] end.
  repeat match goal with H : adjust_balance _ _ _ = _ |- _ => apply adjust_balance_moves in H end.
  eapply (drains_loss _ _ _ (cut1 + cut2)).
  { intros Hn. destruct (Hq Hn) as [-> ->]. done. }
  eapply moves_eq; [eapply moves_step; [eapply moves_step; [exact M0|eassumption]|eassumption]|].
  intros c. simpl. rewrite !amount_in_sub. destruct (tr_amount op) as [v id]; simpl in *.
  rewrite <-(Z.sub_0_l v), amount_in_sub, amount_in_0, core_in_add.
  destruct (N.eq_dec id CORE_ASSET) as [->|Hid]; [rewrite !amount_in_core; lia|].
  destruct (Hne Hid) as [-> ->]. rewrite amount_in_0, core_in_0. lia.
Qed.

Lemma vesting_balance_create_moves db op db' :
  vesting_balance_create_do_apply db op = Ok db' -> moves db db' (fun _ => 0).
Proof.
  unfold vesting_balance_create_do_apply. cbv zeta. intros H. inv_result.
  match goal with H : asset_neg _ = _ |- _ => apply asset_neg_inv in H as -> end.
  match goal with H : adjust_balance _ _ _ = _ |- _ => apply adjust_balance_moves in H as M end.
  eapply moves_eq; [eapply moves_step; [exact M|apply new_vesting_moves]|].
  intros c. cbv beta. rewrite amount_in_opp. simpl. lia.
Qed.

Lemma withdraw_balance v now x v' :
  withdraw v now x = Ok v' ->
  vbo_balance v' = Asset (amount (vbo_balance v) - amount x) (asset_id (vbo_balance v)) /\
  asset_id (vbo_balance v) = asset_id x.
Proof.
  unfold withdraw. intros H. inv_result. simpl.
  match goal with H : asset_sub _ _ = _ |- _ => apply asset_sub_inv in H as [-> ?] end. done.
Qed.

Lemma vesting_balance_withdraw_moves db op db' :
  vesting_balance_withdraw_do_apply db op = Ok db' -> moves db db' (fun _ => 0).
Proof.
  unfold vesting_balance_withdraw_do_apply. intros H. inv_result. inv_get.
  match goal with H : withdraw _ _ _ = _ |- _ => apply withdraw_balance in H as [Hb Hid] end.
  match goal with H : adjust_balance _ _ _ = _ |- _ => apply adjust_balance_moves in H as M end.
  eapply moves_eq.
  { eapply moves_step; [|exact M]. eapply (put_vesting_moves _ _ _ _ (- amount (vw_amount op))); [eassumption|].
    by rewrite Hb. }
  intros c. cbv beta. rewrite Hid, amount_in_opp. lia.
Qed.

Lemma deflation_unbacked db op db' :
  deflation_do_apply db op = Ok db' ->
  wf_db db -> wf_db db' /\ forall a, unbacked db' a = unbacked db a.
Proof.
  unfold deflation_do_apply. cbv zeta. intros H [[]].
  destruct (tbl_last (deflations db)) as [[? ?]|]; inv_results; (split; [by split|done]).
Qed.

(** ** The promises *)

#[export] Instance transfer_conserving : Conserving transfer_operation.
Proof.
  refine {| pre := fun _ _ => True; applies := _ |}. conserving @keep ltac:(by eapply transfer_drains).
Defined.
#[export] Instance override_transfer_conserving : Conserving override_transfer_operation.
Proof.
  refine {| pre := fun _ _ => True; applies := _ |}.
  conserving @keep ltac:(by eapply moves_drains, override_transfer_moves).
Defined.
#[export] Instance vesting_balance_create_conserving : Conserving vesting_balance_create_operation.
Proof.
  refine {| pre := fun _ _ => True; applies := _ |}.
  conserving @vesting_balance_create_do_evaluate ltac:(by eapply moves_drains, vesting_balance_create_moves).
Defined.
#[export] Instance vesting_balance_withdraw_conserving : Conserving vesting_balance_withdraw_operation.
Proof.
  refine {| pre := fun _ _ => True; applies := _ |}.
  conserving @vesting_balance_withdraw_do_evaluate ltac:(by eapply moves_drains, vesting_balance_withdraw_moves).
Defined.

#[export] Instance construction_capital_vote_conserving : Conserving construction_capital_vote_operation.
Proof.
  refine {| pre := fun _ _ => True; applies := _ |}.
  intros db st st1 db1 op ctx st2 db2 db3 Hwf Hpre Hval _ _ He S _ D W Hskip Hpay Happ. cbn in He, Happ.
  refine (applies_generic db st st1 db1 op ctx st2 db2 db3 eq_refl _ W Hskip S Hpay _).
  - by eapply vote_evaluate_keeps.
  - intros _. by eapply moves_drains, construction_capital_vote_moves.
Defined.
#[export] Instance construction_capital_rate_vote_conserving : Conserving construction_capital_rate_vote_operation.
Proof.
  refine {| pre := fun _ _ => True; applies := _ |}.
  conserving @construction_capital_rate_vote_do_evaluate
    ltac:(unfold construction_capital_rate_vote_do_apply in *; inv_result; by apply moves_drains, moves_same).
Defined.

(** Deflations run one at a time: when the last is over, all are. *)
Definition deflations_over db : Prop :=
  no_deflation db = true ->
  forall i d, objs (deflations db) !! i = Some d -> balance_cleared d = true /\ order_cleared d = true.

(** A step of the walk of a running deflation. *)
Lemma running_drains db db' f :
  no_deflation db = false ->
  (wf_db db -> wf_db db' /\ exists x, forall a, unbacked db' a = unbacked db a + f a - core_in a x) ->
  drains db db' f.
Proof. intros Hr H W. destruct (H W) as (W' & x & E). split_and!; [done|congruence|]. exists x. split; [congruence|done]. Qed.

Lemma account_walk_running db di owner :
  deflations_over db -> account_deflation_do_evaluate db di owner = Ok tt -> no_deflation db = false.
Proof.
  unfold account_deflation_do_evaluate, deflations_over. intros H He. inv_result. bool_to_prop.
  destruct (no_deflation db); [|done]. edestruct H; [done|eassumption|congruence].
Qed.

Lemma order_walk_running db di order :
  deflations_over db -> order_deflation_do_evaluate db di order = Ok tt -> no_deflation db = false.
Proof.
  unfold order_deflation_do_evaluate, deflations_over. intros H He. inv_result. bool_to_prop.
  destruct (no_deflation db); [|done]. edestruct H; [done|eassumption|congruence].
Qed.

(** The operations of the walk take core from the books while a deflation runs. *)
Lemma walk_applies {Op} `{E : !Evaluator Op} db st st1 db1 (op : Op) ctx st2 db2 db3 :
  pay_fee ctx db1 (fee_payer op) st1 = generic_pay_fee ctx db1 (fee_payer op) st1 ->
  st1 = st -> wf_db db1 -> skip_fee ctx = false -> deflations db1 = deflations db ->
  pay_fee ctx db1 (fee_payer op) st1 = Ok (st2, db2) -> no_deflation db = false ->
  (wf_db db2 -> wf_db db3 /\ exists x, forall a, unbacked db3 a = unbacked db2 a - core_in a x) ->
  st1 = st /\ fee_from_account st2 = fee_from_account st /\ drains db1 db3 (fun a => core_in a (core_fee_paid st)).
Proof.
  intros Ep -> W Hskip D Hpay Hn H. split; [done|]. rewrite Ep in Hpay.
  pose proof Hpay as Hpay'. apply generic_pay_fee_moves in Hpay' as (_ & _ & _ & D2 & _); [|done].
  eapply generic_applies; [done|exact Hpay| |done]. intros _ _ _ _. apply running_drains.
  - by rewrite (no_deflation_same db1 db2), (no_deflation_same db db1).
  - intros W2. destruct (H W2) as (W3 & x & Ex). split; [done|]. exists x. intros a. rewrite Ex. lia.
Qed.

#[export] Instance account_deflation_conserving : Conserving account_deflation_operation.
Proof.
  refine {| pre := fun db _ => deflations_over db; applies := _ |}.
  intros db st st1 db1 op ctx st2 db2 db3 _ Hpre _ _ _ He _ _ D W Hskip Hpay Happ. cbn in He, Happ.
  refine (walk_applies db st st1 db1 op ctx st2 db2 db3 eq_refl (keep_inv _ _ _ He) W Hskip D Hpay _ _).
  - unfold keep in He. inv_result. match goal with u : unit |- _ => destruct u end. by eapply account_walk_running.
  - by eapply account_deflation_takes.
Defined.
#[export] Instance order_deflation_conserving : Conserving order_deflation_operation.
Proof.
  refine {| pre := fun db _ => deflations_over db; applies := _ |}.
  intros db st st1 db1 op ctx st2 db2 db3 _ Hpre _ _ _ He _ _ D W Hskip Hpay Happ. cbn in He, Happ.
  refine (walk_applies db st st1 db1 op ctx st2 db2 db3 eq_refl (keep_inv _ _ _ He) W Hskip D Hpay _ _).
  - unfold keep in He. inv_result. match goal with u : unit |- _ => destruct u end. by eapply order_walk_running.
  - by eapply order_deflation_takes.
Defined.

(** ** All operations *)

(** What an operation needs besides a well-formed state: amounts of the width
    of their types, prices that convert to the right asset, and for a new asset
    sound ids. *)
Definition operation_pre db (op : operation) : Prop :=
  match op with
  | limit_order_create op => in_int64 (amount (amount_to_sell op))
  | call_order_update op => forall j c, objs (call_orders db) !! j = Some c ->
      borrower c = funding_account op -> debt_type c = asset_id (delta_debt op) ->
      asset_id (base (call_order_price c)) = asset_id (delta_collateral op)
  | account_create _ | account_create_by_transfer _ => statistics db !! next_instance (accounts db) = None
  | asset_create op => wf_ids db /\ 0 <= market_fee_percent (common_options op)
  | asset_update op => 0 <= market_fee_percent (new_options op)
  | asset_settle op => fund_price db (asset_id (as_amount op))
  | account_deflation _ | order_deflation _ => deflations_over db
  | _ => True
  end.

(** The core that an operation makes: creating an asset does (see
    [asset_create_fee]), opening a capital does for the payback, and an incentive. *)
Definition core_created db (op : operation) : Z :=
  match op with
  | asset_create op =>
      match prepare_fee db (ac_issuer op) (ac_fee op) with
      | Ok st => if (asset_id (ac_fee op) =? CORE_ASSET)%N then amount (ac_fee op) mod 2
                 else core_fee_paid st - core_fee_paid st / 2
      | Err _ => 0
      end
  | construction_capital_create op => payback_created db op
  | incentive op => in_amount op
  | _ => 0
  end.

Lemma conserving_operation `{E : !Evaluator Op, !Conserving Op} ctx db (op : Op) db' :
  skip_fee ctx = false -> pre db op -> validate op = Ok tt -> start_evaluate ctx db op = Ok db' ->
  wf_db db -> wf_db db' /\ exists d, (no_deflation db = true -> d = 0) /\
    forall a, unbacked db' a = unbacked db a + core_in a 0 - core_in a d.
Proof.
  intros Hs Hp Hv H W. destruct (start_evaluate_drains ctx db op db' Hs Hp Hv H W) as (W' & _ & d & Hd & E').
  split; [done|]. exists d. split; [done|]. intros a. by rewrite E', core_in_0.
Qed.

Lemma capital_create_operation_moves ctx db (op : construction_capital_create_operation) db' :
  skip_fee ctx = false -> start_evaluate ctx db op = Ok db' -> wf_db db ->
  wf_db db' /\ forall a, unbacked db' a = unbacked db a + core_in a (payback_created db op).
Proof.
  intros Hs. refine (generic_makes ctx db op db' _ Hs eq_refl _ _); [intros st st1; apply create_evaluate_keeps|].
  intros db2 st db3 F _ Happ W. destruct (construction_capital_create_moves _ _ _ Happ W) as (W3 & _ & E3).
  split; [done|]. intros a. rewrite E3, F. done.
Qed.

Lemma incentive_operation_moves ctx db (op : incentive_operation) db' :
  skip_fee ctx = false -> start_evaluate ctx db op = Ok db' -> wf_db db ->
  wf_db db' /\ forall a, unbacked db' a = unbacked db a + core_in a (in_amount op).
Proof.
  intros Hs. refine (generic_makes ctx db op db' _ Hs eq_refl _ _); [intros st st1; apply incentive_evaluate_keeps|].
  intros db2 st db3 _ _ Happ W. destruct (incentive_moves _ _ _ Happ W) as (W3 & _ & E3). done.
Qed.

Lemma account_create_operation_moves ctx db (op : account_create_operation) db' :
  skip_fee ctx = false -> statistics db !! next_instance (accounts db) = None ->
  start_evaluate ctx db op = Ok db' -> wf_db db ->
  wf_db db' /\ forall a, unbacked db' a = unbacked db a + core_in a 0.
Proof.
  intros Hs. refine (makes_account ctx db op db' Hs eq_refl (fun st st1 => keep_inv st st1 _) _).
  intros db2 st db3. apply account_create_moves.
Qed.

Lemma account_create_by_transfer_operation_moves ctx db (op : account_create_by_transfer_operation) db' :
  skip_fee ctx = false -> statistics db !! next_instance (accounts db) = None ->
  start_evaluate ctx db op = Ok db' -> wf_db db ->
  wf_db db' /\ forall a, unbacked db' a = unbacked db a + core_in a 0.
Proof.
  intros Hs. refine (makes_account ctx db op db' Hs eq_refl (fun st st1 => keep_inv st st1 _) _).
  intros db2 st db3. apply account_create_by_transfer_moves.
Qed.

Lemma deflation_operation_moves ctx db (op : deflation_operation) db' :
  skip_fee ctx = false -> start_evaluate ctx db op = Ok db' -> wf_db db ->
  wf_db db' /\ forall a, unbacked db' a = unbacked db a + core_in a 0.
Proof.
  intros Hs. refine (generic_makes ctx db op db' 0 Hs eq_refl _ _); [intros st st1; apply keep_inv|].
  intros db2 st db3 _ _ Happ W. destruct (deflation_unbacked _ _ _ Happ W) as [W3 E3].
  split; [done|]. intros a. rewrite E3, core_in_0. lia.
Qed.
End Facts.

Section Transactions.
Context `{FC : FcLib, !FcLaws FC, NE : NthElement}.
Implicit Types (db : database).

Lemma operation_moves ctx db op db' :
  wf_db db -> skip_fee ctx = false -> operation_pre db op -> operation_validate op = Ok tt ->
  apply_operation ctx db op = Ok db' ->
  wf_db db' /\ exists d, (no_deflation db = true -> d = 0) /\
    forall a, unbacked db' a = unbacked db a + core_in a (core_created db op) - core_in a d.
Proof.
  intros W Hs Hp Hv H. destruct op; cbn [apply_operation operation_validate operation_pre core_created] in *;
    try (refine (conserving_operation ctx db _ db' Hs _ Hv H W); exact Hp).
  - destruct (account_create_operation_moves _ _ _ _ Hs Hp H W) as [W' E]. split; [done|]. exists 0. split; [done|].
    intros a. rewrite E, core_in_0. lia.
  - destruct Hp as [Hid Hm]. destruct (asset_create_fee _ _ _ _ W Hid Hs Hv Hm H) as (W' & st & -> & E).
    split; [done|]. exists 0. split; [done|]. intros a. specialize (E a). unfold unbacked. rewrite core_in_0. lia.
  - destruct (deflation_operation_moves _ _ _ _ Hs H W) as [W' E]. split; [done|]. exists 0. split; [done|].
    intros a. rewrite E, core_in_0. lia.
  - destruct (capital_create_operation_moves _ _ _ _ Hs H W) as [W' E]. split; [done|]. exists 0. split; [done|].
    intros a. rewrite E, core_in_0. lia.
  - destruct (incentive_operation_moves _ _ _ _ Hs H W) as [W' E]. split; [done|]. exists 0. split; [done|].
    intros a. rewrite E, core_in_0. lia.
  - destruct (account_create_by_transfer_operation_moves _ _ _ _ Hs Hp H W) as [W' E]. split; [done|]. exists 0.
    split; [done|]. intros a. rewrite E, core_in_0. lia.
Qed.

(** The operations find what they need in the states they meet. *)
Fixpoint prepared db (ops : list (evaluation_context * operation)) : Prop :=
  match ops with
  | [] => True
  | o :: ops =>
      skip_fee o.1 = false /\ operation_validate o.2 = Ok tt /\ operation_pre db o.2 /\
      forall db', apply_operation o.1 db o.2 = Ok db' -> prepared db' ops
  end.

Lemma operations_move db ops db' :
  wf_db db -> prepared db ops -> apply_operations db ops = Ok db' ->
  wf_db db' /\ forall a, a <> CORE_ASSET -> unbacked db' a = unbacked db a.
Proof.
  unfold apply_operations. intros W P H. inv_result. revert db W P H0.
  induction ops as [|[ctx op] ops IH]; intros db W P H; cbn [foldM prepared fst snd] in *; [by inv_result|]. inv_result.
  destruct P as (Hs & Hv & Hp & Hnext).
  destruct (operation_moves ctx db op _ W Hs Hp Hv H0) as (W1 & d & _ & E).
  destruct (IH _ W1 (Hnext _ H0) H) as [W' E']. split; [done|].
  intros x Hx. rewrite (E' x Hx), (E x). unfold core_in. rewrite (proj2 (N.eqb_neq _ _) Hx). lia.
Qed.
End Transactions.

(** ** Properties *)

(** C1: no operation of a transaction creates or destroys value: in every asset
    the holdings (balances, orders, collateral, settlements, vesting balances,
    fees, pools and funds) minus the supply are afterwards what they were.  The
    exceptions are in the core asset only: a running deflation may take what it
    records, and creating an asset, opening a construction capital and paying an
    incentive make the core that [core_created] states. *)
Theorem operation_conserves `{FC : FcLib, !FcLaws FC, NE : NthElement} (ctx : evaluation_context)
    (db db' : database) (op : operation) :
  wf_db db -> skip_fee ctx = false -> operation_pre db op -> operation_validate op = Ok tt ->
  apply_operation ctx db op = Ok db' ->
  wf_db db' /\
  (forall a, a <> CORE_ASSET -> holdings db' a - supply db' a = holdings db a - supply db a) /\
  (no_deflation db = true ->
     holdings db' CORE_ASSET - supply db' CORE_ASSET
     = holdings db CORE_ASSET - supply db CORE_ASSET + core_created db op).
Proof.
  intros W Hs Hp Hv H. destruct (operation_moves ctx db op db' W Hs Hp Hv H) as (W' & d & Hd & E).
  unfold unbacked, core_in in E. split; [done|]. split.
  - intros a Ha. specialize (E a). rewrite (proj2 (N.eqb_neq _ _) Ha) in E. lia.
  - intros Hq. specialize (E CORE_ASSET). rewrite (Hd Hq) in E. simpl in E. lia.
Qed.

(** ** Witnesses *)

(** Bob lends himself 50 USD against 300 core and sells some of them. *)
Definition ex_operations : list operation := [
  call_order_update (Call_order_update_operation (Asset 25 CORE_ASSET) 11 (Asset 300 CORE_ASSET) (Asset 50 2));
  limit_order_create (Limit_order_create_operation (Asset 20 CORE_ASSET) 11 (Asset 10 2) (Asset 30 CORE_ASSET)
    1600000000 false []);
  transfer (Transfer_operation (Asset 20 CORE_ASSET) 10 12 (Asset 777 CORE_ASSET))].

Definition ex_apply (db : database) (op : operation) : result database :=
  apply_operation (FC := fc_ref) (NE := sorting_nth_element) ex_context db op.

Lemma operation_conserves_witness :
  exists db', ex_apply ex_state (transfer (Transfer_operation (Asset 20 CORE_ASSET) 10 12 (Asset 777 CORE_ASSET))) = Ok db' /\
    holdings db' CORE_ASSET - supply db' CORE_ASSET = holdings ex_state CORE_ASSET - supply ex_state CORE_ASSET /\
    result_ok (foldM ex_apply ex_state ex_operations) = true.
Proof.
  set (op := transfer _). destruct (result_ok_true (ex_apply ex_state op)) as [db' H]; [by vm_compute|].
  exists db'. split; [exact H|]. split; [|by vm_compute].
  destruct (@operation_conserves fc_ref fc_ref_laws sorting_nth_element ex_context ex_state db' op ex_state_wf)
    as (_ & _ & E); [done|done|by vm_compute|exact H|].
  rewrite E by by vm_compute. change (core_created ex_state op) with 0. lia.
Defined.
