(* ===== verification/Frames.v ===== *)
(** * What transactions leave alone

    No operation of a transaction touches the clock, the witnesses, their schedule
    or the chain parameters.  [ends Q r]: a successful result of [r] satisfies
    [Q].  The tactic [frame] walks through straight-line code and uses the lemma of
    every function it calls (database [frames]). *)

From S2P Require Import Prelude FcLib Block Asset Vesting Objects Database Ledger Market Trading Deflation Evaluator.
From S2P Require Import MarketOps Feeds AssetOps AssetFacts Accounts Governance Capital Operations.

Definition ends {A} (Q : A -> Prop) (r : result A) : Prop := forall a, r = Ok a -> Q a.

(** The same clock, witnesses and parameters, and nobody's account is touched. *)
Record same_chain (db db' : database) : Prop := {
  same_dgpo : dgpo db' = dgpo db;
  same_witnesses : witnesses db' = witnesses db;
  same_active : active_witnesses db' = active_witnesses db;
  same_shuffled : current_shuffled_witnesses db' = current_shuffled_witnesses db;
  same_parameters : parameters db' = parameters db;
  same_accounts : accounts db' = accounts db;
  same_gov : gov db' = gov db;
  same_statistics j : statistics db' !! j = None <-> statistics db !! j = None;
}.

Abbreviation keeps db := (ends (same_chain db)).
Abbreviation keeps2 db := (ends (fun p => same_chain db p.2)).

Section Ends.
Context {A B : Type}.

Lemma ends_Ok (Q : A -> Prop) a : Q a -> ends Q (Ok a).
Proof. by intros ? ? [= <-]. Qed.

Lemma ends_Err (Q : A -> Prop) e : ends Q (Err e).
Proof. done. Qed.

Lemma ends_bind (P : A -> Prop) (Q : B -> Prop) (m : result A) f :
  ends P m -> (forall a, P a -> ends Q (f a)) -> ends Q (m ≫= f).
Proof. intros Hm Hf b (a & Ha & Hb)%bind_Ok. exact (Hf a (Hm a Ha) b Hb). Qed.

Lemma ends_bind_eq (Q : B -> Prop) (m : result A) f : (forall a, m = Ok a -> ends Q (f a)) -> ends Q (m ≫= f).
Proof. intros Hf b (a & Ha & Hb)%bind_Ok. exact (Hf a Ha b Hb). Qed.

Lemma ends_bind_any (Q : B -> Prop) (m : result A) f : (forall a, ends Q (f a)) -> ends Q (m ≫= f).
Proof. intros Hf b (a & _ & Hb)%bind_Ok. exact (Hf a b Hb). Qed.

Lemma ends_foldM (P : A -> Prop) (f : A -> B -> result A) l s :
  P s -> (forall s x, P s -> ends P (f s x)) -> ends P (foldM f s l).
Proof. intros Hs Hf s' E. refine (foldM_inv f P l _ s s' Hs E). intros s1 x s2 H1 _ H2. exact (Hf s1 x H1 s2 H2). Qed.

Lemma ends_while (P : A -> Prop) cond body fuel s :
  P s -> (forall s, P s -> ends P (body s)) -> ends P (while cond body fuel s).
Proof. intros Hs Hf s' E. eapply (while_inv cond body P); [|exact Hs|exact E]. intros s1 s2 H1 _ H2. exact (Hf s1 H1 s2 H2). Qed.
End Ends.

#[export] Instance same_chain_preorder : PreOrder same_chain.
Proof.
  split; [by intros db|]. intros db1 db2 db3 [] []. split; try congruence. naive_solver.
Qed.

Section Trans.
Context (R : relation database) `{!PreOrder R}.

Lemma ends_trans db1 db2 r : R db1 db2 -> ends (R db2) r -> ends (R db1) r.
Proof. intros H Hr db3 E. etrans; [exact H|exact (Hr db3 E)]. Qed.

Lemma ends_trans2 {A} db1 db2 (r : result (A * database)) :
  R db1 db2 -> ends (fun p => R db2 p.2) r -> ends (fun p => R db1 p.2) r.
Proof. intros H Hr p E. etrans; [exact H|exact (Hr p E)]. Qed.
End Trans.

Create HintDb frames.

(** A state built from others by updates of other fields. *)
Ltac same_state :=
  unfold put_statistics, put_dynamic, push_applied_operation, put_bitasset, freeze, clear_order_deflation in *;
  repeat match goal with H : same_chain _ _ |- _ => destruct H end;
  repeat match goal with |- same_chain _ ?d => match d with context [match ?x with _ => _ end] => destruct x end end;
  split; simpl in *; try congruence; intros; rewrite ?lookup_alter_None; naive_solver.

(** One step of a walk for the preorder of the goal; [same] relates a state to one
    that updates other parts of it. *)
Ltac frame_step same :=
  match goal with
  | |- ends _ (Ok _) => apply ends_Ok; cbn [fst snd]; try (by same)
  | |- ends _ (Err _) => apply ends_Err
  | |- ends (fun p => ?R ?db p.2) (_ ≫= _) =>
      first [ apply (ends_bind (R db)); [|intros ? ?]
            | apply (ends_bind (fun p => R db p.2)); [|intros [? ?]; cbn [snd]; intros ?]
            | apply ends_bind_any; intros ? ]
  | |- ends (?R ?db) (_ ≫= _) =>
      first [ apply (ends_bind (R db)); [|intros ? ?]
            | apply (ends_bind (fun p => R db p.2)); [|intros [? ?]; cbn [snd]; intros ?]
            | apply ends_bind_any; intros ? ]
  | |- ends _ (let '(_, _) := match ?x with _ => _ end in _) => destruct x
  | |- ends _ (let '(_, _) := ?p in _) => destruct p
  | |- ends (fun p => ?R ?db p.2) ?r =>
      (eapply (ends_trans2 R); [|solve [eauto 2 with frames]]; same)
  | |- ends (?R ?db) ?r =>
      (eapply (ends_trans R); [|solve [eauto 2 with frames]]; same)
  | |- ends _ (if ?b then _ else _) => destruct b
  | |- ends _ (match ?x with _ => _ end) => destruct x
  end.
Ltac frame_with same := cbv zeta; repeat frame_step same.
Ltac frame := frame_with ltac:(idtac; same_state).

Section Frames.
Context `{FC : FcLib, NE : NthElement}.
Implicit Types (db : database).

Lemma adjust_balance_keeps db i x : keeps db (adjust_balance db i x).
Proof. unfold adjust_balance. frame. Qed.
#[local] Hint Resolve adjust_balance_keeps : frames.

Lemma pay_order_keeps db i x y : keeps db (pay_order db i x y).
Proof. unfold pay_order. frame. Qed.
#[local] Hint Resolve pay_order_keeps : frames.

Lemma pay_market_fees_keeps db a x : keeps2 db (pay_market_fees db a x).
Proof. unfold pay_market_fees. frame. Qed.
#[local] Hint Resolve pay_market_fees_keeps : frames.

Lemma cancel_settlement_frame db i (b : bool) : keeps db (cancel_settlement db i b).
Proof. unfold cancel_settlement. frame. Qed.
#[local] Hint Resolve cancel_settlement_frame : frames.

Lemma cancel_deflation_keeps db i o : keeps2 db (cancel_deflation db i o).
Proof. unfold cancel_deflation. frame. Qed.
#[local] Hint Resolve cancel_deflation_keeps : frames.

Lemma cancel_limit_order_keeps db i (b : bool) : keeps db (cancel_limit_order db i b).
Proof. unfold cancel_limit_order. frame. Qed.
#[local] Hint Resolve cancel_limit_order_keeps : frames.

Lemma maybe_cull_small_order_keeps db i : keeps2 db (maybe_cull_small_order db i).
Proof. unfold maybe_cull_small_order. frame. Qed.
#[local] Hint Resolve maybe_cull_small_order_keeps : frames.

Lemma pay_exchange_fee_keeps db o x y z : keeps2 db (pay_exchange_fee db o x y z).
Proof. unfold pay_exchange_fee. frame. Qed.
#[local] Hint Resolve pay_exchange_fee_keeps : frames.

Lemma pay_deferred_fee_keeps db o : keeps db (pay_deferred_fee db o).
Proof. unfold pay_deferred_fee. frame. Qed.
#[local] Hint Resolve pay_deferred_fee_keeps : frames.

Lemma fill_limit_order_keeps db i x y (b : bool) : keeps2 db (fill_limit_order db i x y b).
Proof. unfold fill_limit_order. frame. Qed.
#[local] Hint Resolve fill_limit_order_keeps : frames.

Lemma fill_call_order_keeps db i x y : keeps2 db (fill_call_order db i x y).
Proof. unfold fill_call_order. frame. Qed.
#[local] Hint Resolve fill_call_order_keeps : frames.

Lemma fill_settlement_keeps db i x y : keeps2 db (fill_settlement db i x y).
Proof. unfold fill_settlement. frame. Qed.
#[local] Hint Resolve fill_settlement_keeps : frames.

Lemma match_limit_keeps db i j x : keeps2 db (match_limit db i j x).
Proof. unfold match_limit. frame. Qed.
#[local] Hint Resolve match_limit_keeps : frames.

Lemma match_settlement_keeps db i j x y : keeps2 db (match_settlement db i j x y).
Proof. unfold match_settlement. frame. Qed.
#[local] Hint Resolve match_settlement_keeps : frames.

Lemma close_call_keeps db p st i : same_chain db st.2 -> keeps2 db (close_call p st i).
Proof. destruct st. cbn [snd]. intros ?. unfold close_call. frame. Qed.

Lemma close_calls_keeps db p g l : keeps2 db (foldM (close_call p) (g, db) l).
Proof. apply (ends_foldM (fun p => same_chain db p.2)); [done|]. intros. by apply close_call_keeps. Qed.
#[local] Hint Resolve close_calls_keeps : frames.

Lemma globally_settle_asset_keeps db a p : keeps db (globally_settle_asset db a p).
Proof. unfold globally_settle_asset. frame. Qed.
#[local] Hint Resolve globally_settle_asset_keeps : frames.

Lemma check_for_blackswan_keeps db a (b : bool) : keeps2 db (check_for_blackswan db a b).
Proof. unfold check_for_blackswan. frame. Qed.
#[local] Hint Resolve check_for_blackswan_keeps : frames.

Lemma call_loop_keeps fuel : forall db a (b : bool) p calls limits f m, keeps2 db (call_loop fuel db a b p calls limits f m).
Proof. induction fuel as [|n IH]; intros; [by apply ends_Err|]. cbn [call_loop]. frame. Qed.
#[local] Hint Resolve call_loop_keeps : frames.

Lemma check_call_orders_keeps db a (b : bool) : keeps2 db (check_call_orders db a b).
Proof. unfold check_call_orders. frame. Qed.
#[local] Hint Resolve check_call_orders_keeps : frames.

Lemma deflate_maker_keeps db i : keeps db (deflate_maker db i).
Proof. unfold deflate_maker. frame. Qed.
#[local] Hint Resolve deflate_maker_keeps : frames.

Lemma match_loop_keeps l : forall db i, keeps db (match_loop db i l).
Proof. induction l as [|x l IH]; intros; [by apply ends_Ok|]. cbn [match_loop]. frame. Qed.
#[local] Hint Resolve match_loop_keeps : frames.

Lemma apply_order_keeps db i (b : bool) : keeps2 db (apply_order db i b).
Proof. unfold apply_order. frame. Qed.
#[local] Hint Resolve apply_order_keeps : frames.

Lemma freeze_cut_keeps db o : keeps2 db (freeze_cut db o).
Proof. unfold freeze_cut. frame. Qed.
#[local] Hint Resolve freeze_cut_keeps : frames.

Lemma deflation_do_apply_keeps db op : keeps db (deflation_do_apply db op).
Proof. unfold deflation_do_apply. frame. Qed.
#[local] Hint Resolve deflation_do_apply_keeps : frames.

Lemma account_deflation_do_apply_keeps db di owner : keeps db (account_deflation_do_apply db di owner).
Proof. unfold account_deflation_do_apply. frame. Qed.
#[local] Hint Resolve account_deflation_do_apply_keeps : frames.

Lemma cut_order_keeps db i o x : keeps db (cut_order db i o x).
Proof. unfold cut_order. frame. Qed.
#[local] Hint Resolve cut_order_keeps : frames.

Lemma order_deflation_do_apply_keeps db di order : keeps db (order_deflation_do_apply db di order).
Proof. unfold order_deflation_do_apply. frame. Qed.
#[local] Hint Resolve order_deflation_do_apply_keeps : frames.

Lemma transfer_cuts_keeps db op : keeps2 db (transfer_cuts db op).
Proof. unfold transfer_cuts. frame. Qed.
#[local] Hint Resolve transfer_cuts_keeps : frames.

Lemma transfer_do_apply_keeps db op : keeps db (transfer_do_apply db op).
Proof. unfold transfer_do_apply. frame. Qed.
#[local] Hint Resolve transfer_do_apply_keeps : frames.

Lemma override_transfer_do_apply_keeps db op : keeps db (override_transfer_do_apply db op).
Proof. unfold override_transfer_do_apply. frame. Qed.
#[local] Hint Resolve override_transfer_do_apply_keeps : frames.

Lemma limit_order_fee_config_do_apply_keeps db op : keeps db (limit_order_fee_config_do_apply db op).
Proof. unfold limit_order_fee_config_do_apply. frame. Qed.
#[local] Hint Resolve limit_order_fee_config_do_apply_keeps : frames.

Lemma limit_order_cuts_keeps db op : keeps2 db (limit_order_cuts db op).
Proof. unfold limit_order_cuts. frame. Qed.
#[local] Hint Resolve limit_order_cuts_keeps : frames.

Lemma limit_order_create_do_apply_keeps db st op : keeps db (limit_order_create_do_apply db st op).
Proof. unfold limit_order_create_do_apply. frame. Qed.
#[local] Hint Resolve limit_order_create_do_apply_keeps : frames.

Lemma limit_order_cancel_do_apply_keeps db op : keeps db (limit_order_cancel_do_apply db op).
Proof. unfold limit_order_cancel_do_apply. frame. Qed.
#[local] Hint Resolve limit_order_cancel_do_apply_keeps : frames.

Lemma change_debt_keeps db a op : keeps db (change_debt db a op).
Proof. unfold change_debt. frame. Qed.
#[local] Hint Resolve change_debt_keeps : frames.

Lemma change_collateral_keeps db op : keeps db (change_collateral db op).
Proof. unfold change_collateral. frame. Qed.
#[local] Hint Resolve change_collateral_keeps : frames.

Lemma update_position_keeps db bit op : keeps2 db (update_position db bit op).
Proof. unfold update_position. frame. Qed.
#[local] Hint Resolve update_position_keeps : frames.

Lemma check_position_keeps db i a p : keeps db (check_position db i a p).
Proof. unfold check_position. frame. Qed.
#[local] Hint Resolve check_position_keeps : frames.

Lemma call_order_update_do_apply_keeps db op : keeps db (call_order_update_do_apply db op).
Proof. unfold call_order_update_do_apply. frame. Qed.
#[local] Hint Resolve call_order_update_do_apply_keeps : frames.

Lemma asset_create_do_apply_keeps db st op : keeps db (asset_create_do_apply db st op).
Proof. unfold asset_create_do_apply. frame. Qed.
#[local] Hint Resolve asset_create_do_apply_keeps : frames.

Lemma cancel_settlements_keeps db a : keeps db (cancel_settlements db a).
Proof. apply (ends_while (same_chain db)); intros; [done|frame]. Qed.
#[local] Hint Resolve cancel_settlements_keeps : frames.

Lemma asset_update_do_apply_keeps db op : keeps db (asset_update_do_apply db op).
Proof. unfold asset_update_do_apply. frame. Qed.
#[local] Hint Resolve asset_update_do_apply_keeps : frames.

Lemma asset_update_bitasset_do_apply_keeps db op : keeps db (asset_update_bitasset_do_apply db op).
Proof. unfold asset_update_bitasset_do_apply. frame. Qed.
#[local] Hint Resolve asset_update_bitasset_do_apply_keeps : frames.

Lemma asset_update_feed_producers_do_apply_keeps db op : keeps db (asset_update_feed_producers_do_apply db op).
Proof. unfold asset_update_feed_producers_do_apply. frame. Qed.
#[local] Hint Resolve asset_update_feed_producers_do_apply_keeps : frames.

Lemma asset_publish_feed_do_apply_keeps db op : keeps db (asset_publish_feed_do_apply db op).
Proof. unfold asset_publish_feed_do_apply. frame. Qed.
#[local] Hint Resolve asset_publish_feed_do_apply_keeps : frames.

Lemma modify_dynamic_keeps db id f : keeps db (modify_dynamic db id f).
Proof. unfold modify_dynamic. frame. Qed.
#[local] Hint Resolve modify_dynamic_keeps : frames.

Lemma asset_issue_do_apply_keeps db op : keeps db (asset_issue_do_apply db op).
Proof. unfold asset_issue_do_apply. frame. Qed.
#[local] Hint Resolve asset_issue_do_apply_keeps : frames.

Lemma asset_reserve_do_apply_keeps db op : keeps db (asset_reserve_do_apply db op).
Proof. unfold asset_reserve_do_apply. frame. Qed.
#[local] Hint Resolve asset_reserve_do_apply_keeps : frames.

Lemma asset_fund_fee_pool_do_apply_keeps db op : keeps db (asset_fund_fee_pool_do_apply db op).
Proof. unfold asset_fund_fee_pool_do_apply. frame. Qed.
#[local] Hint Resolve asset_fund_fee_pool_do_apply_keeps : frames.

Lemma asset_claim_fees_do_apply_keeps db op : keeps db (asset_claim_fees_do_apply db op).
Proof. unfold asset_claim_fees_do_apply. frame. Qed.
#[local] Hint Resolve asset_claim_fees_do_apply_keeps : frames.

Lemma asset_global_settle_do_apply_keeps db op : keeps db (asset_global_settle_do_apply db op).
Proof. unfold asset_global_settle_do_apply. frame. Qed.
#[local] Hint Resolve asset_global_settle_do_apply_keeps : frames.

Lemma settle_from_fund_keeps db i b op : keeps db (settle_from_fund db i b op).
Proof. unfold settle_from_fund. frame. Qed.
#[local] Hint Resolve settle_from_fund_keeps : frames.

Lemma asset_settle_do_apply_keeps db op : keeps db (asset_settle_do_apply db op).
Proof. unfold asset_settle_do_apply. frame. Qed.
#[local] Hint Resolve asset_settle_do_apply_keeps : frames.

Lemma vesting_balance_create_do_apply_keeps db op : keeps db (vesting_balance_create_do_apply db op).
Proof. unfold vesting_balance_create_do_apply. frame. Qed.
#[local] Hint Resolve vesting_balance_create_do_apply_keeps : frames.

Lemma vesting_balance_withdraw_do_apply_keeps db op : keeps db (vesting_balance_withdraw_do_apply db op).
Proof. unfold vesting_balance_withdraw_do_apply. frame. Qed.
#[local] Hint Resolve vesting_balance_withdraw_do_apply_keeps : frames.

Lemma pay_back_keeps db a x : keeps db (pay_back db a x).
Proof. unfold pay_back. frame. Qed.
#[local] Hint Resolve pay_back_keeps : frames.

Lemma construction_capital_create_do_apply_keeps db op : keeps db (construction_capital_create_do_apply db op).
Proof. unfold construction_capital_create_do_apply. frame. Qed.
#[local] Hint Resolve construction_capital_create_do_apply_keeps : frames.

Lemma create_vote_keeps db i j : keeps db (create_vote db i j).
Proof. unfold create_vote. frame. Qed.
#[local] Hint Resolve create_vote_keeps : frames.

Lemma construction_capital_vote_do_apply_keeps db op : keeps db (construction_capital_vote_do_apply db op).
Proof. unfold construction_capital_vote_do_apply. frame. Qed.
#[local] Hint Resolve construction_capital_vote_do_apply_keeps : frames.

Lemma incentive_do_apply_keeps db op : keeps db (incentive_do_apply db op).
Proof. unfold incentive_do_apply. frame. Qed.
#[local] Hint Resolve incentive_do_apply_keeps : frames.

Lemma convert_fee_keeps ctx db st : keeps db (convert_fee ctx db st).
Proof. unfold convert_fee. frame. Qed.
#[local] Hint Resolve convert_fee_keeps : frames.

Lemma generic_pay_fee_keeps ctx db a st : keeps2 db (generic_pay_fee ctx db a st).
Proof. unfold generic_pay_fee. frame. Qed.
#[local] Hint Resolve generic_pay_fee_keeps : frames.

Lemma start_evaluate_keeps `{E : Evaluator Op} ctx db (op : Op) :
  (forall db a st, keeps2 db (pay_fee ctx db a st)) -> (forall db st, keeps db (do_apply db st op)) ->
  keeps db (start_evaluate ctx db op).
Proof. intros Hpay Happ. unfold start_evaluate, apply. frame. Qed.

Lemma limit_order_create_pay_fee_keeps ctx db a st : keeps2 db (limit_order_create_pay_fee ctx db a st).
Proof. unfold limit_order_create_pay_fee. frame. Qed.
#[local] Hint Resolve limit_order_create_pay_fee_keeps : frames.

Lemma construction_capital_rate_vote_do_apply_keeps db op : keeps db (construction_capital_rate_vote_do_apply db op).
Proof. unfold construction_capital_rate_vote_do_apply. frame. Qed.
#[local] Hint Resolve construction_capital_rate_vote_do_apply_keeps : frames.

(** The operations that change accounts, witnesses or what is voted on. *)
Definition public_operation (op : operation) : bool :=
  match op with
  | account_create _ | account_update _ | account_whitelist _ | account_upgrade _ | account_create_by_transfer _
  | witness_create _ | witness_update _ | committee_member_create _ | committee_member_update _ | worker_create _
  | withdraw_permission_create _ | withdraw_permission_update _ | withdraw_permission_claim _
  | withdraw_permission_delete _ => true
  | _ => false
  end.

Lemma apply_operation_keeps ctx db op : public_operation op = false -> keeps db (apply_operation ctx db op).
Proof. destruct op; try done; intros _; simpl; apply start_evaluate_keeps; intros; simpl; eauto 2 with frames. Qed.

(** What a run of the others consists of. *)
Lemma public_run `{E : !Evaluator Op} ctx db (op : Op) db' :
  pay_fee (Op := Op) = generic_pay_fee ->
  (forall db st, exists r, do_evaluate db st op = keep st r) ->
  start_evaluate ctx db op = Ok db' ->
  exists st db2 db3, do_evaluate db st op = Ok st /\ same_chain db db2 /\
    do_apply db2 st op = Ok db3 /\ same_chain db3 db'.
Proof.
  intros Hpay Hev H. unfold start_evaluate, evaluate, apply in H. inv_results.
  match goal with H : do_evaluate _ ?s _ = Ok ?s' |- _ =>
    rename H into He; destruct (Hev db s) as [r Hr]; assert (s' = s) as -> by (rewrite Hr in He; unfold keep in He; by inv_result) end.
  match goal with H : convert_fee _ _ _ = _ |- _ => apply convert_fee_keeps in H as S1 end.
  rewrite Hpay in *. match goal with H : generic_pay_fee _ _ _ _ = Ok (?s, ?d) |- _ =>
    pose proof (generic_pay_fee_keeps _ _ _ _ _ H) as S2; apply generic_pay_fee_frame in H as [-> _] end.
  match goal with H : adjust_balance _ _ _ = _ |- _ => apply adjust_balance_keeps in H as S3 end.
  eexists _, _, _. split; [exact He|]. split; [etrans; [exact S1|exact S2]|]. split; [eassumption|done].
Qed.
End Frames.

(** ** What every operation keeps *)

(** The clock but for the count of registrations, the parameters but for the fee of
    a registration, and what a witness is but for its key and page. *)
Definition clock_of (d : dynamic_global_property_object) := d <| accounts_registered_this_interval := 0 |>.
Definition settings_of (p : chain_parameters) := p <| account_create_basic_fee := 0 |>.
Definition office_of (w : witness_object) := w <| signing_key := 0 |> <| wit_url := EmptyString |>.

Record same_schedule (db db' : database) : Prop := {
  sched_clock : clock_of (dgpo db') = clock_of (dgpo db);
  sched_settings : settings_of (parameters db') = settings_of (parameters db);
  sched_active : active_witnesses db' = active_witnesses db;
  sched_shuffled : current_shuffled_witnesses db' = current_shuffled_witnesses db;
  sched_witnesses : wf_table (witnesses db) -> wf_table (witnesses db') /\
    forall i w, objs (witnesses db) !! i = Some w -> office_of <$> objs (witnesses db') !! i = Some (office_of w);
}.

#[export] Instance same_schedule_preorder : PreOrder same_schedule.
Proof.
  split.
  - intros db. split; try done. intros W. split; [done|]. by intros i w ->.
  - intros db1 db2 db3 [???? H12] [???? H23]. split; try congruence. intros W.
    destruct (H12 W) as [W2 Hw2]. destruct (H23 W2) as [W3 Hw3]. split; [done|]. intros i w Hi. apply Hw2 in Hi.
    destruct (objs (witnesses db2) !! i) as [w2|] eqn:E2; [|done]. rewrite (Hw3 i w2 E2). exact Hi.
Qed.

(** A change outside the clock, the witnesses and the parameters. *)
Lemma schedule_same db db' :
  dgpo db' = dgpo db -> witnesses db' = witnesses db -> active_witnesses db' = active_witnesses db ->
  current_shuffled_witnesses db' = current_shuffled_witnesses db -> parameters db' = parameters db -> same_schedule db db'.
Proof.
  intros Hd Hw Ha Hs Hp. split; try congruence. rewrite Hw. intros W. split; [done|]. by intros i w ->.
Qed.

Lemma same_chain_schedule db db' : same_chain db db' -> same_schedule db db'.
Proof. intros [Hd Hw Ha Hs Hp _ _ _]. by apply schedule_same. Qed.

Section Schedule.
Context `{FC : FcLib, NE : NthElement}.
Implicit Types (db : database).

Lemma same_people_schedule db db' : same_people db db' -> same_schedule db db'.
Proof. intros [_ _ _ _ Hd Hw [Ha Hs] Hp]. by apply schedule_same. Qed.

Lemma count_registration_schedule db db' : count_registration db = Ok db' -> same_schedule db db'.
Proof. intros (n & fee & ->)%count_registration_inv. split; try done. intros W. split; [done|]. intros i w Hi. cbn. by rewrite Hi. Qed.

Lemma account_create_schedule db op db' : account_create_do_apply db op = Ok db' -> same_schedule db db'.
Proof.
  unfold account_create_do_apply. intros H. inv_results.
  match goal with H : insert_account _ _ = _ |- _ => apply insert_account_inv in H as (_ & _ & E1) end.
  match goal with H : count_registration _ = Ok ?d |- _ => rename d into db2; apply count_registration_schedule in H as S2 end.
  match goal with H : (if _ || _ then _ else Ok ?d) = Ok ?d' |- _ => rename d' into db3;
    assert (S3 : same_schedule db2 db3); [rename H into Hs|clear H] end.
  { destruct (_ || _); [|by injection Hs as <-]. apply insert_special_authority_inv in Hs as [_ ->]. by apply schedule_same. }
  trans db3.
  { etrans; [|exact S3]. etrans; [|exact S2]. rewrite E1. by apply schedule_same. }
  destruct (an_buyback op); inv_result; [|done].
  match goal with H : insert_buyback _ _ = _ |- _ => apply insert_buyback_inv in H as [_ ->] end. by apply schedule_same.
Qed.

Lemma account_create_by_transfer_schedule db op db' :
  account_create_by_transfer_do_apply db op = Ok db' -> same_schedule db db'.
Proof.
  unfold account_create_by_transfer_do_apply. intros H. inv_results.
  match goal with H : insert_account _ _ = _ |- _ => apply insert_account_inv in H as (_ & _ & E1) end.
  match goal with H : count_registration _ = Ok ?d |- _ => apply count_registration_schedule in H as S2 end.
  repeat match goal with H : adjust_balance _ _ _ = _ |- _ => apply adjust_balance_keeps, same_chain_schedule in H end.
  etrans; [|eassumption]. etrans; [|eassumption]. etrans; [|exact S2]. rewrite E1. by apply schedule_same.
Qed.

Lemma account_update_schedule db op db' : account_update_do_apply db op = Ok db' -> same_schedule db db'.
Proof.
  unfold account_update_do_apply. cbv zeta. intros H. inv_results.
  repeat match goal with H : (if _ then _ else _) = Ok _ |- _ => destruct (_ && _) in H end; inv_results;
    try match goal with H : insert_special_authority _ _ = _ |- _ => apply insert_special_authority_inv in H as [_ ->] end;
    by apply schedule_same.
Qed.

Lemma witness_create_schedule db op db' : witness_create_do_apply db op = Ok db' -> same_schedule db db'.
Proof.
  unfold witness_create_do_apply. cbn [get_next_vote_id].
  intros [-> _]%(tbl_create_unique_bind _ _ _ (fun t => _ <| witnesses := t |>)). split; try done.
  intros W. split; [by apply tbl_create_wf|]. intros i w Hi. cbn. rewrite lookup_insert_ne; [by rewrite Hi|]. intros <-.
  assert (next_instance (witnesses db) < next_instance (witnesses db))%N by (apply W; eauto). lia.
Qed.

Lemma witness_update_schedule db op db' : witness_update_do_apply db op = Ok db' -> same_schedule db db'.
Proof.
  unfold witness_update_do_apply. intros H. inv_result. split; try done.
  intros W. split; [by apply tbl_modify_wf|]. intros i w Hi. cbn.
  destruct (decide (i = wu_witness op)) as [->|]; [|by rewrite lookup_alter_ne, Hi].
  rewrite lookup_alter_eq, Hi. by destruct (wu_new_url op), (new_signing_key op).
Qed.

Lemma governance_schedule db db' :
  governance_frame db db' -> witnesses db' = witnesses db -> same_schedule db db'.
Proof. intros [E _] Hw. apply schedule_same; [by rewrite E|exact Hw|by rewrite E..]. Qed.

Lemma withdraw_permission_claim_schedule db op db' :
  withdraw_permission_claim_do_apply db op = Ok db' -> same_schedule db db'.
Proof.
  unfold withdraw_permission_claim_do_apply. cbv zeta. intros H. inv_result.
  repeat match goal with H : adjust_balance _ _ _ = _ |- _ => apply adjust_balance_keeps, same_chain_schedule in H end.
  etrans; [|exact H]. etrans; [|eassumption]. by apply schedule_same.
Qed.

(** Reduce a run of a public operation to its application. *)
Lemma public_schedule `{E : !Evaluator Op} ctx db (op : Op) db' :
  pay_fee (Op := Op) = generic_pay_fee ->
  (forall db st, exists r, do_evaluate db st op = keep st r) ->
  (forall db2 st db3, do_apply db2 st op = Ok db3 -> same_schedule db2 db3) ->
  start_evaluate ctx db op = Ok db' -> same_schedule db db'.
Proof.
  intros Hpay Hev Happ (st & db2 & db3 & _ & S1 & H & S2)%public_run; [|done..].
  etrans; [by apply same_chain_schedule|]. etrans; [by eapply Happ|by apply same_chain_schedule].
Qed.

(** Every operation keeps the clock, the settings and the schedule. *)
Lemma apply_operation_schedule ctx db op db' : apply_operation ctx db op = Ok db' -> same_schedule db db'.
Proof.
  destruct (public_operation op) eqn:Hop.
  2: { intros H. by apply same_chain_schedule, (apply_operation_keeps ctx db op Hop db'). }
  destruct op; try done; cbn [apply_operation]; apply public_schedule; try done;
    try (intros; by eexists); intros db2 st db3 H.
  - exact (account_create_schedule _ _ _ H).
  - exact (account_update_schedule _ _ _ H).
  - exact (same_people_schedule _ _ (account_whitelist_same _ _ _ H)).
  - exact (same_people_schedule _ _ (account_upgrade_same _ _ _ H)).
  - exact (witness_create_schedule _ _ _ H).
  - exact (witness_update_schedule _ _ _ H).
  - injection H as <-. by apply schedule_same.
  - change (withdraw_permission_update_do_apply db2 op = Ok db3) in H. apply bind_Ok in H as (p & _ & [= <-]).
    by apply schedule_same.
  - exact (withdraw_permission_claim_schedule _ _ _ H).
  - change (withdraw_permission_delete_do_apply db2 op = Ok db3) in H. apply bind_Ok in H as (p & _ & [= <-]).
    by apply schedule_same.
  - destruct (committee_member_create_frame _ _ _ H). by apply governance_schedule.
  - destruct (committee_member_update_frame _ _ _ H). by apply governance_schedule.
  - destruct (worker_create_frame _ _ _ H). by apply governance_schedule.
  - exact (account_create_by_transfer_schedule _ _ _ H).
Qed.

Lemma operations_schedule db ops db' : apply_operations db ops = Ok db' -> same_schedule db db'.
Proof.
  unfold apply_operations. intros H. inv_result.
  revert db H0. induction ops as [|[ctx op] ops IH]; intros d H; cbn [foldM fst snd] in H; inv_result; [done|].
  etrans; [by eapply apply_operation_schedule|by apply IH].
Qed.

Context `{!FcLaws FC}.

(** ** Sound accounts and vote ids *)

Lemma accounts_sound_ext db db' :
  accounts db' = accounts db -> (forall i, statistics db' !! i = None <-> statistics db !! i = None) ->
  special_authorities (gov db') = special_authorities (gov db) -> accounts_sound db -> accounts_sound db'.
Proof.
  intros Ha Hs Hg [P Q]. unfold accounts_sound. rewrite Ha, Hg. split; [|done].
  split; [apply P..|]. intros i. by rewrite Hs, (people_stats _ _ P).
Qed.

Lemma same_chain_sound db db' : same_chain db db' -> accounts_sound db -> accounts_sound db'.
Proof. intros [_ _ _ _ _ Ha Hg Hs]. apply accounts_sound_ext; [done|exact Hs|by rewrite Hg]. Qed.

Lemma governance_frame_sound db db' : governance_frame db db' -> accounts_sound db -> accounts_sound db'.
Proof. intros [E Hs]. apply accounts_sound_ext; [by rewrite E|by rewrite E|exact Hs]. Qed.

Lemma public_sound `{E : !Evaluator Op} ctx db (op : Op) db' :
  pay_fee (Op := Op) = generic_pay_fee ->
  (forall db st, exists r, do_evaluate db st op = keep st r) ->
  (forall st db2 db3, do_evaluate db st op = Ok st -> accounts db2 = accounts db -> accounts_sound db2 ->
     do_apply db2 st op = Ok db3 -> accounts_sound db3) ->
  start_evaluate ctx db op = Ok db' -> accounts_sound db -> accounts_sound db'.
Proof.
  intros Hpay Hev Happ (st & db2 & db3 & He & S1 & H & S2)%public_run W; [|done..].
  eapply same_chain_sound; [exact S2|]. refine (Happ st db2 db3 He _ _ H); [by destruct S1|].
  by eapply same_chain_sound.
Qed.

Lemma keep_Ok {A} (st st' : A) r : keep st r = Ok st' -> exists u, r = Ok u.
Proof. unfold keep. intros (u & H & _)%bind_Ok. eauto. Qed.

Lemma apply_operation_sound ctx db op db' :
  apply_operation ctx db op = Ok db' -> accounts_sound db -> accounts_sound db'.
Proof.
  destruct (public_operation op) eqn:Hop.
  2: { intros H. by apply same_chain_sound, (apply_operation_keeps ctx db op Hop db'). }
  destruct op; try done; cbn [apply_operation]; apply public_sound; try done;
    try (intros; by eexists); intros st db2 db3 He Ha W H.
  - destruct (keep_Ok _ _ _ He) as [u Hu]. exact (account_create_sound _ _ _ _ Hu _ Ha W H).
  - destruct (keep_Ok _ _ _ He) as [u Hu]. exact (account_update_sound _ _ _ _ Hu _ Ha W H).
  - exact (accounts_sound_same _ _ (account_whitelist_same _ _ _ H) W).
  - exact (accounts_sound_same _ _ (account_upgrade_same _ _ _ H) W).
  - exact (governance_frame_sound _ _ (witness_create_frame _ _ _ H) W).
  - exact (governance_frame_sound _ _ (witness_update_frame _ _ _ H) W).
  - injection H as <-. exact W.
  - change (withdraw_permission_update_do_apply db2 op = Ok db3) in H. apply bind_Ok in H as (p & _ & [= <-]). exact W.
  - exact (governance_frame_sound _ _ (proj1 (withdraw_permission_claim_frame _ _ _ H)) W).
  - change (withdraw_permission_delete_do_apply db2 op = Ok db3) in H. apply bind_Ok in H as (p & _ & [= <-]). exact W.
  - exact (governance_frame_sound _ _ (proj1 (committee_member_create_frame _ _ _ H)) W).
  - exact (governance_frame_sound _ _ (proj1 (committee_member_update_frame _ _ _ H)) W).
  - exact (governance_frame_sound _ _ (proj1 (worker_create_frame _ _ _ H)) W).
  - exact (account_create_by_transfer_sound _ _ _ W H).
Qed.

(** A change that leaves what is voted on alone. *)
Lemma vote_ids_ext db db' :
  witnesses db' = witnesses db -> committee_members (gov db') = committee_members (gov db) ->
  workers (gov db') = workers (gov db) -> next_available_vote_id (gov db') = next_available_vote_id (gov db) ->
  vote_ids_ok db -> vote_ids_ok db'.
Proof. intros Hw Hc Hk Hn. apply vote_ids_same; [|done]. intros []; cbn; by rewrite ?Hw, ?Hc, ?Hk. Qed.

Lemma same_chain_ids db db' : same_chain db db' -> vote_ids_ok db -> vote_ids_ok db'.
Proof. intros [_ Hw _ _ _ _ Hg _]. by apply vote_ids_ext; rewrite ?Hg. Qed.

Lemma account_create_ids db op db' : account_create_do_apply db op = Ok db' -> vote_ids_ok db -> vote_ids_ok db'.
Proof.
  unfold account_create_do_apply. intros H W. inv_results.
  match goal with H : insert_account _ _ = _ |- _ => apply insert_account_inv in H as (_ & _ & E1) end.
  match goal with H : count_registration _ = _ |- _ => apply count_registration_inv in H as (m & fee & E2) end.
  match goal with H : (if _ || _ then _ else Ok ?d) = Ok ?d' |- _ => rename d' into db3;
    assert (W3 : vote_ids_ok db3); [rename H into Hs|clear H] end.
  { subst. destruct (_ || _); [apply insert_special_authority_inv in Hs as [_ ->]|injection Hs as <-];
      by refine (vote_ids_ext db _ _ _ _ _ W). }
  destruct (an_buyback op); inv_result; [|done].
  match goal with H : insert_buyback _ _ = _ |- _ => apply insert_buyback_inv in H as [_ ->] end.
  by refine (vote_ids_ext db3 _ _ _ _ _ W3).
Qed.

Lemma account_create_by_transfer_ids db op db' :
  account_create_by_transfer_do_apply db op = Ok db' -> vote_ids_ok db -> vote_ids_ok db'.
Proof.
  unfold account_create_by_transfer_do_apply. intros H W. inv_results.
  match goal with H : insert_account _ _ = _ |- _ => apply insert_account_inv in H as (_ & _ & E1) end.
  match goal with H : count_registration _ = _ |- _ => apply count_registration_inv in H as (m & fee & E2) end.
  repeat match goal with H : adjust_balance _ _ _ = _ |- _ => apply adjust_balance_inv in H as (? & -> & _) end.
  subst. by refine (vote_ids_ext db _ _ _ _ _ W).
Qed.

Lemma account_update_ids db op db' : account_update_do_apply db op = Ok db' -> vote_ids_ok db -> vote_ids_ok db'.
Proof.
  unfold account_update_do_apply. cbv zeta. intros H W. inv_results.
  repeat match goal with H : (if _ then _ else _) = Ok _ |- _ => destruct (_ && _) in H end; inv_results;
    try match goal with H : insert_special_authority _ _ = _ |- _ => apply insert_special_authority_inv in H as [_ ->] end;
    by refine (vote_ids_ext db _ _ _ _ _ W).
Qed.

Lemma same_people_ids db db' : same_people db db' -> vote_ids_ok db -> vote_ids_ok db'.
Proof. intros [_ _ _ Hg _ Hw _ _]. by apply vote_ids_ext; rewrite ?Hg. Qed.

Lemma public_ids `{E : !Evaluator Op} ctx db (op : Op) db' :
  pay_fee (Op := Op) = generic_pay_fee ->
  (forall db st, exists r, do_evaluate db st op = keep st r) ->
  (forall st db2 db3, room db2 -> vote_ids_ok db2 -> do_apply db2 st op = Ok db3 -> vote_ids_ok db3) ->
  start_evaluate ctx db op = Ok db' -> room db -> vote_ids_ok db -> vote_ids_ok db'.
Proof.
  intros Hpay Hev Happ (st & db2 & db3 & He & S1 & H & S2)%public_run R W; [|done..].
  eapply same_chain_ids; [exact S2|]. refine (Happ st db2 db3 _ _ H); [|by eapply same_chain_ids].
  destruct S1 as [_ _ _ _ _ _ Hg _]. unfold room. by rewrite Hg.
Qed.

Lemma apply_operation_ids ctx db op db' :
  apply_operation ctx db op = Ok db' -> room db -> vote_ids_ok db -> vote_ids_ok db'.
Proof.
  destruct (public_operation op) eqn:Hop.
  2: { intros H _. by apply same_chain_ids, (apply_operation_keeps ctx db op Hop db'). }
  destruct op; try done; cbn [apply_operation]; apply public_ids; try done;
    try (intros; by eexists); intros st db2 db3 R W H.
  - exact (account_create_ids _ _ _ H W).
  - exact (account_update_ids _ _ _ H W).
  - exact (same_people_ids _ _ (account_whitelist_same _ _ _ H) W).
  - exact (same_people_ids _ _ (account_upgrade_same _ _ _ H) W).
  - exact (witness_create_ids _ _ _ R W H).
  - exact (witness_update_ids _ _ _ W H).
  - injection H as <-. by refine (vote_ids_ext db2 _ _ _ _ _ W).
  - change (withdraw_permission_update_do_apply db2 op = Ok db3) in H. apply bind_Ok in H as (p & _ & [= <-]).
    by refine (vote_ids_ext db2 _ _ _ _ _ W).
  - change (withdraw_permission_claim_do_apply db2 op = Ok db3) in H. unfold withdraw_permission_claim_do_apply in H.
    cbv zeta in H. inv_result.
    repeat match goal with H : adjust_balance _ _ _ = _ |- _ => apply adjust_balance_inv in H as (? & -> & _) end.
    by refine (vote_ids_ext db2 _ _ _ _ _ W).
  - change (withdraw_permission_delete_do_apply db2 op = Ok db3) in H. apply bind_Ok in H as (p & _ & [= <-]).
    by refine (vote_ids_ext db2 _ _ _ _ _ W).
  - exact (committee_member_create_ids _ _ _ R W H).
  - exact (committee_member_update_ids _ _ _ W H).
  - exact (worker_create_ids _ _ _ R W H).
  - exact (account_create_by_transfer_ids _ _ _ H W).
Qed.
End Schedule.

(** ** Properties *)

(** C22: the accounts are sound after every operation: no two have one name, the
    accounts that their owner and active authorities name exist, every account has its
    statistics, and every account with a special authority is recorded once. *)
Theorem accounts_stay_sound `{FC : FcLib, !FcLaws FC, NE : NthElement} (ctx : evaluation_context)
    (db db' : database) (op : operation) :
  accounts_sound db -> apply_operation ctx db op = Ok db' -> accounts_sound db'.
Proof. intros W H. by eapply apply_operation_sound. Qed.

(** C23: while there is room for more than two ids in 24 bits, every operation
    leaves each vote id with at most one witness, committee member, worker or
    objection to a worker, below the next id to be handed out. *)
Theorem vote_ids_stay_unique `{FC : FcLib, !FcLaws FC, NE : NthElement} (ctx : evaluation_context)
    (db db' : database) (op : operation) :
  vote_ids_ok db -> room db -> apply_operation ctx db op = Ok db' -> vote_ids_ok db'.
Proof. intros W R H. by eapply apply_operation_ids. Qed.

(** ** Witnesses *)

(** Alice registers Dave, and becomes a committee member. *)
Definition ex_register : operation := account_create (ex_create None).
Definition ex_candidate : operation :=
  committee_member_create (Committee_member_create_operation (Asset 20 CORE_ASSET) 10 "https://alice").

Lemma accounts_stay_sound_witness :
  exists db', ex_apply ex_state ex_register = Ok db' /\ accounts_sound db' /\ account_name <$> objs (accounts db') !! 13%N = Some "dave"%string.
Proof.
  destruct (result_ok_true (ex_apply ex_state ex_register)) as [db' H]; [by vm_compute|].
  exists db'. split; [exact H|]. split.
  - exact (@accounts_stay_sound fc_ref fc_ref_laws sorting_nth_element ex_context ex_state db' ex_register ex_state_sound H).
  - revert H. unfold ex_apply. intros H. apply (f_equal (fun r => match r with Ok d => account_name <$> objs (accounts d) !! 13%N | Err _ => None end)) in H.
    rewrite <-H. by vm_compute.
Defined.

Lemma vote_ids_stay_unique_witness :
  exists db', ex_apply ex_state ex_candidate = Ok db' /\ vote_ids_ok db'.
Proof.
  destruct (result_ok_true (ex_apply ex_state ex_candidate)) as [db' H]; [by vm_compute|].
  exists db'. split; [exact H|].
  refine (@vote_ids_stay_unique fc_ref fc_ref_laws sorting_nth_element ex_context ex_state db' ex_candidate ex_state_ids _ H).
  ground.
Defined.
