(* ===== verification/Clearing.v ===== *)
(** * Clearing expired objects

    Models [clear_expired_orders] and [update_expired_feeds] of
    [libraries/chain/db_update.cpp], which every block runs: expired limit orders
    are cancelled as if their sellers had asked for it, force settlements that are
    due are matched against the least collateralised positions, and the feeds of
    market-issued assets are brought up to date.

    A reference of the source to an object is its id here; [order.balance] is read
    again each time because [match] changes it. *)

From S2P Require Import Prelude FcLib Block Asset Vesting Objects Database Ledger Market Trading Deflation Evaluator.
From S2P Require Import MarketOps Feeds AssetOps AssetFacts Accounts Governance Capital Operations Frames.

Section Clearing.
Context `{FC : FcLib, NE : NthElement}.
Implicit Types (db : database).

(** ** Expired limit orders *)

(** The by_expiration index. *)
Definition limit_sooner (x y : N * limit_order_object) : Prop :=
  expiration x.2 < expiration y.2 \/ expiration x.2 = expiration y.2 /\ (x.1 <= y.1)%N.
#[export] Instance limit_sooner_dec x y : Decision (limit_sooner x y).
Proof. unfold limit_sooner. apply _. Defined.

Definition first_expiring db : option (N * limit_order_object) :=
  head (merge_sort limit_sooner (map_to_list (objs (limit_orders db)))).

Definition limit_expired db : bool :=
  match first_expiring db with Some (_, o) => expiration o <=? head_block_time db | None => false end.

(** The cancellation of an order: the schedule's fee for it ([value], [scale]) is
    capped at the fee the order deferred. *)
Definition expired_cancel_fee (value scale : Z) (o : limit_order_object) : result asset :=
  fee ← calculate_fee value scale (unit_price CORE_ASSET);
  Ok (if deferred_fee o <? amount fee then Asset (deferred_fee o) CORE_ASSET else fee).

Definition cancel_first_expired (value scale : Z) db : result database :=
  match first_expiring db with
  | None => Ok db
  | Some (i, o) =>
      fee ← expired_cancel_fee value scale o;
      apply_operation (Evaluation_context false true value scale) db
        (limit_order_cancel (Limit_order_cancel_operation fee i (seller o)))
  end.

Definition clear_expired_limit_orders (value scale : Z) db : result database :=
  while limit_expired (cancel_first_expired value scale) (S (size (objs (limit_orders db)))) db.

(** ** Force settlements *)

(** The by_expiration index: the asset, the date, the id. *)
Definition settles_before (x y : N * force_settlement_object) : Prop :=
  let ax := asset_id (settle_balance x.2) in
  let ay := asset_id (settle_balance y.2) in
  (ax < ay)%N \/ ax = ay /\ settlement_before x y.
#[export] Instance settles_before_dec x y : Decision (settles_before x y).
Proof. unfold settles_before. apply _. Defined.

(** From [lower_bound( a )] to the end. *)
Definition settlements_from db (a : N) : list (N * force_settlement_object) :=
  merge_sort settles_before
    (filter (fun x => (a <= asset_id (settle_balance x.2))%N) (map_to_list (objs (settlements db)))).

(** [next_asset]: the asset of [upper_bound( current_asset )]. *)
Definition next_asset db (a : N) : option N :=
  match settlements_from db (N.succ a) with
  | (_, s) :: _ => Some (asset_id (settle_balance s))
  | [] => None
  end.

(** [call_index.lower_bound( price::min( backing, mia ) )] of the by_collateral
    index. *)
Definition least_collateral_call db (p : price) : option N :=
  fst <$> head (filter (fun x => Is_true (negb (price_ltb (Price (get_collateral x.2) (get_debt x.2)) p)))
                  (calls_by_collateral db)).

(** The first position of [mia], if there is one. *)
Definition position_to_call db (mia : N) : result N :=
  a ← tbl_get (assets db) mia;
  '(_, bit) ← bitasset_data db a;
  p ← price_min (short_backing_asset (bit_options bit)) mia;
  i ← of_option (least_collateral_call db p) (c_assert "itr != call_index.end()");
  c ← call_at db i;
  _ ← C_ASSERT (debt_type c =? mia)%N "itr->debt_type() == mia_object.get_id()";
  Ok i.

(** The inner loop: settle the order [i] until it is gone or [max] is reached; also
    the volume settled.  A black swan is detected before anything is changed. *)
Fixpoint settle_loop (fuel : nat) db (mia i : N) (p : price) (max settled : asset) : result (asset * database) :=
  lt ← asset_ltb settled max;
  if lt && is_some (objs (settlements db) !! i) then
    match fuel with
    | O => Err out_of_fuel
    | S fuel =>
        call ← position_to_call db mia;
        max_settlement ← asset_sub max settled;
        s ← settlement_at db i;
        if amount (settle_balance s) =? 0 then
          db ← cancel_settlement db i true;
          Ok (settled, db)
        else
          match match_settlement db call i p max_settlement with
          | Ok (x, db) =>
              settled ← asset_add settled x;
              settle_loop fuel db mia i p max settled
          | Err e =>
              if decide (e = graphene_exception "black_swan_exception") then
                db ← cancel_settlement db i true;
                Ok (settled, db)
              else Err e
          end
    end
  else Ok (settled, db).

(** What the balance of the order is worth, less the offset. *)
Definition settlement_receives (bit : asset_bitasset_data_object) (balance : asset) : result asset :=
  worth ← asset_mul_price balance (settlement_price (current_feed bit));
  r ← u128_to_uint64 fc_u128
        (u128_div fc_u128
           (u128_mul fc_u128 (u128_of fc_u128 (amount worth))
              (u128_of fc_u128 (GRAPHENE_100_PERCENT - force_settlement_offset_percent (bit_options bit))))
           (u128_of fc_u128 GRAPHENE_100_PERCENT));
  let receives := Asset (to_int64 r) (asset_id worth) in
  le ← asset_leb receives worth;
  _ ← C_ASSERT le "receives <= order.balance * mia.current_feed.settlement_price";
  Ok receives.

(** Settle an order that is due, up to [max]. *)
Definition settle_order db (mia i : N) (s : force_settlement_object) (bi : N) (bit : asset_bitasset_data_object)
    (max : asset) : result database :=
  receives ← settlement_receives bit (settle_balance s);
  p ← asset_div (settle_balance s) receives;
  '(settled, db) ← settle_loop (S (size (objs (call_orders db)))) db mia i p max (Asset (force_settled_volume bit) mia);
  Ok (db <| bitassets ::= fun t => tbl_modify t bi (fun b => b <| force_settled_volume := amount settled |>) |>).

(** The state of the outer loop: the database, [current_asset] and
    [max_settlement_volume]; [None] in the end. *)
Definition settlement_step db (max : asset) (i : N) (s : force_settlement_object)
  : result (option (database * N * asset)) :=
  let a := asset_id (settle_balance s) in
  mia ← tbl_get (assets db) a;
  '(bi, bit) ← bitasset_data db mia;
  if has_settlement bit then
    db ← cancel_settlement db i true;
    Ok (Some (db, a, max))
  else if head_block_time db <? settlement_date s then
    Ok ((fun a => (db, a, max)) <$> next_asset db a)
  else if is_null (settlement_price (current_feed bit)) then
    db ← cancel_settlement db i true;
    Ok (Some (db, a, max))
  else
    max ← (if (asset_id max =? a)%N then Ok max
           else
             dyn ← get_dynamic db mia;
             v ← max_force_settlement_volume bit (current_supply dyn);
             Ok (Asset v a));
    if amount max <=? force_settled_volume bit then
      Ok ((fun a => (db, a, max)) <$> next_asset db a)
    else
      db ← settle_order db a i s bi bit max;
      Ok (Some (db, a, max)).

Fixpoint settlements_loop (fuel : nat) db (a : N) (max : asset) : result database :=
  match settlements_from db a with
  | [] => Ok db
  | (i, s) :: _ =>
      match fuel with
      | O => Err out_of_fuel
      | S fuel =>
          r ← settlement_step db max i s;
          match r with
          | Some (db, a, max) => settlements_loop fuel db a max
          | None => Ok db
          end
      end
  end.

Definition clear_expired_settlements db : result database :=
  match settlements_from db 0 with
  | [] => Ok db
  | (_, s) :: _ =>
      settlements_loop (2 * S (size (objs (settlements db)))) db (asset_id (settle_balance s)) (Asset 0 CORE_ASSET)
  end.

Definition clear_expired_orders (value scale : Z) db : result database :=
  db ← clear_expired_limit_orders value scale db;
  clear_expired_settlements db.

(** ** Feeds *)

(** One asset of the walk.  The feed of an asset without one is about core. *)
Definition update_expired_feed db (i : N) : result database :=
  a ← tbl_get (assets db) i;
  '(bi, b) ← bitasset_data db a;
  let now := head_block_time db in
  db ← (if (if now <? HARDFORK_615_TIME then feed_is_expired_before_hardfork_615 b now else feed_is_expired b now) then
          b ← update_median_feeds b now;
          '(_, db) ← check_call_orders (put_bitasset db bi b) (asset_id (base (settlement_price (current_feed b)))) true;
          Ok db
        else Ok db);
  '(_, b) ← bitasset_data db a;
  let rate := core_exchange_rate (current_feed b) in
  if negb (is_null rate) && negb (price_eqb (opt_core_exchange_rate (options a)) rate) then
    Ok (db <| assets ::= fun t => tbl_modify t i (fun a =>
      a <| options ::= fun o => o <| opt_core_exchange_rate := rate |> |>) |>)
  else Ok db.

(** The market-issued assets in the order of the by_type index. *)
Definition market_issued_assets db : list N :=
  filter (fun i => Is_true (match objs (assets db) !! i with Some a => is_market_issued a | None => false end))
    (tbl_ids (assets db)).

Definition update_expired_feeds db : result database := foldM update_expired_feed db (market_issued_assets db).
End Clearing.

(** ** What trading leaves alone *)

(** What is left of an order is its seller's, and expires when it did. *)
Definition same_seller (o o' : option limit_order_object) : Prop :=
  match o' with
  | None => True
  | Some x' => match o with Some x => seller x' = seller x /\ expiration x' = expiration x | None => False end
  end.

(** The clock, the parameters, the assets and their feeds stay; orders and positions only
    disappear. *)
Record trades (db db' : database) : Prop := {
  trades_dgpo : dgpo db' = dgpo db;
  trades_assets : assets db' = assets db;
  trades_feeds i : current_feed <$> objs (bitassets db') !! i = current_feed <$> objs (bitassets db) !! i;
  trades_dynamic i : objs (dynamic_data db') !! i = None <-> objs (dynamic_data db) !! i = None;
  trades_limits i : objs (limit_orders db) !! i = None -> objs (limit_orders db') !! i = None;
  trades_sellers i : same_seller (objs (limit_orders db) !! i) (objs (limit_orders db') !! i);
  trades_calls i : objs (call_orders db) !! i = None -> objs (call_orders db') !! i = None;
  trades_settlements i : objs (settlements db) !! i = None -> objs (settlements db') !! i = None;
  trades_parameters : parameters db' = parameters db;
}.

Abbreviation trade db := (ends (trades db)).
Abbreviation trade2 db := (ends (fun p => trades db p.2)).

Lemma same_seller_refl o : same_seller o o.
Proof. by destruct o. Qed.

Lemma same_seller_trans o1 o2 o3 : same_seller o1 o2 -> same_seller o2 o3 -> same_seller o1 o3.
Proof. unfold same_seller. destruct o1, o2, o3; naive_solver congruence. Qed.

Lemma same_seller_alter o (m : gmap N limit_order_object) f i k :
  (forall x, seller (f x) = seller x /\ expiration (f x) = expiration x) -> same_seller o (m !! i) -> same_seller o (alter f k m !! i).
Proof.
  intros Hf. destruct (decide (i = k)) as [->|]; [|by rewrite lookup_alter_ne]. rewrite lookup_alter_eq.
  destruct (m !! k); [|done]. simpl. destruct o; [|done]. destruct (Hf l) as [-> ->]. done.
Qed.

Lemma same_seller_delete o (m : gmap N limit_order_object) i k :
  same_seller o (m !! i) -> same_seller o (delete k m !! i).
Proof.
  destruct (decide (i = k)) as [->|]; [by rewrite lookup_delete_eq|by rewrite lookup_delete_ne].
Qed.

Lemma same_seller_put (m m' : gmap N limit_order_object) i k o o' :
  m !! k = Some o -> seller o' = seller o -> expiration o' = expiration o -> (forall j, same_seller (m !! j) (m' !! j)) ->
  same_seller (m !! i) (alter (fun _ => o') k m' !! i).
Proof.
  intros Hk Ho He H. destruct (decide (i = k)) as [->|]; [|by rewrite lookup_alter_ne]. rewrite lookup_alter_eq.
  specialize (H k). destruct (m' !! k); [|done]. by rewrite Hk.
Qed.

#[export] Instance trades_preorder : PreOrder trades.
Proof.
  split; [intros db; split; try done; intros i; by destruct (objs (limit_orders db) !! i)|].
  intros db1 db2 db3 [] []. split; try congruence; auto; intros i; [|eauto using same_seller_trans]. by rewrite trades_dynamic1.
Qed.

Lemma alter_field `{Countable K} {A B} (g : A -> B) (f : A -> A) (m : gmap K A) i k :
  (forall x, g (f x) = g x) -> g <$> alter f k m !! i = g <$> m !! i.
Proof.
  intros Hf. destruct (decide (i = k)) as [->|]; [|by rewrite lookup_alter_ne].
  rewrite lookup_alter_eq. destruct (m !! k); simpl; by rewrite ?Hf.
Qed.

Ltac seller :=
  repeat first [apply same_seller_refl | by eapply same_seller_put | apply same_seller_delete | apply same_seller_alter; [done|]
    | match goal with H : forall i, same_seller _ (objs (limit_orders ?d) !! i) |- same_seller _ (objs (limit_orders ?d) !! ?i) =>
        eapply same_seller_trans; [|exact (H i)] end
    | match goal with E : limit_orders ?d = _ |- context [limit_orders ?d] => rewrite E end].

(** A trade made of others and of updates. *)
Ltac same_trade :=
  unfold put_statistics, put_dynamic, push_applied_operation, put_bitasset, freeze, clear_order_deflation in *;
  repeat match goal with H : trades _ _ |- _ => destruct H end;
  repeat match goal with |- trades _ ?d => match d with context [match ?x with _ => _ end] => destruct x end end;
  split; simpl in *; try congruence; intros; rewrite ?lookup_alter_None, ?lookup_delete_None;
    try (rewrite alter_field by done); try congruence; try by seller;
    repeat match goal with H : forall i, same_seller _ _ |- _ => clear H end; naive_solver.
Ltac trade := frame_with ltac:(idtac; same_trade).

Section Trades.
Context `{FC : FcLib, NE : NthElement}.
Implicit Types (db : database).

Lemma adjust_balance_trades db i x : trade db (adjust_balance db i x).
Proof. unfold adjust_balance. trade. Qed.
#[local] Hint Resolve adjust_balance_trades : frames.

Lemma pay_order_trades db i x y : trade db (pay_order db i x y).
Proof. unfold pay_order. trade. Qed.
#[local] Hint Resolve pay_order_trades : frames.

Lemma pay_market_fees_trades db a x : trade2 db (pay_market_fees db a x).
Proof. unfold pay_market_fees. trade. Qed.
#[local] Hint Resolve pay_market_fees_trades : frames.

Lemma cancel_settlement_trades db i (b : bool) : trade db (cancel_settlement db i b).
Proof. unfold cancel_settlement. trade. Qed.
#[local] Hint Resolve cancel_settlement_trades : frames.

Lemma cancel_deflation_trades db i o : trade2 db (cancel_deflation db i o).
Proof. unfold cancel_deflation. trade. Qed.
#[local] Hint Resolve cancel_deflation_trades : frames.

Lemma cancel_limit_order_trades db i (b : bool) : trade db (cancel_limit_order db i b).
Proof. unfold cancel_limit_order. trade. Qed.
#[local] Hint Resolve cancel_limit_order_trades : frames.

Lemma maybe_cull_small_order_trades db i : trade2 db (maybe_cull_small_order db i).
Proof. unfold maybe_cull_small_order. trade. Qed.
#[local] Hint Resolve maybe_cull_small_order_trades : frames.

Lemma pay_exchange_fee_trades db o x y z : trade2 db (pay_exchange_fee db o x y z).
Proof. unfold pay_exchange_fee. trade. Qed.
#[local] Hint Resolve pay_exchange_fee_trades : frames.

Lemma pay_deferred_fee_trades db o : trade db (pay_deferred_fee db o).
Proof. unfold pay_deferred_fee. trade. Qed.
#[local] Hint Resolve pay_deferred_fee_trades : frames.

Lemma fill_limit_order_trades db i x y (b : bool) : trade2 db (fill_limit_order db i x y b).
Proof.
  unfold fill_limit_order. apply ends_bind_eq. intros o Ho%of_option_Ok. trade.
Qed.
#[local] Hint Resolve fill_limit_order_trades : frames.

Lemma fill_call_order_trades db i x y : trade2 db (fill_call_order db i x y).
Proof. unfold fill_call_order. trade. Qed.
#[local] Hint Resolve fill_call_order_trades : frames.

Lemma fill_settlement_trades db i x y : trade2 db (fill_settlement db i x y).
Proof. unfold fill_settlement. trade. Qed.
#[local] Hint Resolve fill_settlement_trades : frames.

Lemma match_settlement_trades db i j x y : trade2 db (match_settlement db i j x y).
Proof. unfold match_settlement. trade. Qed.
#[local] Hint Resolve match_settlement_trades : frames.

Lemma close_call_trades db p st i : trades db st.2 -> trade2 db (close_call p st i).
Proof. destruct st. cbn [snd]. intros ?. unfold close_call. trade. Qed.

Lemma close_calls_trades db p g l : trade2 db (foldM (close_call p) (g, db) l).
Proof. apply (ends_foldM (fun p => trades db p.2)); [done|]. intros. by apply close_call_trades. Qed.
#[local] Hint Resolve close_calls_trades : frames.

Lemma globally_settle_asset_trades db a p : trade db (globally_settle_asset db a p).
Proof. unfold globally_settle_asset. trade. Qed.
#[local] Hint Resolve globally_settle_asset_trades : frames.

Lemma check_for_blackswan_trades db a (b : bool) : trade2 db (check_for_blackswan db a b).
Proof. unfold check_for_blackswan. trade. Qed.
#[local] Hint Resolve check_for_blackswan_trades : frames.

Lemma call_loop_trades fuel : forall db a (b : bool) p calls limits f m, trade2 db (call_loop fuel db a b p calls limits f m).
Proof. induction fuel as [|n IH]; intros; [by apply ends_Err|]. cbn [call_loop]. trade. Qed.
#[local] Hint Resolve call_loop_trades : frames.

Lemma check_call_orders_trades db a (b : bool) : trade2 db (check_call_orders db a b).
Proof. unfold check_call_orders. trade. Qed.
#[local] Hint Resolve check_call_orders_trades : frames.

Lemma match_limit_trades db i j p : trade2 db (match_limit db i j p).
Proof. unfold match_limit. trade. Qed.
#[local] Hint Resolve match_limit_trades : frames.

Lemma deflate_maker_trades db i : trade db (deflate_maker db i).
Proof. unfold deflate_maker. trade. Qed.
#[local] Hint Resolve deflate_maker_trades : frames.

Lemma match_loop_trades l : forall db i, trade db (match_loop db i l).
Proof. induction l as [|j l IH]; intros; cbn [match_loop]; [by apply ends_Ok|trade]. Qed.
#[local] Hint Resolve match_loop_trades : frames.

Lemma apply_order_trades db i (b : bool) : trade2 db (apply_order db i b).
Proof. unfold apply_order. trade. Qed.
#[local] Hint Resolve apply_order_trades : frames.

Lemma freeze_cut_trades db o : trade2 db (freeze_cut db o).
Proof. unfold freeze_cut. trade. Qed.
#[local] Hint Resolve freeze_cut_trades : frames.

Lemma convert_fee_trades ctx db st : trade db (convert_fee ctx db st).
Proof. unfold convert_fee. trade. Qed.
#[local] Hint Resolve convert_fee_trades : frames.

Lemma generic_pay_fee_trades ctx db a st : trade2 db (generic_pay_fee ctx db a st).
Proof. unfold generic_pay_fee. trade. Qed.
#[local] Hint Resolve generic_pay_fee_trades : frames.

Lemma cancel_order_trades db op : trade db (limit_order_cancel_do_apply db op).
Proof. unfold limit_order_cancel_do_apply. trade. Qed.

(** A cancelled order is gone, and no deflation of it is recorded any more. *)
Lemma cancel_limit_order_gone db i (b : bool) db' :
  cancel_limit_order db i b = Ok db' -> objs (limit_orders db') !! i = None.
Proof. unfold cancel_limit_order. cbv zeta. intros H. inv_results. destruct b; apply lookup_delete_eq. Qed.

Lemma limit_order_cancel_gone db op db' :
  limit_order_cancel_do_apply db op = Ok db' -> objs (limit_orders db') !! lx_order op = None.
Proof.
  unfold limit_order_cancel_do_apply. cbv zeta. intros H. inv_results.
  match goal with H : cancel_limit_order _ _ _ = _ |- _ => apply cancel_limit_order_gone in H end.
  repeat match goal with H : check_call_orders _ _ _ = _ |- _ => apply check_call_orders_trades in H as [] end.
  auto.
Qed.
End Trades.

(** ** Expired limit orders *)

(** The feed, if there is one, can be squeezed. *)
Definition sound_feed `{FC : FcLib} (f : price_feed) : Prop :=
  is_null (settlement_price f) = true \/
  pos_price (settlement_price f) /\
  asset_id (base (settlement_price f)) <> asset_id (quote (settlement_price f)) /\
  0 < maximum_short_squeeze_ratio f < 2 ^ 16.

Definition sound_feeds `{FC : FcLib} (db : database) : Prop :=
  forall i b, objs (bitassets db) !! i = Some b -> sound_feed (current_feed b).

Section LimitOrders.
Context `{FC : FcLib, !FcLaws FC, NE : NthElement}.
Implicit Types (db : database).

Lemma sound_feeds_trades db db' : trades db db' -> sound_feeds db -> sound_feeds db'.
Proof.
  intros [] H i b' Hb. specialize (trades_feeds0 i). rewrite Hb in trades_feeds0. simpl in trades_feeds0.
  destruct (objs (bitassets db) !! i) as [b|] eqn:E; [|done]. injection trades_feeds0 as ->. by eapply H.
Qed.

Lemma sound_check_terminates db a b : sound_feeds db -> terminates (check_call_orders db a b).
Proof.
  intros Hs. apply check_call_orders_terminate. intros ? ? bit _ _ Hb Hn.
  destruct (Hs _ _ Hb) as [?|(Hp & Hne & Hr)]; [congruence|].
  destruct (max_short_squeeze_price_ok (current_feed bit) Hp Hne Hr) as (p & -> & _). done.
Qed.

Lemma freeze_cut_terminates db o : terminates (freeze_cut db o).
Proof. unfold freeze_cut, account_cut. terminate. Qed.
#[local] Hint Resolve freeze_cut_terminates : fuel.

Lemma cancel_order_terminates db op : sound_feeds db -> terminates (limit_order_cancel_do_apply db op).
Proof.
  intros Hs. unfold limit_order_cancel_do_apply, limit_at. terminate.
  all: repeat match goal with
    | H : (if _ then freeze_cut _ _ else _) = Ok _ |- _ =>
        destruct (_ =? _)%N; [apply freeze_cut_trades in H|injection H as <- <-]
    | H : cancel_limit_order _ _ _ = Ok _ |- _ => apply cancel_limit_order_trades in H
    | H : check_call_orders _ _ _ = Ok _ |- _ => apply check_call_orders_trades in H
    end; apply sound_check_terminates; cbn [snd] in *; eauto using sound_feeds_trades.
Qed.

Lemma amount_to_receive_terminates o : terminates (amount_to_receive o).
Proof. unfold amount_to_receive. terminate. Qed.
Lemma match_amounts_terminates u c p : terminates (match_amounts u c p).
Proof. unfold match_amounts. terminate. Qed.
#[local] Hint Resolve amount_to_receive_terminates match_amounts_terminates fill_limit_order_terminates : fuel.

Lemma match_limit_terminates db i j p : terminates (match_limit db i j p).
Proof. unfold match_limit, limit_at. terminate. Qed.
Lemma deflate_maker_terminates db i : terminates (deflate_maker db i).
Proof. unfold deflate_maker, limit_at. terminate. Qed.
#[local] Hint Resolve match_limit_terminates deflate_maker_terminates : fuel.

Lemma match_loop_terminates l : forall db i, terminates (match_loop db i l).
Proof. induction l as [|j l IH]; intros; cbn [match_loop]; unfold limit_at; terminate. Qed.
#[local] Hint Resolve match_loop_terminates maybe_cull_small_order_terminates : fuel.

(** Matching a new order comes to an end. *)
Lemma apply_order_terminates db i (b : bool) : sound_feeds db -> terminates (apply_order db i b).
Proof.
  intros Hs. unfold apply_order, limit_at, tbl_get, price_max. terminate.
  all: repeat match goal with
    | H : check_call_orders _ _ _ = Ok _ |- _ => apply check_call_orders_trades in H
    | H : match_loop _ _ _ = Ok _ |- _ => apply match_loop_trades in H
    end; apply sound_check_terminates; cbn [snd] in *; eauto 10 using sound_feeds_trades.
Qed.

Lemma expired_cancel_fee_terminates value scale o :
  in_uint64 value -> 0 <= scale < 2 ^ 32 -> terminates (expired_cancel_fee value scale o).
Proof.
  intros Hv Hs. unfold expired_cancel_fee. rewrite calculate_fee_unit by done. terminate.
Qed.

#[local] Instance limit_sooner_total : Total limit_sooner.
Proof. intros [i x] [j y]. unfold limit_sooner; simpl. lia. Qed.
#[local] Instance limit_sooner_trans : Transitive limit_sooner.
Proof. intros [i x] [j y] [k z]. unfold limit_sooner; simpl. lia. Qed.

(** The order at the head of the index is the first to expire. *)
Lemma first_expiring_Some db i o :
  first_expiring db = Some (i, o) ->
  objs (limit_orders db) !! i = Some o /\
  forall j o', objs (limit_orders db) !! j = Some o' -> expiration o <= expiration o'.
Proof.
  unfold first_expiring. intros [Hi Hm]%(merge_sort_head limit_sooner). apply elem_of_map_to_list in Hi. split; [done|].
  intros j o' Hj%elem_of_map_to_list. specialize (Hm _ Hj). unfold limit_sooner in Hm. simpl in Hm. lia.
Qed.

Lemma cancel_first_expired_inv value scale db db' i o :
  first_expiring db = Some (i, o) -> cancel_first_expired value scale db = Ok db' ->
  trades db db' /\ objs (limit_orders db') !! i = None /\ drains db db' (fun _ => 0).
Proof.
  unfold cancel_first_expired. intros ->. intros (fee & _ & H)%bind_Ok.
  set (op := Limit_order_cancel_operation fee i (seller o)) in *. set (ctx := Evaluation_context _ _ _ _) in *.
  change (start_evaluate ctx db op = Ok db') in H. split_and!.
  3: { apply (start_evaluate_drains ctx db op db'); try done.
    apply bind_Ok in H as (st & H & _). unfold evaluate in H. apply bind_Ok in H as (st1 & H & _).
    apply prepare_fee_inv in H as (_ & _ & _ & Hf & _). apply guard_or_true, Z.leb_le. exact Hf. }
  all: unfold start_evaluate, apply in H; inv_results;
    match goal with H : do_apply ?d0 _ _ = Ok ?d |- _ => change (limit_order_cancel_do_apply d0 op = Ok d) in H;
      pose proof (limit_order_cancel_gone _ _ _ H) as Hg; apply cancel_order_trades in H as T1 end;
    match goal with H : adjust_balance _ _ _ = _ |- _ => apply adjust_balance_trades in H as T2 end.
  - match goal with H : convert_fee _ _ _ = _ |- _ => apply convert_fee_trades in H as T3 end.
    match goal with H : pay_fee _ _ _ _ = _ |- _ => apply generic_pay_fee_trades in H as T4 end.
    etrans; [exact T3|]. etrans; [exact T4|]. by etrans.
  - by apply T2.
Qed.

Lemma prepare_fee_terminates db a x : terminates (prepare_fee db a x).
Proof. unfold prepare_fee, get_statistics, get_dynamic, tbl_get. terminate. Qed.
Lemma convert_fee_terminates ctx db st : terminates (convert_fee ctx db st).
Proof. unfold convert_fee, get_dynamic, tbl_get. terminate. Qed.
Lemma generic_pay_fee_terminates ctx db a st : terminates (generic_pay_fee ctx db a st).
Proof. unfold generic_pay_fee, get_statistics. terminate. Qed.
#[local] Hint Resolve prepare_fee_terminates convert_fee_terminates generic_pay_fee_terminates : fuel.

Lemma cancel_first_expired_terminates value scale db :
  in_uint64 value -> 0 <= scale < 2 ^ 32 -> sound_feeds db -> terminates (cancel_first_expired value scale db).
Proof.
  intros Hv Hs Hf. unfold cancel_first_expired. destruct (first_expiring db) as [[i o]|]; [|done].
  apply terminates_bind; [by apply expired_cancel_fee_terminates|]. intros fee _. cbn [apply_operation].
  unfold start_evaluate, evaluate, apply. cbn -[convert_fee generic_pay_fee prepare_fee adjust_balance asset_neg].
  unfold limit_order_cancel_do_evaluate, tbl_get. terminate.
  apply cancel_order_terminates.
  repeat match goal with
  | H : convert_fee _ _ _ = _ |- _ => apply convert_fee_trades in H
  | H : generic_pay_fee _ _ _ _ = _ |- _ => apply generic_pay_fee_trades in H
  end. cbn [snd] in *. eauto using sound_feeds_trades.
Qed.

Lemma clear_limits_terminates value scale db :
  in_uint64 value -> 0 <= scale < 2 ^ 32 -> sound_feeds db -> terminates (clear_expired_limit_orders value scale db).
Proof.
  intros Hv Hs Hf. apply (while_fuel _ _ sound_feeds (fun d => size (objs (limit_orders d)))); [| |done|lia].
  - intros d d' Hd Hc H. unfold limit_expired in Hc. destruct (first_expiring d) as [[i o]|] eqn:E; [|done].
    destruct (cancel_first_expired_inv _ _ _ _ _ _ E H) as (T & Hg & _). apply first_expiring_Some in E as [Hi _].
    split; [by eapply sound_feeds_trades|]. eapply map_size_fewer; [apply T|eauto|done].
  - intros d Hd. by apply cancel_first_expired_terminates.
Qed.

Lemma clear_limits_inv value scale db db' :
  clear_expired_limit_orders value scale db = Ok db' ->
  trades db db' /\ drains db db' (fun _ => 0) /\
  forall i o, objs (limit_orders db') !! i = Some o -> head_block_time db' < expiration o.
Proof.
  intros H. apply (while_inv _ _ (fun d => trades db d /\ drains db d (fun _ => 0))) in H as [[T D] E].
  - split_and!; [done..|]. intros i o Hi. unfold limit_expired in E.
    destruct (first_expiring db') as [[j o']|] eqn:Hf.
    + apply first_expiring_Some in Hf as [_ Hm]. specialize (Hm _ _ Hi). bool_to_prop. lia.
    + unfold first_expiring in Hf. apply (merge_sort_head_None limit_sooner), map_to_list_empty_iff in Hf.
      by rewrite Hf in Hi.
  - intros d d' [T D] Hc H1. unfold limit_expired in Hc. destruct (first_expiring d) as [[i o]|] eqn:E; [|done].
    destruct (cancel_first_expired_inv _ _ _ _ _ _ E H1) as (T' & _ & D'). split; [by etrans|].
    eapply drains_eq; [by eapply drains_step|done].
  - split; [done|apply drains_refl].
Qed.
End LimitOrders.

(** ** Force settlements *)

Section Settlements.
Context `{FC : FcLib, !FcLaws FC, NE : NthElement}.
Implicit Types (db : database).

(** Market fees go to the dynamic data of the asset, not to its supply. *)
Lemma pay_market_fees_frame db r x fee db' :
  pay_market_fees db r x = Ok (fee, db') ->
  db' = db <| dynamic_data := dynamic_data db' |> /\ (wf_assets db -> forall a, supply db' a = supply db a).
Proof.
  unfold pay_market_fees, get_dynamic. intros H. inv_result. destruct (0 <? _) in H; inv_result; [|by destruct db'].
  split; [by destruct db|]. intros W a. inv_get.
  match goal with H : objs (assets db) !! _ = Some ?ao, H' : objs (dynamic_data db) !! _ = Some ?d |- _ =>
    rewrite (put_dynamic_supply db _ _ _ _ W H H') end.
  cbn. rewrite Z.sub_diag, amount_in_0. lia.
Qed.

Lemma fill_settlement_inv db i pays receives r db' s :
  fill_settlement db i pays receives = Ok (r, db') -> objs (settlements db) !! i = Some s ->
  (forall j, objs (settlements db') !! j =
     if decide (j = i) then
       if amount pays <? amount (settle_balance s)
       then Some (s <| settle_balance := Asset (amount (settle_balance s) - amount pays) (asset_id pays) |>) else None
     else objs (settlements db) !! j) /\
  bitassets db' = bitassets db /\ call_orders db' = call_orders db /\
  (wf_assets db -> forall a, supply db' a = supply db a).
Proof.
  intros H Hs. unfold fill_settlement, settlement_at in H. rewrite Hs in H. cbn [of_option mbind result_bind] in H.
  cbv zeta in H. inv_results.
  match goal with H : pay_market_fees _ _ _ = _ |- _ => apply pay_market_fees_frame in H as (E1 & Hsup) end.
  match goal with H : asset_ltb _ _ = _ |- _ => apply asset_ltb_inv in H as [Hid ->] end.
  match goal with H : adjust_balance _ _ _ = _ |- _ => apply adjust_balance_inv in H as (bs & -> & _) end.
  assert (Hset : settlements d = settlements db) by by rewrite E1.
  assert (Hw : wf_assets db -> forall a b, supply (d <| balances := b |>) a = supply db a) by (intros; by apply Hsup).
  destruct (amount pays <? _); inv_results.
  - match goal with H : asset_sub (settle_balance _) _ = Ok ?b |- _ => apply asset_sub_inv in H as [-> _] end.
    split_and!; [|by rewrite E1..|done].
    intros j. cbn. rewrite Hset. case_decide as Hj; [subst j|by rewrite lookup_alter_ne].
    rewrite lookup_alter_eq, Hs. simpl. by rewrite Hid.
  - split_and!; [|by rewrite E1..|done].
    intros j. cbn. rewrite Hset. case_decide as Hj; [subst j; apply lookup_delete_eq|by rewrite lookup_delete_ne].
Qed.

(** What a match of a settlement changes. *)
Lemma match_settlement_inv db call i p m x db' :
  match_settlement db call i p m = Ok (x, db') ->
  exists c s, objs (call_orders db) !! call = Some c /\ objs (settlements db) !! i = Some s /\
    0 < amount (settle_balance s) /\ 0 < debt c /\
    asset_id x = asset_id m /\ asset_id m = asset_id (settle_balance s) /\
    amount x = Z.min (Z.min (amount (settle_balance s)) (amount m)) (debt c) /\
    (amount x = debt c -> objs (call_orders db') !! call = None) /\
    (forall j, objs (settlements db') !! j =
       if decide (j = i) then
         if amount x <? amount (settle_balance s)
         then Some (s <| settle_balance := Asset (amount (settle_balance s) - amount x) (asset_id m) |>) else None
       else objs (settlements db) !! j) /\
    bitassets db' = bitassets db /\ trades db db' /\
    (wf_assets db -> forall a, supply db' a = supply db a - amount_in a x).
Proof.
  intros H. apply match_settlement_trades in H as T. unfold match_settlement, call_at, settlement_at in H. inv_results.
  match goal with H : asset_min (settle_balance ?s) m = _, H' : asset_min _ (get_debt ?c) = _ |- _ =>
    apply asset_min_inv in H as (_ & I1 & I2 & M1); apply asset_min_inv in H' as (_ & I3 & _ & M2);
    exists c, s end. bool_to_prop.
  match goal with H : fill_call_order _ _ _ _ = _ |- _ =>
    apply fill_call_order_moves in H as (_ & A1 & B1 & _ & S1 & _ & Sup1 & c' & Hc & -> & _ & Hcalls) end.
  match goal with H : fill_settlement _ _ _ _ = _ |- _ =>
    eapply fill_settlement_inv in H as (Hs & B2 & C2 & Sup2); [|by rewrite S1] end.
  simplify_eq. split_and!; try done.
  - congruence.
  - unfold get_debt in M2. cbn in M2. lia.
  - intros E. rewrite C2, Hcalls, E, Z.sub_diag. apply lookup_delete_eq.
  - intros j. rewrite Hs. case_decide; [|by rewrite S1]. by replace (asset_id x) with (asset_id m) by congruence.
  - congruence.
  - intros W y. rewrite Sup2, Sup1; [done|done|]. destruct W. split; rewrite ?A1; eauto.
Qed.

Lemma cancel_settlement_inv db i b db' :
  cancel_settlement db i b = Ok db' ->
  settlements db' = tbl_remove (settlements db) i /\ bitassets db' = bitassets db /\
  forall a, supply db' a = supply db a.
Proof.
  unfold cancel_settlement. cbv zeta. intros H. inv_result.
  match goal with H : adjust_balance _ _ _ = _ |- _ => apply adjust_balance_inv in H as (? & -> & _) end.
  by destruct b.
Qed.

(** What settling the order [i] of the asset [mia] by [x] changes. *)
Record settles (mia i : N) (x : Z) db db' : Prop := {
  settles_trades : trades db db';
  settles_bitassets : bitassets db' = bitassets db;
  settles_other j : j <> i -> objs (settlements db') !! j = objs (settlements db) !! j;
  settles_asset s s' : objs (settlements db) !! i = Some s -> objs (settlements db') !! i = Some s' ->
    asset_id (settle_balance s') = asset_id (settle_balance s);
  settles_moves : moves db db' (fun _ => 0);
  settles_supply : wf_assets db -> forall a, supply db' a = supply db a - amount_in a (Asset x mia);
}.

Lemma settles_refl mia i db : settles mia i 0 db db.
Proof.
  split; try done; [naive_solver|apply moves_refl|]. intros _ a. rewrite amount_in_0. lia.
Qed.

Lemma settles_trans mia i x y db1 db2 db3 :
  settles mia i x db1 db2 -> settles mia i y db2 db3 -> settles mia i (x + y) db1 db3.
Proof.
  intros [T1 B1 O1 A1 M1 S1] [T2 B2 O2 A2 M2 S2]. split; [by etrans|congruence|..].
  - intros j Hj. by rewrite O2, O1.
  - intros s s' Hs Hs'. destruct (objs (settlements db2) !! i) as [s2|] eqn:E.
    + by rewrite (A2 s2 s'), (A1 s s2).
    + apply (trades_settlements _ _ T2) in E. congruence.
  - eapply moves_eq; [by eapply moves_step|done].
  - intros W a. rewrite S2, S1; [|done|destruct W; split; rewrite ?(trades_assets _ _ T1); eauto].
    rewrite amount_in_add. lia.
Qed.

Lemma match_settles db call i p m x db' :
  match_settlement db call i p m = Ok (x, db') -> settles (asset_id m) i (amount x) db db'.
Proof.
  intros H. pose proof (match_settlement_moves _ _ _ _ _ _ _ H) as M.
  apply match_settlement_inv in H as (c & s & Hc & Hs & _ & _ & Ix & Im & _ & _ & Hset & B & T & Sup).
  split; try done.
  - intros j Hj. by rewrite Hset, decide_False.
  - intros s1 s2 H1. rewrite Hset, decide_True by done. simplify_eq. destruct (_ <? _); [|done].
    by intros [= <-].
  - intros W a. rewrite Sup by done. by rewrite <-Ix; destruct x.
Qed.

Lemma cancel_settles db mia i b db' : cancel_settlement db i b = Ok db' -> settles mia i 0 db db'.
Proof.
  intros H. pose proof (cancel_settlement_moves _ _ _ _ H) as M. pose proof (cancel_settlement_trades _ _ _ _ H) as T.
  apply cancel_settlement_inv in H as (E & B & Sup). split; try done.
  - intros j Hj. rewrite E. by apply lookup_delete_ne.
  - intros s s' _. rewrite E. cbn. by rewrite lookup_delete_eq.
  - intros _ a. rewrite amount_in_0, Sup. lia.
Qed.

Lemma cancel_settlement_gone db i b db' : cancel_settlement db i b = Ok db' -> objs (settlements db') !! i = None.
Proof. intros (E & _)%cancel_settlement_inv. rewrite E. apply lookup_delete_eq. Qed.

(** The inner loop settles up to the limit or until the order is gone. *)
Lemma settle_loop_inv n : forall db mia i p max settled db' settled',
  settle_loop n db mia i p max settled = Ok (settled', db') ->
  asset_id settled = mia -> asset_id max = mia ->
  asset_id settled' = mia /\ amount settled <= amount settled' <= Z.max (amount settled) (amount max) /\
  settles mia i (amount settled' - amount settled) db db' /\
  (objs (settlements db') !! i = None \/ amount max <= amount settled').
Proof.
  assert (Hstop : forall db mia i (settled : asset), settles mia i (amount settled - amount settled) db db)
    by (intros; rewrite Z.sub_diag; apply settles_refl).
  induction n as [|n IH]; intros db mia i p max settled db' settled' H Is Im; cbn [settle_loop] in H;
    apply bind_Ok in H as (lt & Hlt & H); apply asset_ltb_inv in Hlt as [_ ->];
    (destruct (_ && _) eqn:Hc; [|injection H as <- <-; split_and!; try done; try lia;
       apply andb_false_iff in Hc as [?%Z.ltb_ge|Hc]; [by right|left; by destruct (_ !! i)]]); [done|].
  apply andb_true_iff in Hc as [Hlt%Z.ltb_lt _].
  apply bind_Ok in H as (call & _ & H). apply bind_Ok in H as (m & Hm & H). apply bind_Ok in H as (s & Hs & H).
  apply asset_sub_inv in Hm as [-> _].
  assert (Hcancel : (db0 ← cancel_settlement db i true; Ok (settled, db0)) = Ok (settled', db') ->
    asset_id settled' = mia /\ amount settled <= amount settled' <= Z.max (amount settled) (amount max) /\
    settles mia i (amount settled' - amount settled) db db' /\
    (objs (settlements db') !! i = None \/ amount max <= amount settled')).
  { intros (d & Hd & [= <- <-])%bind_Ok. split_and!; [done|lia|lia| |left; by eapply cancel_settlement_gone].
    rewrite Z.sub_diag. by eapply cancel_settles. }
  destruct (_ =? 0); [by apply Hcancel|].
  destruct (match_settlement _ _ _ _ _) as [[x d]|e] eqn:Hmatch; [|case_decide; [by apply Hcancel|done]].
  apply bind_Ok in H as (settled1 & Hadd & H).
  assert (settled1 = Asset (amount settled + amount x) mia) as -> by (unfold asset_add in Hadd; inv_result; by inv_safe).
  pose proof (match_settles _ _ _ _ _ _ _ Hmatch) as S1. cbn in S1. rewrite Im in S1.
  apply match_settlement_inv in Hmatch as (c & s' & _ & _ & P1 & P2 & _ & _ & Ex & _). cbn in Ex.
  apply IH in H as (I' & B' & S2 & G); [|done..]. cbn [amount] in *. split_and!; [done|lia|lia| |done].
  replace (amount settled' - amount settled) with (amount x + (amount settled' - (amount settled + amount x))) by lia.
  by eapply settles_trans.
Qed.

Lemma position_to_call_terminates db mia : terminates (position_to_call db mia).
Proof. unfold position_to_call, bitasset_data, tbl_get, call_at. terminate. Qed.
Lemma cancel_settlement_terminates db i b : terminates (cancel_settlement db i b).
Proof. unfold cancel_settlement, settlement_at. terminate. Qed.
Lemma fill_settlement_terminates db i x y : terminates (fill_settlement db i x y).
Proof. unfold fill_settlement, settlement_at. terminate. Qed.
#[local] Hint Resolve fill_settlement_terminates : fuel.
Lemma match_settlement_terminates db call i p m : terminates (match_settlement db call i p m).
Proof. unfold match_settlement, call_at, settlement_at. terminate. Qed.
#[local] Hint Resolve position_to_call_terminates cancel_settlement_terminates : fuel.

(** Each round uses up a position, the order or the limit. *)
Lemma settle_loop_terminates n : forall db mia i p max settled,
  (size (objs (call_orders db)) < n)%nat -> terminates (settle_loop n db mia i p max settled).
Proof.
  induction n as [|n IH]; intros db mia i p max settled Hn; [lia|]. cbn [settle_loop].
  apply terminates_bind; [apply asset_ltb_terminates|]. intros lt Hlt. apply asset_ltb_inv in Hlt as [Imax ->].
  destruct (_ && _); [|done]. apply terminates_bind; [terminate|]. intros call _.
  apply terminates_bind; [terminate|]. intros m Hm. apply asset_sub_inv in Hm as [-> _].
  apply terminates_bind; [unfold settlement_at; terminate|]. intros s Hs. destruct (_ =? 0); [terminate|].
  pose proof (match_settlement_terminates db call i p (Asset (amount max - amount settled) (asset_id max))) as Ht.
  destruct (match_settlement _ _ _ _ _) as [[x d]|e] eqn:Hmatch; [|case_decide; [terminate|congruence]].
  apply terminates_bind; [terminate|]. intros settled1 Hadd.
  assert (amount settled1 = amount settled + amount x) as E1 by (unfold asset_add in Hadd; inv_result; by inv_safe).
  apply match_settlement_inv in Hmatch as (c & s' & Hc & Hs' & P1 & P2 & _ & _ & Ex & Hcall & Hset & _ & T & _).
  cbn in Ex. assert (s' = s) as -> by (unfold settlement_at in Hs; rewrite Hs' in Hs; by injection Hs).
  assert (Hstop : forall k, amount max <= amount settled1 \/ objs (settlements d) !! i = None ->
    terminates (settle_loop k d mia i p max settled1)).
  { intros k Hk. destruct k; cbn [settle_loop]; (apply terminates_bind; [apply asset_ltb_terminates|]);
      intros lt Hlt; apply asset_ltb_inv in Hlt as [_ ->];
      (destruct (Z.ltb_spec (amount settled1) (amount max)); [|done]); (destruct Hk as [?| ->]; [lia|done]). }
  destruct (Z.le_gt_cases (amount max) (amount settled1)); [auto|].
  destruct (Z.le_gt_cases (amount (settle_balance s)) (amount x)).
  { apply Hstop. right. rewrite Hset, decide_True by done. by rewrite (proj2 (Z.ltb_ge _ _)) by done. }
  apply IH. apply Nat.lt_le_trans with (size (objs (call_orders db))); [|lia].
  eapply map_size_fewer; [apply T|eauto|]. apply Hcall. lia.
Qed.

(** The volume settled is bookkeeping only. *)
Lemma set_volume_moves db bi v :
  moves db (db <| bitassets ::= fun t => tbl_modify t bi (fun b => b <| force_settled_volume := v |>) |>) (fun _ => 0).
Proof.
  intros W. revert W. set (db' := db <| bitassets ::= _ |>).
  enough (wf_db db -> moves db db' (fun _ => 0)) as H by exact (fun W => H W W). intros W. unfold db'. clear db'.
  destruct (objs (bitassets db) !! bi) as [b|] eqn:Hb.
  - eapply moves_eq; [apply (put_fund_moves db bi b (fun b => b <| force_settled_volume := v |>) Hb); [done|]|].
    + by intros ?%(wf_db_funds _ W bi b Hb).
    + intros a. cbn. by rewrite Z.sub_diag, amount_in_0.
  - apply moves_same; try done. cbn. destruct (bitassets db) as [m n]. cbn in *. unfold tbl_modify. cbn. f_equal.
    apply map_eq. intros j. rewrite lookup_alter. case_decide; subst; by rewrite ?Hb.
Qed.

(** Settling an order that is due. *)
Lemma settle_order_inv db mia i s bi bit max db' :
  settle_order db mia i s bi bit max = Ok db' -> objs (bitassets db) !! bi = Some bit -> asset_id max = mia ->
  force_settled_volume bit < amount max ->
  exists d v, settles mia i (v - force_settled_volume bit) db d /\ force_settled_volume bit <= v <= amount max /\
    (objs (settlements d) !! i = None \/ v = amount max) /\
    db' = d <| bitassets ::= fun t => tbl_modify t bi (fun b => b <| force_settled_volume := v |>) |>.
Proof.
  unfold settle_order. intros H Hb Im Hlt. apply bind_Ok in H as (r & _ & H). apply bind_Ok in H as (p & _ & H).
  apply bind_Ok in H as ([settled d] & H & [= <-]).
  apply settle_loop_inv in H as (_ & B & S & G); [|done..]. cbn [amount] in *.
  exists d, (amount settled). split_and!; [done|lia|lia| |done]. destruct G; [by left|right; lia].
Qed.

Lemma settlement_receives_terminates bit x : terminates (settlement_receives bit x).
Proof. unfold settlement_receives. terminate. Qed.
Lemma settle_order_terminates db mia i s bi bit max : terminates (settle_order db mia i s bi bit max).
Proof.
  unfold settle_order. apply terminates_bind; [apply settlement_receives_terminates|]. intros r _.
  apply terminates_bind; [terminate|]. intros p _. apply terminates_bind; [|intros [] _; done].
  apply settle_loop_terminates. lia.
Qed.

(** *** The outer loop *)

Definition volumeless (b : asset_bitasset_data_object) := b <| force_settled_volume := 0 |>.

(** Not due, and the asset is not globally settled. *)
Definition patient db (s : force_settlement_object) : Prop :=
  head_block_time db < settlement_date s /\
  forall a bi b, objs (assets db) !! asset_id (settle_balance s) = Some a -> bitasset_data_id a = Some bi ->
    objs (bitassets db) !! bi = Some b -> has_settlement b = false.

(** What clearing settlements changes. *)
Record cleared db db' : Prop := {
  cleared_trades : trades db db';
  cleared_moves : moves db db' (fun _ => 0);
  cleared_bitassets bi : volumeless <$> objs (bitassets db') !! bi = volumeless <$> objs (bitassets db) !! bi;
  cleared_assets j s s' : objs (settlements db) !! j = Some s -> objs (settlements db') !! j = Some s' ->
    asset_id (settle_balance s') = asset_id (settle_balance s);
  cleared_patient j s : objs (settlements db) !! j = Some s -> patient db s -> objs (settlements db') !! j = Some s;
}.

Lemma patient_cleared db db' s : cleared db db' -> patient db s -> patient db' s.
Proof.
  intros [[D A _ _ _ _] _ B _ _] [Ht Hp]. split; [unfold head_block_time in *; by rewrite D|].
  intros a bi b'. rewrite A. intros Ha Hbi Hb. specialize (B bi). rewrite Hb in B. cbn in B.
  destruct (objs (bitassets db) !! bi) as [b|] eqn:Eb; [|done]. apply (inj Some) in B.
  rewrite (f_equal has_settlement B : has_settlement b' = has_settlement b). exact (Hp a bi b Ha Hbi Eb).
Qed.

#[local] Instance cleared_preorder : PreOrder cleared.
Proof.
  split.
  - intros db. split; try done; [apply moves_refl|naive_solver].
  - intros db1 db2 db3 H12 H23. pose proof (fun s => patient_cleared db1 db2 s H12) as Hp.
    destruct H12 as [T1 M1 B1 A1 P1], H23 as [T2 M2 B2 A2 P2]. split.
    + by etrans.
    + eapply moves_eq; [by eapply moves_step|done].
    + intros bi. by rewrite B2, B1.
    + intros j s s' Hs Hs'. destruct (objs (settlements db2) !! j) as [s2|] eqn:E.
      * by rewrite (A2 j s2 s'), (A1 j s s2).
      * apply (trades_settlements _ _ T2) in E. congruence.
    + intros j s Hs Hpat. apply P2; [by apply P1|by apply Hp].
Qed.

(** Settling or cancelling an order that is not patient. *)
Lemma settles_cleared db db' mia i x s :
  settles mia i x db db' -> objs (settlements db) !! i = Some s -> ~ patient db s -> cleared db db'.
Proof.
  intros [T B O A M _] Hs Hp. split; try done.
  - by rewrite B.
  - intros j s1 s2 H1. destruct (decide (j = i)) as [->|Hj]; [by apply A|]. rewrite (O j Hj), H1. by intros [= ->].
  - intros j s1 H1 Hp1. destruct (decide (j = i)) as [->|Hj]; [by simplify_eq|]. by rewrite O.
Qed.

Lemma set_volume_cleared db bi v :
  cleared db (db <| bitassets ::= fun t => tbl_modify t bi (fun b => b <| force_settled_volume := v |>) |>).
Proof.
  split; [split; try done|apply set_volume_moves|..|].
  - intros i. cbn. by rewrite alter_field.
  - intros i. apply same_seller_refl.
  - intros i. cbn. by rewrite alter_field.
  - naive_solver.
  - done.
Qed.

#[local] Instance settles_before_total : Total settles_before.
Proof. intros [i x] [j y]. unfold settles_before, settlement_before; simpl. lia. Qed.
#[local] Instance settles_before_trans : Transitive settles_before.
Proof. intros [i x] [j y] [k z]. unfold settles_before, settlement_before; simpl. lia. Qed.

(** The order at [lower_bound( a )]. *)
Lemma settlements_from_elem db a i s :
  (i, s) ∈ settlements_from db a <-> objs (settlements db) !! i = Some s /\ (a <= asset_id (settle_balance s))%N.
Proof.
  unfold settlements_from. rewrite merge_sort_Permutation, list_elem_of_filter, elem_of_map_to_list. naive_solver.
Qed.

Lemma settlements_from_head db a i s l :
  settlements_from db a = (i, s) :: l ->
  objs (settlements db) !! i = Some s /\ (a <= asset_id (settle_balance s))%N /\
  forall j s', objs (settlements db) !! j = Some s' -> (a <= asset_id (settle_balance s'))%N ->
    (asset_id (settle_balance s) <= asset_id (settle_balance s'))%N.
Proof.
  intros E. assert (Hh : head (settlements_from db a) = Some (i, s)) by by rewrite E.
  apply (merge_sort_head settles_before) in Hh as [_ Hm].
  assert (He : (i, s) ∈ settlements_from db a) by (rewrite E; apply list_elem_of_here).
  apply settlements_from_elem in He as [Hi Ha]. split_and!; [done..|]. intros j s' Hj Ha'.
  assert (Hj' : (j, s') ∈ filter (fun x => (a <= asset_id (settle_balance x.2))%N) (map_to_list (objs (settlements db))))
    by by apply list_elem_of_filter; split; [|apply elem_of_map_to_list].
  specialize (Hm _ Hj'). unfold settles_before in Hm. simpl in Hm. lia.
Qed.

Lemma next_asset_Some db a a' :
  next_asset db a = Some a' -> (a < a')%N.
Proof.
  unfold next_asset. destruct (settlements_from db (N.succ a)) as [|[i s] l] eqn:E; [done|]. intros [= <-].
  apply settlements_from_head in E as (_ & H & _). lia.
Qed.

(** How an iteration gets on: the order is gone, the walk moves to another asset,
    or the asset has reached its limit. *)
Lemma settlement_step_inv db max i s r :
  settlement_step db max i s = Ok r -> objs (settlements db) !! i = Some s ->
  match r with
  | None => True
  | Some (db', a', max') =>
      cleared db db' /\
      (objs (settlements db') !! i = None /\ a' = asset_id (settle_balance s)
       \/ db' = db /\ (asset_id (settle_balance s) < a')%N
       \/ a' = asset_id (settle_balance s) /\ asset_id max' = a' /\ is_Some (objs (settlements db') !! i) /\
          (exists a bi b, objs (assets db) !! a' = Some a /\ bitasset_data_id a = Some bi /\
             objs (bitassets db) !! bi = Some b /\ (asset_id max = a' -> force_settled_volume b < amount max)) /\
          exists a bi b, objs (assets db') !! a' = Some a /\ bitasset_data_id a = Some bi /\
            objs (bitassets db') !! bi = Some b /\ amount max' <= force_settled_volume b)
  end.
Proof.
  unfold settlement_step, bitasset_data. cbv zeta. intros H Hs. set (a := asset_id (settle_balance s)) in *.
  apply bind_Ok in H as (mia & Ha & H). apply bind_Ok in H as ([bi bit] & Hbit & H).
  apply bind_Ok in Hbit as (bi' & Hbi & Hbit). apply bind_Ok in Hbit as (b' & Hb & [= -> ->]).
  apply of_option_Ok in Hbi. inv_get.
  assert (Hp : has_settlement bit = true \/ settlement_date s <= head_block_time db -> ~ patient db s).
  { intros Hor [Ht Hn]. specialize (Hn _ _ _ Ha Hbi Hb). destruct Hor; [congruence|lia]. }
  assert (Hcancel : forall r, has_settlement bit = true \/ settlement_date s <= head_block_time db ->
    (db0 ← cancel_settlement db i true; Ok (Some (db0, a, max))) = Ok r ->
    exists d, r = Some (d, a, max) /\ cleared db d /\ objs (settlements d) !! i = None).
  { intros r' Hor (d & Hd & [= <-])%bind_Ok. exists d. split_and!; [done| |by eapply cancel_settlement_gone].
    eapply settles_cleared; [by eapply (cancel_settles _ a)|done|by apply Hp]. }
  destruct (has_settlement bit) eqn:Hset.
  { destruct (Hcancel _ (or_introl eq_refl) H) as (d & -> & C & G). split; [done|by left]. }
  destruct (Z.ltb_spec (head_block_time db) (settlement_date s)) as [Ht|Ht].
  { injection H as <-. destruct (next_asset db a) as [a'|] eqn:En; [|done]. apply next_asset_Some in En.
    split; [done|]. right. by left. }
  destruct (is_null _).
  { destruct (Hcancel _ (or_intror Ht) H) as (d & -> & C & G). split; [done|by left]. }
  apply bind_Ok in H as (max' & Hmax & H).
  assert (Im : asset_id max' = a /\ (asset_id max = a -> max' = max)).
  { destruct (N.eqb_spec (asset_id max) a) as [E|E]; [by injection Hmax as <-|].
    apply bind_Ok in Hmax as (dyn & _ & Hmax). apply bind_Ok in Hmax as (v & _ & [= <-]). done. }
  destruct Im as [Im Esame]. destruct (Z.leb_spec (amount max') (force_settled_volume bit)) as [Hle|Hlt].
  { injection H as <-. destruct (next_asset db a) as [a'|] eqn:En; [|done]. apply next_asset_Some in En.
    split; [done|]. right. by left. }
  apply bind_Ok in H as (d & Hd & [= <-]).
  apply settle_order_inv in Hd as (d0 & v & S & Hv & G & ->); [|done..].
  assert (C : cleared db d0) by (eapply settles_cleared; [exact S|done|by apply Hp; right]).
  split; [etrans; [exact C|apply set_volume_cleared]|].
  destruct (objs (settlements d0) !! i) as [s0|] eqn:Es; [|by left]. destruct G as [?| ->]; [done|]. right. right.
  split_and!; [done|done|by exists s0| |].
  - exists mia, bi, bit. split_and!; [done..|]. intros ->%Esame. done.
  - exists mia, bi, (bit <| force_settled_volume := amount max' |>). cbn.
    rewrite (trades_assets _ _ (settles_trades _ _ _ _ _ S)), (settles_bitassets _ _ _ _ _ S), lookup_alter_eq, Hb.
    split_and!; done || lia.
Qed.

(** The orders from the asset [a] on, which every iteration but one uses up. *)
Definition orders_from db (a : N) : gmap N force_settlement_object :=
  filter (fun x => (a <= asset_id (settle_balance x.2))%N) (objs (settlements db)).

Lemma orders_from_None db db' a a' j :
  cleared db db' -> (a <= a')%N -> orders_from db a !! j = None -> orders_from db' a' !! j = None.
Proof.
  unfold orders_from. intros C Ha. rewrite !map_lookup_filter_None. intros H. right. intros s' Hs' Hle. cbn in Hle.
  destruct (objs (settlements db) !! j) as [s|] eqn:Es.
  - destruct H as [H|H]; [done|]. apply (H s eq_refl). cbn. rewrite <-(cleared_assets _ _ C _ _ _ Es Hs'). lia.
  - apply (trades_settlements _ _ (cleared_trades _ _ C)) in Es. congruence.
Qed.

Lemma orders_from_fewer db db' a a' i s :
  cleared db db' -> (a <= a')%N -> objs (settlements db) !! i = Some s -> (a <= asset_id (settle_balance s))%N ->
  objs (settlements db') !! i = None \/ (asset_id (settle_balance s) < a')%N ->
  (size (orders_from db' a') < size (orders_from db a))%nat.
Proof.
  intros C Ha Hs Hle Hor. apply (map_size_fewer _ _ i); [intros j; by apply orders_from_None|..].
  - exists s. by apply map_lookup_filter_Some.
  - apply map_lookup_filter_None. destruct Hor as [?|Hlt]; [by left|right]. intros s' Hs'. cbn.
    rewrite (cleared_assets _ _ C _ _ _ Hs Hs'). lia.
Qed.

(** The asset at the head has reached its limit. *)
Definition stuck db (a : N) (max : asset) : Prop :=
  match settlements_from db a with
  | [] => False
  | (_, s) :: _ => asset_id max = asset_id (settle_balance s) /\
      forall ao bi b, objs (assets db) !! asset_id (settle_balance s) = Some ao -> bitasset_data_id ao = Some bi ->
        objs (bitassets db) !! bi = Some b -> amount max <= force_settled_volume b
  end.

Lemma settlement_step_terminates db max i s : terminates (settlement_step db max i s).
Proof.
  unfold settlement_step, bitasset_data, tbl_get. cbv zeta.
  assert (Hc : forall A (f : database -> A), terminates (d ← cancel_settlement db i true; Ok (f d)))
    by (intros; apply terminates_bind; [apply cancel_settlement_terminates|done]).
  assert (Hd : forall a, terminates (get_dynamic db a)) by (intros; unfold get_dynamic, tbl_get; terminate).
  assert (Hm : forall b x, terminates (max_force_settlement_volume b x))
    by (intros; unfold max_force_settlement_volume; terminate).
  terminate; try apply Hc; try apply settle_order_terminates.
Qed.

(** An iteration removes the order, moves on, or reaches the limit of the asset;
    the last happens at most once in a row. *)
Lemma settlements_loop_terminates n : forall db a max,
  (2 * size (orders_from db a) < n \/ 2 * size (orders_from db a) <= n /\ stuck db a max)%nat ->
  terminates (settlements_loop n db a max).
Proof.
  induction n as [|n IH]; intros db a max Hn; cbn [settlements_loop];
    destruct (settlements_from db a) as [|[i s] l] eqn:E; try done;
    destruct (settlements_from_head _ _ _ _ _ E) as (Hs & Ha & _);
    pose proof (orders_from_fewer db db a (N.succ (asset_id (settle_balance s))) i s ltac:(reflexivity) ltac:(lia)
      Hs Ha (or_intror (N.lt_succ_diag_r _))) as Hpos; [lia|].
  apply terminates_bind; [apply settlement_step_terminates|]. intros r Hr.
  apply settlement_step_inv in Hr; [|done]. destruct r as [[[db' a'] max']|]; [|done].
  destruct Hr as (C & [[Hg ->]|[[-> Hlt]|(-> & Im & [s' Hs'] & (ao & bi & b & E1 & E2 & E3 & E4) & Hst)]]); apply IH.
  - left. pose proof (orders_from_fewer db db' a _ i s C Ha Hs Ha (or_introl Hg)). lia.
  - left. pose proof (orders_from_fewer db db a a' i s C ltac:(lia) Hs Ha (or_intror Hlt)). lia.
  - destruct Hn as [Hn|[_ Hst']].
    2: { unfold stuck in Hst'. rewrite E in Hst'. destruct Hst' as [Es Hle]. specialize (Hle _ _ _ E1 E2 E3).
      specialize (E4 Es). lia. }
    right. split.
    { pose proof (map_size_no_more (orders_from db a) (orders_from db' (asset_id (settle_balance s)))
        (fun j => orders_from_None _ _ _ _ j C Ha)). lia. }
    pose proof (cleared_assets _ _ C _ _ _ Hs Hs') as Es'. unfold stuck.
    destruct (settlements_from db' _) as [|[j s2] l2] eqn:E'.
    { assert (He : (i, s') ∈ settlements_from db' (asset_id (settle_balance s))) by (apply settlements_from_elem; split; [done|lia]).
      rewrite E' in He. by apply elem_of_nil in He. }
    apply settlements_from_head in E' as (_ & Hle & Hmin). specialize (Hmin i s' Hs' ltac:(lia)).
    assert (asset_id (settle_balance s2) = asset_id (settle_balance s)) as -> by lia. split; [done|].
    destruct Hst as (ao' & bi' & b' & F1 & F2 & F3 & F4). intros ao0 bi0 b0 G1 G2 G3. by simplify_eq.
Qed.

Lemma settlements_loop_cleared n : forall db a max db',
  settlements_loop n db a max = Ok db' -> cleared db db'.
Proof.
  induction n as [|n IH]; intros db a max db' H; cbn [settlements_loop] in H;
    destruct (settlements_from db a) as [|[i s] l] eqn:E; try (by injection H as <-); [done|].
  destruct (settlements_from_head _ _ _ _ _ E) as (Hs & _). apply bind_Ok in H as (r & Hr & H).
  apply settlement_step_inv in Hr; [|done]. destruct r as [[[d a'] max']|]; [|by injection H as <-].
  destruct Hr as [C _]. etrans; [exact C|by eapply IH].
Qed.

Lemma clear_settlements_cleared db db' : clear_expired_settlements db = Ok db' -> cleared db db'.
Proof.
  unfold clear_expired_settlements. destruct (settlements_from db 0) as [|[i s] l]; [by intros [= <-]|].
  apply settlements_loop_cleared.
Qed.

Lemma clear_settlements_terminates db : terminates (clear_expired_settlements db).
Proof.
  unfold clear_expired_settlements. destruct (settlements_from db 0) as [|[i s] l]; [done|].
  apply settlements_loop_terminates. left. unfold orders_from.
  pose proof (map_size_no_more (objs (settlements db))
    (filter (fun x => (asset_id (settle_balance s) <= asset_id (settle_balance x.2))%N) (objs (settlements db)))
    (fun j Hj => map_lookup_filter_None_2 _ _ _ (or_introl Hj))) as Hle. lia.
Qed.
End Settlements.

(** ** Feeds *)

Section ExpiredFeeds.
Context `{FC : FcLib, !FcLaws FC, NE : NthElement}.
Implicit Types (db : database).

Lemma update_expired_feed_burns db i db' :
  update_expired_feed db i = Ok db' -> burns db db' (fun _ => 0) /\ dgpo db' = dgpo db.
Proof.
  unfold update_expired_feed. cbv zeta. intros H. apply bind_Ok in H as (a & Ha & H).
  apply bind_Ok in H as ([bi b] & Hb & H). apply bitasset_data_inv in Hb as [_ Hb].
  apply bind_Ok in H as (d & Hd & H). apply bind_Ok in H as ([bi' b'] & _ & H).
  assert (B : burns db d (fun _ => 0) /\ dgpo d = dgpo db).
  { destruct (if _ <? _ then _ else _); [|injection Hd as <-; split; [apply burns_refl|done]].
    apply bind_Ok in Hd as (b1 & Hm & Hd). apply bind_Ok in Hd as ([c d'] & Hd & [= ->]).
    pose proof (check_call_orders_trades _ _ _ _ Hd) as [D _ _ _ _ _].
    apply check_call_orders_burns in Hd. split; [|exact D].
    eapply burns_trans; [|exact Hd]. eapply moves_burns, median_feeds_moves; done. }
  destruct B as [B D]. destruct (_ && _); injection H as <-; [|done]. split; [|exact D].
  eapply burns_trans; [exact B|]. apply moves_burns. intros W. refine (modify_asset_moves d i _ _ _ W); [done|].
  intros x Hx. exact (wf_market_fees _ (wf_db_assets _ W) i x Hx).
Qed.

Lemma update_expired_feeds_burns db db' :
  update_expired_feeds db = Ok db' -> burns db db' (fun _ => 0) /\ dgpo db' = dgpo db.
Proof.
  unfold update_expired_feeds. intros H.
  refine (foldM_inv _ (fun d => burns db d (fun _ => 0) /\ dgpo d = dgpo db) _ _ _ _ _ H).
  - intros d i d' [B D] _ [B' D']%update_expired_feed_burns. split; [by eapply burns_trans|congruence].
  - split; [apply burns_refl|done].
Qed.
End ExpiredFeeds.

(** ** Properties *)

Section Properties.
Context `{FC : FcLib, !FcLaws FC, NE : NthElement}.
Implicit Types (db : database).

(** Clearing the expired limit orders always comes to an end, and when it
    succeeds no expired order is left in the book and, as long as no deflation is running, what
    is held of each asset less its supply has not changed: each order went back to
    its seller less a fee that the order had deferred. *)
Theorem clear_expired_limit_orders_spec value scale db :
  in_uint64 value -> 0 <= scale < 2 ^ 32 -> sound_feeds db -> wf_db db ->
  clear_expired_limit_orders value scale db <> Err out_of_fuel /\
  forall db', clear_expired_limit_orders value scale db = Ok db' ->
    (forall i o, objs (limit_orders db') !! i = Some o -> head_block_time db' < expiration o) /\
    (no_deflation db = true -> forall a, unbacked db' a = unbacked db a).
Proof.
  intros Hv Hs Hf W. split; [by apply clear_limits_terminates|].
  intros db' (_ & D & E)%clear_limits_inv. split; [exact E|].
  destruct (D W) as (_ & _ & d & Hd & Hu). intros Hn a. rewrite Hu, (Hd Hn), core_in_0. lia.
Qed.

(** Clearing the force settlements always comes to an end, whatever the state:
    every pass of the loop removes an order, uses up an asset's limit or goes on to
    a later asset.  When it succeeds what is held of each asset less its supply has
    not changed, and an order that is not due, of an asset that is not globally
    settled, is as it was; the orders of a globally settled asset are canceled before
    their date is looked at. *)
Theorem clear_expired_settlements_spec db :
  clear_expired_settlements db <> Err out_of_fuel /\
  forall db', clear_expired_settlements db = Ok db' ->
    (wf_db db -> forall a, unbacked db' a = unbacked db a) /\
    forall i s, objs (settlements db) !! i = Some s -> patient db s -> objs (settlements db') !! i = Some s.
Proof.
  split; [apply clear_settlements_terminates|]. intros db' C%clear_settlements_cleared. split; [|apply C].
  intros W a. destruct (cleared_moves _ _ C W) as (_ & _ & Hu). rewrite Hu. lia.
Qed.

(** C24: settling an order that is due never takes the volume settled in this
    interval past the asset's limit, takes exactly what it settles out of the
    supply, and ends with the order gone or the limit reached. *)
Theorem settle_order_spec db mia i s bi bit max db' :
  wf_db db -> objs (bitassets db) !! bi = Some bit -> asset_id max = mia -> force_settled_volume bit < amount max ->
  settle_order db mia i s bi bit max = Ok db' ->
  exists v, force_settled_volume <$> objs (bitassets db') !! bi = Some v /\
    force_settled_volume bit <= v <= amount max /\
    supply db' mia = supply db mia - (v - force_settled_volume bit) /\
    (objs (settlements db') !! i = None \/ v = amount max) /\
    forall j, j <> i -> objs (settlements db') !! j = objs (settlements db) !! j.
Proof.
  intros W Hb Im Hlt H. eapply settle_order_inv in H as (d & v & S & B & G & ->); [|done..]. exists v.
  split_and!; try lia; [|pose proof (settles_supply _ _ _ _ _ S (wf_db_assets _ W) mia) as Hsup
    |exact G|exact (settles_other _ _ _ _ _ S)].
  - simpl. by rewrite lookup_alter_eq, (settles_bitassets _ _ _ _ _ S), Hb.
  - unfold supply, dynamic_of in *. simpl. rewrite Hsup. unfold amount_in. simpl. rewrite N.eqb_refl. lia.
Qed.
End Properties.

(** ** Witnesses *)

(** The second order of the book is past its expiration. *)
Definition ex_late_book : database :=
  ex_state <| limit_orders := table_of [(0%N, ex_maker); (1%N, ex_taker <| expiration := 1499999999 |>)] 2 |>.

Lemma ex_state_feeds : sound_feeds (FC := fc_ref) ex_late_book.
Proof.
  intros i b Hi. apply elem_of_list_to_map_2 in Hi. apply list_elem_of_singleton in Hi as [= -> ->].
  right. split; [split; ground|ground].
Qed.

Lemma clear_expired_limit_orders_spec_witness :
  exists db', clear_expired_limit_orders (FC := fc_ref) (NE := sorting_nth_element) 5 GRAPHENE_100_PERCENT ex_late_book = Ok db' /\
    objs (limit_orders db') !! 1%N = None /\ unbacked db' 1 = unbacked ex_late_book 1.
Proof.
  destruct (result_ok_true (clear_expired_limit_orders (FC := fc_ref) (NE := sorting_nth_element) 5 GRAPHENE_100_PERCENT ex_late_book))
    as [db' H]; [by vm_compute|].
  exists db'. split; [exact H|].
  destruct (@clear_expired_limit_orders_spec fc_ref fc_ref_laws sorting_nth_element 5 GRAPHENE_100_PERCENT ex_late_book
    ltac:(ground) ltac:(ground) ex_state_feeds ltac:(apply db_check_ok; by vm_compute)) as [_ Hs].
  destruct (Hs db' H) as [_ Hu]. split; [|apply Hu; by vm_compute].
  apply (f_equal (fun r => match r with Ok d => objs (limit_orders d) !! 1%N | Err _ => None end)) in H.
  rewrite <- H. by vm_compute.
Defined.

(** Carol asks to settle 30 of the 100 that exist; a fifth may be settled. *)
Definition ex_settling : database :=
  ex_swan <| settlements := table_of [(0%N, Force_settlement_object 12 (Asset 30 2) 1499999000)] 1 |>.
Definition ex_settlement : force_settlement_object := Force_settlement_object 12 (Asset 30 2) 1499999000.

Lemma settle_order_spec_witness :
  exists db', settle_order (FC := fc_ref) ex_settling 2 0 ex_settlement 0 ex_bitasset (Asset 20 2) = Ok db' /\
    supply db' 2 = 80 /\ result_ok (clear_expired_settlements (FC := fc_ref) ex_settling) = true.
Proof.
  destruct (result_ok_true (settle_order (FC := fc_ref) ex_settling 2 0 ex_settlement 0 ex_bitasset (Asset 20 2)))
    as [db' H]; [by vm_compute|].
  exists db'. split; [exact H|]. split; [|by vm_compute].
  assert (Hleft : objs (settlements db') !! 0%N <> None).
  { apply (f_equal (fun r => match r with Ok d => objs (settlements d) !! 0%N | Err _ => None end)) in H.
    rewrite <- H. by vm_compute. }
  destruct (@settle_order_spec fc_ref fc_ref_laws ex_settling 2 0 ex_settlement 0 ex_bitasset
    (Asset 20 2) db' ltac:(apply db_check_ok; by vm_compute) eq_refl eq_refl ltac:(ground) H)
    as (v & _ & _ & -> & [Hg|Hv] & _); [by destruct Hleft|]. subst v. by vm_compute.
Defined.

Lemma clear_expired_settlements_spec_witness :
  exists db', clear_expired_settlements (FC := fc_ref) ex_settling = Ok db' /\ unbacked db' 2 = unbacked ex_settling 2.
Proof.
  destruct (result_ok_true (clear_expired_settlements (FC := fc_ref) ex_settling)) as [db' H]; [by vm_compute|].
  exists db'. split; [exact H|].
  destruct (@clear_expired_settlements_spec fc_ref fc_ref_laws ex_settling) as [_ Hs].
  apply (Hs db' H). apply db_check_ok. by vm_compute.
Defined.
