(* ===== verification/Authority.v ===== *)
(** * Authorities

    Models [protocol/authority.hpp] and [sign_state], [verify_authority] and the
    signature helpers of [protocol/transaction.cpp]: when the signatures of a
    transaction authorise its operations.

    [satisfied] is the specification: an authority is satisfied when the weights
    of its keys, addresses and accounts that approve reach the threshold, where an
    account approves through its own authority one level down.  The code answers
    between the specification at its depth limit and the one without a limit. *)

From S2P Require Import Prelude FcLib Block Asset Vesting Objects Database Ledger Market Trading Deflation Evaluator.
From S2P Require Import MarketOps Feeds AssetOps AssetFacts Capital Accounts Governance Operations.

(** The addresses of a key are hashes, of [pts_address] in four ways and of the
    key itself. *)
Class KeyLib := {
  pts_address : public_key -> bool -> Z -> address;   (* address( pts_address( key, compressed, version ) ) *)
  key_address : public_key -> address;                (* address( key ) *)
}.

Section Authority.
Context `{FC : FcLib, BL : BlockLib, KL : KeyLib, NE : NthElement}.

Record sign_state := Sign_state {
  available_address_sigs : option (gmap address public_key);
  provided_address_sigs : option (gmap address public_key);
  provided_signatures : gmap public_key bool;
  approved_by : gset N;
}.

#[export] Instance settable_sign_state : Settable sign_state := fun s =>
  Sign_state (available_address_sigs s) (provided_address_sigs s) (provided_signatures s) (approved_by s).


(** ** [sign_state] *)

(** Every entry overwrites what was there. *)
Definition addresses (k : public_key) : list address :=
  [pts_address k false 56; pts_address k true 56; pts_address k false 0; pts_address k true 0; key_address k].
Definition add_addresses (m : gmap address public_key) (k : public_key) : gmap address public_key :=
  foldl (fun m a => <[a := k]> m) m (addresses k).
Definition address_map (ks : gset public_key) : gmap address public_key :=
  foldl add_addresses ∅ (merge_sort Z.le (elements ks)).

Section Sign.
Variable get_active : N -> result (option authority).
Variable available_keys : gset public_key.
Implicit Types (s : sign_state).

Definition use_signature s (k : public_key) : sign_state := s <| provided_signatures ::= <[k := true]> |>.

Definition signed_by (k : public_key) s : result (bool * sign_state) :=
  match provided_signatures s !! k with
  | None => if decide (k ∈ available_keys) then Ok (true, use_signature s k) else Ok (false, s)
  | Some _ => Ok (true, use_signature s k)
  end.

Definition fill_address_sigs s : gmap address public_key * gmap address public_key * sign_state :=
  match available_address_sigs s, provided_address_sigs s with
  | Some av, Some pr => (av, pr, s)
  | _, _ =>
      let av := address_map available_keys in
      let pr := address_map (dom (provided_signatures s)) in
      (av, pr, s <| available_address_sigs := Some av |> <| provided_address_sigs := Some pr |>)
  end.

(** Neither a provided nor an available key has the address: the code goes on to
    dereference the end of the map. *)
Definition signed_by_address (a : address) s : result (bool * sign_state) :=
  let '(av, pr, s) := fill_address_sigs s in
  match pr !! a with
  | Some k => Ok (true, use_signature s k)
  | None =>
      match av !! a with
      | Some k => if decide (k ∈ available_keys) then Ok (true, use_signature s k) else Ok (false, s)
      | None => Err (undefined_behaviour "itr->second")
      end
  end.

(** One loop of [check_authority]: add the weights of those that pass [test], and
    stop ([None]) as soon as the threshold is reached. *)
Section Weigh.
Context {K : Type} (threshold : Z) (test : K -> sign_state -> result (bool * sign_state)).

Fixpoint weigh (l : list (K * Z)) (total_weight : Z) s : result (option Z * sign_state) :=
  match l with
  | [] => Ok (Some total_weight, s)
  | (k, w) :: l =>
      '(ok, s) ← test k s;
      if ok : bool then
        let total_weight := wrap32 (total_weight + w) in
        if threshold <=? total_weight then Ok (None, s) else weigh l total_weight s
      else weigh l total_weight s
  end.
End Weigh.

(** [check_authority( au, depth )]; [deeper] is [max_recursion - depth]. *)
Fixpoint check_authority (deeper : nat) (au : option authority) s : result (bool * sign_state) :=
  match au with
  | None => Ok (false, s)
  | Some auth =>
      let test_account := fun a s =>
        if decide (a ∈ approved_by s) then Ok (true, s)
        else
          match deeper with
          | O => Ok (false, s)
          | S deeper =>
              au ← get_active a;
              '(ok, s) ← check_authority deeper au s;
              if ok : bool then Ok (true, s <| approved_by ::= union {[a]} |>) else Ok (false, s)
          end in
      '(t, s) ← weigh (weight_threshold auth) signed_by (key_auths auth) 0 s;
      match t with
      | None => Ok (true, s)
      | Some total_weight =>
          '(t, s) ← weigh (weight_threshold auth) signed_by_address (address_auths auth) total_weight s;
          match t with
          | None => Ok (true, s)
          | Some total_weight =>
              '(t, s) ← weigh (weight_threshold auth) test_account (account_auths auth) total_weight s;
              match t with
              | None => Ok (true, s)
              | Some total_weight => Ok (weight_threshold auth <=? total_weight, s)
              end
          end
      end
  end.

(** [check_authority( id )] *)
Definition check_account (max_recursion : nat) (id : N) s : result (bool * sign_state) :=
  if decide (id ∈ approved_by s) then Ok (true, s)
  else au ← get_active id; check_authority max_recursion au s.
End Sign.

Definition new_sign_state (sigs : gset public_key) : sign_state :=
  Sign_state None None (gset_to_gmap false sigs) {[ GRAPHENE_TEMP_ACCOUNT ]}.

(** Whether a signature was not used, and the state without those. *)
Definition remove_unused_signatures (s : sign_state) : bool * sign_state :=
  let used := filter (fun kb : public_key * bool => kb.2 = true) (provided_signatures s) in
  (negb (bool_decide (used = provided_signatures s)), s <| provided_signatures := used |>).

(** ** Verification *)

(** [fee_payer]: its active authority is always required. *)
Definition operation_fee_payer (op : operation) : N :=
  match op with
  | transfer op => fee_payer op
  | limit_order_create op => fee_payer op
  | limit_order_cancel op => fee_payer op
  | call_order_update op => fee_payer op
  | limit_order_fee_config op => fee_payer op
  | asset_create op => fee_payer op
  | asset_update op => fee_payer op
  | asset_update_bitasset op => fee_payer op
  | asset_update_feed_producers op => fee_payer op
  | asset_issue op => fee_payer op
  | asset_reserve op => fee_payer op
  | asset_fund_fee_pool op => fee_payer op
  | asset_settle op => fee_payer op
  | asset_global_settle op => fee_payer op
  | asset_publish_feed op => fee_payer op
  | asset_claim_fees op => fee_payer op
  | vesting_balance_create op => fee_payer op
  | vesting_balance_withdraw op => fee_payer op
  | override_transfer op => fee_payer op
  | deflation op => fee_payer op
  | account_deflation op => fee_payer op
  | order_deflation op => fee_payer op
  | construction_capital_create op => fee_payer op
  | construction_capital_vote op => fee_payer op
  | construction_capital_rate_vote op => fee_payer op
  | incentive op => fee_payer op
  | account_create op => fee_payer op
  | account_update op => fee_payer op
  | account_whitelist op => fee_payer op
  | account_upgrade op => fee_payer op
  | witness_create op => fee_payer op
  | witness_update op => fee_payer op
  | withdraw_permission_create op => fee_payer op
  | withdraw_permission_update op => fee_payer op
  | withdraw_permission_claim op => fee_payer op
  | withdraw_permission_delete op => fee_payer op
  | committee_member_create op => fee_payer op
  | committee_member_update op => fee_payer op
  | worker_create op => fee_payer op
  | account_create_by_transfer op => fee_payer op
  end.

(** [is_owner_update] *)
Definition is_owner_update (op : account_update_operation) : bool :=
  is_some (ap_owner op) || is_some (ap_owner_special op).

(** [get_required_active_authorities] and [get_required_owner_authorities]: most
    operations require nothing besides their fee payer. *)
Definition operation_required_active (op : operation) : list N :=
  match op with
  | account_create op =>
      an_registrar op :: match an_buyback op with Some bbo => [asset_to_buy_issuer bbo] | None => [] end
  | account_update op => if is_owner_update op then [] else [ap_account op]
  | _ => []
  end.

Definition operation_required_owner (op : operation) : list N :=
  match op with
  | account_update op => if is_owner_update op then [ap_account op] else []
  | _ => []
  end.

(** Accounts whose active or owner authority is required, in the order of the
    flat sets, and other authorities. *)
Record required := Required {
  required_active : list N;
  required_owner : list N;
  other : list authority;
}.

(** A [flat_set] of accounts in its order. *)
Definition flat (l : list N) : list N := merge_sort N.le (elements (list_to_set l : gset N)).

Definition operation_get_required_authorities (ops : list operation) : required :=
  Required (flat (ops ≫= fun op => operation_fee_payer op :: operation_required_active op))
    (flat (ops ≫= operation_required_owner)) [].

Section Verify.
Variables (get_active get_owner : N -> result (option authority)).
Implicit Types (s : sign_state) (sigs : gset public_key).

(** [GRAPHENE_ASSERT( check, name )] in the state that the check leaves. *)
Definition require_auth (name : string) (r : result (bool * sign_state)) : result sign_state :=
  '(ok, s) ← r;
  _ ← GRAPHENE_ASSERT ok name;
  Ok s.

(** [a || b] where both may change the state. *)
Definition or_else (r : result (bool * sign_state)) (f : sign_state -> result (bool * sign_state))
  : result (bool * sign_state) :=
  '(ok, s) ← r;
  if ok : bool then Ok (true, s) else f s.

Definition verify_required (req : required) sigs (max_recursion_depth : nat) (allow_committee : bool)
    (active_approvals owner_approvals : gset N) : result unit :=
  _ ← (if allow_committee then Ok tt
       else GRAPHENE_ASSERT (negb (bool_decide (GRAPHENE_COMMITTEE_ACCOUNT ∈ required_active req)))
              "invalid_committee_approval");
  let s := (new_sign_state sigs) <| approved_by ::= fun a => a ∪ active_approvals ∪ owner_approvals |> in
  let check := check_authority get_active ∅ max_recursion_depth in
  s ← foldM (fun s au => require_auth "tx_missing_other_auth" (check (Some au) s)) s (other req);
  s ← foldM (fun s id => require_auth "tx_missing_active_auth"
        (or_else (check_account get_active ∅ max_recursion_depth id s)
           (fun s => au ← get_owner id; check au s))) s (required_active req);
  s ← foldM (fun s id => require_auth "tx_missing_owner_auth"
        (if decide (id ∈ owner_approvals) then Ok (true, s) else au ← get_owner id; check au s))
        s (required_owner req);
  GRAPHENE_ASSERT (negb (remove_unused_signatures s).1) "tx_irrelevant_sig".

Definition verify_authority (ops : list operation) sigs (max_recursion_depth : nat) (allow_committee : bool)
    (active_approvals owner_approvals : gset N) : result unit :=
  verify_required (operation_get_required_authorities ops) sigs max_recursion_depth allow_committee
    active_approvals owner_approvals.

(** The keys of the signatures; a duplicate throws. *)
Definition get_signature_keys (signatures : list Z) (sig_digest : Z) : result (gset public_key) :=
  foldM (fun ks sig =>
      k ← recover_key sig sig_digest;
      _ ← GRAPHENE_ASSERT (bool_decide (k ∉ ks)) "tx_duplicate_sig";
      Ok ({[k]} ∪ ks)) ∅ signatures.

(** The checks of [get_required_signatures] only collect signatures. *)
Definition get_required_signatures (req : required) sigs (available_keys : gset public_key)
    (max_recursion_depth : nat) : result (gset public_key) :=
  let check := check_authority get_active available_keys max_recursion_depth in
  s ← foldM (fun s au => r ← check (Some au) s; Ok r.2) (new_sign_state sigs) (other req);
  s ← foldM (fun s id => au ← get_owner id; r ← check au s; Ok r.2) s (required_owner req);
  s ← foldM (fun s id => r ← check_account get_active available_keys max_recursion_depth id s; Ok r.2)
        s (required_active req);
  let s := (remove_unused_signatures s).2 in
  Ok (filter (fun k => k ∈ available_keys) (dom (provided_signatures s))).

Definition missing_auth (e : exn) : bool :=
  bool_decide (e ∈ [graphene_exception "tx_missing_owner_auth"; graphene_exception "tx_missing_active_auth";
                    graphene_exception "tx_missing_other_auth"]).

(** Try the keys in turn: drop each that is not needed. *)
Definition minimize_required_signatures (ops : list operation) sigs (available_keys : gset public_key)
    (max_recursion : nat) : result (gset public_key) :=
  s ← get_required_signatures (operation_get_required_authorities ops) sigs available_keys max_recursion;
  foldM (fun result k =>
      let smaller := result ∖ {[k]} in
      match verify_authority ops smaller max_recursion false ∅ ∅ with
      | Ok _ => Ok smaller
      | Err e => if missing_auth e then Ok ({[k]} ∪ smaller) else Err e
      end) s (merge_sort Z.le (elements s)).
End Verify.
End Authority.

Lemma flat_elem x l : x ∈ flat l <-> x ∈ l.
Proof. unfold flat. by rewrite merge_sort_Permutation, elem_of_elements, elem_of_list_to_set. Qed.

(** ** Specification *)

(** The weight of those that [p] accepts. *)
Definition weight_of {K} (p : K -> bool) (l : list (K * Z)) : Z :=
  foldr (fun kw t => (if p kw.1 then kw.2 else 0) + t) 0 l.

Section Specification.
Context `{FC : FcLib, BL : BlockLib, KL : KeyLib, NE : NthElement}.
Variables (get_active : N -> result (option authority)) (signers : gset public_key) (approvals : gset N).

Definition has_key (k : public_key) : bool := bool_decide (k ∈ signers).
Definition has_address (a : address) : bool := bool_decide (a ∈ (elements signers ≫= addresses)).

(** [satisfied n au]: enough weight approves, with at most [n] levels of accounts. *)
Fixpoint satisfied (n : nat) (au : authority) : bool :=
  let approves := fun a =>
    bool_decide (a ∈ approvals) ||
    match n with
    | O => false
    | S n => match get_active a with Ok (Some au) => satisfied n au | _ => false end
    end in
  weight_threshold au <=?
    weight_of has_key (key_auths au) + weight_of has_address (address_auths au) + weight_of approves (account_auths au).

Definition approves (n : nat) (a : N) : bool :=
  bool_decide (a ∈ approvals) ||
  match n with
  | O => false
  | S n => match get_active a with Ok (Some au) => satisfied n au | _ => false end
  end.

(** Satisfied at some depth. *)
Definition authorized (au : authority) : Prop := exists n, satisfied n au = true.
Definition account_authorized (a : N) : Prop := exists n, approves n a = true.

(** The weights are not negative and their sum is of their type. *)
Record light (au : authority) : Prop := {
  light_weights : Forall (fun w => 0 <= w) ((key_auths au).*2 ++ (address_auths au).*2 ++ (account_auths au).*2);
  light_sum : weights (key_auths au) + weights (address_auths au) + weights (account_auths au) < 2 ^ 32;
}.

(** *** Facts of the specification *)

Lemma satisfied_unfold n au :
  satisfied n au = (weight_threshold au <=? weight_of has_key (key_auths au)
    + weight_of has_address (address_auths au) + weight_of (approves n) (account_auths au)).
Proof. by destruct n. Qed.

Lemma weight_of_mono {K} (p q : K -> bool) (l : list (K * Z)) :
  Forall (fun w => 0 <= w) l.*2 -> (forall k, p k = true -> q k = true) -> weight_of p l <= weight_of q l.
Proof.
  intros Hw Hpq. induction l as [|[k w] l IH]; simpl; [done|]. apply Forall_cons in Hw as [Hw Hl].
  specialize (IH Hl). specialize (Hpq k). simpl in Hw. destruct (p k), (q k); lia || naive_solver.
Qed.

Lemma weight_of_bounds {K} (p : K -> bool) (l : list (K * Z)) :
  Forall (fun w => 0 <= w) l.*2 -> 0 <= weight_of p l <= weights l.
Proof.
  unfold weights. induction l as [|[k w] l IH]; simpl; [done|]. intros [Hw Hl]%Forall_cons. specialize (IH Hl).
  simpl in Hw. destruct (p k); lia.
Qed.

Lemma light_parts au :
  light au -> Forall (fun w => 0 <= w) (key_auths au).*2 /\ Forall (fun w => 0 <= w) (address_auths au).*2 /\
    Forall (fun w => 0 <= w) (account_auths au).*2.
Proof. intros [Hw _]. by rewrite !Forall_app in Hw. Qed.

Context (active_light : forall a au, get_active a = Ok (Some au) -> light au).

(** More depth satisfies more. *)
Lemma satisfied_mono n m au : light au -> (n <= m)%nat -> satisfied n au = true -> satisfied m au = true.
Proof.
  revert m au. induction n as [|n IH]; intros m au L Hm; rewrite !satisfied_unfold, !Z.leb_le; intros Hs;
    (etrans; [exact Hs|]); apply Z.add_le_mono_l, weight_of_mono; try (by apply light_parts); intros a; unfold approves.
  - rewrite orb_false_r. intros ->. done.
  - destruct m as [|m]; [lia|]. destruct (bool_decide (a ∈ approvals)); [done|]. simpl.
    destruct (get_active a) as [[au'|]|] eqn:E; try done. apply IH; [by eapply active_light|lia].
Qed.

Lemma approves_mono n m a : (n <= m)%nat -> approves n a = true -> approves m a = true.
Proof.
  intros Hm. unfold approves. destruct (bool_decide (a ∈ approvals)); [done|]. simpl.
  destruct n as [|n], m as [|m]; try done; [lia|]. destruct (get_active a) as [[au|]|] eqn:E; try done.
  apply satisfied_mono; [by eapply active_light|lia].
Qed.
End Specification.

Section Facts.
Context `{FC : FcLib, BL : BlockLib, KL : KeyLib, NE : NthElement}.

(** *** Addresses *)

Lemma add_addresses_lookup k (l : list address) (m : gmap address public_key) a :
  foldl (fun m a => <[a := k]> m) m l !! a = if decide (a ∈ l) then Some k else m !! a.
Proof.
  revert m. induction l as [|b l IH]; intros m; simpl; [done|]. rewrite IH.
  destruct (decide (a ∈ l)).
  - by rewrite decide_True by by right.
  - destruct (decide (a = b)) as [->|].
    + rewrite lookup_insert_eq, decide_True; [done|by left].
    + rewrite lookup_insert_ne, decide_False; [done|set_solver|done].
Qed.

Lemma address_map_sound ks a k : address_map ks !! a = Some k -> k ∈ ks /\ a ∈ addresses k.
Proof.
  unfold address_map. assert (Hin : forall k, k ∈ merge_sort Z.le (elements ks) -> k ∈ ks)
    by (intros x; by rewrite merge_sort_Permutation, elem_of_elements).
  revert Hin. generalize (merge_sort Z.le (elements ks)). intros l Hin.
  enough (forall m : gmap address public_key, (forall a k, m !! a = Some k -> k ∈ ks /\ a ∈ addresses k) ->
    foldl add_addresses m l !! a = Some k -> k ∈ ks /\ a ∈ addresses k) as H by (apply H; intros ??; by rewrite lookup_empty).
  induction l as [|x l IH]; intros m Hm; simpl; [apply Hm|]. apply IH; [set_solver|].
  intros b y. unfold add_addresses. rewrite add_addresses_lookup. case_decide; [|apply Hm].
  intros [= <-]. split; [apply Hin; by left|done].
Qed.

Lemma address_map_complete ks a k : k ∈ ks -> a ∈ addresses k -> is_Some (address_map ks !! a).
Proof.
  unfold address_map. intros Hk Ha. assert (Hin : k ∈ merge_sort Z.le (elements ks))
    by by rewrite merge_sort_Permutation, elem_of_elements.
  revert Hin. generalize (merge_sort Z.le (elements ks)). intros l.
  enough (forall m : gmap address public_key, k ∈ l \/ is_Some (m !! a) -> is_Some (foldl add_addresses m l !! a)) as H
    by eauto.
  induction l as [|x l IH]; intros m Hm; simpl; [destruct Hm as [?%elem_of_nil|]; done|]. apply IH.
  unfold add_addresses. rewrite add_addresses_lookup. case_decide; [eauto|].
  destruct Hm as [[->|]%elem_of_cons|]; auto. done.
Qed.

Section Refinement.
Variables (get_active : N -> result (option authority)) (available signers : gset public_key) (approvals : gset N).
Context (active_light : forall a au, get_active a = Ok (Some au) -> light au).

Abbreviation satisfied := (satisfied get_active signers approvals).
Abbreviation approves := (approves get_active signers approvals).
Abbreviation account_authorized := (account_authorized get_active signers approvals).

(** What the state knows is true. *)
Record sign_ok (s : sign_state) : Prop := {
  ok_signers k : k ∈ signers <-> is_Some (provided_signatures s !! k) \/ k ∈ available;
  ok_available av : available_address_sigs s = Some av ->
    av = address_map available /\ exists pr, provided_address_sigs s = Some pr;
  ok_provided av pr : available_address_sigs s = Some av -> provided_address_sigs s = Some pr ->
    (forall a k, pr !! a = Some k -> k ∈ signers /\ a ∈ addresses k) /\
    (forall a k, k ∈ signers -> a ∈ addresses k -> is_Some (pr !! a) \/ is_Some (av !! a));
  ok_approvals : approvals ⊆ approved_by s;
  ok_approved a : a ∈ approved_by s -> account_authorized a;
}.

Lemma use_signature_ok s k : sign_ok s -> k ∈ signers -> sign_ok (use_signature s k).
Proof.
  intros [H1 H2 H3 H4 H5] Hk. split; simpl; try done. intros x. rewrite H1, lookup_insert_is_Some.
  destruct (decide (k = x)) as [<-|]; [|naive_solver]. split; [auto|]. intros _. by apply H1.
Qed.

Lemma signed_by_spec k s b s' :
  sign_ok s -> signed_by available k s = Ok (b, s') -> sign_ok s' /\ b = has_key signers k.
Proof.
  intros Hs. unfold signed_by, has_key. pose proof (ok_signers _ Hs k) as Hk.
  destruct (provided_signatures s !! k) eqn:Ep; [|case_decide as Ha]; intros H; inv_result.
  - assert (k ∈ signers) by (apply Hk; eauto). split; [by apply use_signature_ok|by rewrite bool_decide_eq_true_2].
  - assert (k ∈ signers) by (apply Hk; eauto). split; [by apply use_signature_ok|by rewrite bool_decide_eq_true_2].
  - split; [done|]. rewrite bool_decide_eq_false_2; [done|]. rewrite Hk. intros [[? ?]|?]; done.
Qed.

Lemma fill_address_sigs_spec s av pr s1 :
  sign_ok s -> fill_address_sigs available s = (av, pr, s1) ->
  sign_ok s1 /\ available_address_sigs s1 = Some av /\ provided_address_sigs s1 = Some pr.
Proof.
  intros Hs. unfold fill_address_sigs.
  assert (Hfill : sign_ok (s <| available_address_sigs := Some (address_map available) |>
      <| provided_address_sigs := Some (address_map (dom (provided_signatures s))) |>)).
  { destruct Hs as [H1 H2 H3 H4 H5]. split; simpl; try done; [naive_solver|]. intros ? ? [= <-] [= <-]. split.
    - intros a k [Hk Ha]%address_map_sound. split; [|done]. apply H1. left. by apply elem_of_dom.
    - intros a k [Hk|Hk]%H1 Ha; [left|right].
      + eapply address_map_complete; [by apply elem_of_dom|done].
      + by eapply address_map_complete. }
  destruct (available_address_sigs s) eqn:E1; [|by intros [= <- <- <-]].
  destruct (provided_address_sigs s) eqn:E2; [|by intros [= <- <- <-]].
  intros [= <- <- <-]. done.
Qed.

Lemma has_address_spec a : has_address signers a = true <-> exists k, k ∈ signers /\ a ∈ addresses k.
Proof.
  unfold has_address. rewrite bool_decide_eq_true, list_elem_of_bind.
  split; intros (k & H1 & H2); exists k; [by rewrite elem_of_elements in H2|by rewrite elem_of_elements].
Qed.

(** An address that no key has is undefined behaviour, so the answer is yes. *)
Lemma signed_by_address_spec a s b s' :
  sign_ok s -> signed_by_address available a s = Ok (b, s') ->
  sign_ok s' /\ b = true /\ has_address signers a = true.
Proof.
  intros Hs. unfold signed_by_address. destruct (fill_address_sigs available s) as [[av pr] s1] eqn:E.
  apply fill_address_sigs_spec in E as (Hs1 & Ea & Ep); [|done].
  destruct (ok_provided _ Hs1 _ _ Ea Ep) as [Hpr _]. destruct (ok_available _ Hs1 _ Ea) as [-> _].
  destruct (pr !! a) as [k|] eqn:Hp; intros H.
  - inv_result. apply Hpr in Hp as [Hk Ha]. split; [by apply use_signature_ok|]. split; [done|]. apply has_address_spec. eauto.
  - destruct (address_map available !! a) as [k|] eqn:Hav; [|done]. apply address_map_sound in Hav as [Hk Ha].
    rewrite decide_True in H by done. inv_result. assert (k ∈ signers) by (apply (ok_signers _ Hs1); auto).
    split; [by apply use_signature_ok|]. split; [done|]. apply has_address_spec. eauto.
Qed.

(** What a loop adds up lies between what [lower] and what [upper] accepts, if
    each test answers between the two. *)
Lemma weigh_spec {K} threshold (test : K -> sign_state -> result (bool * sign_state)) lower (upper : nat -> K -> bool)
    (l : list (K * Z)) :
  (forall n m k, (n <= m)%nat -> upper n k = true -> upper m k = true) ->
  (forall k s b s', sign_ok s -> test k s = Ok (b, s') ->
     sign_ok s' /\ (lower k = true -> b = true) /\ (b = true -> exists m, upper m k = true)) ->
  Forall (fun w => 0 <= w) l.*2 ->
  forall total s r s', 0 <= total -> total + weights l < 2 ^ 32 -> sign_ok s ->
    weigh threshold test l total s = Ok (r, s') ->
    sign_ok s' /\ exists m, match r with
      | None => threshold <= total + weight_of (upper m) l
      | Some t => total + weight_of lower l <= t <= total + weight_of (upper m) l
      end.
Proof.
  intros Hmono Htest. induction l as [|[k w] l IH]; intros Hw total s r s' Ht Hb Hs H; simpl in *.
  { inv_result. split; [done|]. exists O. lia. }
  apply Forall_cons in Hw as [Hw Hl]. simpl in Hw. pose proof (weight_of_bounds lower l Hl).
  pose proof (weight_of_bounds (fun _ => false) l Hl).
  inv_result. match goal with x : bool * sign_state |- _ => destruct x as [b s1] end. cbn [fst snd] in H.
  match goal with Hk : test _ _ = _ |- _ => apply Htest in Hk as (Hs1 & Hlow & Hup); [|done] end.
  assert (Hstep : forall total', 0 <= total' -> total' + weights l < 2 ^ 32 ->
    weigh threshold test l total' s1 = Ok (r, s') -> sign_ok s' /\ exists m, forall n, (m <= n)%nat -> match r with
      | None => threshold <= total' + weight_of (upper n) l
      | Some t => total' + weight_of lower l <= t <= total' + weight_of (upper n) l end).
  { intros total' E1 E2 E3. destruct (IH Hl total' s1 r s' E1 E2 Hs1 E3) as [? [m Hm]]. split; [done|]. exists m.
    intros n Hn. assert (weight_of (upper m) l <= weight_of (upper n) l) by (apply weight_of_mono; eauto).
    destruct r; lia. }
  destruct b.
  - destruct (Hup eq_refl) as [m1 Hm1]. unfold wrap32 in H. rewrite Z.mod_small in H by lia.
    pose proof (fun n => weight_of_bounds (upper n) l Hl) as Hub.
    destruct (Z.leb_spec threshold (total + w)); inv_result.
    + split; [done|]. exists m1. rewrite Hm1. specialize (Hub m1). lia.
    + apply Hstep in H as [? [m Hm]]; [|lia..]. split; [done|]. exists (m `max` m1)%nat.
      specialize (Hm (m `max` m1)%nat ltac:(lia)). rewrite (Hmono m1 (m `max` m1)%nat) by (done || lia).
      destruct r; [|lia]. destruct (lower k); lia.
  - apply Hstep in H as [? [m Hm]]; [|lia..]. split; [done|]. exists m. specialize (Hm m ltac:(lia)).
    destruct (lower k); [by specialize (Hlow eq_refl)|]. destruct (upper m k), r; lia.
Qed.

(** The test of the third loop. *)
Definition test_account (n : nat) (a : N) (s : sign_state) : result (bool * sign_state) :=
  if decide (a ∈ approved_by s) then Ok (true, s)
  else
    match n with
    | O => Ok (false, s)
    | S n =>
        au ← get_active a;
        '(ok, s) ← check_authority get_active available n au s;
        if ok : bool then Ok (true, s <| approved_by ::= union {[a]} |>) else Ok (false, s)
    end.

Lemma test_account_spec n :
  (forall m au s b s', (m < n)%nat -> light au -> sign_ok s ->
     check_authority get_active available m (Some au) s = Ok (b, s') ->
     sign_ok s' /\ (satisfied m au = true -> b = true) /\ (b = true -> exists m, satisfied m au = true)) ->
  forall a s b s', sign_ok s -> test_account n a s = Ok (b, s') ->
    sign_ok s' /\ (approves n a = true -> b = true) /\ (b = true -> exists m, approves m a = true).
Proof.
  intros IH a s b s' Hs. unfold test_account. case_decide as Ha; intros Hr.
  { inv_result. split_and!; [done|done|]. intros _. exact (ok_approved _ Hs a Ha). }
  assert (Hna : bool_decide (a ∈ approvals) = false)
    by (apply bool_decide_eq_false_2; intros ?; by apply Ha, (ok_approvals _ Hs)).
  unfold approves. rewrite Hna. simpl. destruct n as [|n]; [by inv_result|].
  inv_result. match goal with x : bool * sign_state |- _ => destruct x as [ok s1] end.
  match goal with Hg : get_active a = Ok ?o |- _ => destruct o as [au|]; rewrite Hg end; [|by destruct n; simplify_eq/=; inv_result].
  match goal with Hc : check_authority _ _ _ _ _ = _ |- _ => apply IH in Hc as (Hs1 & Hlow & Hup); [|lia|by eapply active_light|done] end.
  destruct ok; inv_result.
  - destruct (Hup eq_refl) as [m Hm].
    assert (Happ : exists m, approves m a = true).
    { exists (S m). unfold approves. rewrite Hna. simpl. by match goal with Hg : get_active a = _ |- _ => rewrite Hg end. }
    split_and!; [|done|by intros _; exists (S m)]. destruct Hs1 as [P1 P2 P3 P4 P5]. split; simpl; try done; [set_solver|].
    intros x [->%elem_of_singleton|Hx]%elem_of_union; [done|by apply P5].
  - split_and!; done.
Qed.

(** The answer lies between the specification at the depth limit and the one
    without a limit. *)
Lemma check_authority_spec n : forall au s b s',
  light au -> sign_ok s -> check_authority get_active available n (Some au) s = Ok (b, s') ->
  sign_ok s' /\ (satisfied n au = true -> b = true) /\ (b = true -> exists m, satisfied m au = true).
Proof.
  induction n as [n IH] using lt_wf_ind. intros au s b s' L Hs Hr.
  destruct (light_parts _ L) as (Lk & La & Lc). pose proof (light_sum _ L) as Lsum.
  pose proof (weight_of_bounds (has_key signers) _ Lk) as Bk.
  pose proof (weight_of_bounds (has_address signers) _ La) as Ba.
  assert (Bc : forall m, 0 <= weight_of (approves m) (account_auths au) <= weights (account_auths au))
    by (intros; by apply weight_of_bounds).
  pose proof (Bc O) as Bc0.
  pose proof (test_account_spec n (fun m au s b s' Hm L Hs H => IH m Hm au s b s' L Hs H)) as Htest.
  assert (Eq : check_authority get_active available n (Some au) s =
    ('(t, s) ← weigh (weight_threshold au) (signed_by available) (key_auths au) 0 s;
     match t with
     | None => Ok (true, s)
     | Some total =>
         '(t, s) ← weigh (weight_threshold au) (signed_by_address available) (address_auths au) total s;
         match t with
         | None => Ok (true, s)
         | Some total =>
             '(t, s) ← weigh (weight_threshold au) (test_account n) (account_auths au) total s;
             match t with
             | None => Ok (true, s)
             | Some total => Ok (weight_threshold au <=? total, s)
             end
         end
     end)) by by destruct n.
  rewrite Eq in Hr. clear Eq. inv_result. destruct a as [t1 s1].
  match goal with Hw : weigh _ (signed_by _) _ _ _ = _ |- _ =>
    apply (weigh_spec _ _ (has_key signers) (fun _ => has_key signers)) in Hw as (Hs1 & m1 & R1); [|done| |done|done|lia|done] end.
  2: { intros k s0 b0 s0' H0 [? ->]%signed_by_spec; [|done]. split_and!; [done|done|]. by exists O. }
  assert (Hsat : forall m, satisfied m au = true <-> weight_threshold au <=
    weight_of (has_key signers) (key_auths au) + weight_of (has_address signers) (address_auths au)
      + weight_of (approves m) (account_auths au)) by (intros m; by rewrite satisfied_unfold, Z.leb_le).
  destruct t1 as [t1|]; [|inv_result; split_and!; [done|done|]; intros _; exists O; apply Hsat; specialize (Bc O); lia].
  inv_result. destruct a as [t2 s2].
  match goal with Hw : weigh _ (signed_by_address _) _ _ _ = _ |- _ =>
    apply (weigh_spec _ _ (has_address signers) (fun _ => has_address signers)) in Hw as (Hs2 & m2 & R2); [|done| |done|lia|lia|done] end.
  2: { intros k s0 b0 s0' H0 (? & -> & ?)%signed_by_address_spec; [|done]. split_and!; [done|done|]. by exists O. }
  destruct t2 as [t2|]; [|inv_result; split_and!; [done|done|]; intros _; exists O; apply Hsat; specialize (Bc O); lia].
  inv_result. destruct a as [t3 s3].
  match goal with Hw : weigh _ (test_account _) _ _ _ = _ |- _ =>
    apply (weigh_spec _ _ (approves n) approves) in Hw as (Hs3 & m3 & R3); [|intros; by eapply approves_mono|done|done|lia|lia|done] end.
  specialize (Hsat n) as Hn. specialize (Hsat m3) as Hm3. destruct t3 as [t3|]; inv_result.
  - split; [done|]. rewrite Hn. split; [intros; apply Z.leb_le; lia|]. intros Hle%Z.leb_le. exists m3. apply Hm3. lia.
  - split_and!; [done|done|]. intros _. exists m3. apply Hm3. lia.
Qed.

(** A failure of the look-up of an authority is not a missing signature. *)
Definition proper (get : N -> result (option authority)) : Prop :=
  forall a e, get a = Err e -> missing_auth e = false.

Lemma weigh_error {K} threshold (test : K -> sign_state -> result (bool * sign_state)) (l : list (K * Z)) e :
  (forall k s, test k s = Err e -> missing_auth e = false) ->
  forall total s, weigh threshold test l total s = Err e -> missing_auth e = false.
Proof.
  intros Htest. induction l as [|[k w] l IH]; intros total s Hw; simpl in *; [done|].
  apply bind_Err in Hw as [Hw|([[] s1] & _ & Hw)]; [eauto| |eauto]. case_match; eauto. done.
Qed.

Lemma check_authority_error n : proper get_active -> forall au s e,
  check_authority get_active available n au s = Err e -> missing_auth e = false.
Proof.
  intros Hp. induction n as [n IH] using lt_wf_ind. intros [au|] s e H; [|by destruct n].
  assert (H1 : forall k s, signed_by available k s = Err e -> missing_auth e = false)
    by (unfold signed_by; intros k s0 Hk; repeat case_match; done).
  assert (H2 : forall a s, signed_by_address available a s = Err e -> missing_auth e = false).
  { unfold signed_by_address. intros a s0 Hk. repeat case_match; try done. by injection Hk as <-. }
  assert (H3 : forall a s, test_account n a s = Err e -> missing_auth e = false).
  { unfold test_account. intros a s0 Hk. case_decide; [done|]. destruct n as [|n]; [done|].
    apply bind_Err in Hk as [Hk|(o & _ & Hk)]; [by eapply Hp|].
    apply bind_Err in Hk as [Hk|([[] s1] & _ & Hk)]; [eapply IH, Hk; lia|done..]. }
  assert (exists f, check_authority get_active available n (Some au) s =
    (weigh (weight_threshold au) (signed_by available) (key_auths au) 0 s ≫= f) /\
    forall ts, f ts = Err e -> missing_auth e = false) as (f & Eq & Hf).
  { destruct n; (eexists; split; [reflexivity|]); intros [[t|] s1] Hb; try done;
      (apply bind_Err in Hb as [Hb|([[t2|] s2] & _ & Hb)]; [by eapply weigh_error in Hb| |done]);
      (apply bind_Err in Hb as [Hb|([[t3|] s3] & _ & Hb)]; [|done..]); (eapply weigh_error; [|exact Hb]; exact H3). }
  rewrite Eq in H. apply bind_Err in H as [H|(ts & _ & H)]; [by eapply weigh_error in H|by eapply Hf].
Qed.

(** A loop of requirements. *)
Lemma require_all {A} name (test : A -> sign_state -> result (bool * sign_state)) (upper : A -> Prop) (l : list A) :
  (forall x s b s', x ∈ l -> sign_ok s -> test x s = Ok (b, s') -> sign_ok s' /\ (b = true -> upper x)) ->
  forall s s', sign_ok s -> foldM (fun s x => require_auth name (test x s)) s l = Ok s' ->
    sign_ok s' /\ forall x, x ∈ l -> upper x.
Proof.
  induction l as [|x l IH]; intros Ht s s' Hs H; simpl in H.
  - inv_result. split; [done|]. by intros x ?%elem_of_nil.
  - inv_result. unfold require_auth in *. inv_result. destruct a0 as [b s1]. inv_result.
    match goal with Hx : test _ _ = _ |- _ => apply Ht in Hx as [Hs1 Hu]; [|by left|done] end.
    apply IH in H as [Hs' Hl]; [|intros; eapply Ht; [by right|done..]|done]. split; [done|]. intros y [->|]%elem_of_cons; auto.
Qed.

Lemma require_all_error {A} name (test : A -> sign_state -> result (bool * sign_state)) (lower : A -> Prop) (l : list A) e :
  (forall x s b s', x ∈ l -> sign_ok s -> test x s = Ok (b, s') -> sign_ok s' /\ (lower x -> b = true)) ->
  (forall x s, test x s = Err e -> missing_auth e = false) -> (forall x, x ∈ l -> lower x) ->
  forall s, sign_ok s -> foldM (fun s x => require_auth name (test x s)) s l = Err e -> missing_auth e = false.
Proof.
  intros Ht He. revert Ht. induction l as [|x l IH]; intros Ht Hl s Hs H; simpl in H; [done|].
  apply bind_Err in H as [H|(s1 & H1 & H)].
  - unfold require_auth in H. apply bind_Err in H as [H|([b s1] & H1 & H)]; [eauto|].
    apply Ht in H1 as [_ Hb]; [|by left|done]. rewrite Hb in H; [done|]. apply Hl. by left.
  - unfold require_auth in H1. inv_result. destruct a as [b s2]. inv_result.
    match goal with Hx : test _ _ = _ |- _ => apply Ht in Hx as [Hs1 _]; [|by left|done] end.
    eapply IH; [intros; eapply Ht; [by right|done..]| |exact Hs1|exact H]. intros y Hy. apply Hl. by right.
Qed.
End Refinement.
End Facts.

(** What a transaction needs: its signers, and the accounts that approve by
    themselves (the temporary account always does). *)
Section Requirements.
Context `{FC : FcLib, BL : BlockLib, KL : KeyLib, NE : NthElement}.
Variables (get_active get_owner : N -> result (option authority)).
Variables (sigs : gset public_key) (active_approvals owner_approvals : gset N).

Definition given : gset N := {[GRAPHENE_TEMP_ACCOUNT]} ∪ active_approvals ∪ owner_approvals.
Definition owner_satisfied (n : nat) (id : N) : Prop :=
  exists au, get_owner id = Ok (Some au) /\ satisfied get_active sigs given n au = true.

(** Every requirement holds, accounts counting down to depth [n]. *)
Record meets (n : nat) (req : required) : Prop := {
  meets_other au : au ∈ other req -> satisfied get_active sigs given n au = true;
  meets_active id : id ∈ required_active req ->
    approves get_active sigs given (S n) id = true \/ owner_satisfied n id;
  meets_owner id : id ∈ required_owner req -> id ∈ owner_approvals \/ owner_satisfied n id;
}.
End Requirements.

(** Finitely many things that each hold from some depth on hold together. *)
Lemma eventually_all {A} (P : nat -> A -> Prop) (l : list A) :
  (forall n m x, x ∈ l -> (n <= m)%nat -> P n x -> P m x) -> (forall x, x ∈ l -> exists n, P n x) ->
  exists n, forall m x, (n <= m)%nat -> x ∈ l -> P m x.
Proof.
  induction l as [|x l IH]; intros Hmono Hl; [exists O; by intros ? ? ? ?%elem_of_nil|].
  destruct IH as [n Hn]; [intros n m y Hy; apply Hmono; by right|intros; apply Hl; by right|].
  destruct (Hl x) as [m Hm]; [by left|]. exists (n `max` m)%nat.
  intros k y Hk [->|Hy]%elem_of_cons; [eapply Hmono; [by left| |exact Hm]; lia|apply Hn; [lia|done]].
Qed.

Section Verification.
Context `{FC : FcLib, BL : BlockLib, KL : KeyLib, NE : NthElement}.
Variables (get_active get_owner : N -> result (option authority)).
Variables (sigs : gset public_key) (active_approvals owner_approvals : gset N).
Context (active_light : forall a au, get_active a = Ok (Some au) -> light au).
Context (owner_light : forall a au, get_owner a = Ok (Some au) -> light au).
Abbreviation given := (given active_approvals owner_approvals).
Abbreviation ok := (sign_ok get_active ∅ sigs given).
Abbreviation satisfied := (satisfied get_active sigs given).
Abbreviation approves := (approves get_active sigs given).
Abbreviation check n := (check_authority get_active ∅ n).

Lemma new_sign_state_ok :
  ok ((new_sign_state sigs) <| approved_by ::= fun a => a ∪ active_approvals ∪ owner_approvals |>).
Proof.
  split; simpl; try done.
  - intros k. rewrite lookup_gset_to_gmap. destruct (decide (k ∈ sigs)).
    + rewrite option_guard_True by done. split; [eauto|done].
    + rewrite option_guard_False by done. split; [done|]. by intros [[? ?]|?%elem_of_empty].
  - intros a Ha. exists O. unfold Authority.approves. rewrite bool_decide_eq_true_2; [done|]. exact Ha.
Qed.

Lemma check_account_spec n id s b s' :
  ok s -> check_account get_active ∅ n id s = Ok (b, s') ->
  ok s' /\ (approves (S n) id = true -> b = true) /\ (b = true -> exists m, approves m id = true).
Proof.
  intros Hs. unfold check_account. case_decide as Hid; intros H.
  { inv_result. split_and!; [done|done|]. intros _. exact (ok_approved _ _ _ _ _ Hs id Hid). }
  assert (Hna : bool_decide (id ∈ given) = false)
    by (apply bool_decide_eq_false_2; intros ?; by apply Hid, (ok_approvals _ _ _ _ _ Hs)).
  unfold Authority.approves. rewrite Hna. simpl. inv_result.
  match goal with Hg : get_active id = Ok ?o |- _ => destruct o as [au|]; rewrite Hg end;
    [|by destruct n; simplify_eq/=; inv_result].
  apply (check_authority_spec _ _ sigs given) in H as (Hs' & Hl & Hu); [|done|by eapply active_light|done].
  split_and!; [done|done|]. intros [m Hm]%Hu. by exists (S m).
Qed.

Lemma check_owner_spec n id s b s' :
  ok s -> (au ← get_owner id; check n au s) = Ok (b, s') ->
  ok s' /\ (owner_satisfied get_active get_owner sigs active_approvals owner_approvals n id -> b = true) /\
  (b = true -> exists m, owner_satisfied get_active get_owner sigs active_approvals owner_approvals m id).
Proof.
  intros Hs H. inv_result. unfold owner_satisfied.
  match goal with Hg : get_owner id = Ok ?o |- _ => destruct o as [au|]; rewrite Hg end;
    [|destruct n; simplify_eq/=; (split; [done|]); (split; [by intros (? & ? & _)|done])].
  apply (check_authority_spec _ _ sigs given) in H as (Hs' & Hl & Hu); [|done|by eapply owner_light|done].
  split_and!; [done|by intros (? & [= <-] & ?); auto|]. intros [m Hm]%Hu. eauto.
Qed.

Lemma owner_satisfied_mono n m id :
  (n <= m)%nat -> owner_satisfied get_active get_owner sigs active_approvals owner_approvals n id ->
  owner_satisfied get_active get_owner sigs active_approvals owner_approvals m id.
Proof.
  intros Hnm (au & E & H). exists au. split; [done|].
  eapply satisfied_mono; [done|by eapply owner_light|exact Hnm|exact H].
Qed.

Lemma check_active_or_owner n id s b s' :
  ok s -> or_else (check_account get_active ∅ n id s) (fun s => au ← get_owner id; check n au s) = Ok (b, s') ->
  ok s' /\
  (approves (S n) id = true \/ owner_satisfied get_active get_owner sigs active_approvals owner_approvals n id -> b = true) /\
  (b = true -> exists m, approves (S m) id = true
     \/ owner_satisfied get_active get_owner sigs active_approvals owner_approvals m id).
Proof.
  intros Hs H. unfold or_else in H. inv_result. destruct a as [b1 s1].
  match goal with H : check_account _ _ _ _ _ = _ |- _ => apply check_account_spec in H as (Hs1 & Hl1 & Hu1); [|done] end.
  destruct b1.
  - inv_result. split_and!; [done|done|]. intros _. destruct (Hu1 eq_refl) as [m Hm]. exists m. left.
    eapply approves_mono; [done| |exact Hm]. lia.
  - apply check_owner_spec in H as (Hs2 & Hl2 & Hu2); [|done]. split_and!; [done| |].
    + intros [Ha|Ho]; [by specialize (Hl1 Ha)|auto].
    + intros Hb. destruct (Hu2 Hb) as [m Hm]. eauto.
Qed.

Lemma check_owner_or_approval n id s b s' :
  ok s -> (if decide (id ∈ owner_approvals) then Ok (true, s) else au ← get_owner id; check n au s) = Ok (b, s') ->
  ok s' /\
  (id ∈ owner_approvals \/ owner_satisfied get_active get_owner sigs active_approvals owner_approvals n id -> b = true) /\
  (b = true -> exists m, id ∈ owner_approvals
     \/ owner_satisfied get_active get_owner sigs active_approvals owner_approvals m id).
Proof.
  intros Hs H. case_decide; [inv_result; split_and!; [done|done|]; intros _; exists O; by left|].
  apply check_owner_spec in H as (Hs2 & Hl2 & Hu2); [|done]. split_and!; [done|by intros [?|?]; auto|].
  intros Hb. destruct (Hu2 Hb) as [m Hm]. eauto.
Qed.
Lemma check_other_spec n req au s b s' :
  (forall au, au ∈ other req -> light au) -> au ∈ other req -> ok s -> check n (Some au) s = Ok (b, s') ->
  ok s' /\ (satisfied n au = true -> b = true) /\ (b = true -> exists m, satisfied m au = true).
Proof. intros Lr Hau Hs. apply check_authority_spec; auto. Qed.

Abbreviation verify req n allow_committee :=
  (verify_required get_active get_owner req sigs n allow_committee active_approvals owner_approvals).

Lemma verify_sound req n allow_committee :
  (forall au, au ∈ other req -> light au) -> verify req n allow_committee = Ok tt ->
  (allow_committee = false -> ~ (GRAPHENE_COMMITTEE_ACCOUNT ∈ required_active req)) /\
  exists m, meets get_active get_owner sigs active_approvals owner_approvals m req.
Proof.
  intros Lr. unfold verify_required.
  pose proof new_sign_state_ok as Hs0.
  set (s0 := (new_sign_state sigs) <| approved_by ::= _ |>) in *.
  intros H. inv_result. match goal with H : (if allow_committee then _ else _) = _ |- _ => rename H into Hc end.
  repeat match goal with H : foldM _ _ _ = Ok _ |- _ => revert H end. intros E1 E2 E3.
  apply (require_all get_active ∅ sigs given _ _ (fun au => exists m, satisfied m au = true)) in E1
    as [Hs1 O1]; [|intros ???? H1 H2 H3; destruct (check_other_spec n req _ _ _ _ Lr H1 H2 H3) as (? & _ & ?); done|done].
  apply (require_all get_active ∅ sigs given _ _ (fun id => exists m, approves (S m) id = true
    \/ owner_satisfied get_active get_owner sigs active_approvals owner_approvals m id)) in E2
    as [Hs2 O2]; [|intros ???? H1 H2 H3; destruct (check_active_or_owner _ _ _ _ _ H2 H3) as (? & _ & ?); done|done].
  apply (require_all get_active ∅ sigs given _ _ (fun id => exists m, id ∈ owner_approvals
    \/ owner_satisfied get_active get_owner sigs active_approvals owner_approvals m id)) in E3
    as [Hs3 O3]; [|intros ???? H1 H2 H3; destruct (check_owner_or_approval _ _ _ _ _ H2 H3) as (? & _ & ?); done|done].
  split; [intros ->; simpl in Hc; inv_result; by bool_to_prop|].
  apply eventually_all in O1 as [n1 F1]; [|intros k m au Hau Hle; apply satisfied_mono; auto].
  apply eventually_all in O2 as [n2 F2].
  2: { intros k m id _ Hle [Hid|Hid]; [left|right]; [|by eapply owner_satisfied_mono].
       eapply approves_mono; [done| |exact Hid]. lia. }
  apply eventually_all in O3 as [n3 F3].
  2: { intros k m id _ Hle [Hid|Hid]; [by left|right]. by eapply owner_satisfied_mono. }
  exists ((n1 `max` n2) `max` n3)%nat. split; intros; [apply F1|apply F2|apply F3]; done || lia.
Qed.

Lemma verify_complete req n allow_committee e :
  (forall au, au ∈ other req -> light au) -> proper get_active -> proper get_owner ->
  meets get_active get_owner sigs active_approvals owner_approvals n req ->
  verify req n allow_committee = Err e -> missing_auth e = false.
Proof.
  intros Lr. unfold verify_required.
  pose proof new_sign_state_ok as Hs0.
  set (s0 := (new_sign_state sigs) <| approved_by ::= _ |>) in *.
  intros Pa Po [M1 M2 M3] H.
  apply bind_Err in H as [H|(? & _ & H)]; [destruct allow_committee; [done|]; apply guard_or_Err in H as [_ <-]; done|].
  assert (Eo : forall id s e, (au ← get_owner id; check_authority get_active ∅ n au s) = Err e -> missing_auth e = false).
  { intros id s e' [Hg|(au & _ & Hg)]%bind_Err; [by eapply Po|]. eapply check_authority_error; [|exact Hg]. done. }
  apply bind_Err in H as [H|(s1 & E1 & H)].
  { refine (require_all_error get_active ∅ sigs given _ _ _ _ _ _ _ M1 _ Hs0 H).
    - intros ???? H1 H2 H3; destruct (check_other_spec n req _ _ _ _ Lr H1 H2 H3) as (? & ? & ?); done.
    - intros au s. by apply check_authority_error. }
  apply (require_all get_active ∅ sigs given _ _ (fun _ => True)) in E1 as [Hs1 _];
    [|intros ???? H1 H2 H3; by destruct (check_other_spec n req _ _ _ _ Lr H1 H2 H3)|done].
  apply bind_Err in H as [H|(s2 & E2 & H)].
  { refine (require_all_error get_active ∅ sigs given _ _ _ _ _ _ _ M2 _ Hs1 H).
    - intros ???? H1 H2 H3; destruct (check_active_or_owner _ _ _ _ _ H2 H3) as (? & ? & ?); done.
    - intros id s [Hc|([[] s'] & _ & Hc)]%bind_Err; [|done|by eapply Eo].
      unfold check_account in Hc. case_decide; [done|].
      apply bind_Err in Hc as [Hc|(au & _ & Hc)]; [by eapply Pa|eapply check_authority_error; [exact Pa|exact Hc]]. }
  apply (require_all get_active ∅ sigs given _ _ (fun _ => True)) in E2 as [Hs2 _];
    [|intros ???? H1 H2 H3; by destruct (check_active_or_owner _ _ _ _ _ H2 H3)|done].
  apply bind_Err in H as [H|(s3 & E3 & H)]; [|by apply guard_or_Err in H as [_ <-]].
  refine (require_all_error get_active ∅ sigs given _ _ _ _ _ _ _ M3 _ Hs2 H).
  + intros ???? H1 H2 H3; destruct (check_owner_or_approval _ _ _ _ _ H2 H3) as (? & ? & ?); done.
  + intros id s. case_decide; [done|apply Eo].
Qed.
End Verification.

(** ** Properties *)

(** C20: verification refines the specification of authorities.  If it accepts,
    every required authority is satisfied (at some depth) by the keys that signed
    and the approvals given, and the committee is not among those required; and it
    reports a missing authority only if one is not satisfied within the depth
    limit. *)
Theorem verify_authority_refines `{FC : FcLib, BL : BlockLib, KL : KeyLib, NE : NthElement}
    (get_active get_owner : N -> result (option authority)) (req : required) (sigs : gset public_key) (n : nat)
    (allow_committee : bool) (active_approvals owner_approvals : gset N) :
  (forall a au, get_active a = Ok (Some au) -> light au) -> (forall a au, get_owner a = Ok (Some au) -> light au) ->
  (forall au, au ∈ other req -> light au) ->
  let r := verify_required get_active get_owner req sigs n allow_committee active_approvals owner_approvals in
  (r = Ok tt ->
     (allow_committee = false -> ~ (GRAPHENE_COMMITTEE_ACCOUNT ∈ required_active req)) /\
     exists m, meets get_active get_owner sigs active_approvals owner_approvals m req) /\
  (proper get_active -> proper get_owner -> meets get_active get_owner sigs active_approvals owner_approvals n req ->
     forall e, r = Err e -> missing_auth e = false).
Proof.
  intros La Lo Lr r. split; [by apply verify_sound|]. intros Pa Po M e. by apply verify_complete.
Qed.

(** ** Witnesses *)

#[export] Instance key_ref : KeyLib := {|
  pts_address k compressed version := (k * 1000 + version * 2 + (if compressed then 1 else 0) : Z);
  key_address k := (k * 1000 + 999 : Z);
|}.

(** Alice: her own key and Bob; Bob: his key. *)
Definition ex_active (a : N) : result (option authority) :=
  if (a =? 10)%N then Ok (Some (Authority 2 [(11%N, 1)] [(7, 1)] []))
  else if (a =? 11)%N then Ok (Some (Authority 1 [] [(8, 1)] []))
  else Err (assert_exception "Unable to find Object").

Lemma ex_active_light a au : ex_active a = Ok (Some au) -> light au.
Proof.
  unfold ex_active. intros H. destruct (a =? 10)%N; [|destruct (a =? 11)%N; [|done]]; injection H as <-;
    (split; [by repeat constructor|by vm_compute]).
Qed.

Lemma ex_active_proper : proper ex_active.
Proof. intros a e. unfold ex_active. repeat case_match; try done. by intros [= <-]. Qed.

Lemma verify_authority_refines_witness :
  exists m, meets ex_active ex_active ({[7; 8]} : gset Z) ∅ ∅ m (Required [10%N] [] []).
Proof.
  destruct (@verify_authority_refines fc_ref block_ref key_ref sorting_nth_element ex_active ex_active
    (Required [10%N] [] []) ({[7; 8]} : gset Z) 2 false ∅ ∅ ex_active_light ex_active_light) as [H _].
  - by intros au ?%elem_of_nil.
  - destruct H as [_ Hm]; [by vm_compute|]. exact Hm.
Defined.

(** An address without a signature is undefined behaviour, not a missing signature. *)
Example address_without_signature :
  match check_authority ex_active ∅ 2 (Some (Authority 1 [] [] [(5, 1)])) (new_sign_state ∅) with
  | Err e => e = undefined_behaviour "itr->second"
  | Ok _ => False
  end.
Proof. by vm_compute. Qed.
