(* ===== verification/Proposals.v ===== *)
(** * Proposals

    Models [libraries/chain/proposal_evaluator.cpp], [proposal_object.cpp], the
    operations of [protocol/proposal.hpp] and those of the committee that only a
    proposal may contain ([committee_member_evaluator.cpp]: new parameters, the
    issue of construction capital, instant payback), [chain_parameters::validate],
    [database::push_proposal] and [clear_expired_proposals].

    An operation is one of those of [Operations.v] or one of these; a proposal holds
    a list of operations, so that the two types refer to each other.  Executing a
    proposal from an update of another one is a recursion: it has fuel, and two
    levels are enough because a proposal cannot contain an update
    ([execution_depth]). *)

From S2P Require Import Prelude FcLib Block Asset Vesting Objects Database Ledger Market Trading Deflation Evaluator.
From S2P Require Import MarketOps Feeds AssetOps AssetFacts Accounts Governance Capital Operations Frames Clearing Authority.

(** ** Operations of the committee *)

Record update_global_parameters_operation := Update_global_parameters_operation {
  gp_fee : asset;
  new_parameters : chain_parameters;
}.

Record issue_construction_capital_operation := Issue_construction_capital_operation {
  ic_fee : asset;
  ic_amount : Z;
  ic_receiver : N;
}.

Record grant_instant_payback_operation := Grant_instant_payback_operation {
  gi_fee : asset;
  gi_account_id : N;
  grant : bool;
}.

Definition GRAPHENE_MIN_BLOCK_INTERVAL : Z := 1.
Definition GRAPHENE_MAX_BLOCK_INTERVAL : Z := 30.
Definition GRAPHENE_MIN_TRANSACTION_SIZE_LIMIT : Z := 1024.
Definition GRAPHENE_MIN_BLOCK_SIZE_LIMIT : Z := GRAPHENE_MIN_TRANSACTION_SIZE_LIMIT * 5.

(** [chain_parameters::validate]; the fee schedule's own [validate] checks nothing.
    The difference in the last line is that of unsigned numbers. *)
Definition chain_parameters_validate (p : chain_parameters) : result unit :=
  _ ← FC_ASSERT (reserve_percent_of_fee p <=? GRAPHENE_100_PERCENT) "reserve_percent_of_fee <= GRAPHENE_100_PERCENT";
  _ ← FC_ASSERT (network_percent_of_fee p <=? GRAPHENE_100_PERCENT) "network_percent_of_fee <= GRAPHENE_100_PERCENT";
  _ ← FC_ASSERT (lifetime_referrer_percent_of_fee p <=? GRAPHENE_100_PERCENT)
        "lifetime_referrer_percent_of_fee <= GRAPHENE_100_PERCENT";
  _ ← FC_ASSERT (network_percent_of_fee p + lifetime_referrer_percent_of_fee p <=? GRAPHENE_100_PERCENT)
        "network_percent_of_fee + lifetime_referrer_percent_of_fee <= GRAPHENE_100_PERCENT";
  _ ← FC_ASSERT (GRAPHENE_MIN_BLOCK_INTERVAL <=? block_interval p) "block_interval >= GRAPHENE_MIN_BLOCK_INTERVAL";
  _ ← FC_ASSERT (block_interval p <=? GRAPHENE_MAX_BLOCK_INTERVAL) "block_interval <= GRAPHENE_MAX_BLOCK_INTERVAL";
  _ ← FC_ASSERT (0 <? block_interval p) "block_interval > 0";
  _ ← FC_ASSERT (block_interval p <? maintenance_interval p) "Maintenance interval must be longer than block interval";
  _ ← FC_ASSERT (maintenance_interval p mod block_interval p =? 0)
        "Maintenance interval must be a multiple of block interval";
  _ ← FC_ASSERT (GRAPHENE_MIN_TRANSACTION_SIZE_LIMIT <=? maximum_transaction_size p) "Transaction size limit is too low";
  _ ← FC_ASSERT (GRAPHENE_MIN_BLOCK_SIZE_LIMIT <=? maximum_block_size p) "Block size limit is too low";
  _ ← FC_ASSERT (block_interval p <? maximum_time_until_expiration p)
        "Maximum transaction expiration time must be greater than a block interval";
  FC_ASSERT (block_interval p <? wrap32 (maximum_proposal_lifetime p - committee_proposal_review_period p))
    "Committee proposal review period must be less than the maximum proposal lifetime".

Section Committee.
Context `{FC : FcLib}.
Implicit Types (db : database) (proposed : bool).

(** [trx_state->_is_proposed_trx] *)
Definition only_proposed proposed : result unit := FC_ASSERT proposed "trx_state->_is_proposed_trx".

Definition update_global_parameters_validate (op : update_global_parameters_operation) : result unit :=
  _ ← fee_nonneg (gp_fee op);
  chain_parameters_validate (new_parameters op).

Definition update_global_parameters_do_apply db (op : update_global_parameters_operation) : result database :=
  Ok (db <| gov ::= fun g => g <| pending_parameters := Some (new_parameters op) |> |>).

Definition issue_construction_capital_do_evaluate proposed db (op : issue_construction_capital_operation) : result unit :=
  _ ← only_proposed proposed;
  _ ← FC_ASSERT (ic_amount op <=? amount (get_balance db GRAPHENE_CONSTRUCTION_CAPITAL_ACCOUNT CORE_ASSET))
        "transfer amount should not greater than GRAPHENE_CONSTRUCTION_CAPITAL_ACCOUNT's balance";
  _ ← FC_ASSERT (is_some (tbl_find (accounts db) (ic_receiver op))) "receiver not found";
  FC_ASSERT (amount (ic_fee op) <? ic_amount op) "increase_supply should issue fee at least".

Definition issue_construction_capital_do_apply db (op : issue_construction_capital_operation) : result database :=
  db ← adjust_balance db (ic_receiver op) (Asset (ic_amount op) CORE_ASSET);
  n ← asset_neg (Asset (ic_amount op) CORE_ASSET);
  adjust_balance db GRAPHENE_CONSTRUCTION_CAPITAL_ACCOUNT n.

Definition grant_instant_payback_do_evaluate proposed db (op : grant_instant_payback_operation) : result unit :=
  _ ← only_proposed proposed;
  FC_ASSERT (is_some (tbl_find (accounts db) (gi_account_id op))) "account not found".

Definition grant_instant_payback_do_apply db (op : grant_instant_payback_operation) : result database :=
  _ ← of_option (tbl_find (accounts db) (gi_account_id op)) (undefined_behaviour "*acc_obj");
  Ok (db <| accounts ::= fun t => tbl_modify t (gi_account_id op) (fun a =>
        a <| instant_payback_expiration_date := if grant op then wrap32 (head_block_time db + days 365) else 0 |>) |>).
End Committee.

(** The evaluators, with the mark of a proposed transaction.  The committee pays. *)
#[export] Instance update_global_parameters_evaluator `{FC : FcLib} : Evaluator (bool * update_global_parameters_operation) := {|
  validate op := update_global_parameters_validate op.2; fee_payer _ := GRAPHENE_COMMITTEE_ACCOUNT; op_fee op := gp_fee op.2;
  do_evaluate db st op := keep st (only_proposed op.1); pay_fee := generic_pay_fee;
  do_apply db _ op := update_global_parameters_do_apply db op.2;
|}.

#[export] Instance issue_construction_capital_evaluator `{FC : FcLib} : Evaluator (bool * issue_construction_capital_operation) := {|
  validate op := fee_nonneg (ic_fee op.2); fee_payer _ := GRAPHENE_COMMITTEE_ACCOUNT; op_fee op := ic_fee op.2;
  do_evaluate db st op := keep st (issue_construction_capital_do_evaluate op.1 db op.2); pay_fee := generic_pay_fee;
  do_apply db _ op := issue_construction_capital_do_apply db op.2;
|}.

#[export] Instance grant_instant_payback_evaluator `{FC : FcLib} : Evaluator (bool * grant_instant_payback_operation) := {|
  validate op := fee_nonneg (gi_fee op.2); fee_payer _ := GRAPHENE_COMMITTEE_ACCOUNT; op_fee op := gi_fee op.2;
  do_evaluate db st op := keep st (grant_instant_payback_do_evaluate op.1 db op.2); pay_fee := generic_pay_fee;
  do_apply db _ op := grant_instant_payback_do_apply db op.2;
|}.

(** ** Proposals *)

Record proposal_create_operation (Op : Type) := Proposal_create_operation {
  pc_fee : asset;
  pc_fee_paying_account : N;
  proposed_ops : list Op;
  pc_expiration_time : Z;
  review_period_seconds : option Z;
}.
Arguments Proposal_create_operation {Op} _ _ _ _ _.
Arguments pc_fee {Op} _.
Arguments pc_fee_paying_account {Op} _.
Arguments proposed_ops {Op} _.
Arguments pc_expiration_time {Op} _.
Arguments review_period_seconds {Op} _.

Record proposal_update_operation := Proposal_update_operation {
  pu_fee_paying_account : N;
  pu_fee : asset;
  pu_proposal : N;
  active_approvals_to_add : gset N;
  active_approvals_to_remove : gset N;
  owner_approvals_to_add : gset N;
  owner_approvals_to_remove : gset N;
  key_approvals_to_add : gset public_key;
  key_approvals_to_remove : gset public_key;
}.

Record proposal_delete_operation := Proposal_delete_operation {
  pd_fee_paying_account : N;
  using_owner_authority : bool;
  pd_fee : asset;
  pd_proposal : N;
}.

#[warnings="-register-all"] Inductive full_operation :=
  | ordinary (op : operation)
  | committee_update_global_parameters (op : update_global_parameters_operation)
  | committee_issue_construction_capital (op : issue_construction_capital_operation)
  | committee_grant_instant_payback (op : grant_instant_payback_operation)
  | proposal_create (op : proposal_create_operation full_operation)
  | proposal_update (op : proposal_update_operation)
  | proposal_delete (op : proposal_delete_operation).

Record proposal_object := Proposal_object {
  expiration_time : Z;
  review_period_time : option Z;
  proposed_operations : list full_operation;
  required_active_approvals : gset N;
  available_active_approvals : gset N;
  required_owner_approvals : gset N;
  available_owner_approvals : gset N;
  available_key_approvals : gset public_key;
}.

#[export] Instance settable_proposal : Settable proposal_object := fun p =>
  Proposal_object (expiration_time p) (review_period_time p) (proposed_operations p) (required_active_approvals p)
    (available_active_approvals p) (required_owner_approvals p) (available_owner_approvals p) (available_key_approvals p).

(** The database with its proposals. *)
Record full_state := Full_state {
  base_db : database;
  proposals : table proposal_object;
}.

#[export] Instance settable_full_state : Settable full_state := fun s => Full_state (base_db s) (proposals s).

Section Proposals.
Context `{FC : FcLib, BL : BlockLib, KL : KeyLib, NE : NthElement}.
Implicit Types (db : database) (s : full_state).

(** *** Validation *)

Definition disjoint_approvals `{Countable K} (add remove : gset K) : result unit :=
  FC_ASSERT (bool_decide (add ## remove)) "Cannot add and remove approval at the same time.".

Definition proposal_update_validate (o : proposal_update_operation) : result unit :=
  _ ← FC_ASSERT (0 <=? amount (pu_fee o)) "fee.amount >= 0";
  _ ← FC_ASSERT (negb (bool_decide (active_approvals_to_add o = ∅) && bool_decide (active_approvals_to_remove o = ∅)
                       && bool_decide (owner_approvals_to_add o = ∅) && bool_decide (owner_approvals_to_remove o = ∅)
                       && bool_decide (key_approvals_to_add o = ∅) && bool_decide (key_approvals_to_remove o = ∅)))
        "approvals";
  _ ← disjoint_approvals (active_approvals_to_add o) (active_approvals_to_remove o);
  _ ← disjoint_approvals (owner_approvals_to_add o) (owner_approvals_to_remove o);
  disjoint_approvals (key_approvals_to_add o) (key_approvals_to_remove o).

(** [operation_validate]: a proposal validates what it proposes. *)
Fixpoint full_validate (op : full_operation) : result unit :=
  match op with
  | ordinary op => operation_validate op
  | committee_update_global_parameters op => update_global_parameters_validate op
  | committee_issue_construction_capital op => fee_nonneg (ic_fee op)
  | committee_grant_instant_payback op => fee_nonneg (gi_fee op)
  | proposal_create o =>
      _ ← FC_ASSERT (negb (length (proposed_ops o) =? 0)%nat) "!proposed_ops.empty()";
      (fix all (l : list full_operation) : result unit :=
         match l with [] => Ok tt | x :: l => _ ← full_validate x; all l end) (proposed_ops o)
  | proposal_update o => proposal_update_validate o
  | proposal_delete o => FC_ASSERT (0 <=? amount (pd_fee o)) "fee.amount >= 0"
  end.

(** [transaction::validate] *)
Definition full_transaction_validate (ops : list full_operation) : result unit :=
  _ ← FC_ASSERT (0 <? Z.of_nat (length ops)) "A transaction must have at least one operation";
  foldM (fun _ op => full_validate op) tt ops.

(** *** Required authorities *)

Definition full_fee_payer (op : full_operation) : N :=
  match op with
  | ordinary op => operation_fee_payer op
  | committee_update_global_parameters _ | committee_issue_construction_capital _
  | committee_grant_instant_payback _ => GRAPHENE_COMMITTEE_ACCOUNT
  | proposal_create o => pc_fee_paying_account o
  | proposal_update o => pu_fee_paying_account o
  | proposal_delete o => pd_fee_paying_account o
  end.

Definition full_required_active (op : full_operation) : list N :=
  match op with
  | ordinary op => operation_required_active op
  | proposal_update o => elements (active_approvals_to_add o ∪ active_approvals_to_remove o)
  | _ => []
  end.

Definition full_required_owner (op : full_operation) : list N :=
  match op with
  | ordinary op => operation_required_owner op
  | proposal_update o => elements (owner_approvals_to_add o ∪ owner_approvals_to_remove o)
  | _ => []
  end.

(** [proposal_update_operation::get_required_authorities]: all keys that are added
    or removed; an authority even when there are none. *)
Definition full_other (op : full_operation) : list authority :=
  match op with
  | proposal_update o =>
      let keys := key_approvals_to_add o ∪ key_approvals_to_remove o in
      [Authority (wrap32 (Z.of_nat (size keys))) [] (map (fun k => (k, 1)) (merge_sort Z.le (elements keys))) []]
  | _ => []
  end.

Definition full_required (ops : list full_operation) : required :=
  Required (flat (ops ≫= fun op => full_fee_payer op :: full_required_active op)) (flat (ops ≫= full_required_owner))
    (ops ≫= full_other).

(** [proposal_object::is_authorized_to_execute] *)
Definition is_authorized_to_execute db (p : proposal_object) : result bool :=
  let get_active id := a ← tbl_get (accounts db) id; Ok (Some (active_authority a)) in
  let get_owner id := a ← tbl_get (accounts db) id; Ok (Some (owner_authority a)) in
  match verify_required get_active get_owner (full_required (proposed_operations p)) (available_key_approvals p)
          (Z.to_nat (max_authority_depth (parameters db))) true (available_active_approvals p)
          (available_owner_approvals p) with
  | Ok _ => Ok true
  | Err e => if is_fc_exception e then Ok false else Err e
  end.

(** *** Creating, approving and deleting *)

Definition proposal_create_do_evaluate s (o : proposal_create_operation full_operation) : result unit :=
  let db := base_db s in
  let now := head_block_time db in
  let p := parameters db in
  _ ← FC_ASSERT (now <? pc_expiration_time o) "Proposal has already expired on creation.";
  _ ← FC_ASSERT (pc_expiration_time o <=? wrap32 (now + maximum_proposal_lifetime p))
        "Proposal expiration time is too far in the future.";
  _ ← FC_ASSERT (match review_period_seconds o with Some r => r <? pc_expiration_time o - now | None => true end)
        "Proposal review period must be less than its overall lifetime.";
  let req := full_required (proposed_ops o) in
  _ ← FC_ASSERT (length (other req) =? 0)%nat "other.size() == 0";
  _ ← (if bool_decide (GRAPHENE_COMMITTEE_ACCOUNT ∈ required_active req ++ required_owner req) then
         r ← of_option (review_period_seconds o) (graphene_exception "proposal_create_review_period_required");
         GRAPHENE_ASSERT (committee_proposal_review_period p <=? r) "proposal_create_review_period_insufficient"
       else Ok tt);
  full_transaction_validate (proposed_ops o).

Definition new_proposal (o : proposal_create_operation full_operation) : proposal_object :=
  let req := full_required (proposed_ops o) in
  let owner := list_to_set (required_owner req) in
  Proposal_object (pc_expiration_time o) ((fun r => wrap32 (pc_expiration_time o - r)) <$> review_period_seconds o)
    (proposed_ops o) (list_to_set (required_active req) ∖ owner) ∅ owner ∅ ∅.

Definition proposal_create_do_apply s (o : proposal_create_operation full_operation) : full_state :=
  s <| proposals ::= fun t => (tbl_create t (new_proposal o)).2 |>.

Definition in_review db (p : proposal_object) : bool :=
  match review_period_time p with Some t => t <=? head_block_time db | None => false end.

Definition proposal_update_do_evaluate s (o : proposal_update_operation) : result unit :=
  p ← tbl_get (proposals s) (pu_proposal o);
  _ ← (if in_review (base_db s) p then
         FC_ASSERT (bool_decide (active_approvals_to_add o = ∅) && bool_decide (owner_approvals_to_add o = ∅))
           "This proposal is in its review period. No new approvals may be added."
       else Ok tt);
  _ ← FC_ASSERT (bool_decide (active_approvals_to_remove o ⊆ available_active_approvals p)) "active_approvals_to_remove";
  FC_ASSERT (bool_decide (owner_approvals_to_remove o ⊆ available_owner_approvals p)) "owner_approvals_to_remove".

Definition update_approvals (o : proposal_update_operation) (p : proposal_object) : proposal_object :=
  p <| available_active_approvals ::= fun a => (a ∪ active_approvals_to_add o) ∖ active_approvals_to_remove o |>
    <| available_owner_approvals ::= fun a => (a ∪ owner_approvals_to_add o) ∖ owner_approvals_to_remove o |>
    <| available_key_approvals ::= fun a => (a ∪ key_approvals_to_add o) ∖ key_approvals_to_remove o |>.

Definition proposal_delete_do_evaluate s (o : proposal_delete_operation) : result unit :=
  p ← tbl_get (proposals s) (pd_proposal o);
  let required_approvals := if using_owner_authority o then required_owner_approvals p else required_active_approvals p in
  FC_ASSERT (bool_decide (pd_fee_paying_account o ∈ required_approvals))
    "Provided authority is not authoritative for this proposal.".

(** *** Execution *)

Section Execute.
(** What the fee schedule says of an operation, and its scale. *)
Variables (fees : full_operation -> Z) (fee_scale : Z).

Definition context_for (op : full_operation) : evaluation_context := Evaluation_context false false (fees op) fee_scale.

(** [generic_evaluator::start_evaluate] for an operation on proposals. *)
Definition start_on_proposals s (op : full_operation) (payer : N) (fee : asset) (evaluate : result unit)
    (apply : full_state -> result full_state) : result full_state :=
  let ctx := context_for op in
  st ← prepare_fee (base_db s) payer fee;
  required ← calculate_fee (base_value ctx) (scale ctx) (unit_price CORE_ASSET);
  _ ← GRAPHENE_ASSERT (amount required <=? core_fee_paid st) "insufficient_fee";
  _ ← evaluate;
  db ← convert_fee ctx (base_db s) st;
  '(st, db) ← generic_pay_fee ctx db payer st;
  s ← apply (s <| base_db := db |>);
  n ← asset_neg (fee_from_account st);
  db ← adjust_balance (base_db s) payer n;
  Ok (s <| base_db := db |>).

Definition on_database s (r : result database) : result full_state := db ← r; Ok (s <| base_db := db |>).

(** [push_proposal]: the operations of the proposal, then it is removed.  The loop
    refers to the proposal: when one of its operations has deleted it, the reference
    dangles. *)
Definition push_proposal (execute : full_state -> full_operation -> result full_state) s (i : N) : result full_state :=
  p ← tbl_get (proposals s) i;
  s ← foldM (fun s op =>
        s ← execute s op;
        _ ← guard_or (undefined_behaviour "proposal") (is_some (tbl_find (proposals s) i));
        Ok s) s (proposed_operations p);
  Ok (s <| proposals ::= fun t => tbl_remove t i |>).

(** A proposal without a review period is executed as soon as it can; when that
    fails nothing of it stays and it waits for its expiration. *)
Definition proposal_update_do_apply (push : full_state -> N -> result full_state) (o : proposal_update_operation) s
  : result full_state :=
  let i := pu_proposal o in
  let s := s <| proposals ::= fun t => tbl_modify t i (update_approvals o) |> in
  p ← tbl_get (proposals s) i;
  match review_period_time p with
  | Some _ => Ok s
  | None =>
      authorized ← is_authorized_to_execute (base_db s) p;
      if authorized : bool then
        match push s i with
        | Ok s => Ok s
        | Err e => if is_fc_exception e then Ok s else Err e
        end
      else Ok s
  end.

(** [database::apply_operation]; [proposed]: in the transaction of a proposal. *)
Fixpoint execute (fuel : nat) (proposed : bool) s (op : full_operation) : result full_state :=
  match fuel with
  | O => Err out_of_fuel
  | S fuel =>
      let ctx := context_for op in
      match op with
      | ordinary o => on_database s (apply_operation ctx (base_db s) o)
      | committee_update_global_parameters o => on_database s (start_evaluate ctx (base_db s) (proposed, o))
      | committee_issue_construction_capital o => on_database s (start_evaluate ctx (base_db s) (proposed, o))
      | committee_grant_instant_payback o => on_database s (start_evaluate ctx (base_db s) (proposed, o))
      | proposal_create o =>
          start_on_proposals s op (pc_fee_paying_account o) (pc_fee o) (proposal_create_do_evaluate s o)
            (fun s => Ok (proposal_create_do_apply s o))
      | proposal_update o =>
          start_on_proposals s op (pu_fee_paying_account o) (pu_fee o) (proposal_update_do_evaluate s o)
            (proposal_update_do_apply (push_proposal (execute fuel true)) o)
      | proposal_delete o =>
          start_on_proposals s op (pd_fee_paying_account o) (pd_fee o) (proposal_delete_do_evaluate s o)
            (fun s => Ok (s <| proposals ::= fun t => tbl_remove t (pd_proposal o) |>))
      end
  end.

(** Two levels: see [execution_depth]. *)
Definition execution_fuel : nat := 2.
Definition apply_full_operation (proposed : bool) s (op : full_operation) : result full_state :=
  execute execution_fuel proposed s op.

(** The operations of a transaction; nothing may stay in the temporary account. *)
Definition apply_full_operations s (ops : list full_operation) : result full_state :=
  s ← foldM (apply_full_operation false) s ops;
  _ ← FC_ASSERT (temp_account_empty (base_db s)) "b.balance == 0";
  Ok s.

(** The index by_expiration. *)
Definition expires_first (x y : N * proposal_object) : Prop :=
  expiration_time x.2 < expiration_time y.2 \/ expiration_time x.2 = expiration_time y.2 /\ (x.1 <= y.1)%N.
#[export] Instance expires_first_dec x y : Decision (expires_first x y).
Proof. unfold expires_first. apply _. Defined.

Definition first_proposal s : option (N * proposal_object) :=
  head (merge_sort expires_first (map_to_list (objs (proposals s)))).

Definition proposal_expired s : bool :=
  match first_proposal s with Some (_, p) => expiration_time p <=? head_block_time (base_db s) | None => false end.

(** An expired proposal is executed if it has been approved, and gone in any case. *)
Definition clear_first_proposal s : result full_state :=
  match first_proposal s with
  | None => Ok s
  | Some (i, p) =>
      let removed := s <| proposals ::= fun t => tbl_remove t i |> in
      match
        (authorized ← is_authorized_to_execute (base_db s) p;
         if authorized : bool then (s ← push_proposal (apply_full_operation true) s i; Ok (Some s)) else Ok None)
      with
      | Ok (Some s) => Ok s
      | Ok None => Ok removed
      | Err e => if is_fc_exception e then Ok removed else Err e
      end
  end.

Definition clear_expired_proposals s : result full_state :=
  while proposal_expired clear_first_proposal (S (size (objs (proposals s)))) s.
End Execute.
End Proposals.

(** ** Facts *)

Definition is_update (op : full_operation) : bool := match op with proposal_update _ => true | _ => false end.

(** No proposal on the chain contains an update of a proposal. *)
Definition plain_proposals (s : full_state) : Prop :=
  forall i p, objs (proposals s) !! i = Some p -> Forall (fun op => is_update op = false) (proposed_operations p).

Section Facts.
Context `{FC : FcLib, BL : BlockLib, KL : KeyLib, NE : NthElement}.
Variables (fees : full_operation -> Z) (fee_scale : Z).
Implicit Types (db : database) (s : full_state).

Abbreviation execute := (execute fees fee_scale).
Abbreviation start := (start_on_proposals fees fee_scale).

Lemma no_other_no_update ops : other (full_required ops) = [] -> Forall (fun op => is_update op = false) ops.
Proof.
  unfold full_required. cbn [other]. induction ops as [|op ops IH]; [done|]. cbn. intros H.
  apply app_nil in H as [H1 H2]. constructor; [by destruct op|by apply IH].
Qed.

Lemma full_required_other ops : Forall (fun op => is_update op = false) ops -> other (full_required ops) = [].
Proof.
  unfold full_required. cbn [other]. induction 1 as [|op ops Hop _ IH]; [done|]. cbn. rewrite IH. by destruct op.
Qed.

(** What a step of an operation on proposals consists of. *)
Lemma start_inv s op payer fee ev f s' :
  start s op payer fee ev f = Ok s' ->
  exists st db1 db2 s3 n db3, prepare_fee (base_db s) payer fee = Ok st /\ ev = Ok tt /\
    convert_fee (context_for fees fee_scale op) (base_db s) st = Ok db1 /\
    generic_pay_fee (context_for fees fee_scale op) db1 payer st = Ok (st, db2) /\
    f (s <| base_db := db2 |>) = Ok s3 /\ asset_neg (fee_from_account st) = Ok n /\
    adjust_balance (base_db s3) payer n = Ok db3 /\ s' = s3 <| base_db := db3 |>.
Proof.
  unfold start_on_proposals. cbv zeta. intros (st & H1 & H)%bind_Ok. apply bind_Ok in H as (r & _ & H).
  apply bind_Ok in H as (_ & _ & H). apply bind_Ok in H as ([] & H2 & H). apply bind_Ok in H as (db1 & H3 & H).
  apply bind_Ok in H as ([st2 db2] & H4 & H). apply bind_Ok in H as (s3 & H5 & H). apply bind_Ok in H as (n & H6 & H).
  apply bind_Ok in H as (db3 & H7 & [= <-]). pose proof (generic_pay_fee_frame _ _ _ _ _ _ H4) as [-> _].
  by exists st, db1, db2, s3, n, db3.
Qed.

Lemma start_ext s op payer fee ev f g :
  (forall db, f (s <| base_db := db |>) = g (s <| base_db := db |>)) -> start s op payer fee ev f = start s op payer fee ev g.
Proof.
  intros E. unfold start_on_proposals. cbv zeta.
  repeat match goal with |- (?m ≫= _) = (?m ≫= _) => destruct m as [x|e]; [cbn [mbind result_bind]; try destruct x|done] end.
  by rewrite E.
Qed.

(** *** The depth of the recursion *)

Lemma plain_modify s i f :
  (forall p, proposed_operations (f p) = proposed_operations p) -> plain_proposals s ->
  plain_proposals (s <| proposals ::= fun t => tbl_modify t i f |>).
Proof.
  intros Hf H j p. cbn. destruct (decide (j = i)) as [->|]; [rewrite lookup_alter_eq|rewrite lookup_alter_ne by done; apply H].
  intros (q & Hq & ->)%fmap_Some. rewrite Hf. by eapply H.
Qed.

Lemma plain_remove s i : plain_proposals s -> plain_proposals (s <| proposals ::= fun t => tbl_remove t i |>).
Proof. intros H j p. cbn. intros [_ Hj]%lookup_delete_Some. by eapply H. Qed.

Lemma plain_same s s' : proposals s' = proposals s -> plain_proposals s -> plain_proposals s'.
Proof. intros E H. unfold plain_proposals. by rewrite E. Qed.

Lemma on_database_proposals s r s' : on_database s r = Ok s' -> proposals s' = proposals s.
Proof. unfold on_database. by intros (db & _ & [= <-])%bind_Ok. Qed.

Lemma push_plain f s i s' :
  (forall s op s', plain_proposals s -> f s op = Ok s' -> plain_proposals s') -> plain_proposals s ->
  push_proposal f s i = Ok s' -> plain_proposals s'.
Proof.
  intros Hf Hs (p & _ & H)%bind_Ok. apply bind_Ok in H as (s1 & H & [= <-]). apply plain_remove.
  refine (foldM_inv _ plain_proposals _ _ _ _ Hs H). intros s2 op s3 H2 _ (s4 & H4 & H3)%bind_Ok.
  apply bind_Ok in H3 as (_ & _ & [= <-]). by eapply Hf.
Qed.

(** The invariant is kept, at any depth. *)
Lemma execute_plain fuel : forall b s op s', plain_proposals s -> execute fuel b s op = Ok s' -> plain_proposals s'.
Proof.
  induction fuel as [|n IH]; intros b s op s' Hs H; [done|]. destruct op as [o|o|o|o|o|o|o]; cbn [Proposals.execute] in H.
  1-4: by apply on_database_proposals in H; eapply plain_same.
  - apply start_inv in H as (st & db1 & db2 & s3 & m & db3 & _ & Hev & _ & _ & [= <-] & _ & _ & ->).
    unfold proposal_create_do_evaluate in Hev. cbv zeta in Hev. apply bind_Ok in Hev as (_ & _ & Hev).
    apply bind_Ok in Hev as (_ & _ & Hev). apply bind_Ok in Hev as (_ & _ & Hev). apply bind_Ok in Hev as (u & Ho & _).
    apply guard_or_Ok, Nat.eqb_eq, length_zero_iff_nil in Ho.
    intros i p. cbn. intros [[<- <-]|[_ Hi]]%lookup_insert_Some; [by apply no_other_no_update|by eapply Hs].
  - apply start_inv in H as (st & db1 & db2 & s3 & m & db3 & _ & _ & _ & _ & H & _ & _ & ->).
    apply (plain_same s3); [done|]. unfold proposal_update_do_apply in H. cbv zeta in H.
    set (s1 := s <| base_db := db2 |> <| proposals ::= _ |>) in H.
    assert (P1 : plain_proposals s1) by (apply plain_modify; [done|exact Hs]).
    apply bind_Ok in H as (p & _ & H). destruct (review_period_time p); [by injection H as <-|].
    apply bind_Ok in H as (a & _ & H). destruct a; [|by injection H as <-].
    destruct (push_proposal _ _ _) as [s4|e] eqn:Hp.
    + injection H as <-. eapply push_plain; [|exact P1|exact Hp]. intros ? ? ?. apply IH.
    + destruct (is_fc_exception e); [by injection H as <-|done].
  - apply start_inv in H as (st & db1 & db2 & s3 & m & db3 & _ & _ & _ & _ & [= <-] & _ & _ & ->).
    apply (plain_same (s <| proposals ::= fun t => tbl_remove t (pd_proposal o) |>)); [done|by apply plain_remove].
Qed.

Lemma execute_leaf n m b s op : is_update op = false -> execute (S n) b s op = execute (S m) b s op.
Proof. by destruct op. Qed.

Lemma push_leaf n m s i : plain_proposals s ->
  push_proposal (execute (S n) true) s i = push_proposal (execute (S m) true) s i.
Proof.
  intros Hs. unfold push_proposal. destruct (tbl_get (proposals s) i) as [p|] eqn:Hp; [|done]. cbn [mbind result_bind].
  apply tbl_get_inv in Hp. apply Hs in Hp. rewrite Forall_forall in Hp.
  rewrite (foldM_ext _ (fun s op => s ← execute (S m) true s op;
    _ ← guard_or (undefined_behaviour "proposal") (is_some (tbl_find (proposals s) i)); Ok s)); [done|].
  intros s1 op Hop. by rewrite (execute_leaf n m) by auto.
Qed.

Lemma execute_depth n b s op : plain_proposals s -> execute (S (S n)) b s op = execute 2 b s op.
Proof.
  intros Hs. destruct (is_update op) eqn:Hop; [|by apply execute_leaf]. destruct op as [o|o|o|o|o|o|o]; try discriminate Hop.
  change (execute (S (S n)) b s (proposal_update o)) with
    (start s (proposal_update o) (pu_fee_paying_account o) (pu_fee o) (proposal_update_do_evaluate s o)
       (proposal_update_do_apply (push_proposal (execute (S n) true)) o)).
  change (execute 2 b s (proposal_update o)) with
    (start s (proposal_update o) (pu_fee_paying_account o) (pu_fee o) (proposal_update_do_evaluate s o)
       (proposal_update_do_apply (push_proposal (execute 1 true)) o)).
  apply start_ext. intros db. unfold proposal_update_do_apply. cbv zeta.
  set (s1 := s <| base_db := db |> <| proposals ::= _ |>). rewrite (push_leaf n 0); [done|].
  by apply plain_modify.
Qed.

(** *** Paying for an operation on proposals *)

Lemma paid_same ctx db payer st db1 db2 st2 :
  convert_fee ctx db st = Ok db1 -> generic_pay_fee ctx db1 payer st = Ok (st2, db2) -> same_chain db db2.
Proof. intros H1%convert_fee_keeps H2%generic_pay_fee_keeps. by etrans. Qed.

Definition active_of db (id : N) : result (option authority) :=
  a ← tbl_get (accounts db) id; Ok (Some (active_authority a)).
Definition owner_of db (id : N) : result (option authority) :=
  a ← tbl_get (accounts db) id; Ok (Some (owner_authority a)).

Lemma is_authorized_same db db' p :
  accounts db' = accounts db -> parameters db' = parameters db -> is_authorized_to_execute db' p = is_authorized_to_execute db p.
Proof. intros E1 E2. unfold is_authorized_to_execute. by rewrite E1, E2. Qed.

Lemma is_authorized_sound db p :
  (forall i a, objs (accounts db) !! i = Some a -> light (active_authority a) /\ light (owner_authority a)) ->
  Forall (fun op => is_update op = false) (proposed_operations p) -> is_authorized_to_execute db p = Ok true ->
  exists m, meets (active_of db) (owner_of db) (available_key_approvals p) (available_active_approvals p)
    (available_owner_approvals p) m (full_required (proposed_operations p)).
Proof.
  intros L Hp H. unfold is_authorized_to_execute in H.
  destruct (verify_required _ _ _ _ _ _ _ _) as [[]|e] eqn:Hv; [|destruct (is_fc_exception e); done].
  eapply verify_sound in Hv as [_ M]; [exact M| | |].
  - intros a au (x & Hx & [= <-])%bind_Ok. inv_get. by eapply L.
  - intros a au (x & Hx & [= <-])%bind_Ok. inv_get. by eapply L.
  - intros au Hau. rewrite full_required_other in Hau by done. by apply elem_of_nil in Hau.
Qed.

(** *** Time and age *)

(** The clock stands still, and no proposal that has expired is new. *)
Record ages s s' : Prop := {
  ages_time : head_block_time (base_db s') = head_block_time (base_db s);
  ages_old i p : objs (proposals s') !! i = Some p -> expiration_time p <= head_block_time (base_db s) ->
    exists p0, objs (proposals s) !! i = Some p0 /\ expiration_time p0 = expiration_time p;
}.

#[local] Instance ages_preorder : PreOrder ages.
Proof.
  split; [intros s; split; [done|eauto]|]. intros s1 s2 s3 [T1 O1] [T2 O2]. split; [congruence|].
  intros i p Hi He. destruct (O2 i p Hi) as (p2 & H2 & E2); [lia|]. destruct (O1 i p2 H2) as (p1 & H1 & E1); [lia|].
  exists p1. split; [done|lia].
Qed.

Lemma ages_db s db : dgpo db = dgpo (base_db s) -> ages s (s <| base_db := db |>).
Proof. intros E. split; [unfold head_block_time; cbn; by rewrite E|]. cbn. eauto. Qed.

Lemma ages_modify s i f :
  (forall p, expiration_time (f p) = expiration_time p) -> ages s (s <| proposals ::= fun t => tbl_modify t i f |>).
Proof.
  intros Hf. split; [done|]. intros j p. cbn. destruct (decide (j = i)) as [->|]; [rewrite lookup_alter_eq|rewrite lookup_alter_ne by done; eauto].
  intros (q & Hq & ->)%fmap_Some _. rewrite Hf. eauto.
Qed.

Lemma ages_remove s i : ages s (s <| proposals ::= fun t => tbl_remove t i |>).
Proof. split; [done|]. intros j p. cbn. intros [_ Hj]%lookup_delete_Some. eauto. Qed.

Lemma committee_run `{E : !Evaluator Op} ctx db (op : Op) db' :
  pay_fee (Op := Op) = generic_pay_fee -> (forall db st, exists r, do_evaluate db st op = keep st r) ->
  (forall d st d', do_apply d st op = Ok d' -> dgpo d' = dgpo d) -> start_evaluate ctx db op = Ok db' ->
  dgpo db' = dgpo db.
Proof.
  intros Hp He Ha (st & d2 & d3 & _ & S1 & H & S2)%public_run; [|done..].
  by rewrite (same_dgpo _ _ S2), (Ha _ _ _ H), (same_dgpo _ _ S1).
Qed.

Lemma push_ages f s i s' :
  (forall s op s', f s op = Ok s' -> ages s s') -> push_proposal f s i = Ok s' -> ages s s' /\ objs (proposals s') !! i = None.
Proof.
  intros Hf (p & _ & H)%bind_Ok. apply bind_Ok in H as (s1 & H & [= <-]). split; [|apply lookup_delete_eq].
  etrans; [|apply ages_remove]. refine (foldM_inv _ (ages s) _ _ _ _ _ H); [|done].
  intros s2 op s3 H2 _ (s4 & H4 & H3)%bind_Ok. apply bind_Ok in H3 as (_ & _ & [= <-]). etrans; [exact H2|by eapply Hf].
Qed.

Lemma execute_ages fuel : forall b s op s', execute fuel b s op = Ok s' -> ages s s'.
Proof.
  induction fuel as [|n IH]; intros b s op s' H; [done|]. destruct op as [o|o|o|o|o|o|o]; cbn [Proposals.execute] in H.
  - apply bind_Ok in H as (db & H & [= <-]). apply apply_operation_schedule, sched_clock in H.
    split; [|cbn; eauto]. exact (f_equal time H).
  - apply bind_Ok in H as (db & H & [= <-]). apply ages_db. apply committee_run in H; [done|done|by eexists|].
    intros d st d' [= <-]. done.
  - apply bind_Ok in H as (db & H & [= <-]). apply ages_db. apply committee_run in H; [done|done|by eexists|].
    intros d st d' Hd. change (issue_construction_capital_do_apply d o = Ok d') in Hd.
    apply bind_Ok in Hd as (d1 & H1%adjust_balance_keeps & Hd). apply bind_Ok in Hd as (m & _ & Hd%adjust_balance_keeps).
    by rewrite (same_dgpo _ _ Hd), (same_dgpo _ _ H1).
  - apply bind_Ok in H as (db & H & [= <-]). apply ages_db. apply committee_run in H; [done|done|by eexists|].
    intros d st d' Hd. change (grant_instant_payback_do_apply d o = Ok d') in Hd. by apply bind_Ok in Hd as (a & _ & [= <-]).
  - apply start_inv in H as (st & db1 & db2 & s3 & m & db3 & _ & Hev & H1 & H2 & [= <-] & _ & H3%adjust_balance_keeps & ->).
    pose proof (paid_same _ _ _ _ _ _ _ H1 H2) as [D _ _ _ _ _ _ _]. destruct H3 as [D3 _ _ _ _ _ _ _]. cbn in D3.
    unfold proposal_create_do_evaluate in Hev. cbv zeta in Hev. apply bind_Ok in Hev as (u & Ht & _).
    apply guard_or_Ok, Z.ltb_lt in Ht. split; [unfold head_block_time; cbn; by rewrite D3, D|].
    intros i p. cbn. intros [[<- <-]|[_ Hi]]%lookup_insert_Some; [cbn; lia|eauto].
  - apply start_inv in H as (st & db1 & db2 & s3 & m & db3 & _ & _ & H1 & H2 & H & _ & H3%adjust_balance_keeps & ->).
    pose proof (paid_same _ _ _ _ _ _ _ H1 H2) as [D _ _ _ _ _ _ _]. destruct H3 as [D3 _ _ _ _ _ _ _].
    etrans; [|by apply ages_db]. etrans; [by apply (ages_db s db2)|]. unfold proposal_update_do_apply in H. cbv zeta in H.
    etrans; [apply (ages_modify _ (pu_proposal o) (update_approvals o)); done|].
    apply bind_Ok in H as (p & _ & H). destruct (review_period_time p); [by injection H as <-|].
    apply bind_Ok in H as (a & _ & H). destruct a; [|by injection H as <-].
    destruct (push_proposal _ _ _) as [s4|e] eqn:Hp.
    + injection H as <-. eapply push_ages; [|exact Hp]. apply IH.
    + destruct (is_fc_exception e); [by injection H as <-|done].
  - apply start_inv in H as (st & db1 & db2 & s3 & m & db3 & _ & _ & H1 & H2 & [= <-] & _ & H3%adjust_balance_keeps & ->).
    pose proof (paid_same _ _ _ _ _ _ _ H1 H2) as [D _ _ _ _ _ _ _]. destruct H3 as [D3 _ _ _ _ _ _ _]. cbn in D3.
    etrans; [by apply (ages_db s db2)|]. etrans; [apply (ages_remove _ (pd_proposal o))|]. by apply ages_db.
Qed.

(** *** The schedule *)

Abbreviation scheduled s s' := (same_schedule (base_db s) (base_db s')).

Lemma start_schedule s op payer fee ev f s' :
  (forall s1 s2, proposals s1 = proposals s -> same_chain (base_db s) (base_db s1) -> f s1 = Ok s2 -> scheduled s1 s2) ->
  start s op payer fee ev f = Ok s' -> scheduled s s'.
Proof.
  intros Hf (st & db1 & db2 & s3 & m & db3 & _ & _ & H1 & H2 & H & _ & H3%adjust_balance_keeps & ->)%start_inv.
  pose proof (paid_same _ _ _ _ _ _ _ H1 H2) as S. etrans; [by apply same_chain_schedule|].
  apply Hf in H; [|done|exact S]. etrans; [exact H|by apply same_chain_schedule].
Qed.

Lemma push_schedule f s i s' :
  (forall s op s', f s op = Ok s' -> scheduled s s') -> push_proposal f s i = Ok s' -> scheduled s s'.
Proof.
  intros Hf (p & _ & H)%bind_Ok. apply bind_Ok in H as (s1 & H & [= <-]). cbn.
  refine (foldM_inv _ (fun x => scheduled s x) _ _ _ _ _ H); [|done].
  intros s2 op s3 H2 _ (s4 & H4 & H3)%bind_Ok. apply bind_Ok in H3 as (_ & _ & [= <-]). etrans; [exact H2|by eapply Hf].
Qed.

Lemma execute_schedule fuel : forall b s op s', execute fuel b s op = Ok s' -> scheduled s s'.
Proof.
  induction fuel as [|n IH]; intros b s op s' H; [done|]. destruct op as [o|o|o|o|o|o|o]; cbn [Proposals.execute] in H.
  - apply bind_Ok in H as (db & H & [= <-]). exact (apply_operation_schedule _ _ _ _ H).
  - apply bind_Ok in H as (db & H & [= <-]). refine (public_schedule _ _ _ db _ _ _ H); [done|by eexists|].
    intros d st d' [= <-]. by apply schedule_same.
  - apply bind_Ok in H as (db & H & [= <-]). refine (public_schedule _ _ _ db _ _ _ H); [done|by eexists|].
    intros d st d' Hd. change (issue_construction_capital_do_apply d o = Ok d') in Hd. apply same_chain_schedule.
    apply bind_Ok in Hd as (d1 & H1%adjust_balance_keeps & Hd). apply bind_Ok in Hd as (m & _ & Hd%adjust_balance_keeps).
    by etrans.
  - apply bind_Ok in H as (db & H & [= <-]). refine (public_schedule _ _ _ db _ _ _ H); [done|by eexists|].
    intros d st d' Hd. change (grant_instant_payback_do_apply d o = Ok d') in Hd. apply bind_Ok in Hd as (a & _ & [= <-]).
    by apply schedule_same.
  - refine (start_schedule _ _ _ _ _ _ _ _ H). by intros s1 s2 _ _ [= <-].
  - refine (start_schedule _ _ _ _ _ _ _ _ H). intros s1 s2 _ _ Hu. unfold proposal_update_do_apply in Hu. cbv zeta in Hu.
    apply bind_Ok in Hu as (p & _ & Hu). destruct (review_period_time p); [by injection Hu as <-|].
    apply bind_Ok in Hu as (a & _ & Hu). destruct a; [|by injection Hu as <-].
    destruct (push_proposal _ _ _) as [s4|e] eqn:Hp.
    + injection Hu as <-. apply push_schedule in Hp; [exact Hp|]. intros ? ? ?. apply IH.
    + destruct (is_fc_exception e); [by injection Hu as <-|done].
  - refine (start_schedule _ _ _ _ _ _ _ _ H). by intros s1 s2 _ _ [= <-].
Qed.

Lemma full_operations_schedule s ops s' : apply_full_operations fees fee_scale s ops = Ok s' -> scheduled s s'.
Proof.
  intros (s1 & H & H1)%bind_Ok. apply bind_Ok in H1 as (_ & _ & [= <-]).
  refine (foldM_inv _ (fun x => scheduled s x) _ _ _ _ _ H); [|done].
  intros s2 op s3 H2 _ H3. etrans; [exact H2|by eapply execute_schedule].
Qed.

(** *** Clearing *)

#[local] Instance expires_first_total : Total expires_first.
Proof. intros [i x] [j y]. unfold expires_first; simpl. lia. Qed.
#[local] Instance expires_first_trans : Transitive expires_first.
Proof. intros [i x] [j y] [k z]. unfold expires_first; simpl. lia. Qed.

Lemma first_proposal_Some s i p :
  first_proposal s = Some (i, p) ->
  objs (proposals s) !! i = Some p /\
  forall j q, objs (proposals s) !! j = Some q -> expiration_time p <= expiration_time q.
Proof.
  unfold first_proposal. intros [Hi Hm]%(merge_sort_head expires_first). apply elem_of_map_to_list in Hi. split; [done|].
  intros j q Hj%elem_of_map_to_list. specialize (Hm _ Hj). unfold expires_first in Hm. simpl in Hm. lia.
Qed.

Lemma none_expired s : proposal_expired s = false ->
  forall i p, objs (proposals s) !! i = Some p -> head_block_time (base_db s) < expiration_time p.
Proof.
  unfold proposal_expired. destruct (first_proposal s) as [[i p]|] eqn:E.
  - intros H%Z.leb_gt j q Hj. apply first_proposal_Some in E as [_ E]. specialize (E _ _ Hj). lia.
  - intros _ j q Hj. unfold first_proposal in E. apply merge_sort_head_None in E.
    apply elem_of_map_to_list in Hj. rewrite E in Hj. by apply elem_of_nil in Hj.
Qed.

Abbreviation clear_first := (clear_first_proposal fees fee_scale).

Lemma clear_first_ages s s' i p :
  first_proposal s = Some (i, p) -> clear_first s = Ok s' -> ages s s' /\ objs (proposals s') !! i = None.
Proof.
  unfold clear_first_proposal. intros ->. cbv zeta.
  assert (R : ages s (s <| proposals ::= fun t => tbl_remove t i |>) /\
    objs (proposals (s <| proposals ::= fun t => tbl_remove t i |>)) !! i = None)
    by (split; [apply ages_remove|apply lookup_delete_eq]).
  destruct (is_authorized_to_execute (base_db s) p) as [[]|e]; cbn [mbind result_bind].
  - destruct (push_proposal _ s i) as [s2|e] eqn:Hp; cbn [mbind result_bind].
    + intros [= <-]. eapply push_ages; [|exact Hp]. intros ? ? ?. apply execute_ages.
    + destruct (is_fc_exception e); [by intros [= <-]|done].
  - by intros [= <-].
  - destruct (is_fc_exception e); [by intros [= <-]|done].
Qed.

(** The proposals that have expired. *)
Definition expired_proposals s : gmap N proposal_object :=
  filter (fun x => expiration_time x.2 <= head_block_time (base_db s)) (objs (proposals s)).

Lemma clear_first_decreases s s' :
  proposal_expired s = true -> clear_first s = Ok s' -> (size (expired_proposals s') < size (expired_proposals s))%nat.
Proof.
  unfold proposal_expired. destruct (first_proposal s) as [[i p]|] eqn:E; [|done]. intros Hp%Z.leb_le H.
  destruct (clear_first_ages _ _ _ _ E H) as [[T O] Hi]. apply first_proposal_Some in E as [Hs _].
  apply (map_size_fewer _ _ i).
  - intros j Hj. unfold expired_proposals in *. apply map_lookup_filter_None. apply map_lookup_filter_None in Hj.
    destruct (objs (proposals s') !! j) as [q|] eqn:Hq; [right|by left]. intros q' [= <-]. cbn. rewrite T. intros Hle.
    destruct (O j q Hq Hle) as (q0 & H0 & E0). destruct Hj as [Hj|Hj]; [congruence|]. apply (Hj q0 H0). cbn. lia.
  - exists p. unfold expired_proposals. apply map_lookup_filter_Some. by split.
  - unfold expired_proposals. apply map_lookup_filter_None. by left.
Qed.
(** Clearing leaves no expired proposal and does not move the clock; and changes nothing
    else when none of those that expire is approved. *)
Lemma clear_expired_ends s s' : clear_expired_proposals fees fee_scale s = Ok s' ->
  head_block_time (base_db s') = head_block_time (base_db s) /\
  (forall i p, objs (proposals s') !! i = Some p -> head_block_time (base_db s') < expiration_time p) /\
  ((forall i p, objs (proposals s) !! i = Some p -> expiration_time p <= head_block_time (base_db s) ->
      is_authorized_to_execute (base_db s) p = Ok false) ->
   base_db s' = base_db s /\
   objs (proposals s') = filter (fun x => head_block_time (base_db s) < expiration_time x.2) (objs (proposals s))).
Proof.
  intros H. unfold clear_expired_proposals in H.
  set (idle := forall i p, objs (proposals s) !! i = Some p -> expiration_time p <= head_block_time (base_db s) ->
    is_authorized_to_execute (base_db s) p = Ok false) in *.
  set (left := filter (fun x : N * proposal_object => head_block_time (base_db s) < expiration_time x.2)).
  pose proof (while_inv proposal_expired (clear_first_proposal fees fee_scale) (fun x => head_block_time (base_db x) = head_block_time (base_db s) /\
    (idle -> base_db x = base_db s /\ objs (proposals x) ⊆ objs (proposals s) /\
       left (objs (proposals x)) = left (objs (proposals s))))) as I.
  destruct (I) with (fuel := S (size (objs (proposals s)))) (s := s) (s' := s') as [[T B] Hc]; [|done|exact H|].
  - intros s1 s2 [T1 B1] Hc H1. unfold proposal_expired in Hc. destruct (first_proposal s1) as [[i p]|] eqn:E; [|done].
    destruct (clear_first_ages _ _ _ _ E H1) as [[T2 _] _]. split; [congruence|]. intros Hn.
    destruct (B1 Hn) as (D1 & S1 & L1). unfold clear_first_proposal in H1. rewrite E in H1. cbv zeta in H1.
    apply first_proposal_Some in E as [Hi _]. apply Z.leb_le in Hc. rewrite D1 in Hc.
    rewrite D1, (Hn i p) in H1 by first [exact Hc|eapply lookup_weaken; [exact Hi|done]].
    injection H1 as <-. split; [done|]. split; [cbn; etrans; [apply delete_subseteq|done]|].
    rewrite <-L1. cbn. unfold left. apply map_filter_delete_not. intros q Hq. rewrite Hi in Hq. injection Hq as <-. cbn. lia.
  - split; [done|]. pose proof (none_expired _ Hc) as Hg. split; [exact Hg|]. intros Hn. destruct (B Hn) as (D & _ & L). split; [done|].
    rewrite <-L. unfold left. symmetry. apply map_filter_id. intros i p Hp. cbn. rewrite <-T. by eapply Hg.
Qed.

Lemma clear_expired_schedule s s' : clear_expired_proposals fees fee_scale s = Ok s' -> scheduled s s'.
Proof.
  intros H. apply (while_inv _ _ (fun x => scheduled s x)) in H as [H _]; [done| |done].
  intros s1 s2 H1 _ H2. etrans; [exact H1|]. unfold clear_first_proposal in H2.
  destruct (first_proposal s1) as [[i p]|]; [|by injection H2 as <-]. cbv zeta in H2.
  destruct (is_authorized_to_execute (base_db s1) p) as [[]|e]; cbn [mbind result_bind] in H2;
    [|by injection H2 as <-|destruct (is_fc_exception e); [by injection H2 as <-|done]].
  destruct (push_proposal _ s1 i) as [s3|e] eqn:Hp; cbn [mbind result_bind] in H2.
  - injection H2 as <-. apply push_schedule in Hp; [exact Hp|]. intros ? ? ?. apply execute_schedule.
  - destruct (is_fc_exception e); [by injection H2 as <-|done].
Qed.
End Facts.

(** ** Conservation *)

Lemma issue_construction_capital_moves `{FC : FcLib, !FcLaws FC} db op db' :
  issue_construction_capital_do_apply db op = Ok db' -> moves db db' (fun _ => 0).
Proof.
  intros (d1 & H1%adjust_balance_moves & H)%bind_Ok. apply bind_Ok in H as (n & Hn & H%adjust_balance_moves).
  apply asset_neg_inv in Hn as ->. eapply moves_eq; [by eapply moves_step|]. intros a. unfold amount_in. simpl. case_match; lia.
Qed.

Section Conserve.
Context `{FC : FcLib, !FcLaws FC}.

#[export] Instance update_global_parameters_conserving : Conserving (bool * update_global_parameters_operation).
Proof.
  refine {| pre := fun _ _ => True; applies := _ |}.
  conserving @keep ltac:(unfold update_global_parameters_do_apply in *; inv_result; by apply moves_drains, moves_same).
Defined.

#[export] Instance issue_construction_capital_conserving : Conserving (bool * issue_construction_capital_operation).
Proof.
  refine {| pre := fun _ _ => True; applies := _ |}.
  conserving @keep ltac:(by eapply moves_drains, issue_construction_capital_moves).
Defined.

#[export] Instance grant_instant_payback_conserving : Conserving (bool * grant_instant_payback_operation).
Proof.
  refine {| pre := fun _ _ => True; applies := _ |}.
  conserving @keep ltac:(unfold grant_instant_payback_do_apply in *; inv_result; by apply moves_drains, moves_same).
Defined.
End Conserve.

(** The operations that only the committee may perform. *)
Definition is_committee_operation (op : full_operation) : bool :=
  match op with
  | committee_update_global_parameters _ | committee_issue_construction_capital _
  | committee_grant_instant_payback _ => true
  | _ => false
  end.

Section Value.
Context `{FC : FcLib, !FcLaws FC, BL : BlockLib, KL : KeyLib, NE : NthElement}.
Variables (fees : full_operation -> Z) (fee_scale : Z).
Implicit Types (db : database) (s : full_state).

Abbreviation execute := (execute fees fee_scale).

(** A valid operation that relies on nothing in the state. *)
#[warnings="-register-all"] Inductive steady : full_operation -> Prop :=
  | steady_ordinary op : operation_validate op = Ok tt -> (forall db, operation_pre db op) -> steady (ordinary op)
  | steady_committee op : is_committee_operation op = true -> full_validate op = Ok tt -> steady op
  | steady_create o : Forall steady (proposed_ops o) -> steady (proposal_create o)
  | steady_update o : steady (proposal_update o)
  | steady_delete o : steady (proposal_delete o).

Definition steady_proposals s : Prop :=
  forall i p, objs (proposals s) !! i = Some p -> Forall steady (proposed_operations p).

(** The operation finds what it needs. *)
Definition full_pre db (op : full_operation) : Prop :=
  match op with
  | ordinary op => operation_validate op = Ok tt /\ operation_pre db op
  | proposal_create o => Forall steady (proposed_ops o)
  | proposal_update _ | proposal_delete _ => True
  | _ => full_validate op = Ok tt
  end.

Lemma steady_pre db op : steady op -> full_pre db op.
Proof. by intros [o Hv Hp|[] Hc Hv|o Ho|o|o]. Qed.

(** The state stays well formed, and but for the core asset nothing is created or
    destroyed. *)
Definition keeps_value s s' : Prop :=
  wf_db (base_db s) -> steady_proposals s ->
  wf_db (base_db s') /\ steady_proposals s' /\ forall a, a <> CORE_ASSET -> unbacked (base_db s') a = unbacked (base_db s) a.

#[export] Instance keeps_value_preorder : PreOrder keeps_value.
Proof.
  split; [by intros s W P|]. intros s1 s2 s3 H12 H23 W P. destruct (H12 W P) as (W2 & P2 & E2).
  destruct (H23 W2 P2) as (W3 & P3 & E3). split_and!; [done..|]. intros a Ha. by rewrite E3, E2.
Qed.

Lemma value_moves s db f : (forall a, a <> CORE_ASSET -> f a = 0) -> moves (base_db s) db f -> keeps_value s (s <| base_db := db |>).
Proof.
  intros Hf M W P. destruct (M W) as (W' & _ & E). split_and!; [done..|]. intros a Ha. cbn. rewrite E, Hf by done. lia.
Qed.

Lemma value_remove s i : keeps_value s (s <| proposals ::= fun t => tbl_remove t i |>).
Proof. intros W P. split_and!; [done| |done]. intros j p. cbn. intros [_ Hj]%lookup_delete_Some. by eapply P. Qed.

Lemma value_modify s i f :
  (forall p, proposed_operations (f p) = proposed_operations p) -> keeps_value s (s <| proposals ::= fun t => tbl_modify t i f |>).
Proof.
  intros Hf W P. split_and!; [done| |done]. intros j p. cbn.
  destruct (decide (j = i)) as [->|]; [rewrite lookup_alter_eq|rewrite lookup_alter_ne by done; apply P].
  intros (q & Hq & ->)%fmap_Some. rewrite Hf. by eapply P.
Qed.

Lemma value_create s o : Forall steady (proposed_ops o) -> keeps_value s (proposal_create_do_apply s o).
Proof.
  intros Ho W P. split_and!; [done| |done]. intros i p. cbn. intros [[<- <-]|[_ Hi]]%lookup_insert_Some; [done|by eapply P].
Qed.

(** The fee leaves the payer for the books. *)
Lemma start_value s op payer fee ev f s' :
  (forall s1 s2, proposals s1 = proposals s -> f s1 = Ok s2 -> keeps_value s1 s2) ->
  start_on_proposals fees fee_scale s op payer fee ev f = Ok s' -> keeps_value s s'.
Proof.
  intros Hf (st & db1 & db2 & s3 & m & db3 & Hp & _ & H1 & H2 & H & Hn & H3 & ->)%start_inv W P.
  apply prepare_fee_inv in Hp as (Ef & _ & _ & _ & _). apply convert_fee_moves in H1 as (_ & _ & M1); [|done].
  apply generic_pay_fee_moves in H2 as (_ & _ & _ & _ & _ & _ & M2); [|done].
  apply asset_neg_inv in Hn as ->. apply adjust_balance_moves in H3 as M3.
  destruct (M1 W) as (W1 & _ & E1). destruct (M2 W1) as (W2 & _ & E2).
  apply Hf in H as V; [|done]. destruct (V W2 P) as (W3 & P3 & E3). destruct (M3 W3) as (W4 & _ & E4).
  split_and!; [done..|]. intros a Ha. cbn in *. rewrite E4, (E3 a Ha), E2, E1. unfold core_in, amount_in. cbn.
  rewrite (proj2 (N.eqb_neq a CORE_ASSET)) by done.
  destruct (N.eqb_spec (asset_id (fee_from_account st)) CORE_ASSET), (N.eqb_spec (asset_id (fee_from_account st)) a); try lia; congruence.
Qed.

Lemma push_value f s i s' :
  (forall s op s', steady op -> f s op = Ok s' -> keeps_value s s') -> push_proposal f s i = Ok s' -> keeps_value s s'.
Proof.
  intros Hf H W P. revert W P. enough (steady_proposals s -> keeps_value s s') as K by (intros W P; by apply K).
  intros P. apply bind_Ok in H as (p & Hp & H). inv_get. apply P in Hp. rewrite Forall_forall in Hp.
  apply bind_Ok in H as (s1 & H & [= <-]). etrans; [|apply value_remove].
  refine (foldM_inv _ (keeps_value s) _ _ _ _ _ H); [|done].
  intros s2 op s3 H2 Hop (s4 & H4 & H3)%bind_Ok. apply bind_Ok in H3 as (_ & _ & [= <-]). etrans; [exact H2|].
  eapply Hf; [by apply Hp|exact H4].
Qed.

Lemma conserving_value `{E : !Evaluator Op, !Conserving Op} s op (x : Op) db :
  validate x = Ok tt -> pre (base_db s) x -> start_evaluate (context_for fees fee_scale op) (base_db s) x = Ok db ->
  keeps_value s (s <| base_db := db |>).
Proof.
  intros Hv Hp H W P. destruct (conserving_operation (context_for fees fee_scale op) _ _ _ eq_refl Hp Hv H W) as (W' & d & _ & E').
  split_and!; [done..|]. intros a Ha. cbn. rewrite E', core_in_0. unfold core_in. rewrite (proj2 (N.eqb_neq a CORE_ASSET)) by done. lia.
Qed.

Lemma execute_value fuel : forall b s op s', full_pre (base_db s) op -> execute fuel b s op = Ok s' -> keeps_value s s'.
Proof.
  induction fuel as [|n IH]; intros b s op s' Hp H; [done|]. destruct op as [o|o|o|o|o|o|o]; cbn [Proposals.execute full_pre] in *.
  - apply bind_Ok in H as (db & H & [= <-]). destruct Hp as [Hv Hp]. intros W P.
    destruct (operation_moves (context_for fees fee_scale (ordinary o)) _ _ _ W eq_refl Hp Hv H) as (W' & d & _ & E). split_and!; [done..|].
    intros a Ha. cbn. rewrite E. unfold core_in. rewrite (proj2 (N.eqb_neq a CORE_ASSET)) by done. lia.
  - apply bind_Ok in H as (db & H & [= <-]). exact (conserving_value s _ (b, o) db Hp I H).
  - apply bind_Ok in H as (db & H & [= <-]). exact (conserving_value s _ (b, o) db Hp I H).
  - apply bind_Ok in H as (db & H & [= <-]). exact (conserving_value s _ (b, o) db Hp I H).
  - refine (start_value _ _ _ _ _ _ _ _ H). intros s1 s2 _ [= <-]. by apply value_create.
  - refine (start_value _ _ _ _ _ _ _ _ H). intros s1 s2 _ Hu. unfold proposal_update_do_apply in Hu. cbv zeta in Hu.
    etrans; [apply (value_modify _ (pu_proposal o) (update_approvals o)); done|].
    apply bind_Ok in Hu as (p & _ & Hu). destruct (review_period_time p); [by injection Hu as <-|].
    apply bind_Ok in Hu as (a & _ & Hu). destruct a; [|by injection Hu as <-].
    destruct (push_proposal _ _ _) as [s4|e] eqn:Hx.
    + injection Hu as <-. eapply push_value; [|exact Hx]. intros s5 op s6 Hop. apply IH. by apply steady_pre.
    + destruct (is_fc_exception e); [by injection Hu as <-|done].
  - refine (start_value _ _ _ _ _ _ _ _ H). intros s1 s2 _ [= <-]. apply value_remove.
Qed.

(** The operations of a transaction find what they need in the states they meet. *)
Fixpoint full_prepared s (ops : list full_operation) : Prop :=
  match ops with
  | [] => True
  | op :: ops =>
      full_pre (base_db s) op /\
      forall s', apply_full_operation fees fee_scale false s op = Ok s' -> full_prepared s' ops
  end.

Lemma full_operations_value s ops s' :
  full_prepared s ops -> apply_full_operations fees fee_scale s ops = Ok s' -> keeps_value s s'.
Proof.
  intros Hp (s1 & H & H1)%bind_Ok. apply bind_Ok in H1 as (_ & _ & [= <-]). revert s Hp H.
  induction ops as [|op ops IH]; intros s Hp H; cbn [foldM full_prepared] in *; [by injection H as <-|].
  destruct Hp as [Hp Hn]. apply bind_Ok in H as (s2 & H2 & H). etrans; [eapply execute_value; [exact Hp|exact H2]|].
  by apply IH; [apply Hn|].
Qed.

Lemma clear_first_value s s' : clear_first_proposal fees fee_scale s = Ok s' -> keeps_value s s'.
Proof.
  unfold clear_first_proposal. destruct (first_proposal s) as [[i p]|]; [|by intros [= <-]]. cbv zeta.
  destruct (is_authorized_to_execute (base_db s) p) as [[]|e]; cbn [mbind result_bind].
  - destruct (push_proposal _ s i) as [s2|e] eqn:Hp; cbn [mbind result_bind].
    + intros [= <-]. eapply push_value; [|exact Hp]. intros s5 op s6 Hop. apply execute_value. by apply steady_pre.
    + destruct (is_fc_exception e); [intros [= <-]; apply value_remove|done].
  - intros [= <-]. apply value_remove.
  - destruct (is_fc_exception e); [intros [= <-]; apply value_remove|done].
Qed.

Lemma clear_expired_value s s' : clear_expired_proposals fees fee_scale s = Ok s' -> keeps_value s s'.
Proof.
  intros H. apply (while_inv _ _ (keeps_value s)) in H as [H _]; [done| |done].
  intros s1 s2 H1 _ H2%clear_first_value. by etrans.
Qed.
End Value.

(** ** Properties *)

(** An operation that needs the approval of the committee. *)
Definition needs_committee `{FC : FcLib, NE : NthElement} (op : full_operation) : Prop :=
  GRAPHENE_COMMITTEE_ACCOUNT ∈ (full_fee_payer op :: full_required_active op) ++ full_required_owner op.

Section Properties.
Context `{FC : FcLib, BL : BlockLib, KL : KeyLib, NE : NthElement}.
Variables (fees : full_operation -> Z) (fee_scale : Z).
Implicit Types (db : database) (s : full_state).

Abbreviation execute := (execute fees fee_scale).
Abbreviation apply := (apply_full_operation fees fee_scale).

(** Two levels of execution are all there are.  As long as no proposal contains
    an update of a proposal - and none ever does, because an update requires another
    authority than that of accounts, which a proposal must not - executing an
    operation with more fuel gives the same result, so that the recursion of
    proposals that execute proposals ends. *)
Theorem execution_depth (n : nat) (b : bool) s (op : full_operation) :
  plain_proposals s ->
  execute (2 + n) b s op = apply b s op /\ forall s', apply b s op = Ok s' -> plain_proposals s'.
Proof.
  intros Hs. split; [by apply execute_depth|]. intros s'. by apply execute_plain.
Qed.

(** Approving a proposal.  An update only removes approvals that were given, and
    adds none to a proposal in its review period.  Either it changes the
    approvals and nothing else but what the fee costs, or the proposal is executed:
    then it has no review period, and every authority its operations require is
    satisfied by the approvals and keys it has been given. *)
Theorem proposal_update_spec (b : bool) s (o : proposal_update_operation) s' :
  plain_proposals s ->
  (forall i a, objs (accounts (base_db s)) !! i = Some a -> light (active_authority a) /\ light (owner_authority a)) ->
  apply b s (proposal_update o) = Ok s' ->
  exists p, objs (proposals s) !! pu_proposal o = Some p /\
    active_approvals_to_remove o ⊆ available_active_approvals p /\
    owner_approvals_to_remove o ⊆ available_owner_approvals p /\
    (in_review (base_db s) p = true -> active_approvals_to_add o = ∅ /\ owner_approvals_to_add o = ∅) /\
    let p' := update_approvals o p in
    (proposals s' = tbl_modify (proposals s) (pu_proposal o) (update_approvals o) /\
       same_chain (base_db s) (base_db s') \/
     objs (proposals s') !! pu_proposal o = None /\ review_period_time p = None /\
       exists m, meets (active_of (base_db s)) (owner_of (base_db s)) (available_key_approvals p')
         (available_active_approvals p') (available_owner_approvals p') m (full_required (proposed_operations p))).
Proof.
  intros Hs L H. change (apply b s (proposal_update o)) with (execute 2 b s (proposal_update o)) in H. cbn [Proposals.execute] in H.
  apply start_inv in H as (st & db1 & db2 & s3 & m & db3 & _ & Hev & H1 & H2 & H & _ & H3%adjust_balance_keeps & ->).
  pose proof (paid_same _ _ _ _ _ _ _ H1 H2) as K. unfold proposal_update_do_evaluate in Hev.
  apply bind_Ok in Hev as (p & Hp & Hev). inv_get. apply bind_Ok in Hev as (u & Hr & Hev). apply bind_Ok in Hev as (u2 & Ha & Ho).
  apply guard_or_Ok, bool_decide_eq_true in Ha, Ho. exists p. split; [done|]. split; [done|]. split; [done|]. split.
  { intros E. rewrite E in Hr. apply guard_or_Ok, andb_true_iff in Hr as [?%bool_decide_eq_true ?%bool_decide_eq_true]. done. }
  cbv zeta. unfold proposal_update_do_apply in H. cbv zeta in H.
  set (s1 := s <| base_db := db2 |> <| proposals ::= _ |>) in H.
  assert (Hp1 : objs (proposals s1) !! pu_proposal o = Some (update_approvals o p))
    by (subst s1; cbn; by rewrite lookup_alter_eq, Hp).
  assert (W : s3 = s1 -> proposals (s3 <| base_db := db3 |>) = tbl_modify (proposals s) (pu_proposal o) (update_approvals o) /\
    same_chain (base_db s) (base_db (s3 <| base_db := db3 |>))).
  { intros ->. split; [done|]. etrans; [exact K|exact H3]. }
  unfold tbl_get in H. rewrite Hp1 in H. cbn [of_option mbind result_bind] in H.
  destruct (review_period_time (update_approvals o p)) as [t|] eqn:Hrev; [left; apply W; by injection H|].
  apply bind_Ok in H as (a & Hauth & H). destruct a; [|left; apply W; by injection H].
  destruct (push_proposal _ _ _) as [s4|e] eqn:Hpush.
  2: { left. apply W. destruct (is_fc_exception e); [by injection H|done]. }
  injection H as <-. right. apply push_ages in Hpush as [_ Hgone];
    [|intros ? ? ? Hx; exact (execute_ages fees fee_scale 1 true _ _ _ Hx)].
  split; [exact Hgone|]. split; [exact Hrev|].
  rewrite (is_authorized_same (base_db s)) in Hauth by apply K.
  apply is_authorized_sound in Hauth; [exact Hauth|exact L|exact (Hs _ _ Hp)].
Qed.

(** C25: expired proposals are cleared.  Afterwards no proposal has expired, and the clock
    has not moved; when none of those that had expired was approved the database is as it
    was and exactly the proposals that had not expired are left.  The loop has enough
    fuel: more makes no difference. *)
Theorem clear_expired_proposals_spec s :
  (forall n, (S (size (objs (proposals s))) <= n)%nat ->
     while proposal_expired (clear_first_proposal fees fee_scale) n s = clear_expired_proposals fees fee_scale s) /\
  forall s', clear_expired_proposals fees fee_scale s = Ok s' ->
    head_block_time (base_db s') = head_block_time (base_db s) /\
    (forall i p, objs (proposals s') !! i = Some p -> head_block_time (base_db s') < expiration_time p) /\
    ((forall i p, objs (proposals s) !! i = Some p -> expiration_time p <= head_block_time (base_db s) ->
        is_authorized_to_execute (base_db s) p = Ok false) ->
     base_db s' = base_db s /\
     objs (proposals s') = filter (fun x => head_block_time (base_db s) < expiration_time x.2) (objs (proposals s))).
Proof.
  assert (Hm : (size (expired_proposals s) <= size (objs (proposals s)))%nat).
  { apply map_size_no_more. intros j Hj. apply map_lookup_filter_None. by left. }
  split.
  - intros n Hn. apply (while_enough _ _ (fun _ => True) (fun s => size (expired_proposals s))); try done; [|lia|lia].
    intros s1 s2 _ Hc H. split; [done|by eapply clear_first_decreases].
  - intros s'. apply clear_expired_ends.
Qed.

(** The committee acts in public.  What only the committee may do cannot be part
    of an ordinary transaction, and a proposal that needs the committee's authority
    has a review period of at least the length the parameters ask for. *)
Theorem committee_needs_review (b : bool) s :
  (forall op s', is_committee_operation op = true -> apply false s op <> Ok s') /\
  (forall o s', apply b s (proposal_create o) = Ok s' -> (exists op, op ∈ proposed_ops o /\ needs_committee op) ->
   exists r, review_period_seconds o = Some r /\
     committee_proposal_review_period (parameters (base_db s)) <= r < pc_expiration_time o - head_block_time (base_db s) /\
     review_period_time (new_proposal o) = Some (wrap32 (pc_expiration_time o - r)) /\
     objs (proposals s') !! next_instance (proposals s) = Some (new_proposal o)).
Proof.
  split.
  - intros op s' Hop H. destruct op as [o|o|o|o|o|o|o]; try discriminate Hop;
      apply bind_Ok in H as (db & H & _); apply bind_Ok in H as (st & H & _); unfold evaluate in H;
      apply bind_Ok in H as (st0 & _ & H); apply bind_Ok in H as (u & _ & H).
    + change (keep st0 (only_proposed false) = Ok st) in H. by apply bind_Ok in H as (u2 & H & _).
    + change (keep st0 (issue_construction_capital_do_evaluate false (base_db s) o) = Ok st) in H.
      apply bind_Ok in H as (u2 & H & _). by apply bind_Ok in H as (u3 & H & _).
    + change (keep st0 (grant_instant_payback_do_evaluate false (base_db s) o) = Ok st) in H.
      apply bind_Ok in H as (u2 & H & _). by apply bind_Ok in H as (u3 & H & _).
  - intros o s' H (op & Hop & Hc). change (apply b s (proposal_create o)) with (execute 2 b s (proposal_create o)) in H.
    cbn [Proposals.execute] in H. apply start_inv in H as (st & db1 & db2 & s3 & m & db3 & _ & Hev & _ & _ & [= <-] & _ & _ & ->).
    unfold proposal_create_do_evaluate in Hev. cbv zeta in Hev. apply bind_Ok in Hev as (u1 & _ & Hev).
    apply bind_Ok in Hev as (u2 & _ & Hev). apply bind_Ok in Hev as (u3 & Hr & Hev). apply bind_Ok in Hev as (u4 & _ & Hev).
    apply bind_Ok in Hev as (u5 & Hev & _). rewrite bool_decide_eq_true_2 in Hev.
    2: { apply elem_of_app. unfold needs_committee in Hc. apply elem_of_app in Hc as [Hc|Hc]; [left|right];
         (apply flat_elem, list_elem_of_bind; eauto). }
    apply bind_Ok in Hev as (r & He%of_option_Ok & Hev). apply guard_or_Ok, Z.leb_le in Hev. rewrite He in Hr.
    apply guard_or_Ok, Z.ltb_lt in Hr. exists r. split; [done|]. split; [lia|].
    split; [cbn; by rewrite He|]. cbn. apply lookup_insert_eq.
Qed.

(** The committee can lock itself out.  [chain_parameters::validate] means to
    keep the review period below the lifetime of a proposal, but it compares an
    unsigned difference: a longer review period passes.  With such parameters no
    proposal that needs the committee can be made any more, not even one to change
    the parameters back. *)
Theorem committee_lockout s (p : chain_parameters) (o : proposal_create_operation full_operation) (b : bool) s' :
  chain_parameters_validate p = Ok tt -> maximum_proposal_lifetime p <= committee_proposal_review_period p ->
  0 <= maximum_proposal_lifetime p -> 0 <= head_block_time (base_db s) -> parameters (base_db s) = p ->
  (exists op, op ∈ proposed_ops o /\ needs_committee op) -> apply b s (proposal_create o) <> Ok s'.
Proof.
  intros _ Hp Hl Hn E (op & Hop & Hc) H. change (apply b s (proposal_create o)) with (execute 2 b s (proposal_create o)) in H.
  cbn [Proposals.execute] in H. apply start_inv in H as (st & db1 & db2 & s3 & m & db3 & _ & Hev & _).
  unfold proposal_create_do_evaluate in Hev. cbv zeta in Hev. apply bind_Ok in Hev as (u1 & _ & Hev).
  apply bind_Ok in Hev as (u2 & Hx & Hev). apply bind_Ok in Hev as (u3 & Hr & Hev). apply bind_Ok in Hev as (u4 & _ & Hev).
  apply bind_Ok in Hev as (u5 & Hev & _). rewrite bool_decide_eq_true_2 in Hev.
  2: { apply elem_of_app. unfold needs_committee in Hc. apply elem_of_app in Hc as [Hc|Hc]; [left|right];
       (apply flat_elem, list_elem_of_bind; eauto). }
  apply bind_Ok in Hev as (r & He%of_option_Ok & Hev). apply guard_or_Ok, Z.leb_le in Hev. rewrite He in Hr.
  apply guard_or_Ok, Z.ltb_lt in Hr. apply guard_or_Ok, Z.leb_le in Hx. rewrite E in *.
  assert (wrap32 (head_block_time (base_db s) + maximum_proposal_lifetime p) <= head_block_time (base_db s) + maximum_proposal_lifetime p)
    by (unfold wrap32; apply Z.mod_le; lia). lia.
Qed.

(** A proposal must not delete itself.  When the operations of a proposal come to
    one that deletes the proposal, the loop over them goes on in an object that is
    gone: whatever follows, the behaviour is undefined. *)
Theorem self_deletion_undefined s i p before o after s1 s2 :
  objs (proposals s) !! i = Some p -> proposed_operations p = before ++ proposal_delete o :: after -> pd_proposal o = i ->
  foldM (fun s op => s ← execute 1 true s op;
           _ ← guard_or (undefined_behaviour "proposal") (is_some (tbl_find (proposals s) i)); Ok s) s before = Ok s1 ->
  execute 1 true s1 (proposal_delete o) = Ok s2 ->
  push_proposal (execute 1 true) s i = Err (undefined_behaviour "proposal").
Proof.
  intros Hp Hops Hi Hb Hd. unfold push_proposal, tbl_get. rewrite Hp. cbn [of_option mbind result_bind].
  rewrite Hops, foldM_app, Hb. cbn [foldM mbind result_bind]. rewrite Hd. cbn [mbind result_bind].
  cbn [Proposals.execute] in Hd. apply start_inv in Hd as (st & db1 & db2 & s3 & m & db3 & _ & _ & _ & _ & [= <-] & _ & _ & ->).
  unfold tbl_find. cbn. by rewrite Hi, lookup_delete_eq.
Qed.
End Properties.

(** ** Witnesses *)

(** A proposal that alice pays carol; her key is 7. *)
Definition ex_proposed : full_operation := ordinary (transfer (Transfer_operation (Asset 20 CORE_ASSET) 10 12 (Asset 777 CORE_ASSET))).
Definition ex_proposal (ops : list full_operation) (expires : Z) : proposal_object :=
  Proposal_object expires None ops {[ 10%N ]} ∅ ∅ ∅ ∅.
Definition ex_full (ops : list full_operation) (expires : Z) : full_state :=
  Full_state ex_state (table_of [(0%N, ex_proposal ops expires)] 1).
Definition ex_approval : proposal_update_operation :=
  Proposal_update_operation 11 (Asset 20 CORE_ASSET) 0 ∅ ∅ ∅ ∅ {[ 7 ]} ∅.
Definition ex_fees (op : full_operation) : Z := 20.
Definition ex_apply_full := apply_full_operation (FC := fc_ref) (KL := key_ref) (NE := sorting_nth_element) ex_fees 10000.

Lemma ex_full_plain ops expires : forallb (fun op => negb (is_update op)) ops = true -> plain_proposals (ex_full ops expires).
Proof.
  intros H i p Hi. unfold ex_full in Hi. cbn in Hi. apply lookup_insert_Some in Hi as [[<- <-]|[_ Hi]]; [|done].
  cbn. apply Forall_forall. intros op Hop. rewrite forallb_forall in H. apply list_elem_of_In, H in Hop. by destruct (is_update op).
Qed.

Lemma ex_full_light ops expires i a :
  objs (accounts (base_db (ex_full ops expires))) !! i = Some a -> light (active_authority a) /\ light (owner_authority a).
Proof.
  intros H. change (objs (accounts (base_db (ex_full ops expires)))) with
    (list_to_map [(10%N, ex_account "alice"); (11%N, ex_account "bob"); (12%N, ex_account "carol")] : gmap N account_object) in H.
  apply elem_of_list_to_map_2 in H. repeat (apply elem_of_cons in H as [[= -> ->]|H];
    [split; (split; [by repeat constructor|by vm_compute])|]). by apply elem_of_nil in H.
Qed.

Lemma execution_depth_witness :
  exists s', execute (FC := fc_ref) (KL := key_ref) (NE := sorting_nth_element) ex_fees 10000 (2 + 5) false
    (ex_full [ex_proposed] 1500000100) (proposal_update ex_approval) = Ok s' /\ plain_proposals s'.
Proof.
  destruct (result_ok_true (ex_apply_full false (ex_full [ex_proposed] 1500000100) (proposal_update ex_approval)))
    as [s' H]; [by vm_compute|].
  destruct (@execution_depth fc_ref key_ref sorting_nth_element ex_fees 10000 5 false (ex_full [ex_proposed] 1500000100)
    (proposal_update ex_approval)) as [E P]; [by apply ex_full_plain|].
  exists s'. split; [etrans; [exact E|exact H]|by apply P].
Defined.

(** The key of alice executes the proposal: it satisfies what the payment requires. *)
Lemma proposal_update_spec_witness :
  exists s' m, ex_apply_full false (ex_full [ex_proposed] 1500000100) (proposal_update ex_approval) = Ok s' /\
    let p := update_approvals ex_approval (ex_proposal [ex_proposed] 1500000100) in
    meets (KL := key_ref) (active_of ex_state) (owner_of ex_state) (available_key_approvals p) (available_active_approvals p)
      (available_owner_approvals p) m (full_required (FC := fc_ref) (NE := sorting_nth_element) [ex_proposed]).
Proof.
  destruct (result_ok_true (ex_apply_full false (ex_full [ex_proposed] 1500000100) (proposal_update ex_approval)))
    as [s' H]; [by vm_compute|].
  assert (B : match ex_apply_full false (ex_full [ex_proposed] 1500000100) (proposal_update ex_approval) with
    Ok s' => is_some (objs (proposals s') !! 0%N) | _ => true end = false) by by vm_compute.
  rewrite H in B. exists s'.
  destruct (@proposal_update_spec fc_ref key_ref sorting_nth_element ex_fees 10000 false (ex_full [ex_proposed] 1500000100)
    ex_approval s') as (p & [= <-] & _ & _ & _ & [[A _]|(_ & _ & m & M)]);
    [by apply ex_full_plain|apply ex_full_light|exact H|rewrite A in B; discriminate B|exists m; split; [exact H|exact M]].
Defined.

(** A proposal that nobody has approved expires. *)
Lemma clear_expired_proposals_spec_witness :
  let s := ex_full [ex_proposed] 1500000000 in
  exists s', clear_expired_proposals (FC := fc_ref) (KL := key_ref) (NE := sorting_nth_element) ex_fees 10000 s = Ok s' /\
    base_db s' = ex_state /\ objs (proposals s') = ∅.
Proof.
  intros s. destruct (result_ok_true (clear_expired_proposals (FC := fc_ref) (KL := key_ref) (NE := sorting_nth_element)
    ex_fees 10000 s)) as [s' H]; [by vm_compute|]. exists s'. split; [exact H|].
  destruct (@clear_expired_proposals_spec fc_ref key_ref sorting_nth_element ex_fees 10000 s) as [_ C].
  destruct (C s' H) as (_ & _ & E). destruct E as [E1 E2]; [|split; [exact E1|rewrite E2; by vm_compute]].
  intros i p Hi _. unfold s in Hi. cbn in Hi.
  apply lookup_insert_Some in Hi as [[<- <-]|[_ Hi]]; [by vm_compute|done].
Defined.

(** The committee proposes to raise its own review period beyond the lifetime of a
    proposal; the parameters pass the validation. *)
Definition ex_locked_parameters : chain_parameters := ex_parameters <| committee_proposal_review_period := 2419201 |>.
Definition ex_raise (review : option Z) : proposal_create_operation full_operation :=
  Proposal_create_operation (Asset 20 CORE_ASSET) 11
    [committee_update_global_parameters (Update_global_parameters_operation (Asset 0 CORE_ASSET) ex_locked_parameters)]
    1500100000 review.

Lemma ex_raise_committee review :
  exists op, op ∈ proposed_ops (ex_raise review) /\ needs_committee (FC := fc_ref) (NE := sorting_nth_element) op.
Proof. eexists. split; [by apply list_elem_of_singleton|]. by apply elem_of_app; left; apply list_elem_of_here. Qed.

Lemma committee_needs_review_witness :
  exists s', ex_apply_full false (ex_full [] 1500000100) (proposal_create (ex_raise (Some 3600))) = Ok s' /\
    (exists r, 3600 <= r < 100000 /\ Some 3600 = Some r) /\
    review_period_time (new_proposal (FC := fc_ref) (NE := sorting_nth_element) (ex_raise (Some 3600))) = Some 1500096400.
Proof.
  destruct (result_ok_true (ex_apply_full false (ex_full [] 1500000100) (proposal_create (ex_raise (Some 3600)))))
    as [s' H]; [by vm_compute|]. exists s'. split; [exact H|].
  destruct (@committee_needs_review fc_ref key_ref sorting_nth_element ex_fees 10000 false (ex_full [] 1500000100)) as [_ C].
  destruct (C _ _ H (ex_raise_committee _)) as (r & Hr & Hl & Ht & _). injection Hr as <-.
  split; [exists 3600; split; [exact Hl|done]|exact Ht].
Defined.

Lemma committee_lockout_witness :
  let s := Full_state (ex_state <| parameters := ex_locked_parameters |>) empty_table in
  forall review s', ex_apply_full false s (proposal_create (ex_raise review)) <> Ok s'.
Proof.
  intros s review s'. apply (@committee_lockout fc_ref key_ref sorting_nth_element ex_fees 10000 s ex_locked_parameters);
    [by vm_compute|by vm_compute|by vm_compute|by vm_compute|reflexivity|apply ex_raise_committee].
Defined.

(** A proposal that deletes itself, and then pays. *)
Definition ex_delete : proposal_delete_operation := Proposal_delete_operation 10 false (Asset 20 CORE_ASSET) 0.

Lemma self_deletion_undefined_witness :
  push_proposal (execute (FC := fc_ref) (KL := key_ref) (NE := sorting_nth_element) ex_fees 10000 1 true)
    (ex_full [proposal_delete ex_delete; ex_proposed] 1500000100) 0 = Err (undefined_behaviour "proposal").
Proof.
  set (s := ex_full [proposal_delete ex_delete; ex_proposed] 1500000100).
  destruct (result_ok_true (execute (FC := fc_ref) (KL := key_ref) (NE := sorting_nth_element) ex_fees 10000 1 true s
    (proposal_delete ex_delete))) as [s2 H]; [by vm_compute|].
  exact (@self_deletion_undefined fc_ref key_ref sorting_nth_element ex_fees 10000 s 0 _ [] ex_delete [ex_proposed] s s2
    eq_refl eq_refl eq_refl eq_refl H).
Defined.
