(* ===== verification/Witness.v ===== *)
(** * Witnesses and slots

    Models [libraries/chain/db_witness_schedule.cpp] and the per-block updates of
    [libraries/chain/db_update.cpp]: when a slot begins, who is scheduled for it,
    the shuffle, the dynamic global properties, the pay of the signing witness
    and the last irreversible block. *)

From S2P Require Import Prelude FcLib Block Asset Vesting Objects Database Ledger Market Trading Evaluator Feeds.

Definition GRAPHENE_MAX_UNDO_HISTORY : Z := 10000.
Definition GRAPHENE_RECENTLY_MISSED_COUNT_INCREMENT : Z := 4.
Definition GRAPHENE_RECENTLY_MISSED_COUNT_DECREMENT : Z := 3.
Definition GRAPHENE_IRREVERSIBLE_THRESHOLD : Z := 7000.
Definition maintenance_flag : Z := 1.

Section Witness.
Context `{FC : FcLib, BL : BlockLib, NE : NthElement}.
Implicit Types (db : database) (b : signed_block_header).

Definition head_block_num db : Z := head_block_number (dgpo db).

(** ** Slots *)

(** [x / block_interval()] *)
Definition per_interval db (x : Z) : result Z :=
  _ ← guard_or (undefined_behaviour "division by zero") (negb (block_interval (parameters db) =? 0));
  Ok (x / block_interval (parameters db)).

Definition get_slot_time db (slot_num : Z) : result Z :=
  if slot_num =? 0 then Ok 0
  else
    let interval := block_interval (parameters db) in
    if head_block_num db =? 0 then Ok (wrap32 (head_block_time db + wrap32 (slot_num * interval)))
    else
      head_block_abs_slot ← per_interval db (head_block_time db);
      let head_slot_time := wrap32 (head_block_abs_slot * interval) in
      let slot_num :=
        if has_flag (dynamic_flags (dgpo db)) maintenance_flag
        then wrap32 (slot_num + maintenance_skip_slots (parameters db)) else slot_num in
      Ok (wrap32 (head_slot_time + wrap32 (slot_num * interval))).

Definition get_slot_at_time db (when : Z) : result Z :=
  first_slot_time ← get_slot_time db 1;
  if when <? first_slot_time then Ok 0
  else
    s ← per_interval db (when - first_slot_time);
    Ok (wrap32 (s + 1)).

(** ** The schedule *)

Definition get_scheduled_witness db (slot_num : Z) : result N :=
  let current := wrap64 (current_aslot (dgpo db) + slot_num) in
  let shuffled := current_shuffled_witnesses db in
  _ ← guard_or (undefined_behaviour "modulo by zero") (negb (Z.of_nat (length shuffled) =? 0));
  of_option (shuffled !! Z.to_nat (current mod Z.of_nat (length shuffled)))
    (undefined_behaviour "current_shuffled_witnesses").

Definition witness_participation_rate db : Z :=
  wrap64 (GRAPHENE_100_PERCENT * u128_popcount fc_u128 (recent_slots_filled (dgpo db))) / 128.

(** The xorshift generator, seeded with the time and the position. *)
Definition xorshift_multiplier : Z := 2685821657736338717.

Definition shuffle_random (now_hi i : Z) : Z :=
  let k := wrap64 (now_hi + wrap64 (i * xorshift_multiplier)) in
  let k := Z.lxor k (Z.shiftr k 12) in
  let k := Z.lxor k (wrap64 (Z.shiftl k 25)) in
  let k := Z.lxor k (Z.shiftr k 27) in
  wrap64 (k * xorshift_multiplier).

(** [std::swap( l[i], l[j] )] *)
Definition swap_at {A} (l : list A) (i j : nat) : list A :=
  match l !! i, l !! j with
  | Some x, Some y => <[j := x]> (<[i := y]> l)
  | _, _ => l
  end.

Definition shuffle_step (now_hi : Z) (l : list N) (i : nat) : list N :=
  let jmax := Z.of_nat (length l - i) in
  swap_at l i (i + Z.to_nat (shuffle_random now_hi (Z.of_nat i) mod jmax)).

Definition shuffle (now_hi : Z) (l : list N) : list N := foldl (shuffle_step now_hi) l (seq 0 (length l)).

(** The active witnesses in the order of the set. *)
Definition active_in_order db : list N := merge_sort N.le (elements (active_witnesses db)).

Definition update_witness_schedule db : result database :=
  let n := Z.of_nat (size (active_witnesses db)) in
  _ ← guard_or (undefined_behaviour "modulo by zero") (negb (n =? 0));
  if head_block_num db mod n =? 0 then
    let now_hi := wrap64 (Z.shiftl (head_block_time db) 32) in
    Ok (db <| current_shuffled_witnesses := shuffle now_hi (active_in_order db) |>)
  else Ok db.

(** ** The dynamic global properties *)

(** The slots before that of the block: each scheduled witness missed one. *)
Definition miss_slot (signer : N) db (slot : nat) : result database :=
  w ← get_scheduled_witness db (Z.of_nat slot);
  _ ← tbl_get (witnesses db) w;
  if (w =? signer)%N then Ok db
  else
    Ok (db <| witnesses ::= fun t => tbl_modify t w (fun o =>
          o <| total_missed := to_int64 (total_missed o + 1) |>) |>).

Definition next_missed_count (count missed num : Z) (last_checkpoint : option Z) : Z :=
  if num =? 1 then 0
  else if match last_checkpoint with Some c => num <=? c | None => false end then 0
  else if negb (missed =? 0) then wrap32 (count + wrap32 (GRAPHENE_RECENTLY_MISSED_COUNT_INCREMENT * missed))
  else if GRAPHENE_RECENTLY_MISSED_COUNT_INCREMENT <? count
  then count - GRAPHENE_RECENTLY_MISSED_COUNT_DECREMENT
  else if 0 <? count then count - 1 else count.

(** [last_checkpoint] is the number of the last checkpoint; the second result is
    the size to which the undo and fork databases are set. *)
Definition update_global_dynamic_data (skip_undo_history_check : bool) (last_checkpoint : option Z)
    db b : result (database * Z) :=
  slots ← get_slot_at_time db (timestamp (header b));
  _ ← C_ASSERT (negb (slots =? 0)) "missed_blocks != 0";
  let missed := slots - 1 in
  db ← foldM (miss_slot (witness (header b))) db (seq 1 (Z.to_nat missed));
  let d := dgpo db in
  let d := d <| recently_missed_count := next_missed_count (recently_missed_count d) missed (block_num b) last_checkpoint |>
             <| head_block_number := block_num b |>
             <| head_block_id := block_id b |>
             <| time := timestamp (header b) |>
             <| current_witness := witness (header b) |>
             <| recent_slots_filled :=
                  u128_shl fc_u128 (u128_add fc_u128 (u128_shl fc_u128 (recent_slots_filled d) 1)
                    (u128_of fc_u128 1)) missed |>
             <| current_aslot := wrap64 (current_aslot d + wrap32 (missed + 1)) |> in
  let reversible := wrap32 (head_block_number d - last_irreversible_block_num d) in
  _ ← (if skip_undo_history_check then Ok tt
       else GRAPHENE_ASSERT (reversible <? GRAPHENE_MAX_UNDO_HISTORY) "undo_database_exception");
  Ok (db <| dgpo := d |>, wrap32 (reversible + 1)).

Definition update_signing_witness db b (signer : N) : result database :=
  slot ← get_slot_at_time db (timestamp (header b));
  let new_block_aslot := wrap64 (current_aslot (dgpo db) + slot) in
  let pay := Z.min (witness_pay_per_block (parameters db)) (witness_budget (dgpo db)) in
  left ← safe_sub fc_safe (witness_budget (dgpo db)) pay;
  let db := db <| dgpo ::= fun d => d <| witness_budget := left |> |> in
  db ← deposit_witness_pay db signer pay;
  Ok (db <| witnesses ::= fun t => tbl_modify t signer (fun w =>
        w <| last_aslot := new_block_aslot |> <| last_confirmed_block_num := block_num b |>) |>).

(** ** Irreversibility *)

Definition get_witnesses db : result (list witness_object) :=
  foldM (fun l i => w ← tbl_get (witnesses db) i; Ok (l ++ [w])) [] (active_in_order db).

Definition irreversible_offset (n : nat) : nat :=
  Z.to_nat ((GRAPHENE_100_PERCENT - GRAPHENE_IRREVERSIBLE_THRESHOLD) * Z.of_nat n / GRAPHENE_100_PERCENT).

Definition update_last_irreversible_block db : result database :=
  wit_objs ← get_witnesses db;
  let offset := irreversible_offset (length wit_objs) in
  let wit_objs := nth_element (fun x y => last_confirmed_block_num x <? last_confirmed_block_num y)
                    offset wit_objs in
  w ← of_option (wit_objs !! offset) (undefined_behaviour "wit_objs[offset]");
  if last_irreversible_block_num (dgpo db) <? last_confirmed_block_num w
  then Ok (db <| dgpo ::= fun d => d <| last_irreversible_block_num := last_confirmed_block_num w |> |>)
  else Ok db.

Definition update_maintenance_flag db (new_maintenance_flag : bool) : database :=
  db <| dgpo ::= fun d => d <| dynamic_flags :=
    Z.lor (Z.land (dynamic_flags d) (Z.lnot maintenance_flag))
      (if new_maintenance_flag then maintenance_flag else 0) |> |>.
End Witness.

(** ** When a slot begins *)

(** The specification of the slots: equally spaced from the first one. *)
Definition slot_base (db : database) : Z :=
  let interval := block_interval (parameters db) in
  if head_block_num db =? 0 then head_block_time db
  else head_block_time db / interval * interval
       + (if has_flag (dynamic_flags (dgpo db)) maintenance_flag
          then maintenance_skip_slots (parameters db) else 0) * interval.

Definition slot_start (db : database) (slot : Z) : Z := slot_base db + slot * block_interval (parameters db).

(** Parameters and clock of the width of their types. *)
Record clock_ok (db : database) : Prop := {
  clock_interval : 0 < block_interval (parameters db) < 2 ^ 8;
  clock_skip : 0 <= maintenance_skip_slots (parameters db) < 2 ^ 8;
  clock_time : 0 <= head_block_time db;
}.

Section SlotFacts.
Context `{FC : FcLib, BL : BlockLib, NE : NthElement}.
Implicit Types (db : database).

Lemma per_interval_ok db x : clock_ok db -> per_interval db x = Ok (x / block_interval (parameters db)).
Proof.
  intros [H _ _]. unfold per_interval. destruct (Z.eqb_spec (block_interval (parameters db)) 0); [lia|done].
Qed.

Lemma slot_base_nonneg db : clock_ok db -> 0 <= slot_base db.
Proof.
  intros [Hi Hs Ht]. unfold slot_base. destruct (_ =? 0); [done|].
  assert (0 <= head_block_time db / block_interval (parameters db)) by (apply Z.div_pos; lia).
  destruct (has_flag _ _); nia.
Qed.

Lemma get_slot_time_ok db k :
  clock_ok db -> 0 < k -> slot_start db k < 2 ^ 32 -> get_slot_time db k = Ok (slot_start db k).
Proof.
  intros Hc Hk Hb. pose proof (slot_base_nonneg db Hc) as Hn. unfold slot_start in *.
  unfold get_slot_time, slot_base in *. rewrite (per_interval_ok db _ Hc). destruct Hc as [Hi Hs Ht].
  destruct (Z.eqb_spec k 0); [lia|].
  set (i := block_interval (parameters db)) in *.
  destruct (head_block_num db =? 0).
  - rewrite (wrap32_small (k * i)), wrap32_small by nia. done.
  - cbn [mbind result_bind]. assert (0 <= head_block_time db / i) by (apply Z.div_pos; lia).
    set (q := head_block_time db / i) in *.
    destruct (has_flag _ _).
    + set (s := maintenance_skip_slots (parameters db)) in *.
      assert (wrap32 (k + s) = k + s) as -> by (apply wrap32_small; nia).
      rewrite (wrap32_small (q * i)), (wrap32_small ((k + s) * i)), wrap32_small by nia. f_equal. lia.
    + rewrite (wrap32_small (q * i)), (wrap32_small (k * i)), wrap32_small by nia. f_equal. lia.
Qed.

Lemma get_slot_at_time_before db when :
  clock_ok db -> slot_start db 1 < 2 ^ 32 -> when < slot_start db 1 -> get_slot_at_time db when = Ok 0.
Proof.
  intros Hc Hb Hw. unfold get_slot_at_time. rewrite (get_slot_time_ok db 1 Hc) by lia. simpl.
  destruct (Z.ltb_spec when (slot_start db 1)); [done|lia].
Qed.

Lemma get_slot_at_time_ok db when :
  clock_ok db -> slot_start db 1 <= when < 2 ^ 32 ->
  exists k, get_slot_at_time db when = Ok k /\ 0 < k /\ slot_start db k <= when < slot_start db (k + 1).
Proof.
  intros Hc Hw. unfold get_slot_at_time. rewrite (get_slot_time_ok db 1 Hc) by lia. simpl.
  destruct (Z.ltb_spec when (slot_start db 1)); [lia|]. rewrite (per_interval_ok db _ Hc). simpl.
  pose proof (slot_base_nonneg db Hc) as Hn. pose proof (clock_interval db Hc) as Hi.
  unfold slot_start in *. set (i := block_interval (parameters db)) in *.
  set (q := (when - (slot_base db + 1 * i)) / i).
  assert (0 <= q) by (apply Z.div_pos; lia).
  pose proof (Z.mul_div_le (when - (slot_base db + 1 * i)) i) as H1.
  pose proof (Z.mul_succ_div_gt (when - (slot_base db + 1 * i)) i) as H2. fold q in H1, H2.
  exists (q + 1). rewrite wrap32_small by nia. split; [done|]. split; [lia|]. lia.
Qed.
End SlotFacts.

Section ShuffleFacts.
Context {A : Type}.

Lemma swap_at_permutes (l : list A) i j : Permutation (swap_at l i j) l.
Proof.
  unfold swap_at. destruct (l !! i) as [x|] eqn:Hi; [|done]. destruct (l !! j) as [y|] eqn:Hj; [|done].
  destruct (decide (i = j)) as [->|Hne].
  - simplify_eq. by rewrite list_insert_insert_eq, list_insert_id.
  - apply Permutation_inj. split; [by rewrite !length_insert|].
    exists (fun k => if decide (k = i) then j else if decide (k = j) then i else k). split.
    + intros a b. repeat case_decide; congruence.
    + intros k. cbv beta. pose proof (lookup_lt_Some _ _ _ Hi). pose proof (lookup_lt_Some _ _ _ Hj).
      destruct (decide (k = j)) as [->|Hkj].
      * rewrite list_lookup_insert_eq by (rewrite length_insert; done).
        by case_decide; simplify_eq.
      * rewrite list_lookup_insert_ne by done. destruct (decide (k = i)) as [->|].
        -- rewrite list_lookup_insert_eq by done. by repeat case_decide.
        -- by rewrite list_lookup_insert_ne.
Qed.
End ShuffleFacts.

Lemma shuffle_permutes now_hi l : Permutation (shuffle now_hi l) l.
Proof.
  unfold shuffle. generalize (seq 0 (length l)). intros js.
  enough (forall l', Permutation l' l -> Permutation (foldl (shuffle_step now_hi) l' js) l) as H by by apply H.
  induction js as [|i js IH]; intros l' Hl; simpl; [done|]. apply IH.
  unfold shuffle_step. by rewrite swap_at_permutes.
Qed.

Lemma omap_lookup_seq {A} (p m : list A) :
  omap (fun k => (p ++ m) !! k) (seq (length p) (length m)) = m.
Proof.
  revert p. induction m as [|y m IH]; intros p; [done|]. simpl.
  rewrite list_lookup_middle by done. f_equal. specialize (IH (p ++ [y])).
  rewrite <-app_assoc, length_app, Nat.add_comm in IH. exact IH.
Qed.

Lemma omap_seq_lookup {A} (f : nat -> option A) k : forall s m,
  (forall j, (s <= j < s + m)%nat -> is_Some (f j)) -> (k < m)%nat -> omap f (seq s m) !! k = f (s + k)%nat.
Proof.
  induction k as [|k IH]; intros s [|m] Hf Hm; simpl; try lia; destruct (Hf s) as [x Hx]; try lia; rewrite Hx; simpl.
  - by rewrite Nat.add_0_r.
  - rewrite IH; [by replace (S s + k)%nat with (s + S k)%nat by lia| |lia]. intros j Hj. apply Hf. lia.
Qed.

(** [n] consecutive positions of a cycle of length [n] are all of its positions. *)
Lemma cycle_permutes {A} (l : list A) (a : Z) :
  Permutation (omap (fun k => l !! Z.to_nat ((a + Z.of_nat k) mod Z.of_nat (length l))) (seq 0 (length l))) l.
Proof.
  destruct l as [|x0 l0]; [done|]. set (l := x0 :: l0). set (n := length l).
  assert (Hn : (0 < n)%nat) by (subst n; simpl; lia).
  set (r := Z.to_nat (a mod Z.of_nat n)). pose proof (Z.mod_pos_bound a (Z.of_nat n) ltac:(lia)) as Hm.
  assert (Hr : (r < n)%nat) by lia.

  assert (Hshift : forall k, (k < n)%nat ->
    l !! Z.to_nat ((a + Z.of_nat k) mod Z.of_nat n) = (drop r l ++ take r l) !! k).
  { intros k Hk. rewrite <-Z.add_mod_idemp_l by lia. fold r.
    replace (a mod Z.of_nat n) with (Z.of_nat r) by (subst r; lia).
    destruct (decide (k < n - r)%nat).
    - rewrite Z.mod_small by lia. rewrite lookup_app_l by (rewrite length_drop; lia).
      rewrite lookup_drop. f_equal. lia.
    - rewrite lookup_app_r by (rewrite length_drop; fold n; lia). rewrite length_drop. fold n.
      rewrite lookup_take_lt by lia. f_equal.
      replace (Z.of_nat r + Z.of_nat k) with (Z.of_nat (k - (n - r)) + 1 * Z.of_nat n) by lia.
      rewrite Z.mod_add, Z.mod_small by lia. lia. }
  assert (E : omap (fun k => l !! Z.to_nat ((a + Z.of_nat k) mod Z.of_nat n)) (seq 0 n) = drop r l ++ take r l).
  { trans (omap (fun k => (drop r l ++ take r l) !! k) (seq 0 (length (drop r l ++ take r l)))).
    - rewrite length_app, length_drop, length_take. fold n. replace (n - r + r `min` n)%nat with n by lia.
      apply list_omap_ext. apply Forall_Forall2_diag, Forall_forall. intros k Hk%elem_of_seq. apply Hshift. lia.
    - apply (omap_lookup_seq []). }
  rewrite E. rewrite Permutation_app_comm. by rewrite take_drop.
Qed.

Section Facts.
Context `{FC : FcLib, !FcLaws FC, BL : BlockLib, NE : NthElement, !NthElementLaws NE}.
Implicit Types (db : database).

Lemma active_in_order_permutes db : Permutation (active_in_order db) (elements (active_witnesses db)).
Proof. apply merge_sort_Permutation. Qed.

Lemma active_in_order_length db : length (active_in_order db) = size (active_witnesses db).
Proof. by rewrite active_in_order_permutes. Qed.

(** ** The last irreversible block *)

Lemma get_witnesses_inv db ws :
  get_witnesses db = Ok ws -> Forall2 (fun i w => objs (witnesses db) !! i = Some w) (active_in_order db) ws.
Proof.
  unfold get_witnesses. generalize (active_in_order db). intros js H.
  enough (forall acc, foldM (fun l i => w ← tbl_get (witnesses db) i; Ok (l ++ [w])) acc js = Ok ws ->
    exists ws', ws = acc ++ ws' /\ Forall2 (fun i w => objs (witnesses db) !! i = Some w) js ws') as Hj.
  { destruct (Hj [] H) as (ws' & -> & ?). done. }
  clear H. revert ws. induction js as [|i js IH]; intros ws acc H; simpl in H.
  - inv_result. exists []. by rewrite app_nil_r.
  - inv_result. inv_get. apply IH in H as (ws' & -> & Hf). exists (a0 :: ws'). rewrite <-app_assoc. auto.
Qed.

Definition confirmed_by (v : Z) (ws : list witness_object) : nat :=
  length (filter (fun w => v <= last_confirmed_block_num w) ws).

Lemma confirmed_by_permutes v ws ws' : Permutation ws ws' -> confirmed_by v ws = confirmed_by v ws'.
Proof. intros H. unfold confirmed_by. by rewrite H. Qed.

Lemma filter_split {A} (P : A -> Prop) `{HD : !forall x, Decision (P x)} (l : list A) k :
  filter P l = filter P (take k l) ++ filter P (drop k l).
Proof. by rewrite <-filter_app, take_drop. Qed.

Lemma filter_all {A} (P : A -> Prop) `{HD : !forall x, Decision (P x)} (l : list A) :
  Forall P l -> filter P l = l.
Proof. induction 1 as [|x l Hx Hl IH]; [done|]. by rewrite filter_cons_True, IH. Qed.

Lemma nth_confirmed (ws : list witness_object) k m :
  let lt := fun x y : witness_object => last_confirmed_block_num x <? last_confirmed_block_num y in
  nth_element lt k ws !! k = Some m ->
  (length ws - k <= confirmed_by (last_confirmed_block_num m) ws)%nat /\
  forall v, last_confirmed_block_num m < v -> (confirmed_by v ws < length ws - k)%nat.
Proof.
  intros lt Hm. set (ws' := nth_element lt k ws) in *.
  assert (Hp : Permutation ws' ws) by apply nth_element_permutes.
  assert (Hswo : strict_weak_order lt ws).
  { split; unfold lt; intros *; rewrite ?Z.ltb_lt, ?Z.ltb_ge; lia. }
  assert (Hk : (k < length ws')%nat) by by eapply lookup_lt_Some.
  assert (Hlen : length ws' = length ws) by by rewrite Hp.
  assert (Hafter : forall i w, (k <= i)%nat -> ws' !! i = Some w -> last_confirmed_block_num m <= last_confirmed_block_num w).
  { intros i w Hi Hw. destruct (decide (i = k)) as [->|]; [simplify_eq; lia|].
    pose proof (nth_element_after _ lt k ws i w m Hswo Hm ltac:(lia) Hw) as H. unfold lt in H. by apply Z.ltb_ge. }
  assert (Hbefore : forall i w, (i <= k)%nat -> ws' !! i = Some w -> last_confirmed_block_num w <= last_confirmed_block_num m).
  { intros i w Hi Hw. destruct (decide (i = k)) as [->|]; [simplify_eq; lia|].
    pose proof (nth_element_before _ lt k ws i w m Hswo Hm ltac:(lia) Hw) as H. unfold lt in H. by apply Z.ltb_ge. }
  rewrite <-Hlen. split.
  - rewrite <-(confirmed_by_permutes _ _ _ Hp). unfold confirmed_by. rewrite (filter_split _ ws' k), length_app.
    enough (filter (fun w => last_confirmed_block_num m <= last_confirmed_block_num w) (drop k ws') = drop k ws') as ->
      by (rewrite length_drop; lia).
    apply filter_all, Forall_lookup. intros i w. rewrite lookup_drop. apply Hafter. lia.
  - intros v Hv. rewrite <-(confirmed_by_permutes _ _ _ Hp).
    enough (confirmed_by v ws' <= length ws' - 1 - k)%nat by lia. unfold confirmed_by.
    apply filter_after. intros i w Hi Hw. apply Hbefore in Hw; lia.
Qed.

Lemma irreversible_offset_bound n :
  (10 * irreversible_offset n <= 3 * n < 10 * (irreversible_offset n + 1))%nat.
Proof.
  unfold irreversible_offset. change (GRAPHENE_100_PERCENT - GRAPHENE_IRREVERSIBLE_THRESHOLD) with 3000.
  change GRAPHENE_100_PERCENT with 10000.
  pose proof (Z.div_mod (3000 * Z.of_nat n) 10000 ltac:(done)).
  pose proof (Z.mod_pos_bound (3000 * Z.of_nat n) 10000 ltac:(done)). lia.
Qed.
End Facts.

(** ** Properties *)

(** C36: slots are equally spaced from the head slot on (after a maintenance block
    some are skipped): the slot at a time is the one that has begun and not
    ended, 0 before the first slot, and the slot at the time a slot begins is
    that slot. *)
Theorem slot_times `{FC : FcLib, BL : BlockLib, NE : NthElement} (db : database) (when : Z) :
  clock_ok db -> slot_start db 1 < 2 ^ 32 -> when + block_interval (parameters db) < 2 ^ 32 ->
  (when < slot_start db 1 -> get_slot_at_time db when = Ok 0) /\
  (slot_start db 1 <= when -> exists k, get_slot_at_time db when = Ok k /\ 0 < k /\
     get_slot_time db k = Ok (slot_start db k) /\ get_slot_time db (k + 1) = Ok (slot_start db (k + 1)) /\
     slot_start db k <= when < slot_start db (k + 1)) /\
  (forall k, 0 < k -> slot_start db k < 2 ^ 32 ->
     (get_slot_time db k ≫= get_slot_at_time db) = Ok k).
Proof.
  intros Hc H1 Hw. pose proof (clock_interval db Hc) as Hi. split; [by apply get_slot_at_time_before|]. split.
  - intros Hle. destruct (get_slot_at_time_ok db when Hc) as (k & E & Hk & Hb); [lia|].
    exists k. unfold slot_start in *. split_and!; [done|done| | |lia|lia].
    + apply get_slot_time_ok; [done|done|unfold slot_start; lia].
    + apply get_slot_time_ok; [done|lia|unfold slot_start; lia].
  - intros k Hk Hb. rewrite (get_slot_time_ok db k Hc Hk Hb). simpl.
    destruct (get_slot_at_time_ok db (slot_start db k) Hc) as (j & E & Hj & Hs); [unfold slot_start in *; nia|].
    rewrite E. f_equal. unfold slot_start in Hs. nia.
Qed.

(** C37: after a shuffle every active witness is scheduled exactly once in any
    round of consecutive slots; the shuffle happens at the blocks whose number is
    a multiple of the number of active witnesses, and changes nothing else. *)
Theorem schedule_round `{FC : FcLib, BL : BlockLib, NE : NthElement} (db db' : database) (slot : Z) :
  let n := size (active_witnesses db) in
  0 <= current_aslot (dgpo db) + slot -> current_aslot (dgpo db) + slot + Z.of_nat n <= 2 ^ 64 ->
  update_witness_schedule db = Ok db' ->
  if head_block_num db mod Z.of_nat n =? 0 then
    db' = db <| current_shuffled_witnesses := current_shuffled_witnesses db' |> /\
    exists ws, (forall k, (k < n)%nat -> exists w, ws !! k = Some w /\
                  get_scheduled_witness db' (slot + Z.of_nat k) = Ok w) /\
      Permutation ws (elements (active_witnesses db))
  else db' = db.
Proof.
  intros n Hlo Hhi H. unfold update_witness_schedule in H. fold n in H. inv_result. bool_to_prop.
  destruct (head_block_num db mod Z.of_nat n =? 0); inv_result; [|done].
  split; [by destruct db|].
  set (l := shuffle _ (active_in_order db)). set (a := current_aslot (dgpo db) + slot).
  assert (Hl : Permutation l (active_in_order db)) by apply shuffle_permutes.
  assert (Hn : length l = n) by by rewrite Hl, active_in_order_length.
  exists (omap (fun k => l !! Z.to_nat ((a + Z.of_nat k) mod Z.of_nat (length l))) (seq 0 (length l))).
  split; [|by rewrite cycle_permutes, Hl, active_in_order_permutes].
  assert (Hat : forall k, (k < n)%nat -> exists w, l !! Z.to_nat ((a + Z.of_nat k) mod Z.of_nat (length l)) = Some w).
  { intros k Hk. apply lookup_lt_is_Some_2. pose proof (Z.mod_pos_bound (a + Z.of_nat k) (Z.of_nat (length l))). lia. }
  intros k Hk. destruct (Hat k Hk) as [w Hw]. exists w. split.
  - rewrite omap_seq_lookup; [exact Hw| |lia]. intros j Hj. destruct (Hat j) as [x ->]; [lia|by eexists].
  - unfold get_scheduled_witness. simpl. fold l.
    replace (current_aslot (dgpo db) + (slot + Z.of_nat k)) with (a + Z.of_nat k) by (unfold a; lia).
    assert (wrap64 (a + Z.of_nat k) = a + Z.of_nat k) as -> by (apply Z.mod_small; lia).
    destruct (Z.eqb_spec (Z.of_nat (length l)) 0); [lia|]. simpl. by rewrite Hw.
Qed.

(** The last irreversible block never goes back.  The quorum is the least number
    of active witnesses that makes 70 percent of them; where the block advances it is
    the highest that a quorum has confirmed, where it does not, no later block has
    one.  Nothing else changes. *)
Theorem irreversible_spec `{FC : FcLib, !FcLaws FC, BL : BlockLib, NE : NthElement, !NthElementLaws NE}
    (db db' : database) :
  update_last_irreversible_block db = Ok db' ->
  let lib := last_irreversible_block_num (dgpo db') in
  db' = db <| dgpo ::= fun d => d <| last_irreversible_block_num := lib |> |> /\
  last_irreversible_block_num (dgpo db) <= lib /\
  exists ws, Forall2 (fun i w => objs (witnesses db) !! i = Some w) (active_in_order db) ws /\
    let quorum := (length ws - irreversible_offset (length ws))%nat in
    (7 * length ws <= 10 * quorum < 7 * length ws + 10)%nat /\
    (last_irreversible_block_num (dgpo db) < lib -> (quorum <= confirmed_by lib ws)%nat) /\
    (forall v, lib < v -> (confirmed_by v ws < quorum)%nat).
Proof.
  unfold update_last_irreversible_block. cbv zeta. intros H. inv_result.
  match goal with H : get_witnesses _ = Ok ?l |- _ => rename l into ws; apply get_witnesses_inv in H as Hws end.
  match goal with H : nth_element _ _ _ !! _ = Some ?m |- _ => rename m into w; apply nth_confirmed in H as [Hq Hmax] end.
  pose proof (irreversible_offset_bound (length ws)).
  destruct (Z.ltb_spec (last_irreversible_block_num (dgpo db)) (last_confirmed_block_num w)); inv_result; simpl.
  - split_and!; [done|lia|]. exists ws. split_and!; [done|lia|lia|done|done].
  - split_and!; [by destruct db' as []; destruct dgpo|lia|]. exists ws. split_and!; [done|lia|lia|lia|].
    intros v Hv. apply Hmax. lia.
Qed.

(** ** Witnesses *)

Definition ex_witnessed : database := ex_state <| witnesses := table_of
  [(1%N, Witness_object 10 70 1 0 EmptyString 0 None 0 995); (2%N, Witness_object 11 80 2 0 EmptyString 0 None 0 999)] 3 |>.

Lemma ex_clock_ok : clock_ok ex_state.
Proof. by split. Qed.

Lemma slot_times_witness :
  slot_start ex_state 1 = 1500000005 /\
  exists k, get_slot_at_time ex_state 1500000017 = Ok k /\ 0 < k.
Proof.
  split; [by vm_compute|].
  destruct (@slot_times fc_ref block_ref sorting_nth_element ex_state 1500000017 ex_clock_ok) as (_ & H & _); [done..|].
  destruct H as (k & E & Hk & _); [done|]. by exists k.
Defined.

Lemma schedule_round_witness :
  exists db' ws, update_witness_schedule ex_state = Ok db' /\ Permutation ws (elements (active_witnesses ex_state)).
Proof.
  destruct (result_ok_true (update_witness_schedule ex_state)) as [db' H]; [by vm_compute|].
  pose proof (@schedule_round fc_ref block_ref sorting_nth_element ex_state db' 1) as P. cbv zeta in P.
  replace (_ mod _ =? 0) with true in P by by vm_compute.
  destruct P as (_ & ws & _ & Hp); [by vm_compute|by vm_compute|exact H|]. by exists db', ws.
Defined.

Lemma irreversible_spec_witness :
  exists db', update_last_irreversible_block (NE := sorting_nth_element) ex_witnessed = Ok db' /\
    990 <= last_irreversible_block_num (dgpo db') /\
    result_ok (update_last_irreversible_block (NE := sorting_nth_element) ex_witnessed) = true.
Proof.
  destruct (result_ok_true (update_last_irreversible_block (NE := sorting_nth_element) ex_witnessed))
    as [db' H]; [by vm_compute|].
  exists db'. split; [exact H|]. split; [|by vm_compute].
  destruct (@irreversible_spec fc_ref fc_ref_laws block_ref sorting_nth_element _ ex_witnessed db' H) as (_ & Hle & _).
  exact Hle.
Defined.
