(* ===== verification/Transactions.v ===== *)
(** * Transactions

    Models [database::_apply_transaction], [push_transaction],
    [validate_block_header] and [create_block_summary] of
    [libraries/chain/db_block.cpp], and [clear_expired_transactions] of
    [libraries/chain/db_update.cpp]: what a transaction must satisfy, the index
    that rejects duplicates, and the queue of pending transactions.

    Digests are parameters ([TransactionLib]).  What an operation costs is part of
    the state: the fee schedule as a function. *)

From S2P Require Import Prelude FcLib Block Asset Vesting Objects Database Ledger Market Trading Deflation Evaluator.
From S2P Require Import MarketOps Feeds AssetOps AssetFacts Capital Accounts Governance Operations Frames Authority Proposals Witness.

(** [database::validation_steps] *)
Definition skip_witness_signature : Z := 1.
Definition skip_transaction_signatures : Z := 2.
Definition skip_transaction_dupe_check : Z := 4.
Definition skip_tapos_check : Z := 32.
Definition skip_authority_check : Z := 64.
Definition skip_witness_schedule_check : Z := 1024.
Definition skips (skip flags : Z) : bool := negb (Z.land skip flags =? 0).

Record transaction := Transaction {
  ref_block_num : Z;
  ref_block_prefix : Z;
  expiration : Z;
  operations : list full_operation;
}.

Record signed_transaction := Signed_transaction {
  trx : transaction;
  signatures : list Z;
}.

#[export] Instance settable_transaction : Settable transaction := fun t =>
  Transaction (ref_block_num t) (ref_block_prefix t) (expiration t) (operations t).

(** The digests of the packed transaction, alone and with the chain id. *)
Class TransactionLib := {
  transaction_digest : transaction -> Z;
  sig_digest : transaction -> Z;
}.

Section Transactions.
Context `{FC : FcLib, BL : BlockLib, KL : KeyLib, TL : TransactionLib, NE : NthElement}.

(** The database with the parts that only transactions and blocks use. *)
Record chain_state := Chain_state {
  chain_db : database;
  chain_proposals : table proposal_object;
  recent : gmap Z signed_transaction;              (* transaction_index by_trx_id *)
  block_summaries : gmap Z block_id_type;
  fees : full_operation -> Z;                      (* calc_fee_visitor of the current schedule *)
  fee_scale : Z;
  pending_tx : list signed_transaction;
}.

#[export] Instance settable_chain_state : Settable chain_state := fun s =>
  Chain_state (chain_db s) (chain_proposals s) (recent s) (block_summaries s) (fees s) (fee_scale s) (pending_tx s).

Implicit Types (s : chain_state) (t : signed_transaction).

(** The first 20 of the 32 bytes of the digest. *)
Definition transaction_id (t : transaction) : Z := transaction_digest t / 2 ^ 96.

(** [_hash[1]] *)
Definition hash_1 (i : block_id_type) : Z := nth 0 (hash_1_4 i) 0.

Definition set_reference_block (t : transaction) (reference_block : block_id_type) : transaction :=
  t <| ref_block_num := wrap16 (endian_reverse_u32 (hash_0 reference_block)) |>
    <| ref_block_prefix := hash_1 reference_block |>.

(** [&id( *this ).owner] and [&id( *this ).active] *)
Definition get_owner s (id : N) : result (option authority) :=
  a ← tbl_get (accounts (chain_db s)) id;
  Ok (Some (owner_authority a)).
Definition get_active s (id : N) : result (option authority) :=
  a ← tbl_get (accounts (chain_db s)) id;
  Ok (Some (active_authority a)).

(** ** Accepting a transaction *)

Definition check_authorities s t : result unit :=
  keys ← get_signature_keys (signatures t) (sig_digest (trx t));
  verify_required (get_active s) (get_owner s) (full_required (operations (trx t))) keys
    (Z.to_nat (max_authority_depth (parameters (chain_db s)))) false ∅ ∅.

Definition check_tapos s t : result unit :=
  b ← of_option (block_summaries s !! ref_block_num (trx t)) (assert_exception "Unable to find Object");
  FC_ASSERT (ref_block_prefix (trx t) =? hash_1 b) "trx.ref_block_prefix == tapos_block_summary.block_id._hash[1]".

Definition check_expiration s t : result unit :=
  let now := head_block_time (chain_db s) in
  _ ← FC_ASSERT (expiration (trx t) <=? wrap32 (now + maximum_time_until_expiration (parameters (chain_db s))))
        "trx.expiration <= now + chain_parameters.maximum_time_until_expiration";
  FC_ASSERT (now <=? expiration (trx t)) "now <= trx.expiration".

(** The database and the proposals. *)
Definition full_of s : full_state := Full_state (chain_db s) (chain_proposals s).
Definition with_full s (f : full_state) : chain_state :=
  s <| chain_db := base_db f |> <| chain_proposals := proposals f |>.

(** [_apply_transaction] *)
Definition apply_transaction (skip : Z) s t : result chain_state :=
  _ ← full_transaction_validate (operations (trx t));
  let trx_id := transaction_id (trx t) in
  let dupe_check := negb (skips skip skip_transaction_dupe_check) in
  _ ← FC_ASSERT (negb dupe_check || bool_decide (recent s !! trx_id = None)) "find(trx_id) == end()";
  _ ← (if skips skip (Z.lor skip_transaction_signatures skip_authority_check) then Ok tt
       else check_authorities s t);
  _ ← (if 0 <? head_block_num (chain_db s) then
         _ ← (if skips skip skip_tapos_check then Ok tt else check_tapos s t);
         check_expiration s t
       else Ok tt);
  let s := if dupe_check then s <| recent ::= <[trx_id := t]> |> else s in
  f ← apply_full_operations (fees s) (fee_scale s) (full_of s) (operations (trx t));
  Ok (with_full s f).

(** [_push_transaction]: a failure undoes the temporary session, so that nothing
    changes. *)
Definition push_transaction (skip : Z) s t : result chain_state :=
  s ← apply_transaction skip s t;
  Ok (s <| pending_tx ::= fun l => l ++ [t] |>).

(** ** Blocks *)

(** The witness that may sign the header. *)
Definition validate_block_header (skip : Z) s (b : signed_block_header) : result N :=
  let db := chain_db s in
  _ ← FC_ASSERT (bool_decide (head_block_id (dgpo db) = previous (header b)))
        "head_block_id() == next_block.previous";
  _ ← FC_ASSERT (head_block_time db <? timestamp (header b)) "head_block_time() < next_block.timestamp";
  w ← tbl_get (witnesses db) (witness (header b));
  _ ← (if skips skip skip_witness_signature then Ok tt
       else
         ok ← validate_signee b (signing_key w);
         FC_ASSERT ok "next_block.validate_signee( witness.signing_key )");
  _ ← (if skips skip skip_witness_schedule_check then Ok tt
       else
         slot_num ← get_slot_at_time db (timestamp (header b));
         _ ← FC_ASSERT (0 <? slot_num) "slot_num > 0";
         scheduled_witness ← get_scheduled_witness db slot_num;
         FC_ASSERT (witness (header b) =? scheduled_witness)%N "Witness produced block at wrong time");
  Ok (witness (header b)).

(** What [_generate_block] demands of the producer. *)
Definition check_producer (skip : Z) (db : database) (when : Z) (witness_id : N) (k : private_key) : result unit :=
  slot_num ← get_slot_at_time db when;
  _ ← FC_ASSERT (0 <? slot_num) "slot_num > 0";
  scheduled_witness ← get_scheduled_witness db slot_num;
  _ ← FC_ASSERT (scheduled_witness =? witness_id)%N "scheduled_witness == witness_id";
  witness_obj ← tbl_get (witnesses db) witness_id;
  if skips skip skip_witness_signature then Ok tt
  else FC_ASSERT (bool_decide (signing_key witness_obj = key_of k))
         "witness_obj.signing_key == block_signing_private_key.get_public_key()".

(** The header it makes for the root of the transactions. *)
Definition seal (skip : Z) (db : database) (when : Z) (witness_id : N) (k : private_key) (root : Z) : signed_block_header :=
  let pending := Signed_block_header (Block_header (head_block_id (dgpo db)) when witness_id root) 0 in
  if skips skip skip_witness_signature then pending else sign k pending.

(** The summary of the block takes the place of the one 65536 blocks before. *)
Definition create_block_summary s (b : signed_block_header) : result chain_state :=
  let sid := Z.land (block_num b) 65535 in
  _ ← of_option (block_summaries s !! sid) (assert_exception "Unable to find Object");
  Ok (s <| block_summaries ::= <[sid := block_id b]> |>).

(** The index by_expiration. *)
Definition expires_before (x y : Z * signed_transaction) : Prop :=
  expiration (trx x.2) <= expiration (trx y.2).
#[export] Instance expires_before_dec x y : Decision (expires_before x y).
Proof. unfold expires_before. apply _. Defined.

Definition by_expiration s : list (Z * signed_transaction) := merge_sort expires_before (map_to_list (recent s)).

Definition clear_expired_transactions s : result chain_state :=
  while (fun s => match by_expiration s with
                  | x :: _ => expiration (trx x.2) <? head_block_time (chain_db s)
                  | [] => false
                  end)
    (fun s => match by_expiration s with
              | x :: _ => Ok (s <| recent ::= delete x.1 |>)
              | [] => Ok s
              end)
    (S (size (recent s))) s.
End Transactions.

(** ** Facts *)

Section Facts.
Context `{FC : FcLib, BL : BlockLib, KL : KeyLib, TL : TransactionLib, NE : NthElement}.
Implicit Types (s : chain_state) (t : signed_transaction).

(** The parts of an accepted transaction. *)
Lemma apply_transaction_inv skip s t s' :
  apply_transaction skip s t = Ok s' ->
  full_transaction_validate (operations (trx t)) = Ok tt /\
  (skips skip skip_transaction_dupe_check = false -> recent s !! transaction_id (trx t) = None) /\
  (skips skip (Z.lor skip_transaction_signatures skip_authority_check) = false -> check_authorities s t = Ok tt) /\
  (0 < head_block_num (chain_db s) -> check_expiration s t = Ok tt /\
     (skips skip skip_tapos_check = false -> check_tapos s t = Ok tt)) /\
  exists f, apply_full_operations (fees s) (fee_scale s) (full_of s) (operations (trx t)) = Ok f /\
    s' = with_full (if skips skip skip_transaction_dupe_check then s else s <| recent ::= <[transaction_id (trx t) := t]> |>) f.
Proof.
  unfold apply_transaction. intros H. inv_result.
  repeat match goal with u : unit |- _ => destruct u end.
  split; [done|]. split.
  { intros E. rewrite E in *. simpl in *. by bool_to_prop. }
  split; [intros E; by rewrite E in *|]. split.
  { intros Hn%Z.ltb_lt. rewrite Hn in *. inv_result. repeat match goal with u : unit |- _ => destruct u end.
    split; [done|]. intros E. by rewrite E in *. }
  destruct (skips skip skip_transaction_dupe_check); simpl in *; eauto.
Qed.

(** *** The deduplication list *)

Definition alive s (x : Z * signed_transaction) : Prop := head_block_time (chain_db s) <= expiration (trx x.2).
#[export] Instance alive_dec s x : Decision (alive s x).
Proof. unfold alive. apply _. Defined.

Lemma by_expiration_elem s x : x ∈ by_expiration s <-> recent s !! x.1 = Some x.2.
Proof. unfold by_expiration. rewrite merge_sort_Permutation. destruct x. by rewrite elem_of_map_to_list. Qed.

#[local] Instance expires_before_trans : Transitive expires_before.
Proof. intros x y z. unfold expires_before. lia. Qed.
#[local] Instance expires_before_total : Total expires_before.
Proof. intros x y. unfold expires_before. lia. Qed.

(** The head of the index expires first. *)
Lemma by_expiration_head s x l y :
  by_expiration s = x :: l -> y ∈ by_expiration s -> expiration (trx x.2) <= expiration (trx y.2).
Proof.
  unfold by_expiration. intros E. assert (Hh : head (merge_sort expires_before (map_to_list (recent s))) = Some x)
    by by rewrite E.
  apply (merge_sort_head expires_before) in Hh as [_ Hm]. rewrite merge_sort_Permutation. intros Hy. exact (Hm y Hy).
Qed.

Lemma clear_expired_ok s :
  clear_expired_transactions s = Ok (s <| recent ::= filter (alive s) |>).
Proof.
  unfold clear_expired_transactions.
  destruct (while_total
    (fun s => match by_expiration s with x :: _ => expiration (trx x.2) <? head_block_time (chain_db s) | [] => false end)
    (fun s => match by_expiration s with x :: _ => Ok (s <| recent ::= delete x.1 |>) | [] => Ok s end)
    (fun s1 => s1 = s <| recent := recent s1 |> /\ recent s1 ⊆ recent s /\ filter (alive s) (recent s1) = filter (alive s) (recent s))
    (fun s1 => size (recent s1))) with (fuel := S (size (recent s))) (s := s) as (s' & -> & (E & Hsub & Hf) & Hc).
  - intros s1 (E & Hsub & Hf) Hc. destruct (by_expiration s1) as [|x l] eqn:Ex; [done|].
    assert (Hx : recent s1 !! x.1 = Some x.2) by (apply by_expiration_elem; rewrite Ex; by left).
    eexists. split; [reflexivity|]. split_and!.
    + rewrite E. done.
    + simpl. etrans; [apply delete_subseteq|done].
    + simpl. rewrite map_filter_delete_not; [done|]. intros y Hy. rewrite Hx in Hy. injection Hy as <-.
      unfold alive. simpl. rewrite E in Hc. simpl in Hc. bool_to_prop. lia.
    + simpl. rewrite map_size_delete_Some by by eexists. assert (size (recent s1) <> 0%nat); [|lia].
      intros H0%map_size_empty_iff. by rewrite H0, lookup_empty in Hx.
  - split_and!; [by destruct s|done|done].
  - simpl. lia.
  - enough (recent s' = filter (alive s) (recent s)) as R by (rewrite E, R; done).
    rewrite <-Hf. symmetry. apply map_filter_id. intros i y Hy. unfold alive. simpl.
    assert (Hy' : (i, y) ∈ by_expiration s') by by apply by_expiration_elem.
    destruct (by_expiration s') as [|x l] eqn:Ex; [by apply elem_of_nil in Hy'|].
    rewrite <-Ex in Hy'. pose proof (by_expiration_head _ _ _ _ Ex Hy'). rewrite E in Hc. simpl in *. bool_to_prop. lia.
Qed.

(** *** Duplicates *)

(** What happens between two transactions: others are applied, blocks move the
    clock, the rest of the database changes, and expired transactions are
    forgotten. *)
Inductive chain_step : chain_state -> chain_state -> Prop :=
  | step_transaction skip s t s' :
      skips skip skip_transaction_dupe_check = false -> apply_transaction skip s t = Ok s' -> chain_step s s'
  | step_block skip skip_undo last_checkpoint s b w db n :
      validate_block_header skip s b = Ok w ->
      update_global_dynamic_data skip_undo last_checkpoint (chain_db s) b = Ok (db, n) ->
      chain_step s (s <| chain_db := db |>)
  | step_summary s b s' : create_block_summary s b = Ok s' -> chain_step s s'
  | step_clear s s' : clear_expired_transactions s = Ok s' -> chain_step s s'
  | step_other s f : head_block_time (base_db f) = head_block_time (chain_db s) -> chain_step s (with_full s f).

(** The transaction is remembered, or its time is over. *)
Definition spent (t : transaction) s : Prop :=
  (exists t0, recent s !! transaction_id t = Some t0 /\ trx t0 = t) \/ expiration t < head_block_time (chain_db s).

Lemma validate_block_header_time skip s b w :
  validate_block_header skip s b = Ok w -> head_block_time (chain_db s) < timestamp (header b).
Proof. unfold validate_block_header. cbv zeta. intros H. inv_result. by bool_to_prop. Qed.

Lemma update_global_dynamic_data_time skip_undo cp db b db' n :
  update_global_dynamic_data skip_undo cp db b = Ok (db', n) -> head_block_time db' = timestamp (header b).
Proof. unfold update_global_dynamic_data. cbv zeta. intros H. by inv_result. Qed.

Lemma apply_transaction_time skip s t s' :
  apply_transaction skip s t = Ok s' -> head_block_time (chain_db s') = head_block_time (chain_db s).
Proof.
  intros (_ & _ & _ & _ & f & H & ->)%apply_transaction_inv. apply full_operations_schedule, sched_clock in H.
  exact (f_equal time H).
Qed.

Lemma spent_step (t : transaction) s s' : chain_step s s' -> spent t s -> spent t s'.
Proof.
  intros H Hs. destruct H as [skip s t1 s' Hd H|skip su cp s b w db n Hb Hu|s b s' H|s s' H|s f H].
  - unfold spent. rewrite (apply_transaction_time _ _ _ _ H).
    apply apply_transaction_inv in H as (_ & Hn & _ & _ & f & _ & ->). rewrite Hd. specialize (Hn Hd). simpl.
    destruct Hs as [(t0 & H0 & E)|?]; [left|by right]. exists t0. split; [|done].
    rewrite lookup_insert_ne; [done|]. congruence.
  - apply validate_block_header_time in Hb. apply update_global_dynamic_data_time in Hu.
    destruct Hs as [?|?]; [by left|right]. simpl. lia.
  - unfold create_block_summary in H. cbv zeta in H. inv_result. done.
  - rewrite clear_expired_ok in H. injection H as <-. destruct Hs as [(t0 & H0 & E)|?]; [|by right].
    destruct (decide (alive s (transaction_id t, t0))) as [Ha|Ha].
    + left. exists t0. split; [|done]. by apply map_lookup_filter_Some.
    + right. unfold alive in Ha. simpl in Ha. simpl. rewrite E in Ha. lia.
  - destruct Hs as [?|?]; [by left|right]. simpl. lia.
Qed.

Lemma spent_rejected skip s t :
  spent (trx t) s -> 0 < head_block_num (chain_db s) -> skips skip skip_transaction_dupe_check = false ->
  exists e, apply_transaction skip s t = Err e.
Proof.
  intros Hs Hn Hd. destruct (apply_transaction skip s t) as [s'|e] eqn:H; [|by exists e].
  apply apply_transaction_inv in H as (_ & Hdupe & _ & Hexp & _). specialize (Hdupe Hd).
  destruct (Hexp Hn) as [He _]. unfold check_expiration in He. cbv zeta in He. inv_result. bool_to_prop.
  destruct Hs as [(t0 & H0 & _)|?]; [congruence|lia].
Qed.

(** *** Authorities *)

(** No authority has negative weights or more than their type holds. *)
Definition light_authorities s : Prop :=
  forall i a, objs (accounts (chain_db s)) !! i = Some a -> light (owner_authority a) /\ light (active_authority a).

(** The account approves: by its active authority or its owner authority. *)
Definition account_approves s (keys : gset public_key) (n : nat) (id : N) : Prop :=
  approves (get_active s) keys (given ∅ ∅) (S n) id = true \/
  owner_satisfied (get_active s) (get_owner s) keys ∅ ∅ n id.

(** Everyone whom [op] needs approves, none of them the committee. *)
Record authorised s (keys : gset public_key) (n : nat) (op : full_operation) : Prop := {
  payer_authorises : account_approves s keys n (full_fee_payer op);
  others_authorise id : id ∈ full_required_active op -> account_approves s keys n id;
  owners_authorise id : id ∈ full_required_owner op ->
    owner_satisfied (get_active s) (get_owner s) keys ∅ ∅ n id;
  keys_authorise au : au ∈ full_other op -> satisfied (get_active s) keys (given ∅ ∅) n au = true;
  no_committee : ~ (GRAPHENE_COMMITTEE_ACCOUNT ∈ full_fee_payer op :: full_required_active op);
}.

(** No update of a proposal names more keys than its authority can weigh. *)
Definition light_updates t : Prop := forall op, op ∈ operations (trx t) -> Forall light (full_other op).

Lemma required_active_elem ops op x :
  op ∈ ops -> x ∈ full_fee_payer op :: full_required_active op -> x ∈ required_active (full_required ops).
Proof. intros H Hx. simpl. apply flat_elem, list_elem_of_bind. eauto. Qed.

Lemma required_owner_elem ops op x :
  op ∈ ops -> x ∈ full_required_owner op -> x ∈ required_owner (full_required ops).
Proof. intros H Hx. simpl. apply flat_elem, list_elem_of_bind. eauto. Qed.

Lemma check_authorities_sound s t :
  light_authorities s -> light_updates t -> check_authorities s t = Ok tt ->
  exists keys n, get_signature_keys (signatures t) (sig_digest (trx t)) = Ok keys /\
    forall op, op ∈ operations (trx t) -> authorised s keys n op.
Proof.
  intros L Lu. unfold check_authorities. intros (keys & Hk & H)%bind_Ok.
  apply verify_sound in H as [Hc [n M]].
  - exists keys, n. split; [done|]. intros op Hop. pose proof (meets_active _ _ _ _ _ _ _ M) as Ma. split.
    + apply Ma. eapply required_active_elem; [done|by left].
    + intros id Hid. apply Ma. eapply required_active_elem; [done|by right].
    + intros id Hid. destruct (meets_owner _ _ _ _ _ _ _ M id) as [?%elem_of_empty|]; [|done..].
      by eapply required_owner_elem.
    + intros au Hau. apply (meets_other _ _ _ _ _ _ _ M). cbn. apply list_elem_of_bind. eauto.
    + intros Hid. apply Hc; [done|]. by eapply required_active_elem.
  - intros a au. unfold get_active. intros H1. inv_result. inv_get. by eapply L.
  - intros a au. unfold get_owner. intros H1. inv_result. inv_get. by eapply L.
  - intros au (op & Hau & Hop)%list_elem_of_bind. specialize (Lu op Hop). rewrite Forall_forall in Lu. by apply Lu.
Qed.
End Facts.

(** The header of the scheduled witness passes every check. *)
Lemma sealed_header_valid `{FC : FcLib, BL : BlockLib, !BlockLaws BL, KL : KeyLib, TL : TransactionLib, NE : NthElement}
    (skip : Z) (s : chain_state) (when : Z) (w : N) (k : private_key) (root : Z) :
  let b := seal skip (chain_db s) when w k root in
  check_producer skip (chain_db s) when w k = Ok tt -> clock_ok (chain_db s) ->
  slot_start (chain_db s) 1 < 2 ^ 32 ->
  validate_block_header skip s b = Ok w /\ previous (header b) = head_block_id (dgpo (chain_db s)) /\
  transaction_merkle_root (header b) = root.
Proof.
  intros b H Hc Hb. unfold check_producer in H.
  apply bind_Ok in H as (slot & Hslot & H). apply bind_Ok in H as (? & Hpos & H).
  apply bind_Ok in H as (w' & Hw & H). apply bind_Ok in H as (? & Hww & H). apply bind_Ok in H as (o & Ho & H).
  apply guard_or_Ok in Hpos, Hww.
  assert (Htime : head_block_time (chain_db s) < when).
  { destruct (Z.lt_ge_cases when (slot_start (chain_db s) 1)) as [Hlt|Hge].
    - rewrite (get_slot_at_time_before _ _ Hc Hb Hlt) in Hslot. by injection Hslot as <-.
    - unfold slot_start, slot_base in Hge. destruct Hc as [Hi Hs Ht].
      destruct (_ =? 0) in Hge; [lia|].
      pose proof (Z.mul_succ_div_gt (head_block_time (chain_db s)) (block_interval (parameters (chain_db s)))).
      destruct (has_flag _ _) in Hge; nia. }
  assert (Hdone : header b = Block_header (head_block_id (dgpo (chain_db s))) when w root /\
    (skips skip skip_witness_signature = false -> validate_signee b (signing_key o) = Ok true)).
  { unfold b, seal. destruct (skips skip skip_witness_signature); [done|]. split; [done|]. intros _.
    apply guard_or_Ok in H. unfold validate_signee, signee, sign. simpl.
    rewrite recover_sign. simpl. bool_to_prop. subst. by rewrite bool_decide_eq_true_2. }
  destruct Hdone as [Hh Hsig]. unfold validate_block_header. rewrite Hh. cbn [previous timestamp witness transaction_merkle_root].
  split; [|done]. cbv zeta. rewrite bool_decide_eq_true_2 by done. rewrite (proj2 (Z.ltb_lt _ _) Htime). simpl.
  rewrite Ho. simpl.
  destruct (skips skip skip_witness_signature); [simpl|rewrite (Hsig eq_refl); simpl];
    (destruct (skips skip skip_witness_schedule_check); [done|]);
    rewrite Hslot; simpl; rewrite Hpos; simpl; rewrite Hw; simpl; rewrite N.eqb_sym, Hww; done.
Qed.

(** ** Properties *)

(** C9: an accepted transaction is authorised and timely.  Unless the checks are
    skipped: with the keys that signed and at some depth of accounts, every
    operation's payer and the other accounts it names approve, none of them the
    committee, an update of an owner authority has the approval of that owner
    authority itself, and the keys that approve a proposal have signed; the transaction was not known, it is neither expired nor too
    far in the future, and it names a block of this chain. *)
Theorem transaction_authorised `{FC : FcLib, BL : BlockLib, KL : KeyLib, TL : TransactionLib, NE : NthElement}
    (skip : Z) (s s' : chain_state) (t : signed_transaction) :
  apply_transaction skip s t = Ok s' -> light_authorities s -> light_updates t -> 0 < head_block_num (chain_db s) ->
  (skips skip (Z.lor skip_transaction_signatures skip_authority_check) = false ->
     exists keys n, get_signature_keys (signatures t) (sig_digest (trx t)) = Ok keys /\
       forall op, op ∈ operations (trx t) -> authorised s keys n op) /\
  (skips skip skip_transaction_dupe_check = false ->
     recent s !! transaction_id (trx t) = None /\ recent s' !! transaction_id (trx t) = Some t) /\
  head_block_time (chain_db s) <= expiration (trx t)
    <= wrap32 (head_block_time (chain_db s) + maximum_time_until_expiration (parameters (chain_db s))) /\
  (skips skip skip_tapos_check = false ->
     exists b, block_summaries s !! ref_block_num (trx t) = Some b /\ hash_1 b = ref_block_prefix (trx t)).
Proof.
  intros (_ & Hd & Ha & He & f & _ & Es)%apply_transaction_inv L Lu Hn. destruct (He Hn) as [Hx Htapos].
  split_and!.
  - intros E. by apply check_authorities_sound; [| |apply Ha].
  - intros E. split; [by apply Hd|]. rewrite Es, E. apply lookup_insert_eq.
  - unfold check_expiration in Hx. cbv zeta in Hx. inv_result. by bool_to_prop.
  - unfold check_expiration in Hx. cbv zeta in Hx. inv_result. by bool_to_prop.
  - intros E. specialize (Htapos E). unfold check_tapos in Htapos. inv_result. eexists. split; [eassumption|].
    by bool_to_prop.
Qed.

(** An accepted transaction, whatever its operations and whatever proposals they
    execute, keeps the database well formed and, in every asset but the core, what
    the holdings exceed the supply by; and it leaves the clock, the schedule of
    witnesses and what they are (but for their key and page), and the chain
    parameters alone. *)
Theorem transaction_conserves `{FC : FcLib, !FcLaws FC, BL : BlockLib, KL : KeyLib, TL : TransactionLib, NE : NthElement}
    (skip : Z) (s s' : chain_state) (t : signed_transaction) :
  apply_transaction skip s t = Ok s' -> wf_db (chain_db s) -> steady_proposals (full_of s) ->
  full_prepared (fees s) (fee_scale s) (full_of s) (operations (trx t)) ->
  wf_db (chain_db s') /\ steady_proposals (full_of s') /\ same_schedule (chain_db s) (chain_db s') /\
  forall a, a <> CORE_ASSET ->
    holdings (chain_db s') a - supply (chain_db s') a = holdings (chain_db s) a - supply (chain_db s) a.
Proof.
  intros (_ & _ & _ & _ & f & H & ->)%apply_transaction_inv W P Hp.
  destruct (full_operations_value _ _ _ _ _ Hp H W P) as (W' & P' & E). split; [done|]. split; [exact P'|].
  split; [exact (full_operations_schedule _ _ _ _ _ H)|exact E].
Qed.

(** C10: a transaction is not applied twice: once it was accepted, then whatever
    happens afterwards (other transactions, blocks with their later clocks,
    changes of the database, the removal of expired transactions), a transaction
    with the same content is rejected, however it is signed. *)
Theorem no_replay `{FC : FcLib, BL : BlockLib, KL : KeyLib, TL : TransactionLib, NE : NthElement}
    (skip skip' : Z) (s s1 s2 : chain_state) (t t' : signed_transaction) :
  apply_transaction skip s t = Ok s1 -> rtc chain_step s1 s2 -> trx t' = trx t ->
  skips skip skip_transaction_dupe_check = false -> skips skip' skip_transaction_dupe_check = false ->
  0 < head_block_num (chain_db s2) ->
  exists e, apply_transaction skip' s2 t' = Err e.
Proof.
  intros H Hsteps E Hd Hd' Hn. apply spent_rejected; [|done|done]. rewrite E.
  assert (H1 : spent (trx t) s1).
  { left. exists t. apply apply_transaction_inv in H as (_ & _ & _ & _ & f & _ & ->). rewrite Hd.
    split; [apply lookup_insert_eq|done]. }
  clear -H1 Hsteps. induction Hsteps; [done|]. eauto using spent_step.
Qed.

(** The loop that forgets expired transactions ends, and forgets exactly
    those. *)
Theorem clear_expired_transactions_spec `{FC : FcLib, BL : BlockLib, KL : KeyLib, TL : TransactionLib}
    (s : chain_state) :
  clear_expired_transactions s =
    Ok (s <| recent ::= filter (fun x => head_block_time (chain_db s) <= expiration (trx x.2)) |>).
Proof. apply clear_expired_ok. Qed.

(** C32: the header that the scheduled witness makes in its slot is one that
    every node in the same state accepts, and it extends the head of the chain. *)
Theorem generated_header_valid `{FC : FcLib, BL : BlockLib, !BlockLaws BL, KL : KeyLib, TL : TransactionLib, NE : NthElement}
    (skip : Z) (s : chain_state) (when : Z) (w : N) (k : private_key) (root : Z) :
  let b := seal skip (chain_db s) when w k root in
  check_producer skip (chain_db s) when w k = Ok tt -> clock_ok (chain_db s) ->
  slot_start (chain_db s) 1 < 2 ^ 32 ->
  validate_block_header skip s b = Ok w /\ previous (header b) = head_block_id (dgpo (chain_db s)) /\
  transaction_merkle_root (header b) = root.
Proof. apply sealed_header_valid. Qed.

(** ** Witnesses *)

Definition transaction_ref : TransactionLib := {|
  transaction_digest t := 2 ^ 96 * mix [ref_block_num t; ref_block_prefix t; expiration t];
  sig_digest t := mix [1; ref_block_num t; ref_block_prefix t; expiration t];
|}.

(** Alice's active authority is her key and Bob. *)
Definition ex_chain : chain_state :=
  Chain_state
    (ex_witnessed <| accounts := table_of
      [(10%N, (ex_account "alice") <| active_authority := Authority 2 [(11%N, 1)] [(7, 1)] [] |>);
       (11%N, (ex_account "bob") <| active_authority := Authority 1 [] [(8, 1)] [] |>);
       (12%N, ex_account "carol")] 13 |>)
    empty_table ∅ (list_to_map [(5, Block_id 0 [77; 0; 0; 0])]) (fun _ => 20) 10000 [].

(** Alice pays Carol; her active authority needs Bob, who signs too. *)
Definition ex_payment : transaction :=
  Transaction 5 77 1500003600 [ex_proposed].
Definition ex_signed : signed_transaction :=
  Signed_transaction ex_payment
    (map (fun k => sign_compact (BlockLib := block_ref) k (sig_digest (TransactionLib := transaction_ref) ex_payment)) [7; 8]).

Definition ex_accept := apply_transaction (FC := fc_ref) (BL := block_ref) (TL := transaction_ref) (NE := sorting_nth_element).

Lemma ex_accepted : exists s', ex_accept 0 ex_chain ex_signed = Ok s'.
Proof. apply result_ok_true. by vm_compute. Qed.

Lemma ex_chain_light : light_authorities ex_chain.
Proof.
  intros i a H. change (objs (accounts (chain_db ex_chain))) with
    (list_to_map [(10%N, (ex_account "alice") <| active_authority := Authority 2 [(11%N, 1)] [(7, 1)] [] |>);
       (11%N, (ex_account "bob") <| active_authority := Authority 1 [] [(8, 1)] [] |>);
       (12%N, ex_account "carol")] : gmap N account_object) in H.
  apply elem_of_list_to_map_2 in H. repeat (apply elem_of_cons in H as [[= -> ->]|H];
    [split; (split; [by repeat constructor|by vm_compute])|]). by apply elem_of_nil in H.
Qed.

Lemma transaction_authorised_witness :
  exists s' keys, ex_accept 0 ex_chain ex_signed = Ok s' /\
    get_signature_keys (BL := block_ref) (signatures ex_signed)
      (sig_digest (TransactionLib := transaction_ref) ex_payment) = Ok keys.
Proof.
  destruct ex_accepted as [s' H].
  destruct (@transaction_authorised fc_ref block_ref key_ref transaction_ref sorting_nth_element 0 ex_chain s' ex_signed H
    ex_chain_light) as (Ha & _); [by intros op ->%list_elem_of_singleton|by vm_compute|].
  destruct Ha as (keys & n & Hk & _); [by vm_compute|]. exists s', keys. split; [exact H|exact Hk].
Defined.

Lemma ex_chain_wf : wf_db (FC := fc_ref) (chain_db ex_chain).
Proof. destruct ex_state_wf as [[] ? ? ? ? ? ?]. split; [by split|assumption..]. Qed.

Lemma transaction_conserves_witness :
  exists s', ex_accept 0 ex_chain ex_signed = Ok s' /\
    holdings (chain_db s') 1 - supply (chain_db s') 1
    = holdings (chain_db ex_chain) 1 - supply (chain_db ex_chain) 1.
Proof.
  destruct ex_accepted as [s' H]. exists s'. split; [exact H|].
  destruct (@transaction_conserves fc_ref fc_ref_laws block_ref key_ref transaction_ref sorting_nth_element 0 ex_chain s'
    ex_signed H ex_chain_wf) as (_ & _ & _ & E); [intros i p Hi; discriminate Hi| |by apply E].
  split; [split; [by vm_compute|exact I]|]. intros s2 _. exact I.
Defined.

Lemma no_replay_witness :
  exists s1 e, ex_accept 0 ex_chain ex_signed = Ok s1 /\ ex_accept 0 s1 ex_signed = Err e.
Proof.
  destruct ex_accepted as [s1 H]. exists s1.
  destruct (@no_replay fc_ref block_ref key_ref transaction_ref sorting_nth_element 0 0 ex_chain s1 s1 ex_signed ex_signed H)
    as [e He]; [apply rtc_refl|reflexivity|reflexivity|reflexivity| |exists e; split; [exact H|exact He]].
  destruct (@apply_transaction_inv fc_ref block_ref key_ref transaction_ref sorting_nth_element _ _ _ _ H)
    as (_ & _ & _ & _ & f & Ho & ->).
  apply (@full_operations_schedule fc_ref key_ref sorting_nth_element), sched_clock, (f_equal head_block_number) in Ho.
  refine (eq_ind_r (fun n => 0 < n) _ Ho). by vm_compute.
Defined.

Lemma generated_header_valid_witness :
  validate_block_header (BL := block_ref) 0 ex_chain (seal (BL := block_ref) 0 (chain_db ex_chain) 1500000005 2 80 123) = Ok 2%N.
Proof.
  by destruct (@generated_header_valid fc_ref block_ref block_ref_laws key_ref transaction_ref sorting_nth_element 0 ex_chain
    1500000005 2 80 123) as [E _]; [by vm_compute|by vm_compute|..].
Defined.
