(* ===== verification/Election.v ===== *)
(** * Elections

    Models the vote counting of the maintenance block
    ([libraries/chain/db_maint.cpp] up to [update_active_committee_members],
    [update_top_n_authorities] and the tally of [perform_chain_maintenance]) and
    [vote_count.hpp]: every account adds its stake to what it votes for, the best
    witnesses and committee members become active, and the authorities of the
    witness and committee accounts are weighed by their votes.

    The tally buffers are members of the database that live between two runs of
    the maintenance; here they are a state of their own. *)

From S2P Require Import Prelude FcLib Block Asset Vesting Objects Database Ledger Market Trading Deflation Evaluator.
From S2P Require Import MarketOps Feeds AssetOps AssetFacts Accounts Governance Capital Operations Frames.

Definition HARDFORK_533_TIME : Z := 1456250400.
Definition HARDFORK_607_TIME : Z := 1458752400.

(** ** Vote counters *)

(** [flat_map]: [m[k] = w]. *)
Fixpoint flat_insert (k : N) (w : Z) (l : list (N * Z)) : list (N * Z) :=
  match l with
  | [] => [(k, w)]
  | (k', w') :: l' =>
      if (k <? k')%N then (k, w) :: l
      else if (k =? k')%N then (k, w) :: l'
      else (k', w') :: flat_insert k w l'
  end.

Definition add_authority (a : authority) (who : N) (w : Z) : authority :=
  a <| account_auths ::= flat_insert who w |>.

Record vote_counter := Vote_counter {
  last_votes : Z;
  counted_votes : Z;                                  (* total_votes *)
  bitshift : Z;
  vc_auth : authority;
}.

Definition new_vote_counter : vote_counter := Vote_counter UINT64_MAX 0 (-1) empty_authority.

Section VoteCounter.
Context `{BO : BoostLib}.

(** Keep the 16 most significant bits of the largest number of votes. *)
Definition votes_shift (votes : Z) : Z := Z.max (find_msb votes - 15) 0.
Definition scale_votes (shift votes : Z) : Z := Z.max (Z.shiftr votes shift) 1.

(** [vote_counter::add] *)
Definition vc_add (vc : vote_counter) (who : N) (votes : Z) : result vote_counter :=
  if votes =? 0 then Ok vc
  else
    _ ← C_ASSERT (votes <=? last_votes vc) "votes <= last_votes";
    let shift := if bitshift vc =? -1 then votes_shift votes else bitshift vc in
    let scaled_votes := scale_votes shift votes in
    _ ← C_ASSERT (scaled_votes <=? 65535) "scaled_votes <= std::numeric_limits<weight_type>::max()";
    let total := wrap64 (counted_votes vc + scaled_votes) in
    _ ← C_ASSERT (total <=? 2 ^ 32 - 1) "total_votes <= std::numeric_limits<uint32_t>::max()";
    Ok (Vote_counter votes total shift (add_authority (vc_auth vc) who scaled_votes)).

Definition vc_add_all (vc : vote_counter) (l : list (N * Z)) : result vote_counter :=
  foldM (fun vc x => vc_add vc x.1 x.2) vc l.

(** [vote_counter::finish] *)
Definition vc_finish (vc : vote_counter) (out_auth : authority) : authority :=
  if counted_votes vc =? 0 then out_auth
  else (vc_auth vc) <| weight_threshold := Z.shiftr (counted_votes vc) 1 + 1 |>.

Definition vc_is_empty (vc : vote_counter) : bool := counted_votes vc =? 0.

(** The authority before hardfork 533: the weights of the map of members, in which
    the first entry of an account counts. *)
Definition first_entries (l : list (N * Z)) : list (N * Z) :=
  foldl (fun m x => if existsb (fun y => (x.1 =? y.1)%N) m then m else flat_insert x.1 x.2 m) [] l.

Definition old_authority (a : authority) (l : list (N * Z)) : authority :=
  let total_votes := foldl (fun t x => wrap64 (t + x.2)) 0 l in
  let bits_to_drop := Z.max (find_msb total_votes - 15) 0 in
  let weights := map (fun x => (x.1, wrap16 (Z.max (Z.shiftr x.2 bits_to_drop) 1))) (first_entries l) in
  Authority (wrap32 (foldl (fun t x => wrap32 (t + x.2)) 0 weights / 2 + 1)) weights [] [].

(** The authority of those who were elected. *)
Definition elected_authority (now : Z) (a : authority) (l : list (N * Z)) : result authority :=
  if now <? HARDFORK_533_TIME then Ok (old_authority a l)
  else
    vc ← vc_add_all new_vote_counter l;
    Ok (vc_finish vc a).
End VoteCounter.

(** ** The tally *)

Record tally := Tally {
  vote_tally : list Z;                                (* by the instance of the vote id *)
  witness_histogram : list Z;
  committee_histogram : list Z;
  total_voting_stake : Z;
}.

#[export] Instance settable_tally : Settable tally := fun t =>
  Tally (vote_tally t) (witness_histogram t) (committee_histogram t) (total_voting_stake t).

(** [std::vector::resize] *)
Definition resize (n : nat) (l : list Z) : list Z := take n l ++ replicate (n - length l) 0.

Section Tally.
Context `{FC : FcLib}.
Implicit Types (db : database) (t : tally).

(** The constructor of [vote_tally_helper]. *)
Definition start_tally db t : tally :=
  let p := parameters db in
  Tally (resize (Z.to_nat (next_available_vote_id (gov db))) (vote_tally t))
    (resize (Z.to_nat (maximum_witness_count p / 2 + 1)) (witness_histogram t))
    (resize (Z.to_nat (maximum_committee_count p / 2 + 1)) (committee_histogram t)) 0.

(** [l[i] += stake] *)
Definition add_stake (stake : Z) (i : nat) (l : list Z) : list Z := alter (fun x => wrap64 (x + stake)) i l.

(** Where an opinion on the number of members counts, if it does. *)
Definition add_opinion (stake num maximum : Z) (l : list Z) : list Z :=
  if num <=? maximum then add_stake stake (Nat.min (Z.to_nat (num / 2)) (length l - 1)) l else l.

(** The account whose opinions the stake of [a] expresses. *)
Definition opinion_account db (a : account_object) : result account_object :=
  if (voting_account (account_opts a) =? GRAPHENE_PROXY_TO_SELF_ACCOUNT)%N then Ok a
  else tbl_get (accounts db) (voting_account (account_opts a)).

(** Core in orders, the cashback balance and the core balance. *)
Definition voting_stake db (i : N) (a : account_object) : result Z :=
  stats ← get_statistics db i;
  cashback ← (match cashback_vb a with
              | Some v => vbo ← tbl_get (vesting_balances db) v; Ok (amount (vbo_balance vbo))
              | None => Ok 0
              end);
  s ← add_int64 (total_core_in_orders stats) cashback;
  s ← add_int64 s (amount (get_balance db i CORE_ASSET));
  Ok (wrap64 s).

(** [vote_tally_helper::operator()] *)
Definition tally_account db t (i : N) : result tally :=
  a ← tbl_get (accounts db) i;
  let p := parameters db in
  if count_non_member_votes p || is_member a (head_block_time db) then
    o ← opinion_account db a;
    stake ← voting_stake db i a;
    let o := account_opts o in
    Ok (Tally (foldl (fun l v => add_stake stake (N.to_nat v) l) (vote_tally t) (map_to_list (votes o)).*1)
          (add_opinion stake (num_witness o) (maximum_witness_count p) (witness_histogram t))
          (add_opinion stake (num_committee o) (maximum_committee_count p) (committee_histogram t))
          (wrap64 (total_voting_stake t + stake)))
  else Ok t.

(** The accounts in the order of the by_name index. *)
Definition by_name (x y : N * account_object) : Prop := Is_true (String.leb (account_name x.2) (account_name y.2)).
#[export] Instance by_name_dec x y : Decision (by_name x y).
Proof. unfold by_name. apply _. Defined.

Definition accounts_by_name db : list N := (merge_sort by_name (map_to_list (objs (accounts db)))).*1.

(** [perform_account_maintenance]: each account votes and then has its fees paid
    out. *)
Definition account_maintenance (st : tally * database) (i : N) : result (tally * database) :=
  let '(t, db) := st in
  t ← tally_account db t i;
  db ← process_fees db i;
  Ok (t, db).

Definition perform_account_maintenance db t : result (tally * database) :=
  foldM account_maintenance (t, db) (accounts_by_name db).

(** [_vote_tally_buffer[ id ]] *)
Definition votes_of t (id : N) : result Z :=
  of_option (vote_tally t !! N.to_nat id) (undefined_behaviour "_vote_tally_buffer[id]").
End Tally.

(** ** Who is elected *)

Section Elections.
Context `{FC : FcLib, BO : BoostLib}.
Implicit Types (db : database) (t : tally).

(** More votes first, then the lower vote id. *)
Definition better (x y : N * N * Z) : Prop :=
  to_int64 y.2 < to_int64 x.2 \/ to_int64 y.2 = to_int64 x.2 /\ (x.1.2 <= y.1.2)%N.
#[export] Instance better_dec x y : Decision (better x y).
Proof. unfold better. apply _. Defined.

(** The objects of an index with their vote ids and votes. *)
Definition candidates {A} (vote_id : A -> N) t (tbl : table A) : result (list (N * N * Z)) :=
  foldM (fun l x => v ← votes_of t (vote_id x.2); Ok (l ++ [(x.1, vote_id x.2, v)])) [] (map_to_list (objs tbl)).

(** [sort_votable_objects]: the ids and votes of the [count] best.  The source
    refers to the first object even when there is none. *)
Definition sort_votable_objects {A} (vote_id : A -> N) t (tbl : table A) (count : nat)
  : result (list (N * N * Z)) :=
  l ← candidates vote_id t tbl;
  _ ← guard_or (undefined_behaviour "refs.front()") (negb (bool_decide (l = [])));
  Ok (take count (merge_sort better l)).

(** The loop over a histogram: the smallest number of pairs at which more than
    [target] stake has been counted. *)
Fixpoint wanted_members (add : Z -> Z -> result Z) (rest : list Z) (target stake : Z) : result nat :=
  match rest with
  | [] => Ok O
  | h :: rest =>
      if stake <=? target then
        stake ← add stake h;
        n ← wanted_members add rest target stake;
        Ok (S n)
      else Ok O
  end.

(** [stake_target]; both kinds of members use the histogram of witnesses. *)
Definition stake_target t : result Z :=
  h ← of_option (witness_histogram t !! 0%nat) (c_assert "_witness_count_histogram_buffer.size() > 0");
  Ok (to_int64 (wrap64 (total_voting_stake t - h) / 2)).

Definition member_count (add : Z -> Z -> result Z) (histogram : list Z) t : result nat :=
  target ← stake_target t;
  if 0 <? target then wanted_members add (drop 1 histogram) target 0 else Ok O.

Definition add_share (x h : Z) : result Z := safe_add fc_safe x (to_int64 h).
Definition add_uint64 (x h : Z) : result Z := Ok (wrap64 (x + h)).

(** [max( count * 2 + 1, minimum )] *)
Definition seats (count : nat) (minimum : Z) : nat := Nat.max (count * 2 + 1) (Z.to_nat minimum).

(** The accounts of elected objects, with their votes. *)
Definition electors {A} (account : A -> N) (tbl : table A) (l : list (N * N * Z)) : result (list (N * Z)) :=
  foldM (fun r x => o ← tbl_get tbl x.1.1; Ok (r ++ [(account o, x.2)])) [] l.

Definition set_total_votes {A} (vote_id : A -> N) (set : Z -> A -> A) t (tbl : table A) (i : N) : result (table A) :=
  o ← tbl_get tbl i;
  v ← votes_of t (vote_id o);
  Ok (tbl_modify tbl i (set v)).

(** The active authority of [account] becomes that of the elected. *)
Definition set_active_authority db (account : N) (l : list (N * Z)) : result database :=
  a ← tbl_get (accounts db) account;
  auth ← elected_authority (head_block_time db) (active_authority a) l;
  Ok (db <| accounts ::= fun tb => tbl_modify tb account (fun a => a <| active_authority := auth |>) |>).

Definition update_active_witnesses t db : result database :=
  _ ← C_ASSERT (negb (bool_decide (witness_histogram t = []))) "_witness_count_histogram_buffer.size() > 0";
  witness_count ← member_count add_share (witness_histogram t) t;
  wits ← sort_votable_objects wit_vote_id t (witnesses db) (seats witness_count (min_witness_count (gov db)));
  tbl ← foldM (set_total_votes wit_vote_id (fun v w => w <| total_votes := v |>) t) (witnesses db)
          (tbl_ids (witnesses db));
  let db := db <| witnesses := tbl |> in
  l ← electors witness_account (witnesses db) wits;
  db ← set_active_authority db GRAPHENE_WITNESS_ACCOUNT l;
  Ok (db <| active_witnesses := list_to_set wits.*1.*1 |>).

(** Unlike those of witnesses, the total votes of the members who are not elected
    stay as they are. *)
Definition update_active_committee_members t db : result database :=
  _ ← C_ASSERT (negb (bool_decide (committee_histogram t = []))) "_committee_count_histogram_buffer.size() > 0";
  committee_member_count ← member_count add_uint64 (committee_histogram t) t;
  members ← sort_votable_objects cm_vote_id t (committee_members (gov db))
              (seats committee_member_count (min_committee_member_count (gov db)));
  tbl ← foldM (set_total_votes cm_vote_id (fun v c => c <| cm_total_votes := v |>) t) (committee_members (gov db))
          members.*1.*1;
  let db := db <| gov ::= fun g => g <| committee_members := tbl |> |> in
  db ← (if bool_decide (members = []) then Ok db
        else
          l ← electors committee_member_account (committee_members (gov db)) members;
          db ← set_active_authority db GRAPHENE_COMMITTEE_ACCOUNT l;
          c ← tbl_get (accounts db) GRAPHENE_COMMITTEE_ACCOUNT;
          _ ← tbl_get (accounts db) GRAPHENE_RELAXED_COMMITTEE_ACCOUNT;
          Ok (db <| accounts ::= fun tb => tbl_modify tb GRAPHENE_RELAXED_COMMITTEE_ACCOUNT
                (fun a => a <| active_authority := active_authority c |>) |>));
  Ok (db <| gov ::= fun g => g <| active_committee_members := members.*1.*1 |> |>).

(** [update_worker_votes] *)
Definition update_worker_vote (allow_negative_votes : bool) t (tbl : table worker_object) (i : N)
  : result (table worker_object) :=
  w ← tbl_get tbl i;
  f ← votes_of t (vote_for w);
  g ← (if allow_negative_votes then votes_of t (vote_against w) else Ok 0);
  Ok (tbl_modify tbl i (fun w => w <| total_votes_for := f |> <| total_votes_against := g |>)).

Definition update_worker_votes t db : result database :=
  tbl ← foldM (update_worker_vote (head_block_time db <? HARDFORK_607_TIME) t) (workers (gov db))
          (tbl_ids (workers (gov db)));
  Ok (db <| gov ::= fun g => g <| workers := tbl |> |>).

(** *** Top holders *)

Definition top_n_control_owner : Z := 1.
Definition top_n_control_active : Z := 2.

(** The by_asset_balance index: the largest balance first, then the owner. *)
Definition holds_more (x y : N * Z) : Prop := y.2 < x.2 \/ y.2 = x.2 /\ (x.1 <= y.1)%N.
#[export] Instance holds_more_dec x y : Decision (holds_more x y).
Proof. unfold holds_more. apply _. Defined.

Definition holders db (a : N) : list (N * Z) :=
  merge_sort holds_more
    (omap (fun x : N * N * Z => if (x.1.2 =? a)%N then Some (x.1.1, x.2) else None) (map_to_list (balances db))).

(** The [n] largest holders of an asset but for the account itself. *)
Definition top_holders db (i : N) (a : N) (n : Z) : list (N * Z) :=
  take (Z.to_nat n) (filter (fun x => x.1 <> i) (holders db a)).

Definition update_top_n_authority (is_owner : bool) db (i : N) : result database :=
  acct ← tbl_get (accounts db) i;
  match (if is_owner then owner_special_authority acct else active_special_authority acct) with
  | no_special_authority => Ok db
  | top_holders_special_authority a n =>
      if n =? 0 then Ok db
      else
        vc ← vc_add_all new_vote_counter (map (fun x => (x.1, wrap64 x.2)) (top_holders db i a n));
        let flag := if is_owner then top_n_control_owner else top_n_control_active in
        Ok (db <| accounts ::= fun tb => tbl_modify tb i (fun x =>
              (if is_owner then x <| owner_authority := vc_finish vc (owner_authority x) |>
               else x <| active_authority := vc_finish vc (active_authority x) |>)
                <| top_n_control_flags ::= fun f => if vc_is_empty vc then f else Z.lor f flag |>) |>)
  end.

Definition update_top_n_account db (s : N) : result database :=
  i ← tbl_get (special_authorities (gov db)) s;
  db ← update_top_n_authority true db i;
  update_top_n_authority false db i.

Definition update_top_n_authorities db : result database :=
  foldM update_top_n_account db (tbl_ids (special_authorities (gov db))).
End Elections.

(** ** Facts about vote counters *)

Lemma weights_permutation {K} (l l' : list (K * Z)) : Permutation l l' -> weights l = weights l'.
Proof. unfold weights. induction 1; simpl; lia. Qed.

Lemma flat_insert_permutes k w l : k ∉ l.*1 -> Permutation (flat_insert k w l) ((k, w) :: l).
Proof.
  induction l as [|[k' w'] l IH]; simpl; [done|]. intros [Hk Hl]%not_elem_of_cons.
  destruct (N.ltb_spec k k'); [done|]. destruct (N.eqb_spec k k'); [done|]. rewrite (IH Hl). apply perm_swap.
Qed.

Section Counting.
Context `{BO : BoostLib, !BoostLaws BO}.

Definition scaled (shift : Z) (x : N * Z) : N * Z := (x.1, scale_votes shift x.2).

Lemma scale_votes_mono shift v v' : 0 <= shift -> v <= v' -> scale_votes shift v <= scale_votes shift v'.
Proof.
  intros Hs Hv. unfold scale_votes. rewrite !Z.shiftr_div_pow2 by done.
  assert (v / 2 ^ shift <= v' / 2 ^ shift); [apply Z.div_le_mono; lia|lia].
Qed.

Lemma scale_votes_first v : 0 < v <= UINT64_MAX -> 1 <= scale_votes (votes_shift v) v <= 65535.
Proof.
  intros Hv. unfold scale_votes, votes_shift. rewrite find_msb_ok by done.
  rewrite Z.shiftr_div_pow2 by lia. set (s := Z.max (Z.log2 v - 15) 0).
  enough (v / 2 ^ s < 2 ^ 16) by lia. apply Z.div_lt_upper_bound; [lia|]. rewrite <-Z.pow_add_r by lia.
  eapply Z.lt_le_trans; [apply Z.log2_spec; lia|]. apply Z.pow_le_mono_r; lia.
Qed.

(** The counter has a shift and has counted the accounts [p]. *)
Record counted (shift : Z) (p : list (N * Z)) (vc : vote_counter) : Prop := {
  counted_shift : bitshift vc = shift /\ 0 <= shift;
  counted_last : 0 <= last_votes vc /\ scale_votes shift (last_votes vc) <= 65535;
  counted_sum : counted_votes vc = weights (map (scaled shift) p) /\
    Z.of_nat (length p) <= counted_votes vc <= 65535 * Z.of_nat (length p);
  counted_auth : exists au, vc_auth vc = Authority 0 au [] [] /\ Permutation au (map (scaled shift) p);
}.

Lemma vc_add_counted shift p vc x :
  counted shift p vc -> 0 < x.2 <= last_votes vc -> x.1 ∉ p.*1 -> Z.of_nat (length p) < 65536 ->
  exists vc', vc_add vc x.1 x.2 = Ok vc' /\ counted shift (x :: p) vc' /\ last_votes vc' = x.2.
Proof.
  intros [[Hb Hs] [Hl Hm] [Hc Hr] (au & Ha & Hp)] Hx Hn Hlen. unfold vc_add.
  destruct (Z.eqb_spec x.2 0); [lia|]. rewrite Hb.
  rewrite (guard_or_true _ (_ <=? last_votes vc)) by (apply Z.leb_le; lia). cbn [mbind result_bind]. destruct (Z.eqb_spec shift (-1)); [lia|].
  pose proof (scale_votes_mono shift x.2 (last_votes vc) Hs) as Hmono.
  assert (1 <= scale_votes shift x.2) by (unfold scale_votes; lia).
  rewrite (guard_or_true _ (_ <=? 65535)) by (apply Z.leb_le; lia). cbn [mbind result_bind].
  assert (E : wrap64 (counted_votes vc + scale_votes shift x.2) = counted_votes vc + scale_votes shift x.2)
    by (unfold wrap64; apply Z.mod_small; lia).
  rewrite E, guard_or_true by (apply Z.leb_le; lia). cbn [mbind result_bind]. eexists. split; [reflexivity|].
  split; [split; cbn|done].
  - done.
  - lia.
  - unfold weights in *. simpl. rewrite Hc. lia.
  - rewrite Ha. eexists. split; [reflexivity|]. simpl. rewrite flat_insert_permutes; [by apply Permutation_skip|].
    rewrite Hp, <-list_fmap_compose. exact Hn.
Qed.

Lemma vc_add_all_counted l : forall shift p vc,
  counted shift p vc -> (forall x, x ∈ l -> 0 <= x.2 <= last_votes vc) -> StronglySorted (fun x y => y.2 <= x.2) l ->
  NoDup (p.*1 ++ l.*1) -> Z.of_nat (length p + length l) <= 65536 ->
  exists vc' q, vc_add_all vc l = Ok vc' /\ counted shift q vc' /\ Permutation q (p ++ filter (fun x => x.2 <> 0) l).
Proof.
  induction l as [|x l IH]; intros shift p vc C Hl Hs Hn Hlen.
  { exists vc, p. split_and!; [done|done|]. by rewrite app_nil_r. }
  apply StronglySorted_inv in Hs as [Hs Hf]. rewrite Forall_forall in Hf.
  assert (Hx : 0 <= x.2 <= last_votes vc) by (apply Hl; left).
  rewrite fmap_cons, <-Permutation_middle in Hn. apply NoDup_cons in Hn as [Hx1 Hn].
  unfold vc_add_all in *. cbn [foldM]. destruct (Z.eqb_spec x.2 0) as [H0|H0].
  - rewrite filter_cons_False by lia. assert (vc_add vc x.1 x.2 = Ok vc) as -> by (unfold vc_add; by rewrite H0). cbn [mbind result_bind].
    apply IH; [done| |done|done|simpl in Hlen; lia]. intros y Hy. apply Hl. by right.
  - destruct (vc_add_counted shift p vc x C ltac:(lia)) as (vc' & -> & C' & El); [set_solver|simpl in Hlen; lia|].
    cbn [mbind result_bind]. destruct (IH shift (x :: p) vc' C') as (vc'' & q & H & C'' & Hq); [| |..].
    + intros y Hy. rewrite El. split; [apply Hl; by right|by apply Hf].
    + done.
    + simpl. apply NoDup_cons. done.
    + simpl in *. lia.
    + exists vc'', q. split_and!; [done|done|]. rewrite Hq, filter_cons_True by done. apply Permutation_middle.
Qed.

(** The first account that is counted sets the shift. *)
Lemma vc_add_first x :
  0 < x.2 <= UINT64_MAX ->
  exists vc, vc_add new_vote_counter x.1 x.2 = Ok vc /\ counted (votes_shift x.2) [x] vc /\ last_votes vc = x.2.
Proof.
  intros Hx. pose proof (scale_votes_first x.2 Hx) as Hs. unfold vc_add, new_vote_counter.
  destruct (Z.eqb_spec x.2 0); [lia|]. cbn [last_votes bitshift counted_votes vc_auth].
  rewrite Z.eqb_refl, (guard_or_true _ (_ <=? UINT64_MAX)) by (apply Z.leb_le; lia). cbn [mbind result_bind].
  rewrite (guard_or_true _ (_ <=? 65535)) by (apply Z.leb_le; lia). cbn [mbind result_bind].
  assert (E : wrap64 (0 + scale_votes (votes_shift x.2) x.2) = scale_votes (votes_shift x.2) x.2)
    by (unfold wrap64; apply Z.mod_small; lia).
  rewrite E, guard_or_true by (apply Z.leb_le; lia). cbn [mbind result_bind]. eexists. split; [reflexivity|].
  split; [split; cbn -[votes_shift]|done].
  - split; [done|]. unfold votes_shift. lia.
  - lia.
  - lia.
  - by eexists.
Qed.

(** The result of counting all of [l]. *)
Lemma vc_add_all_first l :
  NoDup l.*1 -> (forall x, x ∈ l -> in_uint64 x.2) -> StronglySorted (fun x y => y.2 <= x.2) l ->
  Z.of_nat (length l) <= 65536 ->
  exists vc, vc_add_all new_vote_counter l = Ok vc /\
    (vc = new_vote_counter /\ filter (fun x => x.2 <> 0) l = [] \/
     exists shift q, counted shift q vc /\ Permutation q (filter (fun x => x.2 <> 0) l) /\ q <> []).
Proof.
  induction l as [|x l IH]; intros Hn Hl Hs Hlen; [exists new_vote_counter; split; [done|by left]|].
  rewrite fmap_cons in Hn. pose proof Hn as [_ Hn']%NoDup_cons.
  pose proof Hs as [Hs' Hf]%StronglySorted_inv. rewrite Forall_forall in Hf.
  assert (Hx : in_uint64 x.2) by (apply Hl; left). unfold vc_add_all in *. cbn [foldM].
  destruct (Z.eqb_spec x.2 0) as [H0|H0].
  - assert (vc_add new_vote_counter x.1 x.2 = Ok new_vote_counter) as -> by (unfold vc_add; by rewrite H0).
    cbn [mbind result_bind]. rewrite filter_cons_False by lia.
    apply IH; [done| |done|simpl in Hlen; lia]. intros y Hy. apply Hl. by right.
  - destruct (vc_add_first x ltac:(blia)) as (vc & -> & C & El). cbn [mbind result_bind].
    destruct (vc_add_all_counted l (votes_shift x.2) [x] vc C) as (vc' & q & H & C' & Hq); [|done..|].
    { intros y Hy. rewrite El. split; [apply (Hl y); by right|by apply Hf]. }
    exists vc'. split; [done|]. right. exists (votes_shift x.2), q. rewrite filter_cons_True by done.
    split_and!; [done|done|]. intros ->. by apply Permutation_nil_l in Hq.
Qed.

(** The authority of a counter that has counted somebody. *)
Lemma elected_finish shift q vc out :
  counted shift q vc -> q <> [] ->
  let au := vc_finish vc out in
  is_impossible au = false /\ weights (account_auths au) < 2 * weight_threshold au /\
  key_auths au = [] /\ address_auths au = [] /\
  forall x, x ∈ account_auths au -> exists y, y ∈ q /\ x.1 = y.1 /\ 1 <= x.2.
Proof.
  intros [_ [_ _] [Hc Hr] (l & Ha & Hp)] Hne. assert (0 < counted_votes vc) by (destruct q; simpl in *; [done|lia]).
  unfold vc_finish. destruct (Z.eqb_spec (counted_votes vc) 0); [lia|]. rewrite Ha. cbn [account_auths key_auths address_auths].
  assert (E : weights l = counted_votes vc) by by rewrite (weights_permutation _ _ Hp).
  pose proof (Z.div_mod (counted_votes vc) 2). pose proof (Z.mod_pos_bound (counted_votes vc) 2).
  unfold is_impossible. cbn [account_auths key_auths address_auths weight_threshold update].
  rewrite Z.shiftr_div_pow2 by done. change (2 ^ 1) with 2. rewrite E.
  split_and!; [|lia|done|done|].
  - apply Z.ltb_ge. unfold weights. simpl. lia.
  - intros x Hx. rewrite Hp in Hx. apply list_elem_of_fmap in Hx as (y & -> & Hy). exists y.
    split_and!; [done|done|]. simpl. unfold scale_votes. lia.
Qed.
End Counting.

(** ** Facts about elections *)

Section Members.
Context `{FC : FcLib, !FcLaws FC, BO : BoostLib}.
Implicit Types (db : database) (t : tally).

(** What a histogram counts up to a number of pairs. *)
Definition stake_of (l : list Z) : Z := foldr Z.add 0 l.

Lemma wanted_members_inv add rest : forall target stake n,
  (forall x h r, add x h = Ok r -> h ∈ rest -> r = x + h) -> wanted_members add rest target stake = Ok n ->
  (n <= length rest)%nat /\ (forall k, (k < n)%nat -> stake + stake_of (take k rest) <= target) /\
  (n = length rest \/ target < stake + stake_of (take n rest)).
Proof.
  induction rest as [|h rest IH]; intros target stake n Ha H; simpl in H.
  { injection H as <-. split_and!; [done|lia|by left]. }
  destruct (Z.leb_spec stake target); inv_result; [|split_and!; simpl; lia].
  match goal with H : add _ _ = Ok ?s |- _ => apply Ha in H as Hs; [|left] end.
  match goal with H : wanted_members _ _ _ _ = Ok ?m |- _ => rename m into n; apply IH in H as (Hn & Hk & Hend) end.
  2: { intros x h' r Hr Hin. apply Ha; [done|by right]. }
  subst. simpl. split_and!; [lia| |destruct Hend; lia].
  intros [|k] Hlt; simpl; [lia|]. specialize (Hk k). lia.
Qed.

Lemma votes_of_inv t id v : votes_of t id = Ok v <-> vote_tally t !! N.to_nat id = Some v.
Proof. apply of_option_Ok. Qed.

(** The candidates of an index. *)
Lemma candidates_inv {A} (vote_id : A -> N) t (tbl : table A) l :
  candidates vote_id t tbl = Ok l ->
  l.*1.*1 = (map_to_list (objs tbl)).*1 /\
  forall i vid v, (i, vid, v) ∈ l ->
    exists o, objs tbl !! i = Some o /\ vid = vote_id o /\ vote_tally t !! N.to_nat vid = Some v.
Proof.
  unfold candidates. intros H.
  enough (forall todo done res, foldM (fun l x => v ← votes_of t (vote_id x.2); Ok (l ++ [(x.1, vote_id x.2, v)])) res todo = Ok l ->
    (forall x, x ∈ todo -> objs tbl !! x.1 = Some x.2) -> res.*1.*1 = done ->
    (forall i vid v, (i, vid, v) ∈ res ->
      exists o, objs tbl !! i = Some o /\ vid = vote_id o /\ vote_tally t !! N.to_nat vid = Some v) ->
    l.*1.*1 = done ++ todo.*1 /\ forall i vid v, (i, vid, v) ∈ l ->
      exists o, objs tbl !! i = Some o /\ vid = vote_id o /\ vote_tally t !! N.to_nat vid = Some v) as G.
  { apply (G _ [] [] H); [|done|by intros ??? ?%elem_of_nil]. intros [i o] Hi. by apply elem_of_map_to_list in Hi. }
  clear H. induction todo as [|x todo IH]; intros dn res H Htodo Hd Hres; cbn [foldM] in H.
  { injection H as ->. by rewrite app_nil_r. }
  inv_result. match goal with H : votes_of _ _ = _ |- _ => apply votes_of_inv in H as Hv end.
  apply (IH (res.*1.*1 ++ [x.1])) in H as [E G].
  - split; [by rewrite E, <-app_assoc|exact G].
  - intros y Hy. apply Htodo. by right.
  - by rewrite !fmap_app.
  - intros i vid v [Hin|Hin]%elem_of_app; [by apply Hres|]. apply list_elem_of_singleton in Hin. simplify_eq.
    exists x.2. split_and!; [apply Htodo; left|done|done].
Qed.

#[local] Instance better_total : Total better.
Proof. intros [[i v] x] [[j w] y]. unfold better; simpl. lia. Qed.
#[local] Instance better_trans : Transitive better.
Proof. intros [[i v] x] [[j w] y] [[k u] z]. unfold better; simpl. lia. Qed.

(** Who is among the first [count] is at least as good as who is not. *)
Lemma sort_votable_inv {A} (vote_id : A -> N) t (tbl : table A) count l :
  sort_votable_objects vote_id t tbl count = Ok l ->
  StronglySorted better l /\ NoDup l.*1.*1 /\ length l = Nat.min count (size (objs tbl)) /\ size (objs tbl) <> O /\
  (forall i vid v, (i, vid, v) ∈ l -> exists o, objs tbl !! i = Some o /\ vid = vote_id o /\ vote_tally t !! N.to_nat vid = Some v) /\
  (forall x j o v, x ∈ l -> objs tbl !! j = Some o -> j ∉ l.*1.*1 -> vote_tally t !! N.to_nat (vote_id o) = Some v ->
     better x (j, vote_id o, v)).
Proof.
  unfold sort_votable_objects. intros H. inv_result. rename a into cs.
  match goal with H : candidates _ _ _ = _ |- _ => apply candidates_inv in H as [E C] end.
  match goal with H : negb _ = true |- _ => apply negb_true_iff, bool_decide_eq_false in H as Hne end.
  assert (P : Permutation (merge_sort better cs) cs) by apply merge_sort_Permutation.
  assert (S : StronglySorted better (merge_sort better cs)) by (apply StronglySorted_merge_sort; apply _).
  set (ms := merge_sort better cs) in *.
  assert (Hlen : length cs = size (objs tbl)).
  { rewrite <-(length_fmap fst cs), <-(length_fmap fst cs.*1), E, length_fmap. by rewrite length_map_to_list. }
  assert (Hnd : NoDup ms.*1.*1) by (rewrite P, E; apply NoDup_fst_map_to_list).
  assert (Hsplit : take count ms ++ drop count ms = ms) by apply take_drop.
  rewrite <-Hsplit in S, Hnd. rewrite !fmap_app in Hnd. apply NoDup_app in Hnd as (Hnd & Hdis & _).
  apply StronglySorted_app in S as (Hb & S1 & _).
  split_and!; [done|done| | | |].
  - rewrite length_take, P, Hlen. done.
  - rewrite <-Hlen. by destruct cs.
  - intros i vid v Hin. apply C. rewrite <-P, <-Hsplit. apply elem_of_app. by left.
  - intros x j o v Hx Hj Hnot Hv. apply Hb; [done|].
    assert (Hin : j ∈ cs.*1.*1) by (rewrite E; apply list_elem_of_fmap; exists (j, o); split; [done|by apply elem_of_map_to_list]).
    apply list_elem_of_fmap in Hin as ([j' vid] & -> & Hin). apply list_elem_of_fmap in Hin as ([[j vid'] v'] & [= -> ->] & Hin).
    simpl in *. destruct (C _ _ _ Hin) as (o' & Ho & -> & Hv'). simplify_eq.
    rewrite <-P, <-Hsplit in Hin. apply elem_of_app in Hin as [Hin|Hin]; [|done].
    exfalso. apply Hnot. apply list_elem_of_fmap. exists (j, vote_id o). split; [done|].
    apply list_elem_of_fmap. by exists (j, vote_id o, v).
Qed.

Lemma set_total_votes_all {A} (vote_id : A -> N) (set : Z -> A -> A) t :
  (forall v o, vote_id (set v o) = vote_id o) -> (forall v o, set v (set v o) = set v o) ->
  forall l tbl tbl', foldM (set_total_votes vote_id set t) tbl l = Ok tbl' ->
  (forall i, objs tbl' !! i = if decide (i ∈ l) then
     (fun o => set (default 0 (vote_tally t !! N.to_nat (vote_id o))) o) <$> objs tbl !! i else objs tbl !! i) /\
  (forall i, i ∈ l -> exists o v, objs tbl !! i = Some o /\ vote_tally t !! N.to_nat (vote_id o) = Some v).
Proof.
  intros Hid Hset. induction l as [|j l IH]; intros tbl tbl' H; cbn [foldM] in H.
  { injection H as <-. split; [done|by intros i ?%elem_of_nil]. }
  apply bind_Ok in H as (tbl1 & H1 & H). unfold set_total_votes in H1. inv_result. inv_get.
  match goal with H : votes_of _ _ = _ |- _ => apply votes_of_inv in H end. rename a into o, a0 into v.
  apply IH in H as [E G]. split.
  - intros i. rewrite E. simpl. destruct (decide (i = j)) as [->|Hne].
    + rewrite lookup_alter_eq. rewrite (decide_True (P := j ∈ j :: l)) by left.
      match goal with H : objs tbl !! j = _ |- _ => rewrite H end. simpl.
      match goal with H : vote_tally t !! _ = _ |- _ => rewrite Hid, H end. simpl.
      case_decide; [by rewrite Hset|done].
    + rewrite lookup_alter_ne by done. destruct (decide (i ∈ l)).
      * by rewrite decide_True by by right.
      * by rewrite decide_False by (intros [?|?]%elem_of_cons; done).
  - intros i [->|Hi]%elem_of_cons; [eauto|]. destruct (G i Hi) as (o' & v' & Ho & Hv). simpl in Ho.
    destruct (decide (i = j)) as [->|]; [eauto|]. rewrite lookup_alter_ne in Ho by done. eauto.
Qed.

Lemma electors_inv {A} (account : A -> N) (tbl : table A) l r :
  electors account tbl l = Ok r ->
  Forall2 (fun x y => exists o, objs tbl !! x.1.1 = Some o /\ y = (account o, x.2)) l r.
Proof.
  unfold electors. intros H.
  enough (forall (todo : list (N * N * Z)) res r,
    foldM (fun r x => o ← tbl_get tbl x.1.1; Ok (r ++ [(account o, x.2)])) res todo = Ok r ->
    exists r', r = res ++ r' /\ Forall2 (fun x y => exists o, objs tbl !! x.1.1 = Some o /\ y = (account o, x.2)) todo r') as G.
  { apply G in H as (r' & -> & F). exact F. }
  clear. induction todo as [|x todo IH]; intros res r H; cbn [foldM] in H.
  { injection H as ->. exists []. split; [by rewrite app_nil_r|done]. }
  inv_result. inv_get. apply IH in H as (r' & -> & F). eexists. split; [by rewrite <-app_assoc|].
  simpl. constructor; eauto.
Qed.

(** The parts of a successful election of witnesses. *)
Lemma update_active_witnesses_inv t db db' :
  update_active_witnesses t db = Ok db' ->
  exists n wits tbl l auth a, member_count add_share (witness_histogram t) t = Ok n /\
    sort_votable_objects wit_vote_id t (witnesses db) (seats n (min_witness_count (gov db))) = Ok wits /\
    (forall i, objs tbl !! i = (fun w => w <| total_votes := default 0 (vote_tally t !! N.to_nat (wit_vote_id w)) |>)
       <$> objs (witnesses db) !! i) /\
    (forall i w, objs (witnesses db) !! i = Some w -> is_Some (vote_tally t !! N.to_nat (wit_vote_id w))) /\
    electors witness_account tbl wits = Ok l /\ objs (accounts db) !! GRAPHENE_WITNESS_ACCOUNT = Some a /\
    elected_authority (head_block_time db) (active_authority a) l = Ok auth /\
    db' = db <| witnesses := tbl |>
      <| accounts ::= fun tb => tbl_modify tb GRAPHENE_WITNESS_ACCOUNT (fun a => a <| active_authority := auth |>) |>
      <| active_witnesses := list_to_set wits.*1.*1 |>.
Proof.
  unfold update_active_witnesses, set_active_authority. intros H.
  apply bind_Ok in H as (_ & _ & H). apply bind_Ok in H as (n & Hn & H). apply bind_Ok in H as (wits & Hw & H).
  apply bind_Ok in H as (tbl & Ht & H). cbv zeta in H. apply bind_Ok in H as (l & Hl & H).
  apply bind_Ok in H as (db1 & Hs & H). apply bind_Ok in Hs as (a & Ha & Hs). apply bind_Ok in Hs as (auth & He & [= <-]).
  injection H as <-. inv_get. exists n, wits, tbl, l, auth, a.
  apply set_total_votes_all in Ht as [E G]; [|done..].
  assert (Hids : forall i, i ∈ tbl_ids (witnesses db) <-> is_Some (objs (witnesses db) !! i)).
  { intros i. unfold tbl_ids. rewrite merge_sort_Permutation, list_elem_of_fmap. split.
    - intros ([j o] & -> & Hj%elem_of_map_to_list). eauto.
    - intros [o Ho]. exists (i, o). split; [done|by apply elem_of_map_to_list]. }
  split_and!; try done.
  - intros i. rewrite E. case_decide as Hi; [done|]. rewrite Hids in Hi.
    destruct (objs (witnesses db) !! i); [destruct Hi; eauto|done].
  - intros i w Hi. destruct (G i) as (o & v & Ho & Hv); [apply Hids; eauto|]. simplify_eq. eauto.
Qed.
End Members.

(** ** Facts about the tally *)

(** What paying out fees leaves alone: the opinions and memberships of all accounts,
    the parameters, the clock and the candidates. *)
Definition voter (a : account_object) : account_options * Z * string :=
  (account_opts a, membership_expiration_date a, account_name a).

Record same_voters (db db' : database) : Prop := {
  voters_parameters : parameters db' = parameters db;
  voters_dgpo : dgpo db' = dgpo db;
  voters_gov : gov db' = gov db;
  voters_opinions i : voter <$> objs (accounts db') !! i = voter <$> objs (accounts db) !! i;
}.

#[export] Instance same_voters_preorder : PreOrder same_voters.
Proof. split; [by intros db|]. intros db1 db2 db3 [] []. split; congruence. Qed.

Section TallyFacts.
Context `{FC : FcLib, !FcLaws FC}.
Implicit Types (db : database) (t : tally).

Lemma voter_alter db db' i f :
  parameters db' = parameters db -> dgpo db' = dgpo db -> gov db' = gov db ->
  accounts db' = tbl_modify (accounts db) i f ->
  (forall a, objs (accounts db) !! i = Some a -> voter (f a) = voter a) -> same_voters db db'.
Proof.
  intros Hp Hd Hg Ha Hf. split; [done..|]. intros j. rewrite Ha. simpl. destruct (decide (j = i)) as [->|].
  - rewrite lookup_alter_eq. destruct (objs (accounts db) !! i) as [a|]; simpl; [|done]. by rewrite (Hf a).
  - by rewrite lookup_alter_ne.
Qed.

Lemma deposit_lazy_vesting_only db o x secs owner b v d :
  deposit_lazy_vesting db o x secs owner b = Ok (v, d) -> exists vb, d = db <| vesting_balances := vb |>.
Proof.
  unfold deposit_lazy_vesting, new_lazy_vesting. destruct (x =? 0).
  { intros [= <- <-]. exists (vesting_balances db). by destruct db. }
  destruct o as [i|]; intros H; inv_results; [|by eexists].
  destruct (lazy_target _ _ _); inv_results; by eexists.
Qed.

Lemma deposit_cashback_voters db i x b db' : deposit_cashback db i x b = Ok db' -> same_voters db db'.
Proof.
  unfold deposit_cashback. destruct (x =? 0); [by intros [= <-]|]. destruct (is_blockchain_account i); intros H.
  { inv_result. by split. }
  inv_result. destruct a0 as [v d].
  match goal with H : deposit_lazy_vesting _ _ _ _ _ _ = _ |- _ => apply deposit_lazy_vesting_only in H as [vb ->] end. destruct v; inv_result; [|by split].
  by eapply voter_alter.
Qed.

Lemma pay_out_fees_voters db i x b db' : pay_out_fees db i x b = Ok db' -> same_voters db db'.
Proof.
  unfold pay_out_fees. cbv zeta. intros H. inv_result. inv_get.
  repeat match goal with H : deposit_cashback _ _ _ _ = _ |- _ => apply deposit_cashback_voters in H end.
  match goal with H : objs (accounts db) !! i = Some ?a |- _ => rename a into acct; rename H into Ha end.
  match goal with H : same_voters (_ <| dynamic_data ::= _ |>) ?d |- _ =>
    assert (M : same_voters db d) by (etrans; [|exact H]; eapply voter_alter; [reflexivity..|];
      intros a' Ha'; rewrite Ha in Ha'; injection Ha' as <-; by destruct (is_basic_account _ _)) end.
  by repeat (etrans; [eassumption|]).
Qed.

Lemma process_fees_voters db i db' : process_fees db i = Ok db' -> same_voters db db'.
Proof.
  unfold process_fees. intros H. inv_result. destruct (_ || _); inv_result; [|done].
  repeat match goal with H : pay_out_fees _ _ _ _ = _ |- _ => apply pay_out_fees_voters in H end.
  etrans; [eassumption|]. etrans; [eassumption|]. by split.
Qed.

(** Who has a say, and whether the stake of [i] is for the vote id [k]. *)
Definition eligible db (i : N) : bool :=
  match objs (accounts db) !! i with
  | Some a => count_non_member_votes (parameters db) || is_member a (head_block_time db)
  | None => false
  end.

Definition opinions_of db (i : N) : option account_options :=
  a ← objs (accounts db) !! i;
  if (voting_account (account_opts a) =? GRAPHENE_PROXY_TO_SELF_ACCOUNT)%N then Some (account_opts a)
  else account_opts <$> objs (accounts db) !! voting_account (account_opts a).

Definition votes_for db (i : N) (k : nat) : bool :=
  match opinions_of db i with
  | Some o => bool_decide (is_Some (votes o !! N.of_nat k))
  | None => false
  end.

(** The stake that the list of stakes puts on the vote id [k]. *)
Definition stake_for db (stakes : list (N * Z)) (k : nat) : Z :=
  foldr (fun x s => (if votes_for db x.1 k then x.2 else 0) + s) 0 stakes.

Lemma eligible_voters db db' i : same_voters db db' -> eligible db' i = eligible db i.
Proof.
  intros [P D _ O]. specialize (O i). unfold eligible, head_block_time, is_member, is_basic_account. rewrite P, D.
  destruct (objs (accounts db') !! i), (objs (accounts db) !! i); simplify_eq/=; try done.
  unfold voter in *. simplify_eq. congruence.
Qed.

Lemma voter_opts db db' i :
  same_voters db db' -> account_opts <$> objs (accounts db') !! i = account_opts <$> objs (accounts db) !! i.
Proof.
  intros [_ _ _ O]. specialize (O i).
  apply (f_equal (fmap (fun v : account_options * Z * string => v.1.1))) in O. rewrite <-!option_fmap_compose in O. exact O.
Qed.

Lemma opinions_voters db db' i : same_voters db db' -> opinions_of db' i = opinions_of db i.
Proof.
  intros V. pose proof (voter_opts _ _ i V) as E. unfold opinions_of.
  destruct (objs (accounts db') !! i) as [a'|], (objs (accounts db) !! i) as [a|]; simplify_eq/=; try done.
  rewrite E. destruct (_ =? _)%N; [done|]. by apply voter_opts.
Qed.

Lemma votes_for_voters db db' i k : same_voters db db' -> votes_for db' i k = votes_for db i k.
Proof. intros V. unfold votes_for. by rewrite (opinions_voters _ _ _ V). Qed.

Lemma opinion_account_inv db i a o :
  objs (accounts db) !! i = Some a -> opinion_account db a = Ok o -> opinions_of db i = Some (account_opts o).
Proof.
  unfold opinion_account, opinions_of. intros Ha Ho. rewrite Ha. simpl. destruct (_ =? _)%N; inv_result; [done|].
  inv_get. by rewrite Ho.
Qed.

Lemma add_stake_lookup stake i l k :
  add_stake stake i l !! k = (fun x => if decide (k = i) then wrap64 (x + stake) else x) <$> l !! k.
Proof.
  unfold add_stake. destruct (decide (k = i)) as [->|].
  - rewrite list_lookup_alter_eq. done.
  - rewrite list_lookup_alter_ne by done. by destruct (l !! k).
Qed.

Lemma add_stakes_lookup stake vs l k :
  NoDup vs ->
  foldl (fun l v => add_stake stake (N.to_nat v) l) l vs !! k
  = (fun x => if decide (N.of_nat k ∈ vs) then wrap64 (x + stake) else x) <$> l !! k.
Proof.
  revert l. induction vs as [|v vs IH]; intros l Hn; simpl.
  { by destruct (l !! k). }
  apply NoDup_cons in Hn as [Hv Hn]. rewrite IH, add_stake_lookup by done. destruct (l !! k) as [x|]; [|done]. simpl. f_equal.
  destruct (decide (k = N.to_nat v)) as [->|Hne].
  - rewrite N2Nat.id. rewrite (decide_False (P := v ∈ vs)) by done. by rewrite decide_True by by left.
  - destruct (decide (N.of_nat k ∈ vs)).
    + by rewrite decide_True by by right.
    + rewrite decide_False; [done|]. intros [E|?]%elem_of_cons; [by rewrite <-E, Nat2N.id in Hne|done].
Qed.

(** Counting one account. *)
Lemma tally_account_inv db t i t' :
  tally_account db t i = Ok t' ->
  if eligible db i then
    exists a stake, objs (accounts db) !! i = Some a /\ voting_stake db i a = Ok stake /\
      total_voting_stake t' = wrap64 (total_voting_stake t + stake) /\
      forall k, vote_tally t' !! k = (fun x => if votes_for db i k then wrap64 (x + stake) else x) <$> vote_tally t !! k
  else t' = t.
Proof.
  unfold tally_account, eligible. intros H. apply bind_Ok in H as (a & Ha & H). inv_get. rewrite Ha. cbv zeta in H.
  destruct (_ || _); [|by injection H]. apply bind_Ok in H as (o & Ho & H). apply bind_Ok in H as (stake & Hs & [= <-]).
  exists a, stake. split_and!; [done|done|done|]. intros k. cbn [vote_tally]. rewrite add_stakes_lookup by apply NoDup_fst_map_to_list.
  destruct (vote_tally t !! k); [|done]. simpl. f_equal. unfold votes_for. erewrite opinion_account_inv by eassumption.
  match goal with |- context [map_to_list ?m] => set (vs := m) end.
  assert (E : N.of_nat k ∈ (map_to_list vs).*1 <-> is_Some (vs !! N.of_nat k)).
  { rewrite list_elem_of_fmap. split.
    - intros ([k' x] & -> & Hx%elem_of_map_to_list). eauto.
    - intros [x Hx]. exists (N.of_nat k, x). split; [done|by apply elem_of_map_to_list]. }
  destruct (decide (N.of_nat k ∈ (map_to_list vs).*1)) as [Hin|Hin]; rewrite E in Hin.
  - by rewrite bool_decide_eq_true_2.
  - by rewrite bool_decide_eq_false_2.
Qed.

Definition in_range t : Prop := Forall in_uint64 (vote_tally t) /\ in_uint64 (total_voting_stake t).

Lemma wrap64_range z : in_uint64 (wrap64 z).
Proof. unfold wrap64. pose proof (Z.mod_pos_bound z (2 ^ 64)). blia. Qed.
Lemma wrap64_id z : in_uint64 z -> wrap64 z = z.
Proof. intros. unfold wrap64. apply Z.mod_small. blia. Qed.
Lemma wrap64_add x y : wrap64 (wrap64 x + y) = wrap64 (x + y).
Proof. unfold wrap64. by rewrite Zplus_mod_idemp_l. Qed.

Lemma account_maintenance_inv db t d i t' d' :
  same_voters db d -> in_range t -> account_maintenance (t, d) i = Ok (t', d') ->
  same_voters db d' /\ in_range t' /\
  exists stakes, stakes.*1 = (if eligible db i then [i] else []) /\
    (forall x, x ∈ stakes -> exists a, objs (accounts d) !! x.1 = Some a /\ voting_stake d x.1 a = Ok x.2) /\
    total_voting_stake t' = wrap64 (total_voting_stake t + foldr Z.add 0 stakes.*2) /\
    forall k, vote_tally t' !! k = (fun x => wrap64 (x + stake_for db stakes k)) <$> vote_tally t !! k.
Proof.
  intros V [R1 R2] H. unfold account_maintenance in H. inv_result.
  match goal with H : tally_account _ _ _ = Ok ?x |- _ => rename x into t1; apply tally_account_inv in H as T end.
  match goal with H : process_fees _ _ = _ |- _ => apply process_fees_voters in H as V' end.
  split; [by etrans|]. rewrite (eligible_voters _ _ _ V) in T. destruct (eligible db i).
  - destruct T as (a & stake & Ha & Hst & Ht & Hk). split.
    { split; [|rewrite Ht; apply wrap64_range]. apply Forall_lookup. intros k x Hx. rewrite Hk in Hx.
      apply fmap_Some in Hx as (y & Hy & ->). destruct (votes_for d i k); [apply wrap64_range|].
      by eapply Forall_lookup_1 in Hy. }
    exists [(i, stake)]. split_and!; [done| | |].
    + intros x ->%list_elem_of_singleton. eauto.
    + simpl. rewrite Ht. f_equal. lia.
    + intros k. rewrite Hk. destruct (vote_tally t !! k) as [x|] eqn:Hx; [|done]. simpl. f_equal.
      rewrite (votes_for_voters _ _ _ _ V). destruct (votes_for db i k); rewrite Z.add_0_r; [done|].
      rewrite wrap64_id; [done|]. by eapply Forall_lookup_1 in Hx.
  - subst t1. split; [done|]. exists []. split_and!; [done|by intros ? ?%elem_of_nil| |].
    + simpl. by rewrite Z.add_0_r, wrap64_id.
    + intros k. destruct (vote_tally t !! k) as [x|] eqn:Hx; [|done]. unfold stake_for. simpl. rewrite Z.add_0_r, wrap64_id; [done|].
      by eapply Forall_lookup_1 in Hx.
Qed.

Lemma stake_for_app db s1 s2 k : stake_for db (s1 ++ s2) k = stake_for db s1 k + stake_for db s2 k.
Proof. unfold stake_for. induction s1 as [|x s1 IH]; simpl; [done|]. rewrite IH. lia. Qed.

Lemma sum_app (l1 l2 : list Z) : foldr Z.add 0 (l1 ++ l2) = foldr Z.add 0 l1 + foldr Z.add 0 l2.
Proof. induction l1 as [|x l1 IH]; simpl; [done|]. rewrite IH. lia. Qed.

Lemma account_maintenance_all db l : forall t d t' d',
  same_voters db d -> in_range t -> foldM account_maintenance (t, d) l = Ok (t', d') ->
  same_voters db d' /\
  exists stakes, stakes.*1 = filter (fun i => Is_true (eligible db i)) l /\
    (forall x, x ∈ stakes -> exists d1 a, same_voters db d1 /\ objs (accounts d1) !! x.1 = Some a /\ voting_stake d1 x.1 a = Ok x.2) /\
    total_voting_stake t' = wrap64 (total_voting_stake t + foldr Z.add 0 stakes.*2) /\
    forall k, vote_tally t' !! k = (fun x => wrap64 (x + stake_for db stakes k)) <$> vote_tally t !! k.
Proof.
  induction l as [|i l IH]; intros t d t' d' V R H; cbn [foldM] in H.
  { injection H as <- <-. split; [done|]. exists []. destruct R as [R1 R2].
    split_and!; [done|by intros ? ?%elem_of_nil|simpl; by rewrite Z.add_0_r, wrap64_id|].
    intros k. destruct (vote_tally t !! k) as [x|] eqn:Hx; [|done]. unfold stake_for. simpl. rewrite Z.add_0_r, wrap64_id; [done|].
    by eapply Forall_lookup_1 in Hx. }
  apply bind_Ok in H as ([t1 d1] & H1 & H).
  destruct (account_maintenance_inv _ _ _ _ _ _ V R H1) as (V1 & R1 & s1 & E1 & S1 & T1 & K1).
  destruct (IH _ _ _ _ V1 R1 H) as (V2 & s2 & E2 & S2 & T2 & K2).
  split; [done|]. exists (s1 ++ s2). split_and!.
  - rewrite fmap_app, E1, E2, filter_cons. destruct (eligible db i); simpl; by repeat case_decide.
  - intros x [Hx|Hx]%elem_of_app; [|by apply S2]. destruct (S1 x Hx) as (a & Ha & Hst). eauto 10.
  - rewrite T2, T1, wrap64_add, fmap_app, sum_app. f_equal. lia.
  - intros k. rewrite K2, K1. destruct (vote_tally t !! k); [|done]. simpl. rewrite wrap64_add, stake_for_app. f_equal. f_equal. lia.
Qed.
End TallyFacts.

(** ** Properties *)

Lemma Forall2_elem_right {A B} (P : A -> B -> Prop) l r y :
  Forall2 P l r -> y ∈ r -> exists x, x ∈ l /\ P x y.
Proof.
  induction 1 as [|x y' l r Hxy F IH]; [by intros ?%elem_of_nil|].
  intros [->|Hy]%elem_of_cons; [exists x; split; [left|done]|].
  destruct (IH Hy) as (x' & ? & ?). exists x'. split; [by right|done].
Qed.

(** What is related to a sorted list element by element. *)
Lemma StronglySorted_Forall2 {A B} (P : A -> B -> Prop) (R : relation A) (R' : relation B) l r :
  (forall x y x' y', x ∈ l -> x' ∈ l -> P x y -> P x' y' -> R x x' -> R' y y') ->
  Forall2 P l r -> StronglySorted R l -> StronglySorted R' r.
Proof.
  intros HR F. induction F as [|x y l r Hxy F IH]; intros S; [constructor|].
  apply StronglySorted_inv in S as [S Hx]. constructor.
  - apply IH; [|done]. intros x1 y1 x2 y2 ??. apply HR; by right.
  - apply Forall_forall. intros y' Hy. destruct (Forall2_elem_right _ _ _ _ F Hy) as (x' & Hin & Hp).
    apply (HR x y x' y'); [left|by right|done|done|]. by eapply Forall_forall in Hx.
Qed.

Lemma NoDup_Forall2 {A B C D} (P : A -> B -> Prop) (f : A -> C) (g : B -> D) l r :
  (forall x y x' y', x ∈ l -> x' ∈ l -> P x y -> P x' y' -> g y = g y' -> f x = f x') ->
  Forall2 P l r -> NoDup (f <$> l) -> NoDup (g <$> r).
Proof.
  intros Hf F. induction F as [|x y l r Hxy F IH]; intros N; [constructor|].
  rewrite fmap_cons in *. apply NoDup_cons in N as [Hx N]. apply NoDup_cons. split.
  - intros (y' & E & Hy)%list_elem_of_fmap. destruct (Forall2_elem_right _ _ _ _ F Hy) as (x' & Hin & Hp).
    apply Hx, list_elem_of_fmap. exists x'. split; [|done]. apply (Hf x y x' y'); [left|by right|done..].
  - apply IH; [|done]. intros x1 y1 x2 y2 ??. apply Hf; by right.
Qed.

(** No number of votes reaches the sign of a [share_type]. *)
Record sound_tally (t : tally) : Prop := {
  sound_votes : Forall (fun v => 0 <= v <= INT64_MAX) (vote_tally t);
  sound_histogram : Forall (fun v => 0 <= v <= INT64_MAX) (witness_histogram t);
}.

Section Properties.
Context `{FC : FcLib, !FcLaws FC, BO : BoostLib, !BoostLaws BO}.
Implicit Types (db : database) (t : tally).

Lemma sound_vote t k v : sound_tally t -> vote_tally t !! k = Some v -> 0 <= v <= INT64_MAX.
Proof. intros [S _] H. exact (Forall_lookup_1 _ _ _ _ S H). Qed.


(** The election of witnesses.  Their number is the least one that more than
    half of the stake with an opinion finds sufficient, doubled and made odd, and at
    least the minimum; as many are active as there are, and whoever is active has
    more votes than whoever is not, or as many and an older vote id.  Every witness,
    active or not, gets its votes recorded. *)
Theorem update_active_witnesses_spec t db db' :
  sound_tally t -> update_active_witnesses t db = Ok db' ->
  (exists n, (n < length (witness_histogram t))%nat /\
    size (active_witnesses db') = Nat.min (seats n (min_witness_count (gov db))) (size (objs (witnesses db))) /\
    forall target, stake_target t = Ok target -> 0 < target ->
      (forall k, (k < n)%nat -> stake_of (take k (drop 1 (witness_histogram t))) <= target) /\
      (S n = length (witness_histogram t) \/ target < stake_of (take n (drop 1 (witness_histogram t))))) /\
  (forall i j w u v x, i ∈ active_witnesses db' -> j ∉ active_witnesses db' ->
    objs (witnesses db) !! i = Some w -> objs (witnesses db) !! j = Some u ->
    vote_tally t !! N.to_nat (wit_vote_id w) = Some v -> vote_tally t !! N.to_nat (wit_vote_id u) = Some x ->
    x < v \/ x = v /\ (wit_vote_id w <= wit_vote_id u)%N) /\
  (forall i w, objs (witnesses db) !! i = Some w -> exists v,
    vote_tally t !! N.to_nat (wit_vote_id w) = Some v /\ objs (witnesses db') !! i = Some (w <| total_votes := v |>)).
Proof.
  intros St H. apply update_active_witnesses_inv in H as (n & wits & tbl & l & auth & a & Hn & Hw & Ht & Hv & _ & _ & _ & ->).
  apply sort_votable_inv in Hw as (_ & Nd & Hlen & _ & Hin & Hout). cbn [active_witnesses witnesses accounts].
  split_and!.
  - exists n. unfold member_count in Hn. apply bind_Ok in Hn as (target & Htg & Hn).
    assert (Hhist : exists h0 hs, witness_histogram t = h0 :: hs).
    { unfold stake_target in Htg. destruct (witness_histogram t); [done|eauto]. }
    destruct Hhist as (h0 & hs & Eh).
    assert (Hsize : size (list_to_set wits.*1.*1 : gset N) = length wits)
      by by rewrite size_list_to_set, !length_fmap.
    split; [|split; [cbn; by rewrite Hsize, Hlen|]].
    + destruct (0 <? target); [|injection Hn as <-; rewrite Eh; simpl; lia].
      apply wanted_members_inv in Hn as (Hle & _); [rewrite length_drop, Eh in Hle; rewrite Eh; simpl in *; lia|].
      intros x h r Hr Hh. unfold add_share in Hr. inv_safe. rewrite to_int64_small; [done|].
      pose proof (sound_histogram _ St) as F. rewrite Eh, Forall_forall in F. apply F. right. by rewrite Eh in Hh.
    + intros tg Htg' Hpos. rewrite Htg in Htg'. injection Htg' as ->. apply Z.ltb_lt in Hpos. rewrite Hpos in Hn.
      apply wanted_members_inv in Hn as (Hle & Hk & Hend).
      * split; [intros k Hkn; specialize (Hk k Hkn); lia|]. destruct Hend as [Hend|Hend]; [left; rewrite length_drop in Hend; rewrite Eh in *; simpl in *; lia|right; lia].
      * intros x h r Hr Hh. unfold add_share in Hr. inv_safe. rewrite to_int64_small; [done|].
        pose proof (sound_histogram _ St) as F. rewrite Eh, Forall_forall in F. apply F. right. by rewrite Eh in Hh.
  - intros i j w u v x Hi Hj Hwi Hwj Hvi Hvj. cbn in Hi, Hj. rewrite elem_of_list_to_set in Hi, Hj.
    apply list_elem_of_fmap in Hi as ([i' vid] & -> & Hi). apply list_elem_of_fmap in Hi as ([[i vid'] v'] & [= -> ->] & Hi).
    destruct (Hin _ _ _ Hi) as (w' & Hw' & -> & Hv'). simpl in Hwi. simplify_eq.
    pose proof (Hout _ j u x Hi Hwj Hj Hvj) as B. unfold better in B. simpl in B.
    pose proof (sound_vote _ _ _ St Hvi). pose proof (sound_vote _ _ _ St Hvj). rewrite !to_int64_small in B by done. exact B.
  - intros i w Hi. destruct (Hv i w Hi) as [v Hvi]. exists v. split; [done|]. rewrite Ht, Hi. simpl. by rewrite Hvi.
Qed.

(** The authority that the election gives the witness account can be satisfied,
    needs more than half of the weight, and is held by the accounts of active
    witnesses alone; if nobody has votes it stays as it was. *)
Theorem witness_authority_spec t db db' :
  sound_tally t -> HARDFORK_533_TIME <= head_block_time db -> Z.of_nat (size (objs (witnesses db))) <= 65536 ->
  (forall i j w u, objs (witnesses db) !! i = Some w -> objs (witnesses db) !! j = Some u ->
     witness_account w = witness_account u -> i = j) ->
  update_active_witnesses t db = Ok db' ->
  exists a a', objs (accounts db) !! GRAPHENE_WITNESS_ACCOUNT = Some a /\
    objs (accounts db') !! GRAPHENE_WITNESS_ACCOUNT = Some a' /\
    let au := active_authority a' in
    au = active_authority a \/
    is_impossible au = false /\ weights (account_auths au) < 2 * weight_threshold au /\
    key_auths au = [] /\ address_auths au = [] /\
    forall x, x ∈ account_auths au -> 1 <= x.2 /\
      exists i w, i ∈ active_witnesses db' /\ objs (witnesses db) !! i = Some w /\ witness_account w = x.1.
Proof.
  intros St Hnow Hsize Hacc H.
  apply update_active_witnesses_inv in H as (n & wits & tbl & l & auth & a & _ & Hw & Ht & _ & Hl & Ha & He & ->).
  apply sort_votable_inv in Hw as (Sd & Nd & Hlen & _ & Hin & _). apply electors_inv in Hl as F.
  exists a, (a <| active_authority := auth |>). split; [done|]. split; [cbn; by rewrite lookup_alter_eq, Ha|].
  cbn [active_authority]. assert (Hlook : forall i o, objs tbl !! i = Some o -> exists w, objs (witnesses db) !! i = Some w /\
    witness_account o = witness_account w).
  { intros i o Ho. rewrite Ht in Ho. apply fmap_Some in Ho as (w & Hwi & ->). eauto. }
  assert (Hvote : forall x, x ∈ wits -> 0 <= x.2 <= INT64_MAX).
  { intros [[i vid] v] Hx. destruct (Hin _ _ _ Hx) as (_ & _ & _ & Hv). by apply (sound_vote t _ _ St Hv). }
  unfold elected_authority in He. rewrite (proj2 (Z.ltb_ge _ _) Hnow) in He. apply bind_Ok in He as (vc & Hvc & [= <-]).
  destruct (vc_add_all_first l) as (vc' & E & Hcase).
  - refine (NoDup_Forall2 _ (fun x : N * N * Z => x.1.1) fst _ _ _ F _);
    [|rewrite <-list_fmap_compose in Nd; exact Nd].
    intros x y x' y' _ _ (o & Ho & ->) (o' & Ho' & ->) Eq. simpl in Eq.
    apply Hlook in Ho as (w & Hwi & Ew), Ho' as (w' & Hwi' & Ew'). apply (Hacc _ _ _ _ Hwi Hwi'). congruence.
  - intros y Hy. destruct (Forall2_elem_right _ _ _ _ F Hy) as (x & Hx & o & _ & ->). specialize (Hvote x Hx). simpl. blia.
  - refine (StronglySorted_Forall2 _ _ _ _ _ _ F Sd). intros x y x' y' Hx Hx' (o & _ & ->) (o' & _ & ->) B.
    unfold better in B. simpl in *. rewrite !to_int64_small in B by auto. lia.
  - rewrite <-(Forall2_length _ _ _ F), Hlen. lia.
  - rewrite Hvc in E. injection E as <-. destruct Hcase as [[-> _]|(shift & q & C & Hq & Hne)]; [by left|right].
    apply (elected_finish shift q vc (active_authority a) C) in Hne as (Hi & Hm & Hk & Had & Hall). split_and!; [done..|].
    intros x Hx. destruct (Hall x Hx) as (y & Hy & Exy & Hr). split; [done|].
    rewrite Hq in Hy. apply list_elem_of_filter in Hy as [_ Hy].
    destruct (Forall2_elem_right _ _ _ _ F Hy) as (z & Hz & o & Ho & ->). destruct (Hlook _ _ Ho) as (w & Hwi & Ew).
    exists z.1.1, w. split_and!; [|done|simpl in *; congruence]. cbn. apply elem_of_list_to_set.
    apply list_elem_of_fmap. exists z.1. split; [done|]. apply list_elem_of_fmap. by exists z.
Qed.
End Properties.

(** ** Maintenance leaves the ledger alone *)

Section ElectionMoves.
Context `{FC : FcLib, !FcLaws FC, BO : BoostLib}.
Implicit Types (db : database) (t : tally).

Lemma account_maintenance_moves l : forall t db t' db',
  foldM account_maintenance (t, db) l = Ok (t', db') -> moves db db' (fun _ => 0).
Proof.
  induction l as [|i l IH]; intros t db t' db' H; cbn [foldM] in H; [injection H as _ <-; apply moves_refl|].
  apply bind_Ok in H as ([t1 d1] & H1 & H). unfold account_maintenance in H1. inv_result.
  match goal with H : process_fees _ _ = _ |- _ => apply process_fees_moves in H as M end.
  eapply moves_eq; [eapply moves_step; [exact M|by eapply IH]|done].
Qed.

Lemma set_active_authority_moves db i l db' : set_active_authority db i l = Ok db' -> moves db db' (fun _ => 0).
Proof. unfold set_active_authority. intros H. inv_result. by apply moves_same. Qed.

Lemma update_active_witnesses_moves t db db' : update_active_witnesses t db = Ok db' -> moves db db' (fun _ => 0).
Proof.
  intros (n & wits & tbl & l & auth & a & _ & _ & _ & _ & _ & _ & _ & ->)%update_active_witnesses_inv. by apply moves_same.
Qed.

Lemma update_active_committee_members_moves t db db' :
  update_active_committee_members t db = Ok db' -> moves db db' (fun _ => 0).
Proof.
  unfold update_active_committee_members, set_active_authority. cbv zeta. intros H.
  apply bind_Ok in H as (_ & _ & H). apply bind_Ok in H as (n & _ & H). apply bind_Ok in H as (members & _ & H).
  apply bind_Ok in H as (tbl & _ & H). apply bind_Ok in H as (d & Hd & [= <-]).
  destruct (bool_decide _); inv_result; by apply moves_same.
Qed.

Lemma update_worker_votes_moves t db db' : update_worker_votes t db = Ok db' -> moves db db' (fun _ => 0).
Proof. unfold update_worker_votes. intros H. inv_result. by apply moves_same. Qed.

Lemma update_top_n_authority_moves (b : bool) db i db' :
  update_top_n_authority b db i = Ok db' -> moves db db' (fun _ => 0).
Proof.
  unfold update_top_n_authority. intros H. inv_result. destruct (if b then _ else _); inv_result; [by apply moves_same|].
  destruct (_ =? 0); inv_result; by apply moves_same.
Qed.

Lemma update_top_n_authorities_moves db db' : update_top_n_authorities db = Ok db' -> moves db db' (fun _ => 0).
Proof.
  unfold update_top_n_authorities. intros H.
  refine (foldM_inv _ (fun d => moves db d (fun _ => 0)) _ _ _ _ (moves_refl db) H).
  intros d s d' M _ Hd. unfold update_top_n_account in Hd. inv_result.
  repeat match goal with H : update_top_n_authority _ _ _ = _ |- _ => apply update_top_n_authority_moves in H end.
  eapply moves_eq; [eapply moves_step; [exact M|eapply moves_step; eassumption]|done].
Qed.
End ElectionMoves.

(** ** Witnesses *)

(** Alice and Bob vote for witnesses; the special accounts exist. *)
Definition ex_voter (name : string) (wanted : Z) (ids : list (N * Z)) : account_object :=
  (ex_account name) <| account_opts := Account_options 0 GRAPHENE_PROXY_TO_SELF_ACCOUNT wanted 0 (list_to_map ids) |>.

Definition ex_electorate : database :=
  ex_state <| accounts := table_of [(0%N, ex_account "committee-account"); (1%N, ex_account "witness-account");
      (2%N, ex_account "relaxed-committee-account"); (10%N, ex_voter "alice" 2 [(1%N, 1); (2%N, 1)]);
      (11%N, ex_voter "bob" 0 [(2%N, 1)]); (12%N, (ex_account "carol") <| account_opts ::= fun o => o <| voting_account := 10%N |> |>)] 13 |>
    <| statistics := map_of (map (fun i => (i, ex_statistics)) [0; 1; 2; 10; 11; 12]%N) |>
    <| balances ::= <[(12%N, 0%N) := 1000]> |>
    <| parameters ::= fun p => p <| maximum_witness_count := 11 |> <| maximum_committee_count := 11 |> |>.

Definition ex_tally : tally := Tally [0; 6000; 13000; 0; 0] [7000; 6000; 0; 0; 0; 0] [13000; 0; 0; 0; 0; 0] 13000.


Lemma ex_tally_sound : sound_tally ex_tally.
Proof. split; repeat constructor; discriminate. Qed.

Lemma update_active_witnesses_spec_witness :
  exists db', update_active_witnesses (FC := fc_ref) (BO := boost_ref) ex_tally ex_electorate = Ok db' /\
    (exists v, total_votes <$> objs (witnesses db') !! 2%N = Some v) /\ active_witnesses db' = {[ 1%N; 2%N ]}.
Proof.
  destruct (result_ok_true (update_active_witnesses (FC := fc_ref) (BO := boost_ref) ex_tally ex_electorate)) as [db' H];
    [by vm_compute|].
  exists db'. split; [exact H|].
  destruct (@update_active_witnesses_spec fc_ref fc_ref_laws boost_ref ex_tally ex_electorate db' ex_tally_sound H)
    as (_ & _ & V). split.
  - destruct (V 2%N (Witness_object 11 80 2 0 EmptyString 0 None 0 0) eq_refl) as (v & _ & E). exists v. by rewrite E.
  - apply (f_equal (fun r => match r with Ok d => active_witnesses d | Err _ => ∅ end)) in H. rewrite <-H. by vm_compute.
Defined.

Lemma witness_authority_spec_witness :
  exists db' a', update_active_witnesses (FC := fc_ref) (BO := boost_ref) ex_tally ex_electorate = Ok db' /\
    objs (accounts db') !! GRAPHENE_WITNESS_ACCOUNT = Some a' /\
    is_impossible (active_authority a') = false.
Proof.
  destruct (result_ok_true (update_active_witnesses (FC := fc_ref) (BO := boost_ref) ex_tally ex_electorate)) as [db' H];
    [by vm_compute|].
  destruct (@witness_authority_spec fc_ref boost_ref boost_ref_laws ex_tally ex_electorate db' ex_tally_sound
    ltac:(ground) ltac:(ground)) as (a & a' & Ha & Ha' & Hor); [|exact H|].
  { intros i j w u Hi Hj E. apply elem_of_list_to_map_2 in Hi, Hj. apply elem_of_cons in Hi, Hj.
    destruct Hi as [Hi|Hi], Hj as [Hj|Hj]; rewrite ?list_elem_of_singleton in Hi;
      rewrite ?list_elem_of_singleton in Hj; simplify_eq/=; done. }
  exists db', a'. split; [exact H|]. split; [exact Ha'|]. destruct Hor as [->|Hor]; [|apply Hor].
  injection Ha as <-. by vm_compute.
Defined.
