(* ===== verification/Budget.v ===== *)
(** * Budgets

    Models the money of the maintenance block ([libraries/chain/db_maint.cpp]:
    [pay_workers], [initialize_budget_record], [process_budget],
    [split_fba_balance], [distribute_fba_balances]), the payment of workers
    ([worker_evaluator.cpp]) and [fba_accumulator_object::is_configured]
    ([fba_object.cpp]). *)

From S2P Require Import Prelude FcLib Block Asset Vesting Objects Database Ledger Market Trading Deflation Evaluator.
From S2P Require Import MarketOps Feeds AssetOps AssetFacts Accounts Governance.

Definition GRAPHENE_CORE_ASSET_CYCLE_RATE : Z := 17.
Definition GRAPHENE_CORE_ASSET_CYCLE_RATE_BITS : Z := 32.
Definition seconds_per_day : Z := 86400.
(** [fc::microseconds] *)
Definition microseconds (seconds : Z) : Z := seconds * 1000000.

Section Workers.
Context `{FC : FcLib}.
Implicit Types (db : database).

(** [refund_worker_type], [vesting_balance_worker_type] and
    [burn_worker_type::pay_worker] *)
Definition pay_worker (pay : Z) db (w : worker_type) : result (worker_type * database) :=
  match w with
  | refund_worker total_burned =>
      total_burned ← safe_add fc_safe total_burned pay;
      db ← modify_dynamic db CORE_ASSET (sub_supply pay);
      Ok (refund_worker total_burned, db)
  | vesting_balance_worker i =>
      vbo ← tbl_get (vesting_balances db) i;
      vbo' ← deposit vbo (head_block_time db) (Asset pay CORE_ASSET);
      Ok (w, db <| vesting_balances ::= fun t => tbl_modify t i (fun _ => vbo') |>)
  | burn_worker total_burned =>
      total_burned ← safe_add fc_safe total_burned pay;
      db ← adjust_balance db GRAPHENE_NULL_ACCOUNT (Asset pay CORE_ASSET);
      Ok (burn_worker total_burned, db)
  end.

Definition is_active (w : worker_object) (now : Z) : bool := (work_begin_date w <=? now) && (now <=? work_end_date w).

Definition approving_stake (w : worker_object) : result Z :=
  sub_int64 (to_int64 (total_votes_for w)) (to_int64 (total_votes_against w)).

(** The workers that are paid: (id, approving stake). *)
Definition active_workers db : result (list (N * Z)) :=
  foldM (fun l x =>
      if is_active x.2 (head_block_time db) then
        s ← approving_stake x.2;
        Ok (if 0 <? s then l ++ [(x.1, s)] else l)
      else Ok l) [] (map_to_list (objs (workers (gov db)))).

(** More votes first, then the lower id. *)
Definition preferred (x y : N * Z) : Prop := y.2 < x.2 \/ y.2 = x.2 /\ (x.1 <= y.1)%N.
#[export] Instance preferred_dec x y : Decision (preferred x y).
Proof. unfold preferred. apply _. Defined.

(** The daily pay, in proportion to the time since the last budget. *)
Definition requested_pay db (w : worker_object) : result Z :=
  let elapsed := microseconds (head_block_time db - last_budget_time (dgpo db)) in
  if elapsed =? microseconds seconds_per_day then Ok (daily_pay w)
  else
    r ← u128_to_uint64 fc_u128
          (u128_div fc_u128 (u128_mul fc_u128 (u128_of fc_u128 (daily_pay w)) (u128_of fc_u128 elapsed))
             (u128_of fc_u128 (microseconds seconds_per_day)));
    Ok (to_int64 r).

Definition pay_active_worker (st : Z * database) (x : N * Z) : result (Z * database) :=
  let '(budget, db) := st in
  if 0 <? budget then
    w ← tbl_get (workers (gov db)) x.1;
    requested ← requested_pay db w;
    let actual_pay := Z.min budget requested in
    '(kind, db) ← pay_worker actual_pay db (worker_kind w);
    let db := db <| gov ::= fun g => g <| workers ::= fun t => tbl_modify t x.1 (fun w => w <| worker_kind := kind |>) |> |> in
    budget ← safe_sub fc_safe budget actual_pay;
    Ok (budget, db)
  else Ok (budget, db).

(** [pay_workers]: what is left of the budget. *)
Definition pay_workers (budget : Z) db : result (Z * database) :=
  l ← active_workers db;
  foldM pay_active_worker (budget, db) (merge_sort preferred l).

(** ** The budget *)

(** [asset_object::reserved] *)
Definition reserved (a : asset_object) (d : asset_dynamic_data_object) : result Z :=
  safe_sub fc_safe (max_supply (options a)) (current_supply d).

(** The fraction of the reserve that may be spent after [dt] seconds, rounded up. *)
Definition cycle_budget (reserve dt : Z) : result Z :=
  let b := u128_mul fc_u128 (u128_of fc_u128 reserve) (u128_of fc_u128 dt) in
  let b := u128_mul fc_u128 b (u128_of fc_u128 GRAPHENE_CORE_ASSET_CYCLE_RATE) in
  let b := u128_add fc_u128 b (u128_of fc_u128 (2 ^ GRAPHENE_CORE_ASSET_CYCLE_RATE_BITS - 1)) in
  let b := u128_shr fc_u128 b GRAPHENE_CORE_ASSET_CYCLE_RATE_BITS in
  if b <? u128_of fc_u128 reserve then (r ← u128_to_uint64 fc_u128 b; Ok (to_int64 r)) else Ok reserve.

Definition initialize_budget_record db (now : Z) : result budget_record :=
  core ← tbl_get (assets db) CORE_ASSET;
  core_dd ← get_dynamic db core;
  from_reserve ← reserved core core_dd;
  let last := last_budget_time (dgpo db) in
  let rec_of dt total :=
    Budget_record dt from_reserve (accumulated_fees core_dd) (witness_budget (dgpo db)) 0 total 0 0 0 0 in
  if (last =? 0) || (now <=? last) then Ok (rec_of 0 0)
  else
    let dt := now - last in
    reserve ← safe_add fc_safe from_reserve (accumulated_fees core_dd);
    reserve ← safe_add fc_safe reserve (witness_budget (dgpo db));
    total ← cycle_budget reserve dt;
    Ok (rec_of dt total).

(** What the budget gives the workers for [time_to_maint] seconds. *)
Definition worker_share (per_day time_to_maint available_funds : Z) : result Z :=
  let b := u128_div fc_u128 (u128_mul fc_u128 (u128_of fc_u128 per_day) (u128_of fc_u128 time_to_maint))
             (u128_of fc_u128 seconds_per_day) in
  if u128_of fc_u128 available_funds <=? b then Ok available_funds
  else (r ← u128_to_uint64 fc_u128 b; Ok (to_int64 r)).

(** Witness budget, worker budget and the funds that neither uses. *)
Definition split_budget (p : chain_parameters) (time_to_maint total : Z) : result (Z * Z * Z) :=
  let interval := block_interval p in
  _ ← C_ASSERT (0 <? interval) "gpo.parameters.block_interval > 0";
  let blocks_to_maint := wrap64 (time_to_maint + interval - 1) / interval in
  let requested := to_int64 (witness_pay_per_block p * blocks_to_maint) in
  let witnesses := Z.min requested total in
  available ← safe_sub fc_safe total witnesses;
  worker_budget ← worker_share (worker_budget_per_day p) time_to_maint available;
  Ok (requested, witnesses, worker_budget).

Definition process_budget db : result database :=
  let now := head_block_time db in
  let time_to_maint := next_maintenance_time (dgpo db) - now in
  _ ← C_ASSERT (0 <? time_to_maint) "time_to_maint > 0";
  r ← initialize_budget_record db now;
  '(requested, witnesses, for_workers) ← split_budget (parameters db) time_to_maint (total_budget r);
  '(leftover, db) ← pay_workers for_workers db;
  d ← safe_add fc_safe witnesses for_workers;
  d ← safe_sub fc_safe d leftover;
  d ← safe_sub fc_safe d (from_accumulated_fees r);
  delta ← safe_sub fc_safe d (from_unused_witness_budget r);
  db ← modify_dynamic db CORE_ASSET (fun core =>
         s ← safe_add fc_safe (current_supply core) delta;
         _ ← C_ASSERT (delta =? witnesses + for_workers - leftover - accumulated_fees core - witness_budget (dgpo db))
               "rec.supply_delta == witness_budget + worker_budget - leftover_worker_funds - _core.accumulated_fees - dpo.witness_budget";
         Ok (core <| current_supply := s |> <| accumulated_fees := 0 |>));
  let db := db <| dgpo ::= fun d => d <| witness_budget := witnesses |> <| last_budget_time := now |> |> in
  let r := Budget_record (time_since_last_budget r) (from_initial_reserve r) (from_accumulated_fees r)
             (from_unused_witness_budget r) requested (total_budget r) witnesses for_workers leftover delta in
  Ok (db <| gov ::= fun g => g <| budget_records ::= fun t => (tbl_create t (now, r)).2 |> |>).
End Workers.

(** ** Fees of fee-backed assets *)

Definition fba_accumulator_id_transfer_to_blind : N := 0.
Definition fba_accumulator_id_blind_transfer : N := 1.
Definition fba_accumulator_id_transfer_from_blind : N := 2.
Definition GRAPHENE_1_PERCENT : Z := 100.

Section Fba.
Context `{FC : FcLib}.
Implicit Types (db : database).

(** All enabled bits of [f] are allowed. *)
Definition only_charges_fees (f : Z) : bool := Z.land f charge_market_fee =? f.

Definition is_top_holders_of (s : special_authority) (a : N) : bool :=
  match s with top_holders_special_authority a' _ => (a' =? a)%N | no_special_authority => false end.

(** [fba_accumulator_object::is_configured] *)
Definition is_configured db (fba : fba_accumulator_object) : result bool :=
  match designated_asset fba with
  | None => Ok false
  | Some i =>
      match tbl_find (assets db) i with
      | None => Ok false
      | Some dasset =>
          if is_market_issued dasset then Ok false
          else if negb (only_charges_fees (issuer_permissions (options dasset))) then Ok false
          else if negb (only_charges_fees (flags (options dasset))) then Ok false
          else if negb (match buyback_account dasset with Some _ => true | None => false end) then Ok false
          else
            issuer_acct ← tbl_get (accounts db) (issuer dasset);
            Ok (is_top_holders_of (owner_special_authority issuer_acct) i
                && is_top_holders_of (active_special_authority issuer_acct) i
                && (top_n_control_flags issuer_acct =? Z.lor 1 2))
      end
  end.

Definition percent_of (x pct : Z) : result Z :=
  r ← u128_to_uint64 fc_u128
        (u128_div fc_u128 (u128_mul fc_u128 (u128_of fc_u128 x) (u128_of fc_u128 pct))
           (u128_of fc_u128 GRAPHENE_100_PERCENT));
  Ok (to_int64 r).

(** One side's share, with the virtual operation that reports it. *)
Definition distribute_fba db (account fba_id : N) (x : Z) : result database :=
  if x =? 0 then Ok db
  else
    db ← adjust_balance db account (Asset x CORE_ASSET);
    Ok (push_applied_operation db (fba_distribute_vop account fba_id x)).

Definition clear_fba db (fba_id : N) : database :=
  db <| gov ::= fun g => g <| fba_accumulators ::= fun t =>
    tbl_modify t fba_id (fun f => f <| accumulated_fba_fees := 0 |>) |> |>.

Definition split_fba_balance (fba_id : N) (network_pct buyback_pct issuer_pct : Z) db : result database :=
  _ ← FC_ASSERT (network_pct + buyback_pct + issuer_pct =? GRAPHENE_100_PERCENT)
        "network_pct + designated_asset_buyback_pct + designated_asset_issuer_pct == GRAPHENE_100_PERCENT";
  fba ← tbl_get (fba_accumulators (gov db)) fba_id;
  let fees := accumulated_fba_fees fba in
  if fees =? 0 then Ok db
  else
    configured ← is_configured db fba;
    if configured : bool then
      buyback_amount ← percent_of fees buyback_pct;
      issuer_amount ← percent_of fees issuer_pct;
      both ← safe_add fc_safe buyback_amount issuer_amount;
      _ ← FC_ASSERT (both <=? fees) "buyback_amount + issuer_amount <= fba.accumulated_fba_fees";
      network_amount ← safe_sub fc_safe fees both;
      i ← of_option (designated_asset fba) (undefined_behaviour "*fba.designated_asset");
      a ← tbl_get (assets db) i;
      db ← (if network_amount =? 0 then Ok db else modify_dynamic db CORE_ASSET (sub_supply network_amount));
      buyback ← of_option (buyback_account a) (undefined_behaviour "*designated_asset.buyback_account");
      db ← distribute_fba db buyback fba_id buyback_amount;
      db ← distribute_fba db (issuer a) fba_id issuer_amount;
      Ok (clear_fba db fba_id)
    else
      db ← modify_dynamic db CORE_ASSET (sub_supply fees);
      Ok (clear_fba db fba_id).

Definition distribute_fba_balances db : result database :=
  let split i := split_fba_balance i (20 * GRAPHENE_1_PERCENT) (60 * GRAPHENE_1_PERCENT) (20 * GRAPHENE_1_PERCENT) in
  db ← split fba_accumulator_id_transfer_to_blind db;
  db ← split fba_accumulator_id_blind_transfer db;
  split fba_accumulator_id_transfer_from_blind db.
End Fba.

(** ** Facts *)

(** The fees that wait in the accumulators, which [holdings] does not count. *)
Definition fba_part (_ : N) (f : fba_accumulator_object) : Z := accumulated_fba_fees f.
Definition fba_total (db : database) : Z := map_sum fba_part (objs (fba_accumulators (gov db))).

Section Facts.
Context `{FC : FcLib, !FcLaws FC}.
Implicit Types (db : database).

(** *** Workers *)

Lemma pay_worker_moves x db w k db' : pay_worker x db w = Ok (k, db') -> moves db db' (fun c => core_in c x).
Proof.
  destruct w as [t|i|t]; cbn [pay_worker]; intros H; inv_result.
  - match goal with H : modify_dynamic _ _ _ = _ |- _ => apply sub_supply_moves in H as M end.
    eapply moves_eq; [exact M|]. intros c. apply amount_in_core.
  - inv_get. match goal with H : deposit _ _ _ = _ |- _ => destruct (deposit_balance _ _ _ _ (or_introl H)) as [Hb Hid] end.
    eapply moves_eq; [by eapply put_vesting_moves|]. intros c. simpl in Hid. rewrite <-Hid. apply amount_in_core.
  - match goal with H : adjust_balance _ _ _ = _ |- _ => apply adjust_balance_moves in H as M end.
    eapply moves_eq; [exact M|]. intros c. apply amount_in_core.
Qed.

Lemma pay_active_worker_moves b db x b' db' :
  pay_active_worker (b, db) x = Ok (b', db') -> moves db db' (fun c => core_in c (b - b')).
Proof.
  unfold pay_active_worker. intros H. destruct (0 <? b); [|injection H as <- <-; eapply moves_eq; [apply moves_refl|];
    intros c; by rewrite Z.sub_diag, core_in_0].
  inv_results. inv_safe. match goal with H : pay_worker _ _ _ = _ |- _ => apply pay_worker_moves in H as M end.
  eapply moves_eq; [eapply moves_step; [exact M|by apply moves_same]|]. intros c. simpl.
  rewrite Z.add_0_r. f_equal. lia.
Qed.

Lemma pay_workers_moves b db b' db' : pay_workers b db = Ok (b', db') -> moves db db' (fun c => core_in c (b - b')).
Proof.
  unfold pay_workers. intros H. inv_result.
  refine (foldM_inv _ (fun st => moves db st.2 (fun c => core_in c (b - st.1))) _ _ _ _ _ H).
  - intros [b1 d1] x [b2 d2] M _ M2%pay_active_worker_moves. simpl in *.
    eapply moves_eq; [by eapply moves_step|]. intros c. simpl. rewrite <-core_in_add. f_equal. lia.
  - simpl. eapply moves_eq; [apply moves_refl|]. intros c. by rewrite Z.sub_diag, core_in_0.
Qed.

(** *** The budget *)

Lemma witness_budget_moves db db' w :
  witness_budget (dgpo db') = w -> db' = db <| dgpo := dgpo db' |> ->
  moves db db' (fun c => core_in c (w - witness_budget (dgpo db))).
Proof.
  intros <- E [[]]. rewrite E. split_and!; [by split|done|]. intros c. unfold unbacked, holdings, supply, fees_of, dynamic_of.
  simpl. rewrite core_in_sub. lia.
Qed.

(** The budget is spent on what it is for, and nothing else changes hands. *)
Lemma process_budget_moves db db' : process_budget db = Ok db' -> moves db db' (fun _ => 0).
Proof.
  unfold process_budget. cbv zeta. intros H. apply bind_Ok in H as (_ & _ & H). apply bind_Ok in H as (r & _ & H).
  apply bind_Ok in H as ([[requested wb] wk] & _ & H). apply bind_Ok in H as ([left d] & Hp & H).
  apply bind_Ok in H as (d1 & H1 & H). apply bind_Ok in H as (d2 & H2 & H). apply bind_Ok in H as (d3 & H3 & H).
  apply bind_Ok in H as (delta & H4 & H). apply bind_Ok in H as (d' & Hm & [= <-]).
  apply pay_workers_moves in Hp. inv_safe.
  match type of Hm with modify_dynamic _ _ ?f = _ => set (fn := f) in Hm end.
  assert (M : moves d d' (fun c => core_in c 0 + amount_in c (Asset (left - wb - wk + witness_budget (dgpo d)) CORE_ASSET))).
  { apply (modify_dynamic_moves _ _ _ _ _ _ Hm). intros x x' Hf. unfold fn in Hf. inv_result. inv_safe.
    match goal with H : (_ =? _) = true |- _ => apply Z.eqb_eq in H end. simpl. lia. }
  assert (D : dgpo d' = dgpo d) by (unfold modify_dynamic in Hm; by inv_result).
  eapply moves_eq.
  - eapply moves_step; [eapply moves_step; [exact Hp|exact M]|]. eapply moves_step.
    + apply (witness_budget_moves d' (d' <| dgpo ::= fun d => d <| witness_budget := wb |> <| last_budget_time := head_block_time db |> |>) wb);
        reflexivity.
    + by apply moves_same.
  - intros c. cbv beta. rewrite D, amount_in_core, core_in_0, Z.add_0_l, Z.add_0_r, <-!core_in_add.
    replace (_ + _) with 0 by lia. apply core_in_0.
Qed.

(** *** Fee-backed assets *)

Lemma distribute_fba_moves db i f x db' : distribute_fba db i f x = Ok db' -> moves db db' (fun c => core_in c x).
Proof.
  unfold distribute_fba. destruct (Z.eqb_spec x 0) as [->|].
  { intros [= <-]. eapply moves_eq; [apply moves_refl|]. intros c. by rewrite core_in_0. }
  intros H. inv_result. match goal with H : adjust_balance _ _ _ = _ |- _ => apply adjust_balance_moves in H as M end.
  eapply moves_eq; [eapply moves_step; [exact M|by apply moves_same]|]. intros c. simpl. rewrite amount_in_core. lia.
Qed.

Lemma sub_supply_frame db id x db' :
  modify_dynamic db id (sub_supply x) = Ok db' ->
  db' = db <| dynamic_data := dynamic_data db' |> /\
  (wf_assets db -> forall c, supply db' c = supply db c - amount_in c (Asset x id)).
Proof.
  unfold modify_dynamic, get_dynamic. intros H. inv_result. inv_get.
  match goal with H : sub_supply _ _ = _ |- _ => apply sub_supply_spec in H as -> end. split; [done|].
  intros W c. erewrite put_dynamic_supply by done. unfold amount_in. simpl. case_match; lia.
Qed.

Lemma distribute_fba_frame db i f x db' :
  distribute_fba db i f x = Ok db' ->
  db' = db <| balances := balances db' |> <| applied_ops := applied_ops db' |> /\
  forall j c, amount (get_balance db' j c) =
    amount (get_balance db j c) + (if decide ((j, c) = (i, CORE_ASSET)) then x else 0).
Proof.
  unfold distribute_fba. destruct (Z.eqb_spec x 0) as [->|].
  { intros [= <-]. split; [by destruct db|]. intros j c. case_decide; lia. }
  intros H. inv_result. match goal with H : adjust_balance _ _ _ = _ |- _ => apply adjust_balance_inv in H as (b & -> & E & _) end.
  split; [done|]. exact E.
Qed.

(** A share of the fees. *)
Lemma percent_of_ok x pct : 0 <= x <= INT64_MAX -> 0 <= pct <= GRAPHENE_100_PERCENT ->
  percent_of x pct = Ok (x * pct / GRAPHENE_100_PERCENT).
Proof.
  intros Hx Hp. unfold percent_of. pose proof (scale_down_bounds x pct GRAPHENE_100_PERCENT) as B.
  unfold GRAPHENE_100_PERCENT in *. rewrite (u128_cut fc_u128_laws) by blia. simpl. f_equal. apply to_int64_small. lia.
Qed.

(** The parts of a successful split. *)
Record split_parts (db db' : database) (fba_id : N) (fees network buyback_share issuer_share : Z) (buyback iss : N) : Prop := {
  split_total : network + buyback_share + issuer_share = fees;
  split_gov : gov db' = gov (clear_fba db fba_id);
  split_moves : moves db db' (fun c => core_in c fees);
  split_supply : wf_assets db -> forall c, supply db' c = supply db c - core_in c network;
  split_balance j c : amount (get_balance db' j c) = amount (get_balance db j c)
    + (if decide ((j, c) = (buyback, CORE_ASSET)) then buyback_share else 0)
    + (if decide ((j, c) = (iss, CORE_ASSET)) then issuer_share else 0);
}.

Lemma modify_dynamic_gov db id f db' : modify_dynamic db id f = Ok db' -> gov db' = gov db /\ balances db' = balances db.
Proof. unfold modify_dynamic. intros H. by inv_result. Qed.

Lemma burn_fba_parts db fba_id fees db' :
  modify_dynamic db CORE_ASSET (sub_supply fees) = Ok db' ->
  forall i j, split_parts db (clear_fba db' fba_id) fba_id fees fees 0 0 i j.
Proof.
  intros H i j. apply sub_supply_moves in H as M. apply sub_supply_frame in H as [E Hs]. split.
  - lia.
  - rewrite E. done.
  - eapply moves_eq; [eapply moves_step; [exact M|by apply moves_same]|]. intros c. simpl. rewrite amount_in_core. lia.
  - intros W c. change (supply (clear_fba db' fba_id) c) with (supply db' c). rewrite (Hs W), amount_in_core. done.
  - intros k c. rewrite E. repeat case_decide; rewrite !Z.add_0_r; done.
Qed.

Lemma pay_fba_parts db fba_id network b iss x y d1 d2 db' :
  (if network =? 0 then Ok db else modify_dynamic db CORE_ASSET (sub_supply network)) = Ok d1 ->
  distribute_fba d1 b fba_id x = Ok d2 -> distribute_fba d2 iss fba_id y = Ok db' ->
  split_parts db (clear_fba db' fba_id) fba_id (network + x + y) network x y b iss.
Proof.
  intros H1 H2 H3. assert (B : moves db d1 (fun c => core_in c network) /\ d1 = db <| dynamic_data := dynamic_data d1 |> /\
    (wf_assets db -> forall c, supply d1 c = supply db c - core_in c network)).
  { destruct (Z.eqb_spec network 0) as [->|].
    - injection H1 as <-. split_and!; [|by destruct db|intros _ c; rewrite core_in_0; lia].
      eapply moves_eq; [apply moves_refl|]. intros c. by rewrite core_in_0.
    - apply sub_supply_moves in H1 as M. apply sub_supply_frame in H1 as [E Hs]. split_and!; [|exact E|].
      + eapply moves_eq; [exact M|]. intros c. apply amount_in_core.
      + intros W c. by rewrite (Hs W), amount_in_core. }
  destruct B as (M1 & E1 & S1).
  apply distribute_fba_moves in H2 as M2. apply distribute_fba_moves in H3 as M3.
  apply distribute_fba_frame in H2 as [E2 B2]. apply distribute_fba_frame in H3 as [E3 B3]. split.
  - done.
  - rewrite E3, E2, E1. done.
  - eapply moves_eq; [eapply moves_step; [exact M1|eapply moves_step; [exact M2|eapply moves_step; [exact M3|by apply moves_same]]]|].
    intros c. cbv beta. rewrite !core_in_add. lia.
  - intros W c. rewrite <-(S1 W), E3, E2. done.
  - intros j c. change (get_balance (clear_fba db' fba_id) j c) with (get_balance db' j c). rewrite B3, B2.
    f_equal. f_equal. by rewrite E1.
Qed.

Lemma split_fba_inv fba_id n b s db db' :
  split_fba_balance fba_id n b s db = Ok db' ->
  exists f, objs (fba_accumulators (gov db)) !! fba_id = Some f /\
    (accumulated_fba_fees f = 0 /\ db' = db \/
     exists network x y i j, split_parts db db' fba_id (accumulated_fba_fees f) network x y i j /\
       (is_configured db f = Ok false /\ network = accumulated_fba_fees f /\ x = 0 /\ y = 0 \/
        is_configured db f = Ok true /\ percent_of (accumulated_fba_fees f) b = Ok x /\
        percent_of (accumulated_fba_fees f) s = Ok y /\
        exists d a, designated_asset f = Some d /\ objs (assets db) !! d = Some a /\ buyback_account a = Some i /\ issuer a = j)).
Proof.
  unfold split_fba_balance. intros H. apply bind_Ok in H as (_ & _ & H). apply bind_Ok in H as (f & Hf & H). cbv zeta in H.
  inv_get. exists f. split; [done|]. destruct (Z.eqb_spec (accumulated_fba_fees f) 0) as [H0|H0]; [injection H as <-; by left|].
  right. apply bind_Ok in H as (conf & Hc & H). destruct conf.
  - apply bind_Ok in H as (x & Hx & H). apply bind_Ok in H as (y & Hy & H). apply bind_Ok in H as (both & Hb & H).
    apply bind_Ok in H as (_ & _ & H). apply bind_Ok in H as (network & Hn & H). apply bind_Ok in H as (d & Hd & H).
    apply bind_Ok in H as (a & Ha & H). apply bind_Ok in H as (d1 & H1 & H). apply bind_Ok in H as (i & Hi & H).
    apply bind_Ok in H as (d2 & H2 & H). apply bind_Ok in H as (d3 & H3 & [= <-]).
    apply of_option_Ok in Hd, Hi. inv_get. inv_safe. exists (accumulated_fba_fees f - (x + y)), x, y, i, (issuer a). split.
    + replace (accumulated_fba_fees f) with ((accumulated_fba_fees f - (x + y)) + x + y) at 1 by lia. by eapply pay_fba_parts.
    + right. eauto 10.
  - apply bind_Ok in H as (d1 & H1 & [= <-]). exists (accumulated_fba_fees f), 0, 0, 0%N, 0%N. split; [by apply burn_fba_parts|by left].
Qed.

(** The money moves from the accumulator into the books. *)
Lemma split_fba_unbacked fba_id n b s db db' :
  split_fba_balance fba_id n b s db = Ok db' -> wf_db db ->
  wf_db db' /\ deflations db' = deflations db /\
  (forall c, unbacked db' c + core_in c (fba_total db') = unbacked db c + core_in c (fba_total db)) /\
  (forall f, objs (fba_accumulators (gov db')) !! fba_id = Some f -> accumulated_fba_fees f = 0) /\
  forall j, j <> fba_id -> objs (fba_accumulators (gov db')) !! j = objs (fba_accumulators (gov db)) !! j.
Proof.
  intros (f & Hf & [[H0 ->]|(network & x & y & i & j & P & _)])%split_fba_inv W.
  { split_and!; try done. intros f1 Hf1. congruence. }
  destruct P as [_ Hg M _ _]. destruct (M W) as (W' & D & E). unfold fba_total. rewrite Hg. split_and!; [done|done| | |].
  - intros c. rewrite E. simpl. rewrite map_sum_alter, Hf. cbn [at_key fmap option_fmap option_map].
    change (fba_part fba_id (f <| accumulated_fba_fees := 0 |>)) with 0.
    change (fba_part fba_id f) with (accumulated_fba_fees f). rewrite Z.add_0_r, core_in_sub. lia.
  - intros f' Hf'. simpl in Hf'. rewrite lookup_alter_eq, Hf in Hf'. simpl in Hf'. by simplify_eq.
  - intros k Hk. simpl. by rewrite lookup_alter_ne.
Qed.

Lemma distribute_fba_unbacked db db' :
  distribute_fba_balances db = Ok db' -> wf_db db ->
  wf_db db' /\ deflations db' = deflations db /\
  forall c, unbacked db' c + core_in c (fba_total db') = unbacked db c + core_in c (fba_total db).
Proof.
  unfold distribute_fba_balances. cbv zeta. intros H W. inv_result.
  repeat match goal with H : split_fba_balance _ _ _ _ ?d = _, W : wf_db ?d |- _ =>
    destruct (split_fba_unbacked _ _ _ _ _ _ H W) as (? & ? & ? & _ & _); clear H end.
  split_and!; [done|congruence|]. intros c. congruence.
Qed.

(** *** Bounds *)

Lemma cycle_budget_ok reserve dt : 0 <= reserve <= INT64_MAX -> 0 <= dt < 2 ^ 32 ->
  cycle_budget reserve dt = Ok (Z.min reserve ((reserve * dt * 17 + (2 ^ 32 - 1)) / 2 ^ 32)).
Proof.
  intros Hr Hd. pose proof fc_u128_laws as L. unfold cycle_budget.
  unfold GRAPHENE_CORE_ASSET_CYCLE_RATE, GRAPHENE_CORE_ASSET_CYCLE_RATE_BITS.
  rewrite !(u128_of_ok _ L) by blia. assert (0 <= reserve * dt <= 2 ^ 95) by (unfold_bounds; nia).
  rewrite (u128_mul_ok _ L reserve dt), (u128_mul_ok _ L (reserve * dt) 17), (u128_add_ok _ L) by blia.
  rewrite (u128_shr_ok _ L) by blia. rewrite Z.shiftr_div_pow2 by lia.
  set (b := (reserve * dt * 17 + (2 ^ 32 - 1)) / 2 ^ 32). assert (0 <= b) by (apply Z.div_pos; lia).
  destruct (Z.ltb_spec b reserve); [|f_equal; lia].
  rewrite (u128_to_uint64_ok _ L) by blia. simpl. rewrite to_int64_small by lia. f_equal. lia.
Qed.

Lemma worker_share_ok per_day t available :
  0 <= per_day <= INT64_MAX -> 0 <= t < 2 ^ 32 -> 0 <= available <= INT64_MAX ->
  worker_share per_day t available = Ok (Z.min available (per_day * t / seconds_per_day)).
Proof.
  intros Hp Ht Ha. pose proof fc_u128_laws as L. unfold worker_share, seconds_per_day.
  rewrite (u128_scale L) by blia. rewrite (u128_of_ok _ L) by blia.
  assert (0 <= per_day * t / 86400) by (apply Z.div_pos; nia).
  destruct (Z.leb_spec available (per_day * t / 86400)); [f_equal; lia|].
  rewrite (u128_to_uint64_ok _ L) by blia. simpl. rewrite to_int64_small by lia. f_equal. lia.
Qed.

(** Workers are paid something sensible for the time since the last budget. *)
Definition sound_pay (db : database) : Prop :=
  0 <= head_block_time db - last_budget_time (dgpo db) <= 9000 * seconds_per_day /\
  forall i w, objs (workers (gov db)) !! i = Some w -> 0 <= daily_pay w <= GRAPHENE_MAX_SHARE_SUPPLY.

Lemma requested_pay_nonneg db w r :
  0 <= head_block_time db - last_budget_time (dgpo db) <= 9000 * seconds_per_day ->
  0 <= daily_pay w <= GRAPHENE_MAX_SHARE_SUPPLY -> requested_pay db w = Ok r -> 0 <= r.
Proof.
  intros Ht Hw. pose proof fc_u128_laws as L. unfold requested_pay, microseconds, seconds_per_day, GRAPHENE_MAX_SHARE_SUPPLY in *.
  destruct (_ =? _); [intros [= <-]; lia|]. rewrite (u128_scale L) by blia. intros H.
  set (elapsed := head_block_time db - last_budget_time (dgpo db)) in *.
  assert (Hq : 0 <= daily_pay w * (elapsed * 1000000) / (86400 * 1000000) <= INT64_MAX).
  { split; [apply Z.div_pos; nia|]. apply Z.div_le_upper_bound; [lia|]. unfold_bounds. nia. }
  rewrite (u128_to_uint64_ok _ L) in H by blia. simpl in H. injection H as <-. rewrite to_int64_small by done. lia.
Qed.

(** What paying workers leaves alone. *)
Record same_budget (db db' : database) : Prop := {
  sb_assets : assets db' = assets db;
  sb_dgpo : dgpo db' = dgpo db;
  sb_parameters : parameters db' = parameters db;
  sb_records : budget_records (gov db') = budget_records (gov db);
  sb_daily i : daily_pay <$> objs (workers (gov db')) !! i = daily_pay <$> objs (workers (gov db)) !! i;
}.

#[local] Instance same_budget_preorder : PreOrder same_budget.
Proof. split; [by intros db|]. intros db1 db2 db3 [] []. split; congruence. Qed.

Lemma pay_worker_frame x db w k db' :
  pay_worker x db w = Ok (k, db') ->
  assets db' = assets db /\ dgpo db' = dgpo db /\ parameters db' = parameters db /\ gov db' = gov db /\
  (0 <= x -> wf_assets db -> forall c, supply db' c <= supply db c).
Proof.
  destruct w as [t|i|t]; cbn [pay_worker]; intros H; inv_result.
  - match goal with H : modify_dynamic _ _ _ = _ |- _ => apply sub_supply_frame in H as [E Hs] end. rewrite E.
    split_and!; try done. intros Hx W c. rewrite <-E, (Hs W). unfold amount_in. simpl. case_match; lia.
  - split_and!; done.
  - match goal with H : adjust_balance _ _ _ = _ |- _ => apply adjust_balance_inv in H as (b & -> & _) end.
    split_and!; done.
Qed.

Lemma pay_active_worker_inv b db x b' db' :
  pay_active_worker (b, db) x = Ok (b', db') -> 0 <= b -> sound_pay db -> wf_assets db ->
  0 <= b' <= b /\ same_budget db db' /\ forall c, supply db' c <= supply db c.
Proof.
  unfold pay_active_worker. intros H Hb [Ht Hw] W. destruct (Z.ltb_spec 0 b).
  2: { injection H as <- <-. split_and!; [lia|lia|done|done]. }
  apply bind_Ok in H as (w & Hx & H). apply bind_Ok in H as (r & Hr & H). cbv zeta in H. apply bind_Ok in H as ([k d] & Hp & H).
  apply bind_Ok in H as (left & Hl & [= <- <-]). inv_get. inv_safe.
  apply requested_pay_nonneg in Hr; [|done|by eapply Hw]. apply pay_worker_frame in Hp as (E1 & E2 & E3 & E4 & Hs).
  split_and!; [lia|lia| |].
  - split; simpl; rewrite ?E4; try done. intros i. destruct (decide (i = x.1)) as [->|].
    + rewrite lookup_alter_eq. by destruct (objs (workers (gov db)) !! x.1).
    + by rewrite lookup_alter_ne.
  - intros c. apply Hs; [lia|done].
Qed.

Lemma sound_pay_same db db' : same_budget db db' -> sound_pay db -> sound_pay db'.
Proof.
  intros [_ D _ _ E] [Ht Hw]. unfold sound_pay, head_block_time in *. rewrite D. split; [done|].
  intros i w Hi. specialize (E i). rewrite Hi in E. simpl in E.
  destruct (objs (workers (gov db)) !! i) as [w'|] eqn:Hi'; [|done]. simpl in E. injection E as ->. by eapply Hw.
Qed.

Lemma pay_workers_inv b db b' db' :
  pay_workers b db = Ok (b', db') -> 0 <= b -> sound_pay db -> wf_db db ->
  0 <= b' <= b /\ same_budget db db' /\ forall c, supply db' c <= supply db c.
Proof.
  unfold pay_workers. intros H Hb S W. apply bind_Ok in H as (l & _ & H).
  enough (0 <= (b', db').1 <= b /\ same_budget db (b', db').2 /\ (forall c, supply (b', db').2 c <= supply db c) /\ wf_db (b', db').2)
    as (? & ? & ? & _) by done.
  refine (foldM_inv _ (fun st => 0 <= st.1 <= b /\ same_budget db st.2 /\ (forall c, supply st.2 c <= supply db c) /\ wf_db st.2)
    _ _ (b, db) _ _ H).
  - intros [b1 d1] x [b2 d2] (B1 & F1 & S1 & W1) _ Hx. simpl in *.
    destruct (pay_active_worker_moves _ _ _ _ _ Hx W1) as (W2 & _).
    apply pay_active_worker_inv in Hx as (B2 & F2 & S2); [|lia|by eapply sound_pay_same|apply W1].
    split_and!; [lia|lia|by etrans| |done]. intros c. specialize (S1 c). specialize (S2 c). lia.
  - simpl. split_and!; [lia|lia|done|done|done].
Qed.
End Facts.

(** ** Properties *)

(** A state in which the budget is about to be made: [core] and [dd] are the core
    asset and its dynamic data. *)
Record budget_sound (db : database) (core : asset_object) (dd : asset_dynamic_data_object) : Prop := {
  bs_core : objs (assets db) !! CORE_ASSET = Some core;
  bs_dd : objs (dynamic_data db) !! dynamic_asset_data_id core = Some dd;
  bs_supply : current_supply dd <= max_supply (options core);
  bs_fees : 0 <= accumulated_fees dd;
  bs_witness : 0 <= witness_budget (dgpo db);
  bs_pay : 0 <= witness_pay_per_block (parameters db) /\
    witness_pay_per_block (parameters db)
      * (next_maintenance_time (dgpo db) - head_block_time db + block_interval (parameters db)) <= INT64_MAX;
  bs_workers : 0 <= worker_budget_per_day (parameters db) <= INT64_MAX;
  bs_time : next_maintenance_time (dgpo db) - head_block_time db < 2 ^ 32;
  bs_interval : 0 < block_interval (parameters db) < 2 ^ 8;
  bs_payroll : sound_pay db;
}.

Section Properties.
Context `{FC : FcLib, !FcLaws FC}.
Implicit Types (db : database).

Lemma initialize_budget_record_inv db core dd r :
  objs (assets db) !! CORE_ASSET = Some core -> objs (dynamic_data db) !! dynamic_asset_data_id core = Some dd ->
  current_supply dd <= max_supply (options core) -> 0 <= accumulated_fees dd -> 0 <= witness_budget (dgpo db) ->
  head_block_time db - last_budget_time (dgpo db) <= 9000 * seconds_per_day ->
  initialize_budget_record db (head_block_time db) = Ok r ->
  from_initial_reserve r = max_supply (options core) - current_supply dd /\
  from_accumulated_fees r = accumulated_fees dd /\ from_unused_witness_budget r = witness_budget (dgpo db) /\
  let reserve := from_initial_reserve r + from_accumulated_fees r + from_unused_witness_budget r in
  0 <= total_budget r <= reserve /\ total_budget r <= INT64_MAX /\
  (0 < last_budget_time (dgpo db) < head_block_time db -> 0 < reserve -> 0 < total_budget r).
Proof.
  intros Hc Hd Hs Hf Hw Ht. unfold initialize_budget_record, get_dynamic, tbl_get, reserved. rewrite Hc. cbn [of_option mbind result_bind].
  rewrite Hd. cbn [of_option mbind result_bind]. intros H. apply bind_Ok in H as (x & Hx & H). inv_safe. cbv zeta in H.
  destruct ((last_budget_time (dgpo db) =? 0) || (head_block_time db <=? last_budget_time (dgpo db))) eqn:Hlast.
  { injection H as <-. simpl. split_and!; try done; try lia. }
  apply orb_false_iff in Hlast as [?%Z.eqb_neq Hl%Z.leb_gt]. inv_result. inv_safe. unfold seconds_per_day in *.
  match goal with H : cycle_budget ?re ?dt = Ok _ |- _ => set (reserve := re) in *; set (t := dt) in *;
    rewrite (cycle_budget_ok reserve t) in H by (subst reserve t; blia); injection H as <- end.
  assert (0 <= (reserve * t * 17 + (2 ^ 32 - 1)) / 2 ^ 32) by (apply Z.div_pos; subst reserve t; nia).
  cbn [from_initial_reserve from_accumulated_fees from_unused_witness_budget total_budget].
  split_and!; try done; try (subst reserve; blia).
  intros _ Hpos. enough (1 <= (reserve * t * 17 + (2 ^ 32 - 1)) / 2 ^ 32) by lia.
  apply Z.div_le_lower_bound; [lia|]. subst reserve t. nia.
Qed.

Lemma split_budget_inv p t total requested witnesses for_workers :
  split_budget p t total = Ok (requested, witnesses, for_workers) ->
  0 <= total <= INT64_MAX -> 0 < t < 2 ^ 32 -> 0 < block_interval p < 2 ^ 8 ->
  0 <= witness_pay_per_block p -> witness_pay_per_block p * (t + block_interval p) <= INT64_MAX ->
  0 <= worker_budget_per_day p <= INT64_MAX ->
  requested = witness_pay_per_block p * ((t + block_interval p - 1) / block_interval p) /\
  witnesses = Z.min requested total /\ 0 <= witnesses /\
  for_workers = Z.min (total - witnesses) (worker_budget_per_day p * t / seconds_per_day) /\ 0 <= for_workers.
Proof.
  intros H Htot Ht Hi Hw0 Hw Hk. unfold split_budget in H. cbv zeta in H. inv_result. inv_safe.
  set (i := block_interval p) in *. set (pay := witness_pay_per_block p) in *.
  assert (E : wrap64 (t + i - 1) = t + i - 1) by (unfold wrap64; apply Z.mod_small; lia).
  rewrite E in *. set (blocks := (t + i - 1) / i) in *.
  assert (Hb : 0 <= blocks <= t + i) by (split; [apply Z.div_pos; lia|apply Z.div_le_upper_bound; nia]).
  rewrite to_int64_small in * by nia.
  match goal with H : worker_share _ _ _ = _ |- _ => rewrite worker_share_ok in H by nia; injection H as <- end.
  assert (0 <= worker_budget_per_day p * t / seconds_per_day) by (apply Z.div_pos; unfold seconds_per_day; nia).
  split_and!; try done; nia.
Qed.

(** Making the budget moves money without creating any: the fees collected and
    the unused witness budget return to the reserve, the witnesses and workers are
    budgeted out of it, and in every asset the holdings less the supply stay the
    same. *)
Theorem process_budget_conserves db db' :
  wf_db db -> process_budget db = Ok db' ->
  wf_db db' /\ deflations db' = deflations db /\ forall a, unbacked db' a = unbacked db a.
Proof.
  intros W H%process_budget_moves. destruct (H W) as (W' & D & E). split_and!; [done|done|].
  intros a. rewrite E. lia.
Qed.

(** The budget stays within the reserve.  What the witnesses and workers get is
    at most the part of the reserve that is released for the time since the last
    budget, which is positive as long as there is a reserve (it is rounded up), and
    the supply of the core asset does not exceed its maximum. *)
Theorem process_budget_bounded db core dd db' :
  wf_db db -> budget_sound db core dd -> process_budget db = Ok db' ->
  exists r, objs (budget_records (gov db')) !! next_instance (budget_records (gov db)) = Some (head_block_time db, r) /\
    0 <= rec_witness_budget r <= requested_witness_budget r /\ 0 <= leftover_worker_funds r <= worker_budget r /\
    rec_witness_budget r + worker_budget r <= total_budget r /\
    total_budget r <= from_initial_reserve r + from_accumulated_fees r + from_unused_witness_budget r /\
    (0 < last_budget_time (dgpo db) < head_block_time db ->
     0 < from_initial_reserve r + from_accumulated_fees r + from_unused_witness_budget r -> 0 < total_budget r) /\
    witness_budget (dgpo db') = rec_witness_budget r /\
    supply db' CORE_ASSET <= max_supply (options core).
Proof.
  intros W [Hc Hd Hs Hf Hwb [Hp0 Hp] Hk Ht Hi Hpay] H. unfold process_budget in H. cbv zeta in H.
  apply bind_Ok in H as (u & Hm & H). apply guard_or_Ok, Z.ltb_lt in Hm.
  apply bind_Ok in H as (r & Hr & H). apply bind_Ok in H as ([[requested wb] wk] & Hsp & H).
  apply (initialize_budget_record_inv db core dd) in Hr as (R1 & R2 & R3 & R4 & R5 & R6); [|done..|apply Hpay].
  apply split_budget_inv in Hsp as (Q1 & Q2 & Q3 & Q4 & Q5); [|try done; lia..].
  apply bind_Ok in H as ([left d] & Hw & H). apply pay_workers_inv in Hw as (B & SB & Sup); [|done..].
  apply bind_Ok in H as (d1 & H1 & H). apply bind_Ok in H as (d2 & H2 & H). apply bind_Ok in H as (d3 & H3 & H).
  apply bind_Ok in H as (delta & H4 & H). apply bind_Ok in H as (d' & Hmod & [= <-]). inv_safe.
  assert (Hnext : next_instance (budget_records (gov d')) = next_instance (budget_records (gov db)))
    by (rewrite (proj1 (modify_dynamic_gov _ _ _ _ Hmod)); by rewrite (sb_records _ _ SB)).
  eexists. split.
  { cbn. rewrite Hnext. apply lookup_insert_eq. }
  cbn [rec_witness_budget requested_witness_budget leftover_worker_funds worker_budget total_budget from_initial_reserve
    from_accumulated_fees from_unused_witness_budget dgpo witness_budget update].
  assert (Hd' : supply d' CORE_ASSET = supply d CORE_ASSET + (wb + wk - left - from_accumulated_fees r - from_unused_witness_budget r)).
  { unfold modify_dynamic, get_dynamic in Hmod. inv_result. inv_get. inv_safe. erewrite supply_of; [| |].
    3: { simpl. rewrite lookup_alter_eq. match goal with H : objs (dynamic_data d) !! _ = Some _ |- _ => rewrite H end. done. }
    2: { simpl. match goal with H : objs (assets d) !! _ = Some _ |- _ => exact H end. }
    simpl. erewrite supply_of by done. lia. }
  specialize (Sup CORE_ASSET). rewrite (supply_of _ _ _ _ Hc Hd) in Sup.
  split_and!; try lia. change (supply d' CORE_ASSET <= max_supply (options core)). rewrite Hd'. lia.
Qed.

(** The fees of a fee-backed asset are split without loss.  Once the asset is
    configured its buyback account gets 60 percent and its issuer 20, both rounded
    down, and what is left is taken out of the supply; otherwise everything is. *)
Theorem split_fba_balance_spec fba_id f n b s db db' :
  wf_db db -> objs (fba_accumulators (gov db)) !! fba_id = Some f ->
  0 < accumulated_fba_fees f <= INT64_MAX -> 0 <= n -> 0 <= b -> 0 <= s -> n + b + s = GRAPHENE_100_PERCENT ->
  split_fba_balance fba_id n b s db = Ok db' ->
  let fees := accumulated_fba_fees f in
  (exists f', objs (fba_accumulators (gov db')) !! fba_id = Some f' /\ accumulated_fba_fees f' = 0) /\
  (is_configured db f = Ok false /\ supply db' CORE_ASSET = supply db CORE_ASSET - fees /\
     (forall j c, amount (get_balance db' j c) = amount (get_balance db j c)) \/
   is_configured db f = Ok true /\ exists d a buyback,
     designated_asset f = Some d /\ objs (assets db) !! d = Some a /\ buyback_account a = Some buyback /\
     let to_buyback := fees * b / GRAPHENE_100_PERCENT in
     let to_issuer := fees * s / GRAPHENE_100_PERCENT in
     supply db' CORE_ASSET = supply db CORE_ASSET - (fees - to_buyback - to_issuer) /\
     forall j c, amount (get_balance db' j c) = amount (get_balance db j c)
       + (if decide ((j, c) = (buyback, CORE_ASSET)) then to_buyback else 0)
       + (if decide ((j, c) = (issuer a, CORE_ASSET)) then to_issuer else 0)).
Proof.
  intros W Hf Hr Hn Hb Hs Hsum H. apply split_fba_inv in H as (f' & Hf' & Hcase). rewrite Hf in Hf'. injection Hf' as <-.
  cbv zeta. destruct Hcase as [[H0 _]|(network & x & y & i & j & [Ht Hg _ Hsup Hbal] & Hcase)]; [lia|]. split.
  { rewrite Hg. simpl. rewrite lookup_alter_eq, Hf. simpl. by eexists. }
  specialize (Hsup (wf_db_assets _ W) CORE_ASSET). unfold core_in in Hsup. rewrite N.eqb_refl in Hsup.
  destruct Hcase as [(Hc & -> & -> & ->)|(Hc & Hx & Hy & d & a & Hd & Ha & Hbb & Hi)].
  - left. split_and!; [done|done|]. intros k c. rewrite Hbal. repeat case_decide; lia.
  - right. rewrite percent_of_ok in Hx, Hy by (unfold GRAPHENE_100_PERCENT in *; lia). injection Hx as <-. injection Hy as <-.
    split; [done|]. exists d, a, i. split_and!; [done..| |].
    + rewrite Hsup. lia.
    + intros k c. by rewrite Hbal, Hi.
Qed.
End Properties.

(** ** Witnesses *)

(** Two workers with votes, and gold is a fee-backed asset whose issuer is controlled
    by its holders. *)
Definition ex_workers : table worker_object :=
  table_of [(0%N, Worker_object 10 1400000000 1600000000 500 (burn_worker 0) EmptyString EmptyString 0 1 900 0);
            (1%N, Worker_object 11 1400000000 1600000000 700 (refund_worker 20) EmptyString EmptyString 2 3 950 0)] 2.

Definition ex_fba : fba_accumulator_object := Fba_accumulator_object 99 (Some 1%N).

Definition ex_treasury : database :=
  ex_state <| gov ::= fun g => g <| workers := ex_workers |>
      <| fba_accumulators := table_of [(0%N, ex_fba); (1%N, Fba_accumulator_object 0 None); (2%N, Fba_accumulator_object 40 None)] 3 |> |>
    <| assets ::= fun t => tbl_modify t 1 (fun a => a <| buyback_account := Some 12%N |>
        <| options ::= fun o => o <| issuer_permissions := 1 |> <| flags := 1 |> |>) |>
    <| accounts ::= fun t => tbl_modify t 10 (fun a => a <| owner_special_authority := top_holders_special_authority 1 5 |>
        <| active_special_authority := top_holders_special_authority 1 5 |> <| top_n_control_flags := 3 |>) |>.

Lemma ex_treasury_wf : wf_db (FC := fc_ref) ex_treasury.
Proof. apply db_check_ok. by vm_compute. Qed.

Lemma process_budget_conserves_witness :
  exists db', process_budget (FC := fc_ref) ex_treasury = Ok db' /\
    unbacked db' CORE_ASSET = unbacked ex_treasury CORE_ASSET /\
    get_balance db' GRAPHENE_NULL_ACCOUNT CORE_ASSET <> get_balance ex_treasury GRAPHENE_NULL_ACCOUNT CORE_ASSET.
Proof.
  destruct (result_ok_true (process_budget (FC := fc_ref) ex_treasury)) as [db' H]; [by vm_compute|].
  exists db'. split; [exact H|]. split.
  - apply (@process_budget_conserves fc_ref fc_ref_laws ex_treasury db' ex_treasury_wf H).
  - assert (E : match process_budget (FC := fc_ref) ex_treasury with
      Ok d => amount (get_balance d GRAPHENE_NULL_ACCOUNT CORE_ASSET) | Err _ => 0 end = 57) by by vm_compute.
    rewrite H in E. intros Hb. rewrite Hb in E. by vm_compute in E.
Defined.

Lemma process_budget_bounded_witness :
  exists db', process_budget (FC := fc_ref) ex_treasury = Ok db' /\ supply db' CORE_ASSET <= GRAPHENE_MAX_SHARE_SUPPLY.
Proof.
  destruct (result_ok_true (process_budget (FC := fc_ref) ex_treasury)) as [db' H]; [by vm_compute|].
  exists db'. split; [exact H|].
  destruct (@process_budget_bounded fc_ref fc_ref_laws ex_treasury (Asset_object "CORE" 5 3 (ex_options 0) 0 None None)
    (Asset_dynamic_data_object 13570 0 0) db' ex_treasury_wf) as (r & _ & _ & _ & _ & _ & _ & _ & Hs); [|exact H|exact Hs].
  split; [reflexivity|reflexivity|ground|ground|ground|ground|ground|ground|ground|]. split; [ground|]. intros i w Hi.
  apply elem_of_list_to_map_2 in Hi. apply elem_of_cons in Hi as [[= -> ->]|[= -> ->]%list_elem_of_singleton]; ground.
Defined.

Lemma split_fba_balance_spec_witness :
  exists db', split_fba_balance (FC := fc_ref) 0 2000 6000 2000 ex_treasury = Ok db' /\
    supply db' CORE_ASSET = supply ex_treasury CORE_ASSET - 21.
Proof.
  destruct (result_ok_true (split_fba_balance (FC := fc_ref) 0 2000 6000 2000 ex_treasury)) as [db' H]; [by vm_compute|].
  exists db'. split; [exact H|].
  destruct (@split_fba_balance_spec fc_ref fc_ref_laws 0 ex_fba 2000 6000 2000 ex_treasury db' ex_treasury_wf eq_refl
    ltac:(ground) ltac:(ground) ltac:(ground) ltac:(ground) eq_refl H) as (_ & [[Hc _]|(_ & d & a & b & _ & _ & _ & Hs & _)]).
  - by vm_compute in Hc.
  - rewrite Hs. reflexivity.
Defined.
