(* ===== verification/Maintenance.v ===== *)
(** * Maintenance

    Models the rest of [libraries/chain/db_maint.cpp]: the vote on the issuance rate
    ([month_add], [update_issuance_rate_by_vote], [update_issuance_rate]), the orders
    of buyback accounts ([create_buyback_orders]), [deprecate_annual_members], and
    [perform_chain_maintenance], which composes these with the elections
    ([Election.v]) and the budget ([Budget.v]). *)

From S2P Require Import Prelude FcLib Block Asset Vesting Objects Database Ledger Market Trading Deflation Evaluator.
From S2P Require Import MarketOps Feeds AssetOps AssetFacts Accounts Governance Capital Operations Frames Clearing Election Budget.

(** In seconds since 1970: December 14, 2017, and March 1, 2018. *)
Definition CC_VOTE_START_TIME : Z := 1513209600.
Definition CC_SECOND_VOTE_START_TIME : Z := 1519862400.

(** ** The issuance rate *)

Section IssuanceRate.
Context `{FC : FcLib, BO : BoostLib}.
Implicit Types (db : database).

(** [month_add]: the day some months later, at midnight. *)
Definition month_add (t month : Z) : Z := wrap32 (date_add_months (t / seconds_per_day) month * seconds_per_day).

Record rate_tally := Rate_tally { keep_same : Z; increase : Z; decrease : Z }.

(** The vote of an account, weighed by its core; the option is one of three. *)
Definition count_rate_vote db (calc_time_point : Z) (s : rate_tally) (v : N * (Z * Z)) : result rate_tally :=
  let '(account, (vote_option, timestamp)) := v in
  if calc_time_point <=? timestamp then Ok s
  else
    let balance := amount (get_balance db account CORE_ASSET) in
    if vote_option =? 0 then (x ← add_int64 (keep_same s) balance; Ok (Rate_tally x (increase s) (decrease s)))
    else if vote_option =? 1 then (x ← add_int64 (increase s) balance; Ok (Rate_tally (keep_same s) x (decrease s)))
    else if vote_option =? 2 then (x ← add_int64 (decrease s) balance; Ok (Rate_tally (keep_same s) (increase s) x))
    else Ok s.

Definition count_rate_votes db (calc_time_point : Z) : result rate_tally :=
  foldM (count_rate_vote db calc_time_point) (Rate_tally 0 0 0) (map_to_list (cc_rate_votes db)).

Definition neutral_rate : Z := 52142857.
Definition maximum_rate : Z := 104285714.

(** The rate the votes decide on: the neutral rate, moved by the balance of the
    votes. *)
Definition voted_rate (s : rate_tally) : result Z :=
  total ← add_int64 (increase s) (decrease s);
  total ← add_int64 total (keep_same s);
  if total <=? 0 then Ok neutral_rate
  else
    difference ← sub_int64 (increase s) (decrease s);
    let delta := i128_div (i128_mul difference neutral_rate) total in
    let rate := wrap32 (neutral_rate + delta) in
    Ok (if rate <=? 0 then 0 else if maximum_rate <? rate then maximum_rate else rate).

(** The loop removes the objects of the index it walks. *)
Definition clear_rate_votes db : result database :=
  if bool_decide (cc_rate_votes db = ∅) then Ok db
  else Err (undefined_behaviour "++it after remove( *it )").

Definition update_issuance_rate_by_vote db : result database :=
  let calc_time_point := default CC_VOTE_START_TIME (next_rate_vote_time (gov db)) in
  let db := db <| gov ::= fun g => g <| next_rate_vote_time := Some calc_time_point |> |> in
  if calc_time_point <=? head_block_time db then
    s ← count_rate_votes db calc_time_point;
    rate ← voted_rate s;
    let next := if calc_time_point =? CC_VOTE_START_TIME then CC_SECOND_VOTE_START_TIME
                else month_add calc_time_point 3 in
    clear_rate_votes (db <| parameters ::= fun p => p <| issuance_rate := rate |> |>
                         <| gov ::= fun g => g <| next_rate_vote_time := Some next |> |>)
  else Ok db.

(** From March 1, June 1, September 1 and December 1, 2017. *)
Definition rate_table : list (Z * Z) :=
  [(1488326400, 104285714); (1496275200, 99071428); (1504224000, 93857142); (1512086400, 88642857)].

Fixpoint table_rate (now rate : Z) (l : list (Z * Z)) : Z :=
  match l with
  | [] => rate
  | (since, r) :: l => if since <=? now then table_rate now r l else rate
  end.

Definition update_issuance_rate db : result database :=
  db ← update_issuance_rate_by_vote db;
  if head_block_time db <? CC_VOTE_START_TIME then
    Ok (db <| parameters ::= fun p => p <| issuance_rate := table_rate (head_block_time db) maximum_rate rate_table |> |>)
  else Ok db.
End IssuanceRate.

(** ** Operations of the chain itself *)

Section Attempts.
Context `{FC : FcLib}.
Implicit Types (db : database).

(** No fee and no check of the fee schedule. *)
Definition free_of_charge : evaluation_context := Evaluation_context false true 0 0.

(** [try { apply_operation( .. ); } catch( .. ) {}]: an operation that fails to
    evaluate has changed nothing.  There is no undo session around one that fails
    when it is applied: the state would keep the first part of the change, which is
    not modelled. *)
Definition attempt {Op} `{E : Evaluator Op} db (op : Op) : result (option database) :=
  match evaluate free_of_charge db op with
  | Err e => if is_fc_exception e then Ok None else Err e
  | Ok st =>
      match apply free_of_charge db st op with
      | Err e => Err (if is_fc_exception e then half_applied else e)
      | Ok db => Ok (Some db)
      end
  end.

(** *** Buybacks *)

(** Sell all of a holding for anything of the asset to buy, and take back what is
    not sold at once.  (A balance is an [int64_t].) *)
Definition sell_holding (account asset_to_buy asset_to_sell : N) (balance : Z) db : result database :=
  let order_id := next_instance (limit_orders db) in
  sold ← attempt db (Limit_order_create_operation (Asset 0 CORE_ASSET) account (Asset (to_int64 balance) asset_to_sell)
                       (Asset 1 asset_to_buy) time_point_sec_maximum false []);
  match sold with
  | None => Ok db
  | Some db =>
      match tbl_find (limit_orders db) order_id with
      | None => Ok db
      | Some _ =>
          cancelled ← attempt db (Limit_order_cancel_operation (Asset 0 CORE_ASSET) order_id account);
          Ok (default db cancelled)
      end
  end.

(** One round of the loop over the holdings of the buyback account. *)
Definition sell_if_allowed (account asset_to_buy : N) (allowed : gset N) db (asset_to_sell : N) : result database :=
  match balances db !! (account, asset_to_sell) with
  | None => Ok db
  | Some amount_to_sell =>
      if (asset_to_sell =? asset_to_buy)%N then Ok db
      else if amount_to_sell =? 0 then Ok db
      else if bool_decide (asset_to_sell ∈ allowed) then sell_holding account asset_to_buy asset_to_sell amount_to_sell db
      else Ok db
  end.

(** The ids of all assets. *)
Definition all_assets db : list N := map N.of_nat (seq 0 (N.to_nat (next_instance (assets db)))).

Definition create_buyback_order db (bbo : N) : result database :=
  asset_to_buy ← tbl_get (buybacks (gov db)) bbo;
  a ← tbl_get (assets db) asset_to_buy;
  buyback ← of_option (buyback_account a) (c_assert "asset_to_buy.buyback_account.valid()");
  acct ← tbl_get (accounts db) buyback;
  match allowed_assets acct with
  | None => Ok db
  | Some allowed => foldM (sell_if_allowed buyback asset_to_buy allowed) db (all_assets db)
  end.

Definition create_buyback_orders db : result database :=
  foldM create_buyback_order db (tbl_ids (buybacks (gov db))).

(** *** Annual members *)

Definition deprecate_annual_member db (i : N) : result database :=
  acct ← tbl_get (accounts db) i;
  if is_annual_member acct (head_block_time db) then
    r ← attempt db (Account_upgrade_operation (Asset 0 CORE_ASSET) i true);
    Ok (default db r)
  else Ok db.

Definition deprecate_annual_members db : result database :=
  foldM deprecate_annual_member db (tbl_ids (accounts db)).
End Attempts.

(** ** The maintenance of the chain *)

Section Maintenance.
Context `{FC : FcLib, BO : BoostLib}.
Implicit Types (db : database) (t : tally).

(** The fee of a registration without the scaling of the last interval. *)
Definition unscale_fee (registered : Z) (p : chain_parameters) : result chain_parameters :=
  _ ← guard_or (undefined_behaviour "division by zero") (negb (accounts_per_fee_scale p =? 0));
  let shift := wrap32 (account_fee_scale_bitshifts p * (registered / accounts_per_fee_scale p)) in
  _ ← guard_or (undefined_behaviour "shift") (shift <? 64);
  Ok (p <| account_create_basic_fee ::= fun f => Z.shiftr f shift |>).

(** ... and the parameters the committee decided on. *)
Definition update_parameters db : result database :=
  p ← unscale_fee (accounts_registered_this_interval (dgpo db)) (parameters db);
  Ok (db <| parameters := default p (pending_parameters (gov db)) |>
         <| gov ::= fun g => g <| pending_parameters := None |> |>).

(** When the next maintenance is due, for a block of a number and time. *)
Definition following_maintenance (block_num timestamp now maintenance_interval next : Z) : result Z :=
  if next <=? timestamp then
    _ ← guard_or (undefined_behaviour "division by zero") (negb (maintenance_interval =? 0));
    if block_num =? 1 then Ok (wrap32 ((timestamp / maintenance_interval + 1) * maintenance_interval))
    else
      let y := (now - next) / maintenance_interval in
      Ok (wrap32 (next + wrap32 ((y + 1) * maintenance_interval)))
  else Ok next.

(** [force_settled_volume := 0] in all bitassets. *)
Definition reset_settled_volumes db : database :=
  db <| bitassets ::= fun tb => tb <| objs ::= fmap (fun b => b <| force_settled_volume := 0 |>) |> |>.

(** The buffers after [clear_canary]. *)
Definition clear_tally t : tally := Tally [] [] [] (total_voting_stake t).

(** The elections. *)
Definition elect t db : result database :=
  db ← update_top_n_authorities db;
  db ← update_active_witnesses t db;
  db ← update_active_committee_members t db;
  update_worker_votes t db.

(** The end of [perform_chain_maintenance], from the new parameters on. *)
Definition schedule_maintenance (block_num timestamp : Z) db : result database :=
  next ← following_maintenance block_num timestamp (head_block_time db) (maintenance_interval (parameters db))
           (next_maintenance_time (dgpo db));
  db ← (if (next_maintenance_time (dgpo db) <? HARDFORK_613_TIME) && (HARDFORK_613_TIME <=? next)
        then deprecate_annual_members db else Ok db);
  Ok (db <| dgpo ::= fun d => d <| next_maintenance_time := next |> <| accounts_registered_this_interval := 0 |> |>).

(** [perform_chain_maintenance] for a block of the given number and time. *)
Definition perform_chain_maintenance (block_num timestamp : Z) t db : result (tally * database) :=
  db ← distribute_fba_balances db;
  db ← create_buyback_orders db;
  '(t, db) ← perform_account_maintenance db (start_tally db t);
  db ← elect t db;
  db ← update_issuance_rate db;
  db ← update_parameters db;
  db ← schedule_maintenance block_num timestamp db;
  db ← process_budget (reset_settled_volumes db);
  Ok (clear_tally t, db).
End Maintenance.

(** ** Facts about operations of the chain itself *)

Section AttemptFacts.
Context `{FC : FcLib, !FcLaws FC, NE : NthElement}.
Implicit Types (db : database).

Lemma attempt_Some {Op} `{E : Evaluator Op} db (op : Op) db' :
  attempt db op = Ok (Some db') -> start_evaluate free_of_charge db op = Ok db'.
Proof.
  unfold attempt, start_evaluate. destruct (evaluate _ _ _) as [st|e].
  - cbn [mbind result_bind]. destruct (apply _ _ _ _); congruence.
  - destruct (is_fc_exception e); congruence.
Qed.

Lemma attempt_None {Op} `{E : Evaluator Op} db (op : Op) :
  attempt db op = Ok None -> exists e, evaluate free_of_charge db op = Err e.
Proof.
  unfold attempt. destruct (evaluate _ _ _); [|eauto]. destruct (apply _ _ _ _); congruence.
Qed.

Lemma attempt_terminates {Op} `{E : Evaluator Op} db (op : Op) :
  terminates (evaluate free_of_charge db op) -> (forall st, terminates (apply free_of_charge db st op)) ->
  terminates (attempt db op).
Proof.
  unfold attempt, terminates. intros He Ha. destruct (evaluate _ _ _) as [st|e].
  - specialize (Ha st). destruct (apply _ _ _ _) as [|e]; [done|]. by destruct e.
  - by destruct e.
Qed.

(** *** Selling a holding *)

Lemma create_keeps db op : keeps db (start_evaluate (Op := limit_order_create_operation) free_of_charge db op).
Proof. exact (apply_operation_keeps free_of_charge db (limit_order_create op) eq_refl). Qed.

Lemma cancel_keeps db op : keeps db (start_evaluate (Op := limit_order_cancel_operation) free_of_charge db op).
Proof. exact (apply_operation_keeps free_of_charge db (limit_order_cancel op) eq_refl). Qed.

Lemma create_drains db (op : limit_order_create_operation) db' :
  in_int64 (amount (amount_to_sell op)) -> start_evaluate free_of_charge db op = Ok db' -> drains db db' (fun _ => 0).
Proof.
  intros Hi. apply start_evaluate_drains_by; [done|]. intros st st1 db1 st2 db2 db3 _ Hc Hd He _ _ _ _ Hp Ha.
  exact (limit_order_create_applies db st st1 db1 op free_of_charge st2 db2 db3 Hi Hc Hd He eq_refl Hp Ha).
Qed.

Lemma cancel_drains db i account db' :
  start_evaluate free_of_charge db (Limit_order_cancel_operation (Asset 0 CORE_ASSET) i account) = Ok db' ->
  drains db db' (fun _ => 0).
Proof. by apply start_evaluate_drains. Qed.

Lemma to_int64_range z : in_int64 (to_int64 z).
Proof.
  unfold to_int64. pose proof (Z.mod_pos_bound z (2 ^ 64)). destruct (Z.ltb_spec (z mod 2 ^ 64) (2 ^ 63)); blia.
Qed.

(** A sale moves value around and leaves the rest of the chain alone. *)
Lemma sell_holding_inv account buy sell x db db' :
  sell_holding account buy sell x db = Ok db' -> drains db db' (fun _ => 0) /\ same_chain db db'.
Proof.
  unfold sell_holding. cbv zeta. intros H. apply bind_Ok in H as ([d|] & H1 & H).
  2: { injection H as <-. split; [apply drains_refl|done]. }
  apply attempt_Some in H1. pose proof (create_keeps _ _ _ H1) as K1. apply create_drains in H1 as D1; [|apply to_int64_range].
  destruct (tbl_find _ _); [|by injection H as <-]. apply bind_Ok in H as ([d'|] & H2 & [= <-]); [|done].
  apply attempt_Some in H2. pose proof (cancel_keeps _ _ _ H2) as K2. apply cancel_drains in H2 as D2. cbn [default].
  split; [|by etrans]. eapply drains_eq; [by eapply drains_step|]. done.
Qed.

Lemma sell_if_allowed_inv account buy allowed db sell db' :
  sell_if_allowed account buy allowed db sell = Ok db' -> drains db db' (fun _ => 0) /\ same_chain db db'.
Proof.
  unfold sell_if_allowed. intros H.
  assert (forall d, Ok db = Ok d -> drains db d (fun _ => 0) /\ same_chain db d) as Hr.
  { intros d [= <-]. split; [apply drains_refl|done]. }
  destruct (balances db !! _) as [x|]; [|auto]. destruct (_ =? _)%N; [auto|]. destruct (_ =? _); [auto|].
  destruct (bool_decide _); [|auto]. by eapply sell_holding_inv.
Qed.

Lemma create_buyback_orders_inv db db' :
  create_buyback_orders db = Ok db' -> drains db db' (fun _ => 0) /\ same_chain db db'.
Proof.
  assert (forall d1 d2 d3, drains d1 d2 (fun _ => 0) /\ same_chain d1 d2 -> drains d2 d3 (fun _ => 0) /\ same_chain d2 d3 ->
    drains d1 d3 (fun _ => 0) /\ same_chain d1 d3) as Ht.
  { intros d1 d2 d3 [D1 S1] [D2 S2]. split; [|by etrans]. eapply drains_eq; [by eapply drains_step|done]. }
  assert (forall d, drains d d (fun _ => 0) /\ same_chain d d) as Hr by (split; [apply drains_refl|done]).
  unfold create_buyback_orders. intros H.
  refine (foldM_inv _ (fun d => drains db d (fun _ => 0) /\ same_chain db d) _ _ _ _ (Hr db) H).
  intros d i d' M _ Hi. apply (Ht _ d _ M). unfold create_buyback_order in Hi.
  apply bind_Ok in Hi as (buy & _ & Hi). apply bind_Ok in Hi as (a & _ & Hi). apply bind_Ok in Hi as (b & _ & Hi).
  apply bind_Ok in Hi as (acct & _ & Hi). destruct (allowed_assets acct) as [allowed|]; [|injection Hi as <-; apply Hr].
  refine (foldM_inv _ (fun d' => drains d d' (fun _ => 0) /\ same_chain d d') _ _ _ _ (Hr d) Hi).
  intros d1 s d2 M1 _ H2. eapply Ht; [exact M1|by eapply sell_if_allowed_inv].
Qed.
(** *** No order of a buyback stays on the book *)

(** An order with id [n] was placed for [account], and then others traded. *)
Record placed (account n : N) (db db' : database) : Prop := {
  placed_dgpo : dgpo db' = dgpo db;
  placed_assets : assets db' = assets db;
  placed_feeds i : current_feed <$> objs (bitassets db') !! i = current_feed <$> objs (bitassets db) !! i;
  placed_dynamic i : objs (dynamic_data db') !! i = None <-> objs (dynamic_data db) !! i = None;
  placed_limits i : i <> n -> objs (limit_orders db) !! i = None -> objs (limit_orders db') !! i = None;
  placed_order o : objs (limit_orders db') !! n = Some o -> seller o = account;
}.

Lemma placed_after account n db db1 db2 : placed account n db db1 -> trades db1 db2 -> placed account n db db2.
Proof.
  intros [] []. split; try congruence; auto.
  - intros i. by rewrite trades_dynamic.
  - intros o Ho. specialize (trades_sellers n). rewrite Ho in trades_sellers. simpl in trades_sellers.
    destruct (objs (limit_orders db1) !! n) as [o1|]; [|done]. destruct trades_sellers as [-> _]. auto.
Qed.

Lemma placed_before account n db db1 db2 :
  trades db db1 -> next_instance (limit_orders db1) = n -> placed account n db1 db2 -> placed account n db db2.
Proof. intros [] _ []. split; try congruence; auto. intros i. by rewrite placed_dynamic0. Qed.

#[local] Hint Resolve freeze_cut_trades : frames.
Lemma limit_order_cuts_trades db op : trade2 db (limit_order_cuts db op).
Proof. unfold limit_order_cuts. trade. Qed.

Lemma limit_order_create_placed db st op db' :
  limit_order_create_do_apply db st op = Ok db' -> placed (lo_seller op) (next_instance (limit_orders db)) db db'.
Proof.
  unfold limit_order_create_do_apply. cbv zeta. intros H. apply bind_Ok in H as ([x d] & H1 & H).
  assert (E : limit_orders d = limit_orders db) by (by destruct (limit_order_cuts_drains _ _ _ _ H1) as ([[] _] & _)).
  apply limit_order_cuts_trades in H1. cbn [snd] in H1.
  apply bind_Ok in H as (s & _ & H). apply bind_Ok in H as (t & _ & H). apply bind_Ok in H as (n & _ & H).
  apply bind_Ok in H as (out & _ & H). apply bind_Ok in H as (d2 & H2 & H).
  apply adjust_balance_inv in H2 as (b & -> & _). apply bind_Ok in H as (p & _ & H).
  apply bind_Ok in H as ([filled d3] & H3 & H). apply bind_Ok in H as (_ & _ & [= <-]).
  apply apply_order_trades in H3. cbn [snd] in H3. eapply placed_after; [|exact H3].
  eapply placed_before; [exact H1|by rewrite E|]. rewrite <-E. split; try done.
  - intros i Hi Hn. cbn. by rewrite lookup_insert_ne.
  - intros o. cbn. rewrite lookup_insert_eq. by intros [= <-].
Qed.

Lemma limit_order_create_run db op db' :
  start_evaluate free_of_charge db op = Ok db' ->
  (exists st, prepare_fee db (lo_seller op) (lo_fee op) = Ok st) /\
  placed (lo_seller op) (next_instance (limit_orders db)) db db'.
Proof.
  intros H. apply bind_Ok in H as (st & He & H). apply bind_Ok in He as (st0 & Hp & _). split; [by exists st0|].
  apply bind_Ok in H as (d1 & H1 & H). apply bind_Ok in H as ([st2 d2] & H2 & H).
  apply bind_Ok in H as (d3 & H3 & H). apply bind_Ok in H as (n & _ & H).
  change (limit_order_create_pay_fee free_of_charge d1 (lo_seller op) st = Ok (st2, d2)) in H2.
  change (limit_order_create_do_apply d2 st2 op = Ok d3) in H3.
  assert (T : trades db d2 /\ next_instance (limit_orders d2) = next_instance (limit_orders db)).
  { assert (limit_orders d2 = limit_orders d1) as ->.
    { unfold limit_order_create_pay_fee, generic_pay_fee in H2. cbn [skip_fee free_of_charge] in H2.
      destruct (_ <=? _); [by inv_result|by injection H2 as _ <-]. }
    assert (limit_orders d1 = limit_orders db) as ->.
    { unfold convert_fee in H1. cbn [skip_fee free_of_charge] in H1. destruct (_ =? _)%N; by inv_result. }
    split; [|done]. apply convert_fee_trades in H1. etrans; [exact H1|].
    unfold limit_order_create_pay_fee in H2. destruct (_ <=? _); [by apply generic_pay_fee_trades in H2|by injection H2 as _ <-]. }
  destruct T as [T E]. apply limit_order_create_placed in H3. apply adjust_balance_trades in H.
  eapply placed_after; [|exact H]. rewrite <-E. by eapply placed_before.
Qed.

(** A fee of nothing can be paid as long as the account and the core asset are there. *)
Lemma prepare_fee_again db db' a st :
  prepare_fee db a (Asset 0 CORE_ASSET) = Ok st -> same_chain db db' -> assets db' = assets db ->
  (forall i, objs (dynamic_data db') !! i = None <-> objs (dynamic_data db) !! i = None) ->
  prepare_fee db' a (Asset 0 CORE_ASSET) = Ok st.
Proof.
  intros H [D _ _ _ _ A _ S] Ea Ed. unfold prepare_fee, get_statistics, get_dynamic in *. rewrite A, Ea. cbn [asset_id] in *.
  apply bind_Ok in H as (u & _ & H). apply bind_Ok in H as (p & Hp & H). rewrite Hp. cbn [mbind result_bind].
  apply bind_Ok in H as (s & Hs & H). apply bind_Ok in H as (f & Hf & H). rewrite Hf. cbn [mbind result_bind].
  apply bind_Ok in H as (dd & Hd & H). apply of_option_Ok in Hs. inv_get.
  destruct (statistics db' !! a) eqn:E1; [|exfalso; apply S in E1; congruence].
  destruct (objs (dynamic_data db') !! dynamic_asset_data_id f) eqn:E2; [|exfalso; apply Ed in E2; congruence].
  unfold tbl_get. rewrite E2. cbn [of_option mbind result_bind guard_or].
  assert (is_authorized_asset db' p CORE_ASSET f = is_authorized_asset db p CORE_ASSET f) as ->.
  { unfold is_authorized_asset, detail_is_authorized_asset, head_block_time. by rewrite D. }
  unfold head_block_time in *. by rewrite D.
Qed.

(** The order is sold or taken back. *)
Lemma sell_holding_gone account buy sell x db db' :
  objs (limit_orders db) !! next_instance (limit_orders db) = None ->
  sell_holding account buy sell x db = Ok db' ->
  forall i, objs (limit_orders db) !! i = None -> objs (limit_orders db') !! i = None.
Proof.
  unfold sell_holding. cbv zeta. intros Hn H. apply bind_Ok in H as ([d|] & H1 & H); [|by injection H as <-].
  apply attempt_Some in H1. pose proof (create_keeps _ _ _ H1) as K.
  apply limit_order_create_run in H1 as ([st Hp] & P). cbn [lo_seller lo_fee] in *. unfold tbl_find in H.
  destruct (objs (limit_orders d) !! _) as [o|] eqn:Eo.
  2: { injection H as <-. intros i Hi. destruct (decide (i = next_instance (limit_orders db))) as [->|]; [done|by apply P]. }
  apply bind_Ok in H as ([d'|] & H2 & H); injection H as <-.
  - apply attempt_Some in H2. apply bind_Ok in H2 as (st2 & _ & H2). apply bind_Ok in H2 as (d2 & C2 & H2).
    apply bind_Ok in H2 as ([st3 d3] & C3 & H2). apply bind_Ok in H2 as (d4 & C4 & H2). apply bind_Ok in H2 as (n & _ & C5).
    match type of C4 with do_apply _ _ ?op = _ => change (limit_order_cancel_do_apply d3 op = Ok d4) in C4 end.
    pose proof (limit_order_cancel_gone _ _ _ C4) as G. cbn [lx_order] in G. apply cancel_order_trades in C4.
    apply convert_fee_trades in C2. apply generic_pay_fee_trades in C3. apply adjust_balance_trades in C5. cbn [snd] in C3.
    intros i Hi. apply C5. destruct (decide (i = next_instance (limit_orders db))) as [->|]; [done|].
    by apply C4, C3, C2, P.
  - exfalso. apply attempt_None in H2 as [e He]. unfold evaluate in He. cbn [fee_payer op_fee limit_order_cancel_evaluator] in He.
    cbn [lx_fee lx_fee_paying_account] in He.
    rewrite (prepare_fee_again db d account st Hp K) in He by apply P. cbn [mbind result_bind skip_fee_schedule_check free_of_charge] in He.
    match type of He with do_evaluate _ _ ?op = _ => change (limit_order_cancel_do_evaluate d st op = Err e) in He end.
    unfold limit_order_cancel_do_evaluate, tbl_get in He. cbn [lx_order lx_fee_paying_account] in He.
    rewrite Eo in He. cbn [of_option mbind result_bind] in He. rewrite (placed_order _ _ _ _ P o Eo) in He.
    by rewrite N.eqb_refl in He.
Qed.
(** *** The loops of a buyback end *)

#[local] Hint Resolve freeze_cut_terminates prepare_fee_terminates convert_fee_terminates generic_pay_fee_terminates
  adjust_balance_terminates asset_add_terminates asset_sub_terminates asset_neg_terminates asset_geb_terminates
  asset_div_terminates safe_add_terminates deflation_amount_terminates : fuel.

Lemma account_cut_terminates db i : terminates (account_cut db i).
Proof. unfold account_cut. terminate. Qed.
#[local] Hint Resolve account_cut_terminates : fuel.

Lemma sound_feeds_ext db db' :
  (forall i, current_feed <$> objs (bitassets db') !! i = current_feed <$> objs (bitassets db) !! i) ->
  sound_feeds db -> sound_feeds db'.
Proof.
  intros E H i b' Hb. specialize (E i). rewrite Hb in E. simpl in E.
  destruct (objs (bitassets db) !! i) as [b|] eqn:Eb; [|done]. injection E as ->. by eapply H.
Qed.

Lemma limit_order_create_terminates db st op : sound_feeds db -> terminates (limit_order_create_do_apply db st op).
Proof.
  intros Hs. unfold limit_order_create_do_apply. cbv zeta. apply terminates_bind.
  { unfold limit_order_cuts. terminate. }
  intros [x d] Hd%limit_order_cuts_trades. cbn [snd] in Hd. apply (sound_feeds_trades _ _ Hd) in Hs. unfold get_statistics. terminate.
  apply apply_order_terminates. match goal with H : adjust_balance _ _ _ = _ |- _ => apply adjust_balance_trades in H as T end.
  eapply (sound_feeds_ext d); [|done]. intros i. cbn. by rewrite (trades_feeds _ _ T).
Qed.

Lemma create_attempt_terminates db (op : limit_order_create_operation) : sound_feeds db -> terminates (attempt db op).
Proof.
  intros Hs. apply attempt_terminates; [|intros st].
  - unfold evaluate. cbn -[prepare_fee]. unfold limit_order_create_do_evaluate, tbl_get. terminate.
  - apply terminates_bind; [terminate|]. intros d1 H1%convert_fee_trades. apply terminates_bind.
    { change (terminates (limit_order_create_pay_fee free_of_charge d1 (lo_seller op) st)).
      unfold limit_order_create_pay_fee. terminate. }
    intros [st2 d2] H2. apply terminates_bind; [|intros; terminate].
    change (terminates (limit_order_create_do_apply d2 st2 op)). apply limit_order_create_terminates.
    change (limit_order_create_pay_fee free_of_charge d1 (lo_seller op) st = Ok (st2, d2)) in H2.
    unfold limit_order_create_pay_fee in H2. destruct (_ <=? _); [apply generic_pay_fee_trades in H2|injection H2 as _ <-];
      cbn [snd] in *; eauto using sound_feeds_trades.
Qed.

Lemma cancel_attempt_terminates db (op : limit_order_cancel_operation) : sound_feeds db -> terminates (attempt db op).
Proof.
  intros Hs. apply attempt_terminates; [|intros st].
  - unfold evaluate. cbn -[prepare_fee]. unfold limit_order_cancel_do_evaluate, tbl_get. terminate.
  - apply terminates_bind; [terminate|]. intros d1 H1%convert_fee_trades. apply terminates_bind.
    { change (terminates (generic_pay_fee free_of_charge d1 (lx_fee_paying_account op) st)). terminate. }
    intros [st2 d2] H2. apply terminates_bind; [|intros; terminate].
    change (terminates (limit_order_cancel_do_apply d2 op)). apply cancel_order_terminates.
    change (generic_pay_fee free_of_charge d1 (lx_fee_paying_account op) st = Ok (st2, d2)) in H2.
    apply generic_pay_fee_trades in H2. cbn [snd] in *. eauto using sound_feeds_trades.
Qed.

Lemma cancel_attempt_feeds db (op : limit_order_cancel_operation) db' :
  attempt db op = Ok (Some db') -> trades db db'.
Proof.
  intros H2%attempt_Some. apply bind_Ok in H2 as (st2 & _ & H2). apply bind_Ok in H2 as (d2 & C2%convert_fee_trades & H2).
  apply bind_Ok in H2 as ([st3 d3] & C3 & H2). apply bind_Ok in H2 as (d4 & C4 & H2).
  apply bind_Ok in H2 as (n & _ & C5%adjust_balance_trades).
  change (generic_pay_fee free_of_charge d2 (lx_fee_paying_account op) st2 = Ok (st3, d3)) in C3.
  change (limit_order_cancel_do_apply d3 op = Ok d4) in C4.
  apply generic_pay_fee_trades in C3. apply cancel_order_trades in C4. cbn [snd] in C3. etrans; [exact C2|]. etrans; [exact C3|]. by etrans.
Qed.

Lemma sell_if_allowed_feeds account buy allowed db sell db' :
  sell_if_allowed account buy allowed db sell = Ok db' -> sound_feeds db -> sound_feeds db'.
Proof.
  unfold sell_if_allowed. destruct (balances db !! _) as [x|]; [|by intros [= <-]]. destruct (_ =? _)%N; [by intros [= <-]|].
  destruct (_ =? _); [by intros [= <-]|]. destruct (bool_decide _); [|by intros [= <-]]. unfold sell_holding. cbv zeta.
  intros H Hs. apply bind_Ok in H as ([d|] & H1 & H); [|by injection H as <-].
  apply attempt_Some, limit_order_create_run in H1 as [_ P].
  assert (sound_feeds d) by (eapply sound_feeds_ext; [apply P|done]).
  destruct (tbl_find _ _); [|by injection H as <-]. apply bind_Ok in H as ([d'|] & H2 & [= <-]); [|done].
  apply cancel_attempt_feeds in H2. by eapply sound_feeds_trades.
Qed.

Lemma sell_if_allowed_terminates account buy allowed db sell :
  sound_feeds db -> terminates (sell_if_allowed account buy allowed db sell).
Proof.
  intros Hs. unfold sell_if_allowed, sell_holding. cbv zeta. destruct (balances db !! _) as [x|]; [|done].
  destruct (_ =? _)%N; [done|]. destruct (_ =? _); [done|]. destruct (bool_decide _); [|done].
  apply terminates_bind; [by apply create_attempt_terminates|]. intros [d|] H1; [|done].
  apply attempt_Some, limit_order_create_run in H1 as [_ P].
  destruct (tbl_find _ _); [|done]. apply terminates_bind; [|done].
  apply cancel_attempt_terminates. eapply sound_feeds_ext; [apply P|done].
Qed.

Lemma create_buyback_order_feeds db i db' : create_buyback_order db i = Ok db' -> sound_feeds db -> sound_feeds db'.
Proof.
  unfold create_buyback_order. intros H Hs. apply bind_Ok in H as (buy & _ & H). apply bind_Ok in H as (a & _ & H).
  apply bind_Ok in H as (b & _ & H). apply bind_Ok in H as (acct & _ & H).
  destruct (allowed_assets acct) as [allowed|]; [|by injection H as <-].
  refine (foldM_inv _ sound_feeds _ _ _ _ Hs H). intros d s d' Hd _ Hsell. by eapply sell_if_allowed_feeds.
Qed.

Lemma create_buyback_order_terminates db i : sound_feeds db -> terminates (create_buyback_order db i).
Proof.
  intros Hs. unfold create_buyback_order, tbl_get. terminate.
  apply (foldM_terminates_inv _ sound_feeds); [|eauto using sell_if_allowed_feeds|done].
  intros d s Hd. by apply sell_if_allowed_terminates.
Qed.
End AttemptFacts.

(** ** Facts about the maintenance *)

(** All value but what backs it: with the fees in the accumulators, which the
    holdings do not count. *)
Definition treasury (db : database) (a : N) : Z := unbacked db a + core_in a (fba_total db).

(** A well-formed state stays so and keeps its value but for what a deflation
    takes. *)
Definition sustains `{FC : FcLib} (db db' : database) : Prop :=
  wf_db db -> wf_db db' /\ (no_deflation db = true -> deflations db' = deflations db) /\
    exists d, (no_deflation db = true -> d = 0) /\ forall a, treasury db' a = treasury db a - core_in a d.

(** The clock and the parameters that wait stay; and the fees that wait. *)
Record same_dates (db db' : database) : Prop := {
  dates_dgpo : dgpo db' = dgpo db;
  dates_pending : pending_parameters (gov db') = pending_parameters (gov db);
}.

Record same_terms (db db' : database) : Prop := {
  terms_dates : same_dates db db';
  terms_fba : fba_accumulators (gov db') = fba_accumulators (gov db);
}.

#[export] Instance same_dates_preorder : PreOrder same_dates.
Proof. split; [by intros db|]. intros db1 db2 db3 [] []. split; congruence. Qed.

#[export] Instance same_terms_preorder : PreOrder same_terms.
Proof. split; [by intros db|]. intros db1 db2 db3 [] []. split; [by etrans|congruence]. Qed.

Lemma same_chain_terms db db' : same_chain db db' -> same_terms db db'.
Proof. intros [D _ _ _ _ _ G _]. split; [split|]; congruence. Qed.

Lemma same_voters_terms db db' : same_voters db db' -> same_terms db db'.
Proof. intros [_ D G _]. split; [split|]; congruence. Qed.

Lemma same_people_terms db db' : same_people db db' -> same_terms db db'.
Proof. intros []. split; [split|]; congruence. Qed.

Ltac same_term :=
  repeat match goal with H : same_terms _ _ |- _ => destruct H end;
  repeat match goal with H : same_dates _ _ |- _ => destruct H end;
  repeat match goal with |- _ _ ?d => match d with context [match ?x with _ => _ end] => destruct x end end;
  repeat split; simpl in *; congruence.
Ltac term := frame_with ltac:(idtac; same_term).

Section MaintenanceFacts.
Context `{FC : FcLib, !FcLaws FC, NE : NthElement, BO : BoostLib}.
Implicit Types (db : database) (t : tally).

#[export] Instance sustains_preorder : PreOrder sustains.
Proof.
  split.
  - intros db W. split_and!; [done|done|]. exists 0. split; [done|]. intros a. rewrite core_in_0. lia.
  - intros db1 db2 db3 H1 H2 W. destruct (H1 W) as (W2 & D2 & d & Hd & E2). destruct (H2 W2) as (W3 & D3 & e & He & E3).
    assert (Hq : no_deflation db1 = true -> no_deflation db2 = true).
    { intros Hn. by rewrite (no_deflation_same db1 db2) by auto. }
    split_and!; [done| |].
    + intros Hn. rewrite D3, D2; auto.
    + exists (d + e). split; [intros Hn; rewrite Hd, He; auto|]. intros a. rewrite E3, E2, core_in_add. lia.
Qed.

Lemma drains_sustains db db' :
  drains db db' (fun _ => 0) -> fba_accumulators (gov db') = fba_accumulators (gov db) -> sustains db db'.
Proof.
  intros D F W. destruct (D W) as (W' & Q & d & Hd & E). split_and!; [done|done|]. exists d. split; [done|].
  intros a. unfold treasury, fba_total. rewrite F, E. lia.
Qed.

Lemma moves_sustains db db' :
  moves db db' (fun _ => 0) -> fba_accumulators (gov db') = fba_accumulators (gov db) -> sustains db db'.
Proof. intros M. apply drains_sustains. by apply moves_drains. Qed.

Lemma distribute_fba_sustains db db' : distribute_fba_balances db = Ok db' -> sustains db db'.
Proof.
  intros H W. destruct (distribute_fba_unbacked _ _ H W) as (W' & D & E). split_and!; [done|done|].
  exists 0. split; [done|]. intros a. unfold treasury. rewrite E, core_in_0. lia.
Qed.

Lemma account_maintenance_voters l : forall t db t' db',
  foldM account_maintenance (t, db) l = Ok (t', db') -> same_voters db db'.
Proof.
  induction l as [|i l IH]; intros t db t' db' H; cbn [foldM] in H; [by injection H as _ <-|].
  apply bind_Ok in H as ([t1 d1] & H1 & H). unfold account_maintenance in H1. inv_result.
  etrans; [by eapply process_fees_voters|by eapply IH].
Qed.

Lemma adjust_balance_dates db i x : ends (same_dates db) (adjust_balance db i x).
Proof. unfold adjust_balance. term. Qed.
Lemma modify_dynamic_dates db i f : ends (same_dates db) (modify_dynamic db i f).
Proof. unfold modify_dynamic. term. Qed.
#[local] Hint Resolve adjust_balance_dates modify_dynamic_dates : frames.

Lemma distribute_fba_dates db i f x : ends (same_dates db) (distribute_fba db i f x).
Proof. unfold distribute_fba. term. Qed.
#[local] Hint Resolve distribute_fba_dates : frames.
Lemma split_fba_dates f n b s db : ends (same_dates db) (split_fba_balance f n b s db).
Proof. unfold split_fba_balance, clear_fba. term. Qed.
#[local] Hint Resolve split_fba_dates : frames.
Lemma distribute_fba_balances_dates db : ends (same_dates db) (distribute_fba_balances db).
Proof. unfold distribute_fba_balances. term. Qed.

Lemma set_active_authority_terms db i l : ends (same_terms db) (set_active_authority db i l).
Proof. unfold set_active_authority. term. Qed.
#[local] Hint Resolve set_active_authority_terms : frames.
Lemma update_active_witnesses_terms t db : ends (same_terms db) (update_active_witnesses t db).
Proof. unfold update_active_witnesses. term. Qed.
Lemma update_active_committee_terms t db : ends (same_terms db) (update_active_committee_members t db).
Proof. unfold update_active_committee_members. term. Qed.
Lemma update_worker_votes_terms t db : ends (same_terms db) (update_worker_votes t db).
Proof. unfold update_worker_votes. term. Qed.
Lemma update_top_n_authority_terms (b : bool) db i : ends (same_terms db) (update_top_n_authority b db i).
Proof. unfold update_top_n_authority. term. Qed.
#[local] Hint Resolve update_top_n_authority_terms : frames.
Lemma update_top_n_account_terms db s : ends (same_terms db) (update_top_n_account db s).
Proof. unfold update_top_n_account. term. Qed.
Lemma update_top_n_terms db : ends (same_terms db) (update_top_n_authorities db).
Proof. apply ends_foldM; [done|]. intros d s Hd. eapply (ends_trans same_terms); [exact Hd|apply update_top_n_account_terms]. Qed.
#[local] Hint Resolve update_active_witnesses_terms update_active_committee_terms update_worker_votes_terms update_top_n_terms : frames.
Lemma elect_terms t db : ends (same_terms db) (elect t db).
Proof. unfold elect. term. Qed.

Lemma elect_moves t db db' : elect t db = Ok db' -> moves db db' (fun _ => 0).
Proof.
  unfold elect. intros H. apply bind_Ok in H as (d1 & H1%update_top_n_authorities_moves & H).
  apply bind_Ok in H as (d2 & H2%update_active_witnesses_moves & H).
  apply bind_Ok in H as (d3 & H3%update_active_committee_members_moves & H). apply update_worker_votes_moves in H.
  eapply moves_step0; [exact H1|]. eapply moves_step0; [exact H2|]. by eapply moves_step0.
Qed.

Lemma update_issuance_rate_frame db db' :
  update_issuance_rate db = Ok db' -> moves db db' (fun _ => 0) /\ same_terms db db'.
Proof.
  unfold update_issuance_rate, update_issuance_rate_by_vote, clear_rate_votes. cbv zeta. intros H.
  destruct (_ <=? _); [apply bind_Ok in H as (d & Hd & H); inv_result; destruct (bool_decide _); [|done]; inv_result|];
    cbn [mbind result_bind] in H; destruct (_ <? _); inv_result; (split; [by apply moves_same|by repeat split]).
Qed.

Lemma update_parameters_frame db db' :
  update_parameters db = Ok db' ->
  moves db db' (fun _ => 0) /\ dgpo db' = dgpo db /\ fba_accumulators (gov db') = fba_accumulators (gov db) /\
  pending_parameters (gov db') = None /\
  match pending_parameters (gov db) with
  | Some p => parameters db' = p
  | None => unscale_fee (accounts_registered_this_interval (dgpo db)) (parameters db) = Ok (parameters db')
  end.
Proof.
  unfold update_parameters. intros (p & Hp & [= <-])%bind_Ok. split_and!; try done; [by apply moves_same|].
  cbn. by destruct (pending_parameters (gov db)).
Qed.

Lemma deprecate_frame db db' :
  deprecate_annual_members db = Ok db' ->
  drains db db' (fun _ => 0) /\ same_terms db db' /\ parameters db' = parameters db.
Proof.
  unfold deprecate_annual_members. intros H.
  refine (foldM_inv _ (fun d => drains db d (fun _ => 0) /\ same_terms db d /\ parameters d = parameters db) _ _ _ _ _ H).
  2: { split_and!; [apply drains_refl|done|done]. }
  intros d i d' (D & T & P) _ Hi. unfold deprecate_annual_member in Hi. apply bind_Ok in Hi as (acct & _ & Hi).
  destruct (is_annual_member _ _); [|by injection Hi as <-]. apply bind_Ok in Hi as ([d1|] & H1 & [= <-]); [|done].
  cbn [default]. apply attempt_Some in H1. split_and!.
  - eapply drains_eq; [eapply drains_step; [exact D|by apply start_evaluate_drains in H1]|done].
  - etrans; [exact T|]. apply public_run in H1 as (st & d2 & d3 & _ & S1 & Ha & S2); [|done|by eexists].
    etrans; [by apply same_chain_terms|]. etrans; [|by apply same_chain_terms].
    apply same_people_terms. exact (account_upgrade_same _ _ _ Ha).
  - rewrite <-P. apply public_run in H1 as (st & d2 & d3 & _ & S1 & Ha & S2); [|done|by eexists].
    rewrite (same_parameters _ _ S2), <-(same_parameters _ _ S1). exact (same_params _ _ (account_upgrade_same _ _ _ Ha)).
Qed.

Lemma reset_settled_volumes_moves db : moves db (reset_settled_volumes db) (fun _ => 0).
Proof.
  intros [A F]. split_and!; [|done|].
  - split; try done; [by destruct A|]. intros i b. cbn. rewrite lookup_fmap. intros (b' & Hb & ->)%fmap_Some Hs. by apply (F i b').
  - intros a. unfold unbacked, holdings, supply, fees_of, dynamic_of, reset_settled_volumes. simpl.
    rewrite map_sum_fmap by done. lia.
Qed.

(** The dynamic properties but for those that the maintenance sets. *)
Definition head_of (d : dynamic_global_property_object) : dynamic_global_property_object :=
  d <| next_maintenance_time := 0 |> <| last_budget_time := 0 |> <| witness_budget := 0 |>
    <| accounts_registered_this_interval := 0 |>.

(** What the budget leaves alone. *)
Record same_schedule_terms (db db' : database) : Prop := {
  kept_next : next_maintenance_time (dgpo db') = next_maintenance_time (dgpo db);
  kept_time : time (dgpo db') = time (dgpo db);
  kept_registered : accounts_registered_this_interval (dgpo db') = accounts_registered_this_interval (dgpo db);
  kept_parameters : parameters db' = parameters db;
  kept_fba : fba_accumulators (gov db') = fba_accumulators (gov db);
  kept_pending : pending_parameters (gov db') = pending_parameters (gov db);
  kept_bitassets : bitassets db' = bitassets db;
  kept_head : head_of (dgpo db') = head_of (dgpo db);
}.

#[local] Instance same_schedule_terms_preorder : PreOrder same_schedule_terms.
Proof. split; [by intros db|]. intros db1 db2 db3 [] []. split; congruence. Qed.

Ltac same_plan :=
  repeat match goal with H : same_schedule_terms _ _ |- _ => destruct H end;
  repeat match goal with |- _ _ ?d => match d with context [match ?x with _ => _ end] => destruct x end end;
  split; simpl in *; first [congruence | etrans; [|eassumption]; reflexivity].
Ltac plan := frame_with ltac:(idtac; same_plan).

Lemma adjust_balance_plan db i x : ends (same_schedule_terms db) (adjust_balance db i x).
Proof. unfold adjust_balance. plan. Qed.
Lemma modify_dynamic_plan db i f : ends (same_schedule_terms db) (modify_dynamic db i f).
Proof. unfold modify_dynamic. plan. Qed.
#[local] Hint Resolve adjust_balance_plan modify_dynamic_plan : frames.
Lemma pay_worker_plan x db w : ends (fun p => same_schedule_terms db p.2) (pay_worker x db w).
Proof. destruct w; cbn [pay_worker]; plan. Qed.
#[local] Hint Resolve pay_worker_plan : frames.
Lemma pay_active_worker_plan b db x : ends (fun p => same_schedule_terms db p.2) (pay_active_worker (b, db) x).
Proof. unfold pay_active_worker. plan. Qed.
Lemma pay_workers_plan b db : ends (fun p => same_schedule_terms db p.2) (pay_workers b db).
Proof.
  unfold pay_workers. apply ends_bind_any. intros l. apply ends_foldM; [done|]. intros [b1 d1] x H p Hp. cbn [snd] in *.
  etrans; [exact H|]. by eapply pay_active_worker_plan.
Qed.
#[local] Hint Resolve pay_workers_plan : frames.
Lemma process_budget_plan db : ends (same_schedule_terms db) (process_budget db).
Proof. unfold process_budget. plan. Qed.

Lemma schedule_maintenance_frame n timestamp db db' :
  schedule_maintenance n timestamp db = Ok db' ->
  drains db db' (fun _ => 0) /\ fba_accumulators (gov db') = fba_accumulators (gov db) /\
  pending_parameters (gov db') = pending_parameters (gov db) /\ parameters db' = parameters db /\
  time (dgpo db') = time (dgpo db) /\ head_of (dgpo db') = head_of (dgpo db) /\
  accounts_registered_this_interval (dgpo db') = 0 /\
  following_maintenance n timestamp (head_block_time db) (maintenance_interval (parameters db))
    (next_maintenance_time (dgpo db)) = Ok (next_maintenance_time (dgpo db')).
Proof.
  unfold schedule_maintenance. intros (next & Hn & H)%bind_Ok. apply bind_Ok in H as (d & Hd & [= <-]).
  assert (drains db d (fun _ => 0) /\ same_terms db d /\ parameters d = parameters db) as (D & [[E1 E2] E3] & P).
  { destruct (_ && _); [by apply deprecate_frame|]. injection Hd as <-. split_and!; [apply drains_refl|done|done]. }
  split_and!; try done.
  - eapply drains_eq; [eapply drains_step; [exact D|by apply moves_drains, moves_same]|done].
  - cbn. by rewrite E1.
  - cbn. by rewrite E1.
Qed.

(** The steps of a successful maintenance. *)
Lemma perform_chain_maintenance_inv n timestamp t db t' db' :
  perform_chain_maintenance n timestamp t db = Ok (t', db') ->
  exists d0 d1 t2 d2 d3 d4 d5 d6,
    distribute_fba_balances db = Ok d0 /\ create_buyback_orders d0 = Ok d1 /\
    perform_account_maintenance d1 (start_tally d1 t) = Ok (t2, d2) /\ elect t2 d2 = Ok d3 /\
    update_issuance_rate d3 = Ok d4 /\ update_parameters d4 = Ok d5 /\ schedule_maintenance n timestamp d5 = Ok d6 /\
    process_budget (reset_settled_volumes d6) = Ok db' /\ t' = clear_tally t2.
Proof.
  unfold perform_chain_maintenance. intros (d0 & H0 & H)%bind_Ok. apply bind_Ok in H as (d1 & H1 & H).
  apply bind_Ok in H as ([t2 d2] & H2 & H). apply bind_Ok in H as (d3 & H3 & H). apply bind_Ok in H as (d4 & H4 & H).
  apply bind_Ok in H as (d5 & H5 & H). apply bind_Ok in H as (d6 & H6 & H). apply bind_Ok in H as (d7 & H7 & [= <- <-]).
  by exists d0, d1, t2, d2, d3, d4, d5, d6.
Qed.

(** Up to the new parameters, neither the clock nor the parameters that wait are
    touched. *)
Lemma maintenance_prefix db t d0 d1 t2 d2 d3 d4 :
  distribute_fba_balances db = Ok d0 -> create_buyback_orders d0 = Ok d1 ->
  perform_account_maintenance d1 (start_tally d1 t) = Ok (t2, d2) -> elect t2 d2 = Ok d3 ->
  update_issuance_rate d3 = Ok d4 -> same_dates db d4 /\ sustains db d4.
Proof.
  intros H0 H1 H2 H3 H4.
  pose proof (distribute_fba_balances_dates _ _ H0) as T0. apply distribute_fba_sustains in H0 as S0.
  apply create_buyback_orders_inv in H1 as [D1 K1]. pose proof (same_chain_terms _ _ K1) as [T1 F1].
  unfold perform_account_maintenance in H2. pose proof (account_maintenance_voters _ _ _ _ _ H2) as V2.
  apply account_maintenance_moves in H2 as M2. destruct (same_voters_terms _ _ V2) as [T2 F2].
  destruct (elect_terms _ _ _ H3) as [T3 F3]. apply elect_moves in H3 as M3.
  apply update_issuance_rate_frame in H4 as [M4 [T4 F4]]. split.
  - etrans; [exact T0|]. etrans; [exact T1|]. etrans; [exact T2|]. by etrans.
  - etrans; [exact S0|]. etrans; [by apply drains_sustains|]. etrans; [by apply moves_sustains|].
    etrans; [by apply moves_sustains|by apply moves_sustains].
Qed.

(** A maintenance does not touch the head of the chain. *)
Lemma maintenance_head n timestamp t db t' db' :
  perform_chain_maintenance n timestamp t db = Ok (t', db') -> head_of (dgpo db') = head_of (dgpo db).
Proof.
  intros (d0 & d1 & t2 & d2 & d3 & d4 & d5 & d6 & H0 & H1 & H2 & H3 & H4 & H5 & H6 & H7 & _)%perform_chain_maintenance_inv.
  destruct (maintenance_prefix _ _ _ _ _ _ _ _ H0 H1 H2 H3 H4) as [[E4 _] _].
  apply update_parameters_frame in H5 as (_ & E5 & _). apply schedule_maintenance_frame in H6 as (_ & _ & _ & _ & _ & E6 & _).
  destruct (process_budget_plan _ _ H7) as [_ _ _ _ _ _ _ E7]. rewrite E7. cbn. by rewrite E6, E5, E4.
Qed.

Lemma following_maintenance_ok n now interval next next' :
  0 <= next <= now -> 0 < interval -> now + interval < 2 ^ 32 ->
  following_maintenance n now now interval next = Ok next' ->
  now < next' <= now + interval /\ (interval | next' - (if n =? 1 then 0 else next)).
Proof.
  intros Hn Hi Hb. unfold following_maintenance. destruct (Z.leb_spec next now); [|lia]. intros (_ & _ & Hr)%bind_Ok.
  pose proof (Z.div_mod now interval) as D1. pose proof (Z.mod_pos_bound now interval Hi).
  pose proof (Z.div_mod (now - next) interval) as D2. pose proof (Z.mod_pos_bound (now - next) interval Hi).
  destruct (n =? 1); cbv zeta in Hr; injection Hr as <-.
  - rewrite wrap32_small by nia. split; [nia|]. exists (now / interval + 1). lia.
  - assert (0 <= (now - next) / interval) by (apply Z.div_pos; lia).
    rewrite (wrap32_small (_ * interval)), wrap32_small by nia. split; [nia|]. exists ((now - next) / interval + 1). lia.
Qed.

(** Nor does it make or destroy value. *)
Lemma maintenance_sustains n timestamp t db t' db' :
  perform_chain_maintenance n timestamp t db = Ok (t', db') -> sustains db db'.
Proof.
  intros (d0 & d1 & t2 & d2 & d3 & d4 & d5 & d6 & H0 & H1 & H2 & H3 & H4 & H5 & H6 & H7 & _)%perform_chain_maintenance_inv.
  destruct (maintenance_prefix _ _ _ _ _ _ _ _ H0 H1 H2 H3 H4) as [_ S4].
  apply update_parameters_frame in H5 as (M5 & _ & F5 & _). apply schedule_maintenance_frame in H6 as (D6 & F6 & _).
  destruct (process_budget_plan _ _ H7) as [_ _ _ _ F7 _ _]. apply process_budget_moves in H7 as M7.
  etrans; [exact S4|]. etrans; [by apply moves_sustains|]. etrans; [by apply drains_sustains|].
  etrans; [apply moves_sustains; [apply reset_settled_volumes_moves|done]|by apply moves_sustains].
Qed.

(** The next maintenance is in the future. *)
Lemma maintenance_next (n : Z) t t' db db' :
  0 <= next_maintenance_time (dgpo db) <= head_block_time db ->
  0 < maintenance_interval (parameters db') -> head_block_time db + maintenance_interval (parameters db') < 2 ^ 32 ->
  perform_chain_maintenance n (head_block_time db) t db = Ok (t', db') ->
  head_block_time db < next_maintenance_time (dgpo db') <= head_block_time db + maintenance_interval (parameters db') /\
  (maintenance_interval (parameters db') |
     next_maintenance_time (dgpo db') - (if n =? 1 then 0 else next_maintenance_time (dgpo db))).
Proof.
  intros Hn Hi Hb (d0 & d1 & t2 & d2 & d3 & d4 & d5 & d6 & H0 & H1 & H2 & H3 & H4 & H5 & H6 & H7 & ->)%perform_chain_maintenance_inv.
  destruct (maintenance_prefix _ _ _ _ _ _ _ _ H0 H1 H2 H3 H4) as [[T4 P4] _].
  apply update_parameters_frame in H5 as (_ & T5 & _).
  apply schedule_maintenance_frame in H6 as (_ & _ & _ & Q6 & _ & _ & _ & N6).
  destruct (process_budget_plan _ _ H7) as [K1 _ _ K4 _ _ _ _]. cbn in K1, K4.
  unfold head_block_time in *. rewrite K4 in *. rewrite Q6 in *. rewrite K1.
  rewrite T5, T4 in N6. by apply following_maintenance_ok in N6.
Qed.
End MaintenanceFacts.

(** ** Termination *)

Section Termination.
Context `{FC : FcLib, !FcLaws FC, NE : NthElement, BO : BoostLib}.
Implicit Types (db : database) (t : tally).

Lemma int64_or_ub_terminates z : terminates (int64_or_ub z).
Proof. unfold int64_or_ub. terminate. Qed.
#[local] Hint Resolve int64_or_ub_terminates : fuel.

Lemma add_int64_terminates x y : terminates (add_int64 x y).
Proof. unfold add_int64. terminate. Qed.
Lemma sub_int64_terminates x y : terminates (sub_int64 x y).
Proof. unfold sub_int64. terminate. Qed.
Lemma deposit_terminates v now a : terminates (deposit v now a).
Proof.
  unfold deposit, on_deposit, cdd_on_deposit, update_coin_seconds_earned, compute_coin_seconds_earned. terminate.
Qed.
Lemma deposit_vested_terminates v now a : terminates (deposit_vested v now a).
Proof.
  unfold deposit_vested, on_deposit_vested, cdd_on_deposit_vested, cdd_on_deposit, update_coin_seconds_earned,
    compute_coin_seconds_earned, mul_int64. terminate.
Qed.
#[local] Hint Resolve add_int64_terminates sub_int64_terminates deposit_terminates deposit_vested_terminates : fuel.

Lemma deposit_lazy_terminates db o x secs owner b : terminates (deposit_lazy_vesting db o x secs owner b).
Proof. unfold deposit_lazy_vesting, new_lazy_vesting, tbl_get, mul_int64. terminate. Qed.
#[local] Hint Resolve deposit_lazy_terminates : fuel.
Lemma deposit_cashback_terminates db i x b : terminates (deposit_cashback db i x b).
Proof. unfold deposit_cashback, get_dynamic, tbl_get. terminate. Qed.
Lemma cut_fee_terminates x y : terminates (cut_fee x y).
Proof. unfold cut_fee. terminate. Qed.
#[local] Hint Resolve deposit_cashback_terminates cut_fee_terminates : fuel.
Lemma pay_out_fees_terminates db i x b : terminates (pay_out_fees db i x b).
Proof. unfold pay_out_fees, tbl_get. terminate. Qed.
#[local] Hint Resolve pay_out_fees_terminates : fuel.
Lemma process_fees_terminates db i : terminates (process_fees db i).
Proof. unfold process_fees, get_statistics. terminate. Qed.
#[local] Hint Resolve process_fees_terminates : fuel.

(** *** The fees of fee-backed assets *)

#[local] Hint Resolve adjust_balance_trades : frames.
Lemma modify_dynamic_trades db i f : trade db (modify_dynamic db i f).
Proof. unfold modify_dynamic. trade. Qed.
#[local] Hint Resolve modify_dynamic_trades : frames.
Lemma distribute_fba_trades db i f x : trade db (distribute_fba db i f x).
Proof. unfold distribute_fba. trade. Qed.
#[local] Hint Resolve distribute_fba_trades : frames.
Lemma split_fba_trades f n b s db : trade db (split_fba_balance f n b s db).
Proof. unfold split_fba_balance, clear_fba. trade. Qed.
#[local] Hint Resolve split_fba_trades : frames.
Lemma distribute_fba_balances_trades db : trade db (distribute_fba_balances db).
Proof. unfold distribute_fba_balances. trade. Qed.

Lemma modify_dynamic_terminates db i f : (forall d, terminates (f d)) -> terminates (modify_dynamic db i f).
Proof. intros Hf. unfold modify_dynamic, get_dynamic, tbl_get. terminate. Qed.
Lemma sub_supply_terminates x d : terminates (sub_supply x d).
Proof. unfold sub_supply. terminate. Qed.
Lemma sub_supplies_terminate db i x : terminates (modify_dynamic db i (sub_supply x)).
Proof. apply modify_dynamic_terminates, sub_supply_terminates. Qed.
Lemma percent_of_terminates x pct : terminates (percent_of x pct).
Proof. unfold percent_of. terminate. Qed.
Lemma is_configured_terminates db f : terminates (is_configured db f).
Proof. unfold is_configured, tbl_get. terminate. Qed.
Lemma distribute_fba_terminates db i f x : terminates (distribute_fba db i f x).
Proof. unfold distribute_fba. terminate. Qed.
#[local] Hint Resolve sub_supplies_terminate percent_of_terminates is_configured_terminates distribute_fba_terminates : fuel.
Lemma split_fba_terminates f n b s db : terminates (split_fba_balance f n b s db).
Proof. unfold split_fba_balance, tbl_get. terminate. Qed.
#[local] Hint Resolve split_fba_terminates : fuel.
Lemma distribute_fba_balances_terminates db : terminates (distribute_fba_balances db).
Proof. unfold distribute_fba_balances. terminate. Qed.

(** *** The tally and the elections *)

Lemma tally_account_terminates db t i : terminates (tally_account db t i).
Proof. unfold tally_account, opinion_account, voting_stake, get_statistics, tbl_get. terminate. Qed.
#[local] Hint Resolve tally_account_terminates : fuel.
Lemma account_maintenance_terminates st i : terminates (account_maintenance st i).
Proof. destruct st. unfold account_maintenance. terminate. Qed.
Lemma perform_account_maintenance_terminates db t : terminates (perform_account_maintenance db t).
Proof. apply foldM_terminates, account_maintenance_terminates. Qed.

Lemma votes_of_terminates t i : terminates (votes_of t i).
Proof. unfold votes_of. terminate. Qed.
#[local] Hint Resolve votes_of_terminates : fuel.
Lemma candidates_terminates {A} (f : A -> N) t tb : terminates (candidates f t tb).
Proof. apply foldM_terminates. intros. terminate. Qed.
#[local] Hint Resolve candidates_terminates : fuel.
Lemma sort_votable_terminates {A} (f : A -> N) t tb n : terminates (sort_votable_objects f t tb n).
Proof. unfold sort_votable_objects. terminate. Qed.
Lemma wanted_members_terminates add l : (forall x h, terminates (add x h)) -> forall target s, terminates (wanted_members add l target s).
Proof. intros Ha. induction l as [|h l IH]; intros; cbn [wanted_members]; terminate. Qed.
Lemma add_share_terminates x h : terminates (add_share x h).
Proof. unfold add_share. terminate. Qed.
Lemma member_count_terminates add l t : (forall x h, terminates (add x h)) -> terminates (member_count add l t).
Proof. intros Ha. unfold member_count, stake_target. terminate. by apply wanted_members_terminates. Qed.
Lemma electors_terminates {A} (f : A -> N) tb l : terminates (electors f tb l).
Proof. apply foldM_terminates. intros. unfold tbl_get. terminate. Qed.
Lemma set_total_votes_terminates {A} (f : A -> N) g t tb i : terminates (set_total_votes f g t tb i).
Proof. unfold set_total_votes, tbl_get. terminate. Qed.
Lemma set_total_votes_all_terminates {A} (f : A -> N) g t tb l : terminates (foldM (set_total_votes f g t) tb l).
Proof. apply foldM_terminates. intros. apply set_total_votes_terminates. Qed.
Lemma vc_add_terminates vc i x : terminates (vc_add vc i x).
Proof. unfold vc_add. terminate. Qed.
Lemma vc_add_all_terminates vc l : terminates (vc_add_all vc l).
Proof. apply foldM_terminates. intros. apply vc_add_terminates. Qed.
#[local] Hint Resolve sort_votable_terminates add_share_terminates member_count_terminates electors_terminates
  set_total_votes_all_terminates vc_add_all_terminates : fuel.
Lemma set_active_authority_terminates db i l : terminates (set_active_authority db i l).
Proof. unfold set_active_authority, elected_authority, tbl_get. terminate. Qed.
#[local] Hint Resolve set_active_authority_terminates : fuel.
Lemma update_active_witnesses_terminates t db : terminates (update_active_witnesses t db).
Proof. unfold update_active_witnesses. terminate. Qed.
Lemma update_active_committee_terminates t db : terminates (update_active_committee_members t db).
Proof.
  unfold update_active_committee_members, tbl_get. assert (forall x h, terminates (add_uint64 x h)) by done. terminate.
Qed.
Lemma update_worker_votes_terminates t db : terminates (update_worker_votes t db).
Proof.
  unfold update_worker_votes. apply terminates_bind; [|done]. apply foldM_terminates. intros.
  unfold update_worker_vote, tbl_get. terminate.
Qed.
Lemma update_top_n_terminates db : terminates (update_top_n_authorities db).
Proof.
  apply foldM_terminates. intros. unfold update_top_n_account, update_top_n_authority, tbl_get. terminate.
Qed.
#[local] Hint Resolve update_active_witnesses_terminates update_active_committee_terminates update_worker_votes_terminates
  update_top_n_terminates : fuel.
Lemma elect_terminates t db : terminates (elect t db).
Proof. unfold elect. terminate. Qed.

(** *** The rest *)

Lemma count_rate_votes_terminates db c : terminates (count_rate_votes db c).
Proof. apply foldM_terminates. intros s [i [o ts]]. unfold count_rate_vote. terminate. Qed.
Lemma voted_rate_terminates s : terminates (voted_rate s).
Proof. unfold voted_rate. terminate. Qed.
#[local] Hint Resolve count_rate_votes_terminates voted_rate_terminates : fuel.
Lemma update_issuance_rate_terminates db : terminates (update_issuance_rate db).
Proof. unfold update_issuance_rate, update_issuance_rate_by_vote, clear_rate_votes. terminate. Qed.
Lemma update_parameters_terminates db : terminates (update_parameters db).
Proof. unfold update_parameters, unscale_fee. terminate. Qed.

Lemma upgrade_attempt_terminates db (op : account_upgrade_operation) : terminates (attempt db op).
Proof.
  apply attempt_terminates; [|intros st].
  - unfold evaluate. cbn -[prepare_fee]. unfold keep, account_upgrade_do_evaluate, tbl_get.
    pose proof prepare_fee_terminates. terminate.
  - pose proof convert_fee_terminates. pose proof generic_pay_fee_terminates. unfold apply.
    apply terminates_bind; [auto|]. intros d _. apply terminates_bind; [apply H0|]. intros [st2 d2] _.
    apply terminates_bind; [|intros; terminate]. change (terminates (account_upgrade_do_apply d2 op)).
    unfold account_upgrade_do_apply, tbl_get. terminate.
Qed.
Lemma deprecate_terminates db : terminates (deprecate_annual_members db).
Proof.
  apply foldM_terminates. intros. unfold deprecate_annual_member, tbl_get. pose proof upgrade_attempt_terminates. terminate.
Qed.
#[local] Hint Resolve deprecate_terminates : fuel.
Lemma schedule_maintenance_terminates n ts db : terminates (schedule_maintenance n ts db).
Proof. unfold schedule_maintenance, following_maintenance. terminate. Qed.

Lemma pay_worker_terminates x db w : terminates (pay_worker x db w).
Proof. destruct w; unfold pay_worker, tbl_get; terminate. Qed.
Lemma requested_pay_terminates db w : terminates (requested_pay db w).
Proof. unfold requested_pay. terminate. Qed.
#[local] Hint Resolve pay_worker_terminates requested_pay_terminates : fuel.
Lemma pay_workers_terminates b db : terminates (pay_workers b db).
Proof.
  unfold pay_workers. apply terminates_bind.
  - apply foldM_terminates. intros. unfold approving_stake. terminate.
  - intros l _. apply foldM_terminates. intros [b1 d1] x. unfold pay_active_worker, tbl_get. terminate.
Qed.
#[local] Hint Resolve pay_workers_terminates : fuel.
Lemma process_budget_terminates db : terminates (process_budget db).
Proof.
  unfold process_budget, initialize_budget_record, reserved, cycle_budget, split_budget, worker_share, get_dynamic, tbl_get.
  terminate. apply modify_dynamic_terminates. intros. terminate.
Qed.
End Termination.

(** ** Properties *)

Section Properties.
Context `{FC : FcLib, !FcLaws FC, BO : BoostLib}.
Implicit Types (db : database) (t : tally).
#[local] Existing Instance sorting_nth_element.

(** C11: the maintenance of the chain neither makes nor destroys value.  It keeps the
    state well formed, and in every asset the holdings and the fees of fee-backed
    assets, less the supply, stay the same, but for what a deflation that is under
    way takes from the orders it meets. *)
Theorem maintenance_conserves (n timestamp : Z) t t' db db' :
  wf_db db -> perform_chain_maintenance n timestamp t db = Ok (t', db') ->
  wf_db db' /\ exists d, (no_deflation db = true -> d = 0) /\
    forall a, treasury db' a = treasury db a - core_in a d.
Proof. intros W H%maintenance_sustains. destruct (H W) as (W' & _ & d & Hd & E). eauto. Qed.

(** A maintenance schedules the next one.  It is due at the first point of the
    grid of the (new) maintenance interval after the head block: strictly later, at
    most one interval later, and a whole number of intervals after the last due time
    (for the first block: after 1970).  The new parameters take effect, the count of
    registrations and the settled volumes start from 0, and the buffers of the
    tally are empty again. *)
Theorem maintenance_schedule (n : Z) t t' db db' :
  0 <= next_maintenance_time (dgpo db) <= head_block_time db ->
  0 < maintenance_interval (parameters db') -> head_block_time db + maintenance_interval (parameters db') < 2 ^ 32 ->
  perform_chain_maintenance n (head_block_time db) t db = Ok (t', db') ->
  head_block_time db' = head_block_time db /\
  head_block_time db' < next_maintenance_time (dgpo db') <= head_block_time db' + maintenance_interval (parameters db') /\
  (maintenance_interval (parameters db') |
     next_maintenance_time (dgpo db') - (if n =? 1 then 0 else next_maintenance_time (dgpo db))) /\
  (forall p, pending_parameters (gov db) = Some p -> parameters db' = p) /\ pending_parameters (gov db') = None /\
  accounts_registered_this_interval (dgpo db') = 0 /\
  (forall i b, objs (bitassets db') !! i = Some b -> force_settled_volume b = 0) /\
  vote_tally t' = [] /\ witness_histogram t' = [] /\ committee_histogram t' = [].
Proof.
  intros Hn Hi Hb (d0 & d1 & t2 & d2 & d3 & d4 & d5 & d6 & H0 & H1 & H2 & H3 & H4 & H5 & H6 & H7 & ->)%perform_chain_maintenance_inv.
  destruct (maintenance_prefix _ _ _ _ _ _ _ _ H0 H1 H2 H3 H4) as [[T4 P4] _].
  apply update_parameters_frame in H5 as (_ & T5 & _ & P5 & Q5).
  apply schedule_maintenance_frame in H6 as (_ & _ & P6 & Q6 & T6 & _ & R6 & N6).
  destruct (process_budget_plan _ _ H7) as [K1 K2 K3 K4 K5 K6 K7 _]. cbn in K1, K2, K3, K4, K5, K6.
  unfold head_block_time in *. rewrite K4 in *. rewrite Q6 in *. rewrite K2, T6, T5, T4, K1.
  rewrite T5, T4 in N6. apply following_maintenance_ok in N6 as [B V]; [|done..].
  split_and!; try done; try lia; try congruence.
  - intros p Hp. rewrite P4, Hp in Q5. done.
  - intros i b. rewrite K7. cbn. rewrite lookup_fmap. by intros (b' & _ & ->)%fmap_Some.
Qed.

(** The maintenance always comes to an end: none of its loops, and none of the
    loops of the market that the orders of buyback accounts enter, runs for ever. *)
Theorem maintenance_terminates (n timestamp : Z) t db :
  sound_feeds db -> terminates (perform_chain_maintenance n timestamp t db).
Proof.
  intros Hs. unfold perform_chain_maintenance. apply terminates_bind; [apply distribute_fba_balances_terminates|].
  intros d0 T0%distribute_fba_balances_trades. apply terminates_bind.
  { apply (foldM_terminates_inv _ sound_feeds); [intros; by apply create_buyback_order_terminates|
      eauto using create_buyback_order_feeds|by eapply sound_feeds_trades]. }
  intros d1 _. apply terminates_bind; [apply perform_account_maintenance_terminates|]. intros [t2 d2] _.
  apply terminates_bind; [apply elect_terminates|]. intros d3 _. apply terminates_bind; [apply update_issuance_rate_terminates|].
  intros d4 _. apply terminates_bind; [apply update_parameters_terminates|]. intros d5 _.
  apply terminates_bind; [apply schedule_maintenance_terminates|]. intros d6 _.
  apply terminates_bind; [apply process_budget_terminates|done].
Qed.

(** No order of a buyback account outlives the maintenance.  What the account
    holds is offered, sold as far as the book allows, and the rest is taken back:
    the book has no order that was not there before, and no account or parameter
    of the chain is touched. *)
Theorem buyback_orders_gone db db' :
  wf_db db -> create_buyback_orders db = Ok db' ->
  (forall i, objs (limit_orders db) !! i = None -> objs (limit_orders db') !! i = None) /\
  accounts db' = accounts db /\ gov db' = gov db /\ dgpo db' = dgpo db /\ parameters db' = parameters db.
Proof.
  intros W H. split; [|apply create_buyback_orders_inv in H as [_ []]; done].
  enough (wf_db db' /\ forall i, objs (limit_orders db) !! i = None -> objs (limit_orders db') !! i = None) as [_ ?] by done.
  unfold create_buyback_orders in H.
  refine (foldM_inv _ (fun d => wf_db d /\ forall i, objs (limit_orders db) !! i = None -> objs (limit_orders d) !! i = None)
    _ _ _ _ (conj W (fun _ Hi => Hi)) H).
  intros d b d' [Wd Hd] _ Hb. unfold create_buyback_order in Hb. apply bind_Ok in Hb as (buy & _ & Hb).
  apply bind_Ok in Hb as (a & _ & Hb). apply bind_Ok in Hb as (acc & _ & Hb). apply bind_Ok in Hb as (acct & _ & Hb).
  destruct (allowed_assets acct) as [allowed|]; [|by injection Hb as <-].
  refine (foldM_inv _ (fun d => wf_db d /\ forall i, objs (limit_orders db) !! i = None -> objs (limit_orders d) !! i = None)
    _ _ _ _ (conj Wd Hd) Hb).
  intros d1 s d2 [W1 H1] _ H2. pose proof (sell_if_allowed_inv _ _ _ _ _ _ H2) as [D _]. split; [by apply D|].
  unfold sell_if_allowed in H2. destruct (balances d1 !! _) as [x|]; [|by injection H2 as <-].
  destruct (_ =? _)%N; [by injection H2 as <-|]. destruct (_ =? _); [by injection H2 as <-|].
  destruct (bool_decide _); [|by injection H2 as <-]. intros i Hi. eapply sell_holding_gone; [|exact H2|by apply H1].
  apply wf_table_fresh, W1.
Qed.

(** The vote on the issuance rate.  Each option weighs the core of those who
    chose it: without votes the rate is the neutral one, otherwise the neutral rate
    moves by the share of the stake by which those for an increase exceed those
    against.  It stays between 0 and twice the neutral rate, the extremes are
    reached when everybody agrees, and it is above the neutral rate only if the
    increase has the larger part. *)
Theorem voted_rate_spec `{!BoostLaws BO} (s : rate_tally) :
  0 <= keep_same s -> 0 <= increase s -> 0 <= decrease s ->
  let total := increase s + decrease s + keep_same s in
  total <= INT64_MAX ->
  exists r, voted_rate s = Ok r /\ 0 <= r <= maximum_rate /\
    r = (if total =? 0 then neutral_rate else neutral_rate + Z.quot ((increase s - decrease s) * neutral_rate) total) /\
    (0 < total -> increase s = total -> r = maximum_rate) /\ (0 < total -> decrease s = total -> r = 0) /\
    (neutral_rate < r -> decrease s < increase s) /\ (r < neutral_rate -> increase s < decrease s).
Proof.
  intros Hk Hi Hd total Ht. unfold voted_rate, add_int64, sub_int64, int64_or_ub.
  rewrite (decide_True (P := in_int64 (increase s + decrease s))) by (subst total; blia). cbn [mbind result_bind].
  rewrite (decide_True (P := in_int64 (_ + keep_same s))), (decide_True (P := in_int64 (increase s - decrease s)))
    by (subst total; blia). cbn [mbind result_bind].
  assert (0 <= total) by (subst total; lia). fold total. destruct (Z.leb_spec total 0).
  { exists neutral_rate. destruct (Z.eqb_spec total 0); [|lia]. unfold neutral_rate, maximum_rate. split_and!; try done; lia. }
  destruct (Z.eqb_spec total 0); [lia|].
  set (x := increase s - decrease s). assert (Hx : - total <= x <= total) by (subst x total; lia).
  rewrite i128_mul_ok by (unfold in_int128, neutral_rate; blia).
  rewrite i128_div_ok by (try (unfold in_int128, neutral_rate; blia); lia).
  assert (Hq : - neutral_rate <= Z.quot (x * neutral_rate) total <= neutral_rate).
  { unfold neutral_rate in *. split; [apply Z.quot_le_lower_bound|apply Z.quot_le_upper_bound]; nia. }
  unfold neutral_rate, maximum_rate in *. cbv zeta. set (q := Z.quot (x * 52142857) total) in *.
  assert (E : wrap32 (52142857 + q) = 52142857 + q) by (unfold wrap32; apply Z.mod_small; lia). rewrite E.
  exists (52142857 + q). split_and!; try lia.
  - destruct (Z.leb_spec (52142857 + q) 0); [f_equal; lia|]. destruct (Z.ltb_spec 104285714 (52142857 + q)); [lia|done].
  - intros _ Ei. assert (x = total) as Ex by (subst x total; lia). subst q. rewrite Ex, Z.mul_comm, Z.quot_mul; lia.
  - intros _ Ei. assert (x = - total) as Ex by (subst x total; lia). subst q.
    rewrite Ex, Z.mul_opp_l, Z.mul_comm, Z.quot_opp_l, Z.quot_mul; lia.
  - intros Hr. destruct (Z.lt_ge_cases (decrease s) (increase s)); [done|]. exfalso.
    enough (q <= 0) by lia. subst q. replace (x * 52142857) with (- (- x * 52142857)) by lia.
    rewrite Z.quot_opp_l by lia. pose proof (Z.quot_pos (- x * 52142857) total). subst x. lia.
  - intros Hr. destruct (Z.lt_ge_cases (increase s) (decrease s)); [done|]. exfalso.
    enough (0 <= q) by lia. subst q. apply Z.quot_pos; subst x; lia.
Qed.

(** When the votes are counted.  Before the time that was set nothing changes;
    from then on the vote is taken and the next one set for later.  But the votes
    are removed from the index that is being walked: as soon as one account has
    voted, the count is undefined behaviour, and no maintenance from that time on
    succeeds. *)
Theorem issuance_rate_vote_spec `{!BoostLaws BO} db :
  let due := default CC_VOTE_START_TIME (next_rate_vote_time (gov db)) in
  (head_block_time db < due -> exists db', update_issuance_rate_by_vote db = Ok db' /\
     parameters db' = parameters db /\ next_rate_vote_time (gov db') = Some due /\ cc_rate_votes db' = cc_rate_votes db) /\
  (due <= head_block_time db -> cc_rate_votes db = ∅ ->
   exists db' next, update_issuance_rate_by_vote db = Ok db' /\ issuance_rate (parameters db') = neutral_rate /\
     next_rate_vote_time (gov db') = Some next /\
     (0 <= due -> date_add_months (due / seconds_per_day) 3 * seconds_per_day < 2 ^ 32 -> due < next)) /\
  (due <= head_block_time db -> cc_rate_votes db <> ∅ ->
   (forall db', update_issuance_rate_by_vote db <> Ok db') /\ forall db', update_issuance_rate db <> Ok db').
Proof.
  intros due. unfold update_issuance_rate, update_issuance_rate_by_vote. fold due. cbv zeta.
  set (db1 := db <| gov ::= fun g => g <| next_rate_vote_time := Some due |> |>).
  change (head_block_time db1) with (head_block_time db). split_and!.
  - intros H. destruct (Z.leb_spec due (head_block_time db)); [lia|]. exists db1. done.
  - intros H He. destruct (Z.leb_spec due (head_block_time db)); [|lia]. unfold count_rate_votes, clear_rate_votes.
    change (cc_rate_votes db1) with (cc_rate_votes db). rewrite He, map_to_list_empty. cbn -[db1].
    rewrite bool_decide_eq_true_2 by exact He. eexists _, _. split; [reflexivity|].
    split; [done|]. split; [reflexivity|]. intros Hdue Hm.
    destruct (Z.eqb_spec due CC_VOTE_START_TIME) as [->|]; [unfold CC_VOTE_START_TIME, CC_SECOND_VOTE_START_TIME; lia|].
    unfold month_add. assert (0 <= due / seconds_per_day) by (apply Z.div_pos; unfold seconds_per_day; lia).
    pose proof (date_add_months_later (due / seconds_per_day) 3) as Hl. unfold seconds_per_day in *.
    rewrite wrap32_small by lia. pose proof (Z.mul_succ_div_gt due 86400). lia.
  - intros H He. destruct (Z.leb_spec due (head_block_time db)); [|lia]. unfold clear_rate_votes.
    match goal with |- (forall d, ?r <> Ok d) /\ _ => enough (N : forall d, r <> Ok d) end.
    { split; [exact N|]. intros db' (d & Hd & _)%bind_Ok. by apply (N d). }
    intros db' (c & _ & H2)%bind_Ok. apply bind_Ok in H2 as (r & _ & H2).
    rewrite bool_decide_eq_false_2 in H2; done.
Qed.
End Properties.

(** ** Witnesses *)

(** The treasury with its electorate, an hour after a maintenance was due; the asset
    1 buys back with what account 12 holds; bob offers 300 of it. *)
Definition ex_upkeep : database :=
  ex_treasury <| accounts := tbl_modify (accounts ex_electorate) 12 (fun a => a <| allowed_assets := Some {[ 0; 1; 2 ]}%N |>) |>
    <| statistics := statistics ex_electorate |> <| balances := balances ex_electorate |>
    <| limit_orders := table_of [(5%N, Limit_order_object 2000000000 11 300 (Price (Asset 300 1) (Asset 50 2)) 0 None)] 6 |>
    <| parameters := parameters ex_electorate |>
    <| gov ::= fun g => g <| buybacks := table_of [(0%N, 1%N)] 1 |>
         <| pending_parameters := Some ((parameters ex_electorate) <| maintenance_interval := 43200 |>) |> |>
    <| dgpo ::= fun d => d <| next_maintenance_time := 1499996400 |> |>.

Definition ex_run := perform_chain_maintenance (FC := fc_ref) (BO := boost_ref) 1000 1500000000 (Tally [] [] [] 0) ex_upkeep.
Definition ex_after : database := match ex_run with Ok (_, d) => d | Err _ => ex_upkeep end.

Lemma ex_run_ok : exists t, ex_run = Ok (t, ex_after).
Proof.
  destruct (result_ok_true ex_run) as [[t d] H]; [by vm_compute|]. exists t. unfold ex_after. by rewrite H.
Qed.

Lemma ex_upkeep_wf : wf_db (FC := fc_ref) ex_upkeep.
Proof. apply db_check_ok. by vm_compute. Qed.

Lemma maintenance_conserves_witness : treasury ex_after CORE_ASSET = treasury ex_upkeep CORE_ASSET.
Proof.
  destruct ex_run_ok as [t H].
  destruct (@maintenance_conserves fc_ref fc_ref_laws boost_ref 1000 1500000000 (Tally [] [] [] 0) t ex_upkeep ex_after
    ex_upkeep_wf H) as (_ & d & Hd & E).
  rewrite E, Hd by by vm_compute. rewrite core_in_0. lia.
Defined.

Lemma maintenance_schedule_witness : 1500000000 < next_maintenance_time (dgpo ex_after) <= 1500043200 /\
  maintenance_interval (parameters ex_after) = 43200.
Proof.
  destruct ex_run_ok as [t H]. assert (E : maintenance_interval (parameters ex_after) = 43200) by by vm_compute.
  destruct (@maintenance_schedule fc_ref fc_ref_laws boost_ref 1000 (Tally [] [] [] 0) t ex_upkeep ex_after)
    as (T & B & _); [ground|by rewrite E|by rewrite E|exact H|]. rewrite T, E in B. split; [exact B|exact E].
Defined.

Lemma ex_upkeep_feeds : sound_feeds (FC := fc_ref) ex_upkeep.
Proof.
  intros i b Hi. apply elem_of_list_to_map_2 in Hi. apply list_elem_of_singleton in Hi as [= -> ->].
  right. split; [split; ground|ground].
Qed.

Lemma maintenance_terminates_witness : terminates ex_run.
Proof. apply (@maintenance_terminates fc_ref fc_ref_laws boost_ref). apply ex_upkeep_feeds. Defined.

Lemma buyback_orders_gone_witness :
  exists db', create_buyback_orders (FC := fc_ref) ex_upkeep = Ok db' /\ next_instance (limit_orders db') = 8%N /\
    objs (limit_orders db') !! 6%N = None /\ objs (limit_orders db') !! 7%N = None.
Proof.
  destruct (result_ok_true (create_buyback_orders (FC := fc_ref) ex_upkeep)) as [db' H]; [by vm_compute|].
  exists db'. split; [exact H|].
  assert (E : match create_buyback_orders (FC := fc_ref) ex_upkeep with
    Ok d => next_instance (limit_orders d) | Err _ => 0%N end = 8%N) by by vm_compute.
  rewrite H in E. split; [exact E|].
  destruct (@buyback_orders_gone fc_ref fc_ref_laws ex_upkeep db' ex_upkeep_wf H) as [G _].
  split; by apply G.
Defined.

Lemma voted_rate_spec_witness :
  exists r, voted_rate (BO := boost_ref) (Rate_tally 100 300 0) = Ok r /\ neutral_rate < r <= maximum_rate.
Proof.
  destruct (@voted_rate_spec boost_ref boost_ref_laws (Rate_tally 100 300 0)) as (r & H & [_ B] & E & _); [ground..|].
  exists r. split; [exact H|]. split; [rewrite E; by vm_compute|exact B].
Defined.

Lemma issuance_rate_vote_spec_witness :
  let voted := ex_upkeep <| cc_rate_votes := {[ 11%N := (1, 1400000000) ]} |>
                 <| dgpo ::= fun d => d <| time := CC_VOTE_START_TIME |> |> in
  forall db', update_issuance_rate (BO := boost_ref) voted <> Ok db'.
Proof.
  intros voted. destruct (@issuance_rate_vote_spec boost_ref boost_ref_laws voted) as (_ & _ & H).
  apply H; [ground|]. by vm_compute.
Defined.
