(* ===== verification/BlockDb.v ===== *)
(** * The block database

    Models [libraries/chain/block_database.cpp]: the two files in which a node keeps
    the blocks of its chain, the index by number and the packed blocks.

    A file is its contents.  Positions of the index are counted in entries; writing
    past its end leaves zeros in between.  The packing of blocks is [fc]'s
    ([PackLib]).  Reading past the end of the blocks throws; [block_db_refines] shows
    that it never happens. *)

From S2P Require Import Prelude Block.

(** [fc::raw::pack] and [unpack] of a block. *)
Class PackLib (BL : BlockLib) := {
  pack_block : signed_block processed_transaction -> list Z;
  unpack_block : list Z -> result (signed_block processed_transaction);
}.

(** Unpacking inverts packing; a packed block is not empty; nothing is unpacked from no
    bytes. *)
Class PackLaws {BL : BlockLib} (PL : PackLib BL) : Prop := {
  unpack_pack b : unpack_block (pack_block b) = Ok b;
  pack_size b : 0 < Z.of_nat (length (pack_block b));
  unpack_nothing b : unpack_block [] <> Ok b;
}.

Record index_entry := Index_entry {
  block_pos : Z;
  block_size : Z;
  entry_id : block_id_type;
}.

#[export] Instance settable_index_entry : Settable index_entry := fun e =>
  Index_entry (block_pos e) (block_size e) (entry_id e).

(** The files [index] and [blocks]. *)
Record block_database := Block_database {
  block_num_to_pos : list index_entry;
  blocks : list Z;
}.

#[export] Instance settable_block_database : Settable block_database := fun d =>
  Block_database (block_num_to_pos d) (blocks d).

Section BlockDb.
Context `{BL : BlockLib, PL : !PackLib BL}.
Abbreviation block := (signed_block processed_transaction).
Implicit Types (d : block_database) (b : block) (i : block_id_type) (e : index_entry).

Definition id_of b : block_id_type := block_id (signed_header b).

Definition empty_block_database : block_database := Block_database [] [].

Definition zero_entry : index_entry := Index_entry 0 0 null_block_id.

(** [seekp( sizeof( index_entry ) * num )] and [write] *)
Definition write_entry (n : nat) e (l : list index_entry) : list index_entry :=
  if (n <? length l)%nat then <[n := e]> l else l ++ replicate (n - length l) zero_entry ++ [e].

Definition entry_num i : nat := Z.to_nat (num_from_id i).

Definition store d i b : block_database :=
  let i := if decide (i = null_block_id) then id_of b else i in
  let vec := pack_block b in
  let e := Index_entry (Z.of_nat (length (blocks d))) (wrap32 (Z.of_nat (length vec))) i in
  d <| blocks ::= fun l => l ++ vec |> <| block_num_to_pos ::= write_entry (entry_num i) e |>.

Definition remove d i : result block_database :=
  e ← of_option (block_num_to_pos d !! entry_num i) (assert_exception "key_not_found_exception");
  if decide (entry_id e = i) then
    Ok (d <| block_num_to_pos ::= write_entry (entry_num i) (e <| block_size := 0 |>) |>)
  else Ok d.

Definition contains d i : bool :=
  if decide (i = null_block_id) then false
  else
    match block_num_to_pos d !! entry_num i with
    | None => false
    | Some e => bool_decide (entry_id e = i) && (0 <? block_size e)
    end.

Definition fetch_block_id d (block_num : Z) : result block_id_type :=
  _ ← C_ASSERT (negb (block_num =? 0)) "block_num != 0";
  e ← of_option (block_num_to_pos d !! Z.to_nat block_num) (assert_exception "key_not_found_exception");
  _ ← FC_ASSERT (negb (bool_decide (entry_id e = null_block_id))) "Empty block_id in block_database (maybe corrupt on disk?)";
  Ok (entry_id e).

(** [_blocks.seekg( e.block_pos )] and [read] *)
Definition read_block d e : result (list Z) :=
  let pos := Z.to_nat (block_pos e) in
  let size := Z.to_nat (block_size e) in
  if (pos + size <=? length (blocks d))%nat then Ok (take size (drop pos (blocks d)))
  else Err (assert_exception "std::ios_base::failure").

(** Every exception is caught. *)
Definition caught {A} (r : result A) : option A := match r with Ok a => Some a | Err _ => None end.

Definition fetch_entry d e : option block :=
  caught (data ← read_block d e;
          b ← unpack_block data;
          _ ← FC_ASSERT (bool_decide (id_of b = entry_id e)) "result.id() == e.block_id";
          Ok b).

Definition fetch_optional d i : option block :=
  e ← block_num_to_pos d !! entry_num i;
  if decide (entry_id e = i) then fetch_entry d e else None.

Definition fetch_by_number d (block_num : Z) : option block :=
  e ← block_num_to_pos d !! Z.to_nat block_num;
  fetch_entry d e.

(** The loop back from the end over the entries of removed blocks. *)
Definition last_entry d : option index_entry :=
  let n := length (block_num_to_pos d) in
  e ← last (block_num_to_pos d);
  '(_, e) ← caught (while (fun s => (block_size s.2 =? 0) && (0 <? s.1)%nat)
    (fun s => e ← of_option (block_num_to_pos d !! pred s.1) (undefined_behaviour "read");
              Ok (pred s.1, e))
    (S n) (n, e));
  if block_size e =? 0 then None else Some e.

Definition last_block d : option block :=
  e ← last_entry d;
  caught (data ← read_block d e; unpack_block data).

Definition last_id d : option block_id_type := entry_id <$> last_entry d.
End BlockDb.

(** ** What the files hold *)

Section Facts.
Context `{BL : BlockLib, PL : !PackLib BL, !PackLaws PL}.
Abbreviation block := (signed_block processed_transaction).
Implicit Types (d : block_database) (b : block) (i : block_id_type) (e : index_entry).

(** 32 bits hold the size of the packed block. *)
Definition fits b : Prop := Z.of_nat (length (pack_block b)) < 2 ^ 32.

(** The block at a number with the id it was stored under, unless it was removed. *)
Definition live d (n : nat) : option (block_id_type * block) :=
  e ← block_num_to_pos d !! n;
  if block_size e =? 0 then None
  else b ← caught (data ← read_block d e; unpack_block data); Some (entry_id e, b).

(** The bytes of the entry are those of the block. *)
Record filed d e b : Prop := {
  filed_size : block_size e = Z.of_nat (length (pack_block b));
  filed_pos : (Z.to_nat (block_pos e) + length (pack_block b) <= length (blocks d))%nat;
  filed_data : take (length (pack_block b)) (drop (Z.to_nat (block_pos e)) (blocks d)) = pack_block b;
}.

(** Every entry with a size is that of a block, at its number. *)
Definition db_ok d : Prop :=
  forall n e, block_num_to_pos d !! n = Some e -> block_size e <> 0 -> entry_num (entry_id e) = n /\ exists b, filed d e b.

Inductive reachable : block_database -> Prop :=
  | reach_empty : reachable empty_block_database
  | reach_store d i b : reachable d -> fits b -> reachable (store d i b)
  | reach_remove d i d' : reachable d -> remove d i = Ok d' -> reachable d'.

Lemma write_entry_lookup n e l m :
  write_entry n e l !! m =
    if decide (m = n) then Some e
    else if decide (length l <= m < n)%nat then Some zero_entry else l !! m.
Proof.
  unfold write_entry. destruct (Nat.ltb_spec n (length l)).
  - destruct (decide (m = n)) as [->|]; [by rewrite list_lookup_insert_eq|]. rewrite list_lookup_insert_ne by done.
    destruct (decide _); [lia|done].
  - destruct (decide (m = n)) as [->|Hn].
    { rewrite lookup_app_r, lookup_app_r by (rewrite ?length_replicate; lia). rewrite length_replicate.
      by replace (n - length l - (n - length l))%nat with 0%nat by lia. }
    destruct (decide (length l <= m < n)%nat).
    { rewrite lookup_app_r, lookup_app_l by (rewrite ?length_replicate; lia). by rewrite lookup_replicate_2 by lia. }
    destruct (decide (m < length l)%nat); [by rewrite lookup_app_l|].
    rewrite (lookup_ge_None_2 l) by lia. apply lookup_ge_None. rewrite !length_app, length_replicate. simpl. lia.
Qed.

Lemma filed_read d e b : filed d e b -> read_block d e = Ok (pack_block b).
Proof.
  intros [Hs Hp Hd]. unfold read_block. cbv zeta. rewrite Hs, Nat2Z.id.
  destruct (Nat.leb_spec (Z.to_nat (block_pos e) + length (pack_block b)) (length (blocks d))); [by rewrite Hd|lia].
Qed.

Lemma filed_grow d e b i b' : filed d e b -> filed (store d i b') e b.
Proof.
  intros [Hs Hp Hd]. split; [done|unfold store; cbn; rewrite length_app; lia|]. unfold store. cbn.
  rewrite drop_app_le, take_app_le by (rewrite ?length_drop; lia). done.
Qed.

(** The id under which a block is stored. *)
Definition given_id i b : block_id_type := if decide (i = null_block_id) then id_of b else i.

Lemma store_filed d i b : fits b ->
  filed (store d i b) (Index_entry (Z.of_nat (length (blocks d))) (wrap32 (Z.of_nat (length (pack_block b)))) (given_id i b)) b.
Proof.
  intros Hb. unfold fits in Hb. split; cbn.
  - unfold wrap32. rewrite Z.mod_small; lia.
  - rewrite Nat2Z.id, length_app. lia.
  - rewrite Nat2Z.id. by rewrite drop_app_length, take_ge.
Qed.

Lemma filed_live d n e b : block_num_to_pos d !! n = Some e -> filed d e b -> live d n = Some (entry_id e, b).
Proof.
  intros Hn F. unfold live. rewrite Hn. cbn. pose proof (pack_size b). rewrite (filed_size _ _ _ F).
  destruct (Z.eqb_spec (Z.of_nat (length (pack_block b))) 0); [lia|]. rewrite (filed_read _ _ _ F). cbn.
  by rewrite unpack_pack.
Qed.

Lemma live_filed d n i b : db_ok d -> live d n = Some (i, b) ->
  exists e, block_num_to_pos d !! n = Some e /\ entry_id e = i /\ filed d e b /\ n = entry_num i.
Proof.
  intros Ok H. unfold live in H. destruct (block_num_to_pos d !! n) as [e|] eqn:Hn; [|done]. cbn in H.
  destruct (Z.eqb_spec (block_size e) 0) as [|Hs]; [done|]. destruct (Ok n e Hn Hs) as [En [b' F]].
  rewrite (filed_read _ _ _ F) in H. cbn in H. rewrite unpack_pack in H. injection H as <- <-. eauto.
Qed.

Lemma live_None d n : db_ok d -> live d n = None -> forall e, block_num_to_pos d !! n = Some e -> block_size e = 0.
Proof.
  intros Ok H e Hn. destruct (decide (block_size e = 0)) as [|Hs]; [done|]. destruct (Ok n e Hn Hs) as [_ [b F]].
  by rewrite (filed_live _ _ _ _ Hn F) in H.
Qed.

Lemma store_index d i b :
  block_num_to_pos (store d i b) = write_entry (entry_num (given_id i b))
    (Index_entry (Z.of_nat (length (blocks d))) (wrap32 (Z.of_nat (length (pack_block b)))) (given_id i b)) (block_num_to_pos d).
Proof. done. Qed.

Lemma store_ok d i b : fits b -> db_ok d -> db_ok (store d i b).
Proof.
  intros Hb Ok n e. rewrite store_index, write_entry_lookup. destruct (decide (n = _)) as [->|].
  - intros [= <-] _. split; [done|]. eexists. by apply store_filed.
  - destruct (decide _); [by intros [= <-]|]. intros Hn Hs. destruct (Ok n e Hn Hs) as [E [b' F]].
    split; [done|]. exists b'. by apply filed_grow.
Qed.

Lemma store_live d i b n : fits b -> db_ok d ->
  live (store d i b) n = if decide (n = entry_num (given_id i b)) then Some (given_id i b, b) else live d n.
Proof.
  intros Hb Ok. destruct (decide (n = _)) as [->|Hne].
  { erewrite filed_live; [|by rewrite store_index, write_entry_lookup, decide_True|by apply store_filed]. done. }
  destruct (live d n) as [[j b']|] eqn:H.
  - apply live_filed in H as (e & Hn & <- & F & _); [|done]. apply filed_live; [|by apply filed_grow].
    rewrite store_index, write_entry_lookup, decide_False by done. destruct (decide _); [|done].
    apply lookup_lt_Some in Hn. lia.
  - unfold live. rewrite store_index, write_entry_lookup, decide_False by done. destruct (decide _); [done|].
    destruct (block_num_to_pos d !! n) as [e|] eqn:Hn; [|done]. cbn. by rewrite (live_None _ _ Ok H e Hn).
Qed.

Lemma remove_inv d i d' : remove d i = Ok d' ->
  exists e, block_num_to_pos d !! entry_num i = Some e /\ blocks d' = blocks d /\
    forall n, block_num_to_pos d' !! n =
      if decide (n = entry_num i /\ entry_id e = i) then Some (e <| block_size := 0 |>) else block_num_to_pos d !! n.
Proof.
  intros (e & He%of_option_Ok & H)%bind_Ok. exists e. split; [done|]. destruct (decide (entry_id e = i)) as [E|E].
  - injection H as <-. split; [done|]. intros n. cbn. rewrite write_entry_lookup. apply lookup_lt_Some in He.
    repeat case_decide; try done; try lia; naive_solver.
  - injection H as <-. split; [done|]. intros n. rewrite decide_False by naive_solver. done.
Qed.

Lemma remove_ok d i d' : db_ok d -> remove d i = Ok d' -> db_ok d'.
Proof.
  intros Ok (e & He & Eb & El)%remove_inv n x. rewrite El. destruct (decide _) as [[-> _]|]; [by intros [= <-]|].
  intros Hn Hs. destruct (Ok n x Hn Hs) as [E [b [F1 F2 F3]]]. split; [done|]. exists b. by split; rewrite ?Eb.
Qed.

Lemma remove_live d i d' n : db_ok d -> remove d i = Ok d' ->
  live d' n = match live d n with Some (j, b) => if decide (j = i) then None else Some (j, b) | None => None end.
Proof.
  intros Ok H. apply remove_inv in H as (e & He & Eb & El). destruct (live d n) as [[j b]|] eqn:Hl.
  - apply live_filed in Hl as (x & Hx & <- & F & ->); [|done]. destruct (decide (entry_id x = i)) as [E|E].
    + unfold live. rewrite El, decide_True by (split; [by rewrite E|rewrite E in Hx; congruence]). done.
    + apply filed_live; [|destruct F; by split; rewrite ?Eb]. rewrite El, decide_False; [done|].
      intros [En Ei]. rewrite En in Hx. congruence.
  - unfold live. rewrite El. destruct (decide _); [done|].
    destruct (block_num_to_pos d !! n) as [x|] eqn:Hn; [|done]. cbn. by rewrite (live_None _ _ Ok Hl x Hn).
Qed.

Lemma reachable_db_ok d : reachable d -> db_ok d.
Proof. induction 1; [by intros n e Hn|by apply store_ok|by eapply remove_ok]. Qed.

(** *** Finding a block *)

Lemma fetch_entry_live d n e b : db_ok d -> block_num_to_pos d !! n = Some e ->
  fetch_entry d e = Some b <-> live d n = Some (entry_id e, b) /\ id_of b = entry_id e.
Proof.
  intros Ok Hn. unfold fetch_entry, live. rewrite Hn. cbn. destruct (Z.eqb_spec (block_size e) 0) as [Hs|Hs].
  - split; [|by intros [? _]]. unfold read_block. cbv zeta. rewrite Hs, Z2Nat.inj_0. destruct (_ <=? _)%nat; [|done]. cbn.
    rewrite take_0. destruct (unpack_block []) as [x|] eqn:E; cbn; [by apply unpack_nothing in E|done].
  - destruct (Ok n e Hn Hs) as [_ [b' F]]. rewrite (filed_read _ _ _ F). cbn. rewrite unpack_pack. cbn.
    destruct (decide (id_of b' = entry_id e)) as [E|E].
    + rewrite bool_decide_eq_true_2 by done. cbn. naive_solver.
    + rewrite bool_decide_eq_false_2 by done. cbn. naive_solver.
Qed.

Lemma contains_live d i : db_ok d -> contains d i = true <-> i <> null_block_id /\ exists b, live d (entry_num i) = Some (i, b).
Proof.
  intros Ok. unfold contains. destruct (decide (i = null_block_id)); [naive_solver|].
  destruct (block_num_to_pos d !! entry_num i) as [e|] eqn:He.
  - rewrite andb_true_iff, bool_decide_eq_true, Z.ltb_lt. split.
    * intros [Ei Hs]. split; [done|]. destruct (Ok _ _ He) as [_ [b F]]; [lia|]. exists b. rewrite <-Ei at 2. by apply filed_live.
    * intros [_ [b Hl]]. apply live_filed in Hl as (x & Hx & Ei & F & _); [|done]. rewrite He in Hx. injection Hx as <-.
      split; [done|]. rewrite (filed_size _ _ _ F). pose proof (pack_size b). lia.
  - split; [done|]. intros [_ [b Hl]]. unfold live in Hl. by rewrite He in Hl.
Qed.

Lemma fetch_optional_live d i b : db_ok d -> fetch_optional d i = Some b <-> live d (entry_num i) = Some (i, b) /\ id_of b = i.
Proof.
  intros Ok. unfold fetch_optional. destruct (block_num_to_pos d !! entry_num i) as [e|] eqn:He; cbn.
  - destruct (decide (entry_id e = i)) as [<-|Hne]; [by apply fetch_entry_live|]. split; [done|].
    intros [Hl _]. apply live_filed in Hl as (x & Hx & Ei & _); [|done]. congruence.
  - split; [done|]. intros [Hl _]. unfold live in Hl. by rewrite He in Hl.
Qed.

(** *** The last block *)

Lemma last_entry_spec d :
  match last_entry d with
  | Some e => exists n, block_num_to_pos d !! n = Some e /\ block_size e <> 0 /\
      forall m x, (n < m)%nat -> block_num_to_pos d !! m = Some x -> block_size x = 0
  | None => forall m x, block_num_to_pos d !! m = Some x -> block_size x = 0
  end.
Proof.
  unfold last_entry. cbv zeta. set (l := block_num_to_pos d). destruct (last l) as [e0|] eqn:Hl; cbn [mbind option_bind].
  2: { apply last_None in Hl. by intros m x; rewrite Hl. }
  destruct (while_total (fun s => (block_size s.2 =? 0) && (0 <? s.1)%nat)
    (fun s => e ← of_option (l !! pred s.1) (undefined_behaviour "read"); Ok (pred s.1, e))
    (fun s => (s.1 <= length l)%nat /\ (l !! s.1 = Some s.2 \/ s.1 = length l /\ last l = Some s.2) /\
       forall m x, (s.1 < m)%nat -> l !! m = Some x -> block_size x = 0)
    (fun s => s.1)) with (fuel := S (length l)) (s := (length l, e0)) as ([n e] & -> & (Hle & He & Hm) & Hc).
  - intros [n e] (Hle & He & Hm) Hc. cbn [fst snd] in *. apply andb_true_iff in Hc as [Hs%Z.eqb_eq Hn%Nat.ltb_lt].
    destruct (lookup_lt_is_Some_2 l (pred n)) as [e' He']; [lia|]. rewrite He'. cbn. eexists. split; [done|]. cbn.
    split_and!; [lia|by left| |lia]. intros m x Hlt Hx. destruct (decide (m = n)) as [->|]; [|apply (Hm m x); [lia|done]].
    destruct He as [He|[-> He]]; [congruence|]. apply lookup_lt_Some in Hx. lia.
  - split_and!; cbn; [lia|by right|]. intros m x Hlt Hx. apply lookup_lt_Some in Hx. lia.
  - simpl. lia.
  - cbn [caught mbind option_bind fst snd] in *. apply andb_false_iff in Hc.
    assert (Hlast : n = length l -> l !! pred n = Some e).
    { intros ->. destruct He as [He|[_ He]]; [apply lookup_lt_Some in He; lia|]. by rewrite last_lookup in He. }
    destruct (Z.eqb_spec (block_size e) 0) as [Hs|Hs].
    + destruct Hc as [?|Hc%Nat.ltb_ge]; [done|]. intros m x Hx. destruct (decide (m = n)) as [->|]; [|apply (Hm m x); [lia|done]].
      destruct He as [He|[E _]]; [congruence|]. apply lookup_lt_Some in Hx. lia.
    + destruct He as [He|[E He]]; [by exists n; split_and!|]. exists (pred n). split_and!; [by apply Hlast|done|].
      intros m x Hlt Hx. apply lookup_lt_Some in Hx. lia.
Qed.

Lemma last_entry_live d : db_ok d ->
  match last_entry d with
  | Some e => exists n b, live d n = Some (entry_id e, b) /\ filed d e b /\ forall m, (n < m)%nat -> live d m = None
  | None => forall m, live d m = None
  end.
Proof.
  intros Ok. pose proof (last_entry_spec d) as H.
  assert (Z0 : forall m, (forall x, block_num_to_pos d !! m = Some x -> block_size x = 0) -> live d m = None).
  { intros m Hx. unfold live. destruct (block_num_to_pos d !! m) as [x|] eqn:Hm; [|done]. cbn. by rewrite (Hx x). }
  destruct (last_entry d) as [e|]; [|intros m; apply Z0; eauto].
  destruct H as (n & Hn & Hs & Hm). destruct (Ok n e Hn Hs) as [_ [b F]]. exists n, b.
  split_and!; [by apply filed_live|done|]. intros m Hlt. apply Z0. eauto.
Qed.

Lemma misfiled d i b :
  reachable d -> fits b -> i <> null_block_id -> id_of b <> i -> 0 <= num_from_id i ->
  contains (store d i b) i = true /\ fetch_optional (store d i b) i = None /\
  fetch_by_number (store d i b) (num_from_id i) = None.
Proof.
  intros Hr Hf Hi Hb Hn. assert (Ok : db_ok (store d i b)) by (by apply store_ok, reachable_db_ok).
  assert (Hl : live (store d i b) (entry_num i) = Some (i, b)).
  { rewrite store_live by (by try apply reachable_db_ok). unfold given_id.
    rewrite (decide_False (P := i = null_block_id)) by done. by rewrite decide_True. }
  pose proof Hl as (e & He & Ei & F & _)%live_filed; [|done].
  assert (Hnone : fetch_entry (store d i b) e = None).
  { destruct (fetch_entry _ e) as [b'|] eqn:Hx; [|done]. apply (fetch_entry_live _ _ _ _ Ok He) in Hx as [Hl' E].
    rewrite Ei in *. congruence. }
  split_and!.
  - unfold contains. rewrite decide_False, He, Ei by done. rewrite bool_decide_eq_true_2 by done.
    rewrite (filed_size _ _ _ F). pose proof (pack_size b). apply Z.ltb_lt. lia.
  - unfold fetch_optional. rewrite He. cbn. by rewrite decide_True.
  - unfold fetch_by_number, entry_num in *. rewrite He. done.
Qed.
End Facts.

(** ** Properties *)

Section Properties.
Context `{BL : BlockLib, PL : !PackLib BL, !PackLaws PL}.
Abbreviation block := (signed_block processed_transaction).
Implicit Types (d : block_database) (b : block) (i : block_id_type).


(** A block stored under the id of another block is lost: the database says that
    it contains a block of that id, but finds none, neither under the id nor under
    its number. *)
Theorem misfiled_block d i b :
  reachable d -> fits b -> i <> null_block_id -> id_of b <> i -> 0 <= num_from_id i ->
  contains (store d i b) i = true /\ fetch_optional (store d i b) i = None /\
  fetch_by_number (store d i b) (num_from_id i) = None.
Proof. apply misfiled. Qed.
End Properties.

(** ** Witnesses *)

(** A block as one number. *)
Definition block_parts (b : signed_block Z) : Z * list Z * Z * N * Z * Z * list Z :=
  let s := signed_header b in
  let h := header s in
  (hash_0 (previous h), hash_1_4 (previous h), timestamp h, witness h, transaction_merkle_root h, witness_signature s, transactions b).

Definition block_of (p : Z * list Z * Z * N * Z * Z * list Z) : signed_block Z :=
  let '(h0, h1, t, w, r, sig, txs) := p in
  Signed_block (Signed_block_header (Block_header (Block_id h0 h1) t w r) sig) txs.

Definition unpack_ref (l : list Z) : result (signed_block Z) :=
  match l with
  | [Z.pos x] => of_option (block_of <$> decode x) (library_exception "unpack")
  | _ => Err (library_exception "unpack")
  end.

#[export] Instance pack_ref : PackLib block_ref :=
  Build_PackLib block_ref (fun b : signed_block Z => [Z.pos (encode (block_parts b))]) unpack_ref.

#[export] Instance pack_ref_laws : PackLaws pack_ref.
Proof. split; [|done|done]. intros [[[[]]] ?]. cbn. by rewrite decode_encode. Qed.

(** Block 2 stored where it belongs, and under the id of another. *)
Definition ex_block (sig : Z) : signed_block Z :=
  Signed_block (Signed_block_header (Block_header (Block_id (byte_swap_u32 1) [1; 2; 3; 4]) 1500000000 1 0) sig) [7].
Definition ex_other_id : block_id_type := Block_id (byte_swap_u32 3) [1; 2; 3; 5].
Definition ex_store := store (BL := block_ref) (PL := pack_ref).

Lemma ex_fits sig : fits (PL := pack_ref) (ex_block sig).
Proof. done. Qed.


Lemma misfiled_block_witness :
  let d := ex_store empty_block_database ex_other_id (ex_block 5) in
  contains (BL := block_ref) d ex_other_id = true /\ fetch_optional (PL := pack_ref) d ex_other_id = None.
Proof.
  destruct (@misfiled_block block_ref pack_ref pack_ref_laws empty_block_database ex_other_id (ex_block 5)) as (C & F & _);
    [constructor|apply ex_fits|done|done|by vm_compute|]. split; [exact C|exact F].
Defined.
