(* ===== verification/Chain.v ===== *)
(** * Applying a block

    Models [database::apply_block] and [_apply_block] of
    [libraries/chain/db_block.cpp]: the header, the transactions, the maintenance when
    it is due, and everything that expires, in the order of the code.

    The packing of transactions is [fc]'s: a block holds [processed_transaction]s, of
    which [as_signed] gives the signed transaction ([ProcessedLib]).  What the current
    fee schedule says of an operation is read from the database by [schedule] and
    [schedule_scale]; the schedule itself is not modelled. *)

From S2P Require Import Prelude FcLib Block Asset Vesting Objects Database Ledger Market Trading Deflation Evaluator.
From S2P Require Import MarketOps Feeds AssetOps AssetFacts Capital Accounts Governance Operations Frames Clearing.
From S2P Require Import Authority Proposals Witness Transactions Election Budget Maintenance.

Definition skip_fork_db : Z := 8.
Definition skip_block_size_check : Z := 16.
Definition skip_merkle_check : Z := 128.
Definition skip_undo_history_check : Z := 512.
(** [~0] *)
Definition skip_everything : Z := 2 ^ 32 - 1.

(** A [processed_transaction] is a signed transaction, with the results of its
    operations. *)
Class ProcessedLib (BL : BlockLib) := {
  as_signed : processed_transaction -> signed_transaction;
}.

(** The database with the buffers of the tally, which are not objects. *)
Record chain := Chain {
  ledger : chain_state;
  buffers : tally;
}.

#[export] Instance settable_chain : Settable chain := fun c => Chain (ledger c) (buffers c).

Section Chain.
Context `{FC : FcLib, BL : BlockLib, KL : KeyLib, TL : TransactionLib, NE : NthElement, BO : BoostLib, PR : !ProcessedLib BL}.
Variables (schedule : database -> full_operation -> Z) (schedule_scale : database -> Z).
Abbreviation block := (signed_block processed_transaction).
Implicit Types (c : chain) (s : chain_state) (b : block).

(** [_checkpoints]: the ids of blocks by number, in the order of the numbers. *)
Abbreviation checkpoints := (gmap Z block_id_type).

Definition later_checkpoint (x y : Z * block_id_type) : Prop := y.1 <= x.1.
#[export] Instance later_checkpoint_dec x y : Decision (later_checkpoint x y).
Proof. unfold later_checkpoint. apply _. Defined.

(** [_checkpoints.rbegin()] *)
Definition last_checkpoint (cps : checkpoints) : option (Z * block_id_type) :=
  head (merge_sort later_checkpoint (map_to_list cps)).

(** The fee of a cancellation depends on nothing in the operation. *)
Definition cancel_value s : Z :=
  fees s (ordinary (limit_order_cancel (Limit_order_cancel_operation (Asset 0 CORE_ASSET) 0 0))).

Definition set_db s (db : database) : chain_state := s <| chain_db := db |>.

(** The header of the block and its transactions, up to [update_global_dynamic_data],
    which sets the size of the undo and the fork database to the number returned. *)
Definition apply_transactions (skip : Z) s b : result chain_state :=
  foldM (fun s t => apply_transaction skip s (as_signed t)) s (transactions b).

Definition maintenance_due s b : bool :=
  next_maintenance_time (dgpo (chain_db s)) <=? timestamp (header (signed_header b)).

Definition apply_head (skip : Z) (cps : checkpoints) s b : result (N * chain_state * Z) :=
  _ ← (if skips skip skip_merkle_check then Ok tt
       else
         root ← calculate_merkle_root b;
         FC_ASSERT (transaction_merkle_root (header (signed_header b)) =? root)
           "next_block.transaction_merkle_root == next_block.calculate_merkle_root()");
  signing_witness ← validate_block_header skip s (signed_header b);
  s ← apply_transactions skip s b;
  '(db, max_size) ← update_global_dynamic_data (skips skip skip_undo_history_check) (fst <$> last_checkpoint cps)
                      (chain_db s) (signed_header b);
  Ok (signing_witness, set_db s db, max_size).

(** [perform_chain_maintenance], after which another fee schedule may hold. *)
Definition maintain (maint_needed : bool) c b : result chain :=
  if maint_needed then
    let h := signed_header b in
    '(t, db) ← perform_chain_maintenance (block_num h) (timestamp (header h)) (buffers c) (chain_db (ledger c));
    Ok (Chain ((set_db (ledger c) db) <| fees := schedule db |> <| fee_scale := schedule_scale db |>) t)
  else Ok c.

(** What expires, in this order. *)
Definition clear_expired s : result chain_state :=
  s ← clear_expired_transactions s;
  f ← clear_expired_proposals (fees s) (fee_scale s) (full_of s);
  db ← clear_expired_orders (cancel_value s) (fee_scale s) (base_db f);
  db ← update_expired_feeds db;
  db ← update_withdraw_permissions db;
  Ok (with_full s (f <| base_db := db |>)).

Definition apply_rest (signing_witness : N) (maint_needed : bool) c b : result chain :=
  let h := signed_header b in
  db ← update_signing_witness (chain_db (ledger c)) h signing_witness;
  db ← update_last_irreversible_block db;
  c ← maintain maint_needed (c <| ledger := set_db (ledger c) db |>) b;
  s ← create_block_summary (ledger c) h;
  s ← clear_expired s;
  db ← update_witness_schedule (update_maintenance_flag (chain_db s) maint_needed);
  Ok (c <| ledger := set_db s db |>).

(** [_apply_block]; the second result is the size of the undo database. *)
Definition _apply_block (skip : Z) (cps : checkpoints) c b : result (chain * Z) :=
  let maint_needed := maintenance_due (ledger c) b in
  '(signing_witness, s, max_size) ← apply_head skip cps (ledger c) b;
  c ← apply_rest signing_witness maint_needed (c <| ledger := s |>) b;
  Ok (c, max_size).

(** [apply_block]: a block with a number that has a checkpoint must be that one, and up
    to the last checkpoint almost nothing is checked. *)
Definition checked_skip (skip : Z) (cps : checkpoints) b : result Z :=
  let n := block_num (signed_header b) in
  match last_checkpoint cps with
  | Some (last, i) =>
      if bool_decide (i = null_block_id) then Ok skip
      else
        _ ← match cps !! n with
            | Some i => FC_ASSERT (bool_decide (block_id (signed_header b) = i)) "Block did not match checkpoint"
            | None => Ok tt
            end;
        Ok (if n <=? last then skip_everything else skip)
  | None => Ok skip
  end.

Definition apply_block (skip : Z) (cps : checkpoints) c b : result (chain * Z) :=
  skip ← checked_skip skip cps b;
  _apply_block skip cps c b.
End Chain.

(** ** Facts *)

(** A well-formed database stays so and keeps its value in every asset but the core. *)
Definition preserves `{FC : FcLib} (db db' : database) : Prop :=
  wf_db db -> wf_db db' /\ forall a, a <> CORE_ASSET -> unbacked db' a = unbacked db a.

Section Facts.
Context `{FC : FcLib, !FcLaws FC, BL : BlockLib, KL : KeyLib, TL : TransactionLib, NE : NthElement, BO : BoostLib, PR : !ProcessedLib BL}.
Variables (schedule : database -> full_operation -> Z) (schedule_scale : database -> Z).
Abbreviation block := (signed_block processed_transaction).
Implicit Types (c : chain) (s : chain_state) (b : block) (db : database).

#[export] Instance preserves_preorder : PreOrder preserves.
Proof.
  split; [by intros db W|]. intros db1 db2 db3 H12 H23 W. destruct (H12 W) as [W2 E2]. destruct (H23 W2) as [W3 E3].
  split; [done|]. intros a Ha. by rewrite E3, E2.
Qed.

Lemma core_in_other a z : a <> CORE_ASSET -> core_in a z = 0.
Proof. intros Ha. unfold core_in. by rewrite (proj2 (N.eqb_neq a CORE_ASSET)). Qed.

Lemma drains_preserves db db' : drains db db' (fun _ => 0) -> preserves db db'.
Proof. intros D W. destruct (D W) as (W' & _ & d & _ & E). split; [done|]. intros a Ha. rewrite E, core_in_other by done. lia. Qed.

Lemma moves_preserves db db' : moves db db' (fun _ => 0) -> preserves db db'.
Proof. intros M. by apply drains_preserves, moves_drains. Qed.

Lemma sustains_preserves db db' : sustains db db' -> preserves db db'.
Proof.
  intros S W. destruct (S W) as (W' & _ & d & _ & E). split; [done|]. intros a Ha. specialize (E a). unfold treasury in E.
  rewrite !core_in_other in E by done. lia.
Qed.

Lemma preserves_value s db : preserves (chain_db s) db -> keeps_value (full_of s) (full_of (set_db s db)).
Proof. intros P W St. destruct (P W) as [W' E]. split_and!; [exact W'|exact St|exact E]. Qed.

(** *** The head *)

Lemma miss_slots_frame signer db l db' :
  foldM (miss_slot signer) db l = Ok db' -> exists w, db' = db <| witnesses := w |>.
Proof.
  intros H. refine (foldM_inv _ (fun d => exists w, d = db <| witnesses := w |>) _ _ _ _ _ H).
  - intros d i d' [w ->] _ Hm. unfold miss_slot in Hm. inv_result. case_match; inv_result; by eexists.
  - exists (witnesses db). by destruct db.
Qed.

(** What a block writes into the dynamic properties. *)
Lemma update_dynamic_inv skip_undo cp db h db' n :
  update_global_dynamic_data skip_undo cp db h = Ok (db', n) ->
  moves db db' (fun _ => 0) /\ parameters db' = parameters db /\ gov db' = gov db /\ limit_orders db' = limit_orders db /\
  next_maintenance_time (dgpo db') = next_maintenance_time (dgpo db) /\
  head_block_id (dgpo db') = block_id h /\ head_block_number (dgpo db') = block_num h /\
  time (dgpo db') = timestamp (header h) /\ current_witness (dgpo db') = witness (header h).
Proof.
  unfold update_global_dynamic_data. cbv zeta. intros (slots & _ & H)%bind_Ok. apply bind_Ok in H as (u & _ & H).
  apply bind_Ok in H as (d & Hd & H). apply bind_Ok in H as (u2 & _ & [= <- _]). apply miss_slots_frame in Hd as [w ->].
  split_and!; try done. by apply moves_same.
Qed.

(** A transaction leaves what the maintenance and the head of the chain depend on. *)
Lemma apply_transactions_inv skip s b s' :
  apply_transactions skip s b = Ok s' -> same_schedule (chain_db s) (chain_db s').
Proof.
  unfold apply_transactions. intros H. refine (foldM_inv _ (fun x => same_schedule (chain_db s) (chain_db x)) _ _ _ _ _ H); [|done].
  intros s1 t s2 H1 _ (_ & _ & _ & _ & f & H2 & ->)%apply_transaction_inv. etrans; [exact H1|].
  exact (full_operations_schedule _ _ _ _ _ H2).
Qed.

(** The transactions find what they need. *)
Fixpoint block_prepared (skip : Z) s (l : list processed_transaction) : Prop :=
  match l with
  | [] => True
  | t :: l =>
      full_prepared (fees s) (fee_scale s) (full_of s) (operations (trx (as_signed t))) /\
      forall s', apply_transaction skip s (as_signed t) = Ok s' -> block_prepared skip s' l
  end.

Lemma apply_transactions_value skip s b s' :
  block_prepared skip s (transactions b) -> apply_transactions skip s b = Ok s' -> keeps_value (full_of s) (full_of s').
Proof.
  unfold apply_transactions. generalize (transactions b). intros l. revert s.
  induction l as [|t l IH]; intros s Hp H; cbn [foldM block_prepared] in *; [by injection H as <-|].
  destruct Hp as [Hp Hn]. apply bind_Ok in H as (s1 & H1 & H). specialize (Hn _ H1). etrans; [|by eapply IH].
  apply apply_transaction_inv in H1 as (_ & _ & _ & _ & f & H1 & ->).
  pose proof (full_operations_value _ _ _ _ _ Hp H1) as V. by destruct f.
Qed.

Lemma apply_head_inv skip cps s b w s' n :
  apply_head skip cps s b = Ok (w, s', n) ->
  validate_block_header skip s (signed_header b) = Ok w /\
  exists s1 db, apply_transactions skip s b = Ok s1 /\
    update_global_dynamic_data (skips skip skip_undo_history_check) (fst <$> last_checkpoint cps) (chain_db s1) (signed_header b) = Ok (db, n) /\
    s' = set_db s1 db.
Proof.
  unfold apply_head. intros (u & _ & H)%bind_Ok. apply bind_Ok in H as (w1 & Hw & H). apply bind_Ok in H as (s1 & Hs & H).
  apply bind_Ok in H as ([db m] & Hd & [= <- <- <-]). eauto 6.
Qed.

(** *** The rest *)

(** What the dynamic properties say of the head, whatever the budgets, the last
    irreversible block and the flags. *)
Definition tip (d : dynamic_global_property_object) : Z * block_id_type * Z * N :=
  (head_block_number d, head_block_id d, time d, current_witness d).

Lemma tip_clock d d' : clock_of d' = clock_of d -> tip d' = tip d /\ next_maintenance_time d' = next_maintenance_time d.
Proof.
  intros H. unfold tip. pose proof (f_equal head_block_number H) as E1. pose proof (f_equal head_block_id H) as E2.
  pose proof (f_equal time H) as E3. pose proof (f_equal current_witness H) as E4.
  pose proof (f_equal next_maintenance_time H) as E5. cbn in *. by rewrite E1, E2, E3, E4.
Qed.

Lemma tip_head d d' : head_of d' = head_of d -> tip d' = tip d.
Proof.
  intros H. unfold tip. pose proof (f_equal head_block_number H) as E1. pose proof (f_equal head_block_id H) as E2.
  pose proof (f_equal time H) as E3. pose proof (f_equal current_witness H) as E4. cbn in *. by rewrite E1, E2, E3, E4.
Qed.

Lemma deposit_witness_pay_dgpo db i x db' : deposit_witness_pay db i x = Ok db' -> dgpo db' = dgpo db /\ parameters db' = parameters db.
Proof.
  unfold deposit_witness_pay. destruct (x =? 0); [by intros [= <-]|]. intros (w & _ & H)%bind_Ok.
  apply bind_Ok in H as ([v d] & H1 & H). assert (dgpo d = dgpo db /\ parameters d = parameters db) as [E1 E2].
  { by apply deposit_lazy_vesting_only in H1 as [vb ->]. }
  destruct v; by injection H as <-.
Qed.

Lemma signing_witness_inv db h w db' :
  update_signing_witness db h w = Ok db' ->
  moves db db' (fun _ => 0) /\ tip (dgpo db') = tip (dgpo db) /\
  next_maintenance_time (dgpo db') = next_maintenance_time (dgpo db) /\ parameters db' = parameters db.
Proof.
  unfold update_signing_witness. cbv zeta. intros (slot & _ & H)%bind_Ok. apply bind_Ok in H as (l & Hl & H).
  set (pay := Z.min _ _) in *. set (db1 := db <| dgpo ::= _ |>) in H. apply bind_Ok in H as (d & Hd & [= <-]).
  pose proof (deposit_witness_pay_dgpo _ _ _ _ Hd) as [E1 E2]. apply deposit_witness_pay_moves in Hd.
  assert (M1 : moves db db1 (fun a => core_in a (- pay))).
  { intros [[]]. split_and!; [by split|done|]. intros a. unfold unbacked, holdings, supply, fees_of, dynamic_of, core_in. simpl.
    inv_safe. destruct (a =? CORE_ASSET)%N; lia. }
  split_and!; [|cbn; by rewrite E1|cbn; by rewrite E1|cbn; by rewrite E2].
  eapply moves_eq; [eapply moves_step; [eapply moves_step; [exact M1|exact Hd]|by apply moves_same]|].
  intros a. unfold core_in. destruct (a =? CORE_ASSET)%N; lia.
Qed.

Lemma last_irreversible_inv db db' :
  update_last_irreversible_block db = Ok db' ->
  moves db db' (fun _ => 0) /\ tip (dgpo db') = tip (dgpo db) /\
  next_maintenance_time (dgpo db') = next_maintenance_time (dgpo db) /\ parameters db' = parameters db.
Proof.
  unfold update_last_irreversible_block. cbv zeta. intros (ws & _ & H)%bind_Ok. apply bind_Ok in H as (w & _ & H).
  destruct (_ <? _); injection H as <-; (split_and!; [by apply moves_same|done..]).
Qed.

Lemma maintain_inv m c b c' :
  maintain schedule schedule_scale m c b = Ok c' ->
  preserves (chain_db (ledger c)) (chain_db (ledger c')) /\ tip (dgpo (chain_db (ledger c'))) = tip (dgpo (chain_db (ledger c))) /\
  chain_proposals (ledger c') = chain_proposals (ledger c) /\ recent (ledger c') = recent (ledger c) /\
  (m = false -> c' = c) /\
  (m = true -> exists db, perform_chain_maintenance (block_num (signed_header b)) (timestamp (header (signed_header b)))
     (buffers c) (chain_db (ledger c)) = Ok (buffers c', db) /\ chain_db (ledger c') = db).
Proof.
  unfold maintain. cbv zeta. destruct m; [|by intros [= <-]]. intros ([t db] & H & [= <-])%bind_Ok. split_and!; try done.
  - by eapply sustains_preserves, maintenance_sustains.
  - by eapply tip_head, maintenance_head.
  - eauto.
Qed.

Lemma update_expired_feed_frame db i db' :
  update_expired_feed db i = Ok db' ->
  preserves db db' /\ dgpo db' = dgpo db /\ parameters db' = parameters db /\ gov db' = gov db /\
  forall j, same_seller (objs (limit_orders db) !! j) (objs (limit_orders db') !! j).
Proof.
  intros H. pose proof (update_expired_feed_burns _ _ _ H) as [B D]. split; [by apply drains_preserves, burns_drains|].
  split; [done|]. unfold update_expired_feed in H. cbv zeta in H. apply bind_Ok in H as (a & _ & H).
  apply bind_Ok in H as ([bi b] & _ & H). apply bind_Ok in H as (d & Hd & H). apply bind_Ok in H as ([bi' b'] & _ & H).
  assert (parameters d = parameters db /\ gov d = gov db /\
    forall j, same_seller (objs (limit_orders db) !! j) (objs (limit_orders d) !! j)) as R.
  { destruct (if _ <? _ then _ else _); [|injection Hd as <-; split_and!; [done..|intros j; apply same_seller_refl]].
    apply bind_Ok in Hd as (b1 & Hm & Hd). apply bind_Ok in Hd as ([c d'] & Hd & [= ->]).
    pose proof (check_call_orders_keeps _ _ _ _ Hd) as [_ _ _ _ P _ G _]. pose proof (trades_sellers _ _ (check_call_orders_trades _ _ _ _ Hd)) as S.
    split_and!; [exact P|exact G|exact S]. }
  by destruct (_ && _); injection H as <-.
Qed.

Lemma update_expired_feeds_frame db db' :
  update_expired_feeds db = Ok db' ->
  preserves db db' /\ dgpo db' = dgpo db /\ parameters db' = parameters db /\ gov db' = gov db /\
  forall j, same_seller (objs (limit_orders db) !! j) (objs (limit_orders db') !! j).
Proof.
  unfold update_expired_feeds. intros H.
  refine (foldM_inv _ (fun d => preserves db d /\ dgpo d = dgpo db /\ parameters d = parameters db /\ gov d = gov db /\
    forall j, same_seller (objs (limit_orders db) !! j) (objs (limit_orders d) !! j)) _ _ _ _ _ H).
  - intros d i d' (P & D & Q & G & S) _ (P' & D' & Q' & G' & S')%update_expired_feed_frame.
    split_and!; [by etrans|congruence..|]. intros j. by eapply same_seller_trans.
  - split_and!; try done. intros j. apply same_seller_refl.
Qed.

(** Nothing in the state has expired. *)
Record fresh s : Prop := {
  fresh_transactions i t : recent s !! i = Some t -> head_block_time (chain_db s) <= expiration (trx t);
  fresh_proposals i p : objs (chain_proposals s) !! i = Some p -> head_block_time (chain_db s) < expiration_time p;
  fresh_orders i o : objs (limit_orders (chain_db s)) !! i = Some o -> head_block_time (chain_db s) < Database.expiration o;
  fresh_permissions i w : objs (withdraw_permissions (gov (chain_db s))) !! i = Some w ->
    head_block_time (chain_db s) < wp_expiration w;
}.

Lemma same_time db db' : clock_of (dgpo db') = clock_of (dgpo db) -> head_block_time db' = head_block_time db.
Proof. intros H. exact (f_equal time H). Qed.

Lemma clear_expired_inv s s' :
  clear_expired s = Ok s' ->
  keeps_value (full_of s) (full_of s') /\ clock_of (dgpo (chain_db s')) = clock_of (dgpo (chain_db s)) /\
  settings_of (parameters (chain_db s')) = settings_of (parameters (chain_db s)) /\ fresh s'.
Proof.
  unfold clear_expired. intros (s1 & H1 & H)%bind_Ok. rewrite clear_expired_ok in H1. injection H1 as <-.
  set (s1 := s <| recent ::= filter (alive s) |>) in H. apply bind_Ok in H as (f & Hf & H). change (full_of s1) with (full_of s) in Hf.
  pose proof (clear_expired_value _ _ _ _ Hf) as V. pose proof (clear_expired_schedule _ _ _ _ Hf) as S.
  apply clear_expired_ends in Hf as (T & P & _). apply bind_Ok in H as (d1 & Hd1 & H).
  unfold clear_expired_orders in Hd1. apply bind_Ok in Hd1 as (d0 & Hd0 & Hd1). apply clear_limits_inv in Hd0 as (T0 & D0 & O0).
  apply clear_settlements_cleared in Hd1. pose proof (cleared_trades _ _ Hd1) as T1. pose proof (cleared_moves _ _ Hd1) as M1.
  apply bind_Ok in H as (d2 & Hd2 & H). apply update_expired_feeds_frame in Hd2 as (P2 & D2 & Q2 & _ & S2).
  apply bind_Ok in H as (d3 & Hd3 & [= <-]). destruct (update_withdraw_permissions_ok d2) as (d4 & H4 & W4 & E4).
  rewrite Hd3 in H4. injection H4 as <-.
  assert (D3 : dgpo d3 = dgpo (base_db f)).
  { assert (dgpo d3 = dgpo d2) as -> by by rewrite E4. by rewrite D2, (trades_dgpo _ _ T1), (trades_dgpo _ _ T0). }
  assert (L3 : limit_orders d3 = limit_orders d2) by by rewrite E4.
  split; [|split; [|split]].
  - etrans; [exact V|]. refine (_ : keeps_value f (f <| base_db := d3 |>)). intros W St.
    assert (Pr : preserves (base_db f) d3).
    { etrans; [by apply drains_preserves|]. etrans; [by apply moves_preserves|]. etrans; [exact P2|].
      rewrite E4. by apply moves_preserves, moves_same. }
    destruct (Pr W) as [W' E]. by split_and!.
  - cbn. rewrite D3. exact (sched_clock _ _ S).
  - assert (parameters d3 = parameters d2) as Q3 by by rewrite E4.
    cbn. rewrite Q3, Q2, (trades_parameters _ _ T1), (trades_parameters _ _ T0). exact (sched_settings _ _ S).
  - assert (N : forall d, dgpo d = dgpo (base_db f) -> head_block_time d = head_block_time (base_db f))
      by (intros d E; unfold head_block_time; by rewrite E).
    split; cbn.
    + intros i t Hi. apply map_lookup_filter_Some in Hi as [_ Ha]. unfold alive in Ha. cbn in *. rewrite (N d3 D3), T. exact Ha.
    + intros i p Hi. rewrite (N d3 D3). by eapply P.
    + intros i o Hi. rewrite L3 in Hi. specialize (S2 i). rewrite Hi in S2. pose proof (trades_sellers _ _ T1 i) as S1.
      unfold same_seller in *. destruct (objs (limit_orders d1) !! i) as [o1|]; [|done]. destruct S2 as [_ ->].
      destruct (objs (limit_orders d0) !! i) as [o0|] eqn:H0; [|done]. destruct S1 as [_ ->]. apply O0 in H0.
      rewrite (N d3 D3). rewrite (N d0 (trades_dgpo _ _ T0)) in H0. exact H0.
    + intros i w Hi. rewrite W4 in Hi. apply map_lookup_filter_Some in Hi as [_ Hw]. cbn in Hw. rewrite (N d3 D3).
      rewrite (N d2) in Hw; [exact Hw|]. by rewrite D2, (trades_dgpo _ _ T1), (trades_dgpo _ _ T0).
Qed.

Lemma update_witness_schedule_inv db db' :
  update_witness_schedule db = Ok db' -> exists l, db' = db <| current_shuffled_witnesses := l |>.
Proof.
  unfold update_witness_schedule. cbv zeta. intros (u & _ & H)%bind_Ok. destruct (_ =? 0); injection H as <-; [by eexists|].
  exists (current_shuffled_witnesses db). by destruct db.
Qed.

Lemma maintenance_flag_bit f (m : bool) :
  Z.testbit (Z.lor (Z.land f (Z.lnot maintenance_flag)) (if m then maintenance_flag else 0)) 0 = m.
Proof.
  rewrite Z.lor_spec, Z.land_spec, Z.lnot_spec by done. unfold maintenance_flag. rewrite andb_false_r. by destruct m.
Qed.

(** The steps of a block. *)
Lemma apply_block_inv skip cps c b c' n :
  _apply_block schedule schedule_scale skip cps c b = Ok (c', n) ->
  let m := maintenance_due (ledger c) b in
  exists w s1 db1 db2 db3 c4 s5 s6 db7, validate_block_header skip (ledger c) (signed_header b) = Ok w /\
    apply_transactions skip (ledger c) b = Ok s1 /\
    update_global_dynamic_data (skips skip skip_undo_history_check) (fst <$> last_checkpoint cps) (chain_db s1) (signed_header b) = Ok (db1, n) /\
    update_signing_witness db1 (signed_header b) w = Ok db2 /\ update_last_irreversible_block db2 = Ok db3 /\
    maintain schedule schedule_scale m (c <| ledger := set_db s1 db3 |>) b = Ok c4 /\
    create_block_summary (ledger c4) (signed_header b) = Ok s5 /\ clear_expired s5 = Ok s6 /\
    update_witness_schedule (update_maintenance_flag (chain_db s6) m) = Ok db7 /\
    c' = c4 <| ledger := set_db s6 db7 |>.
Proof.
  cbv zeta. unfold _apply_block. cbv zeta. intros ([[w s] k] & H1 & H)%bind_Ok. apply bind_Ok in H as (c1 & H & [= <- <-]).
  apply apply_head_inv in H1 as (Hw & s1 & db1 & Hs & Hd & ->). unfold apply_rest in H. cbv zeta in H.
  apply bind_Ok in H as (db2 & H2 & H). apply bind_Ok in H as (db3 & H3 & H). apply bind_Ok in H as (c4 & H4 & H).
  apply bind_Ok in H as (s5 & H5 & H). apply bind_Ok in H as (s6 & H6 & H). apply bind_Ok in H as (db7 & H7 & [= <-]).
  by exists w, s1, db1, db2, db3, c4, s5, s6, db7.
Qed.

Lemma create_block_summary_inv s h s' :
  create_block_summary s h = Ok s' -> chain_db s' = chain_db s /\ chain_proposals s' = chain_proposals s /\ full_of s' = full_of s.
Proof. unfold create_block_summary. cbv zeta. intros (u & _ & [= <-])%bind_Ok. done. Qed.

(** The block is the head afterwards. *)
Lemma apply_block_tip skip cps c b c' n :
  _apply_block schedule schedule_scale skip cps c b = Ok (c', n) ->
  let h := signed_header b in
  tip (dgpo (chain_db (ledger c'))) = (block_num h, block_id h, timestamp (header h), witness (header h)).
Proof.
  intros (w & s1 & db1 & db2 & db3 & c4 & s5 & s6 & db7 & _ & _ & H2 & H3 & H4 & H5 & H6 & H7 & H8 & ->)%apply_block_inv.
  cbv zeta. apply update_dynamic_inv in H2 as (_ & _ & _ & _ & _ & I2 & B2 & T2 & C2).
  apply signing_witness_inv in H3 as (_ & E3 & _). apply last_irreversible_inv in H4 as (_ & E4 & _).
  apply maintain_inv in H5 as (_ & E5 & _). apply create_block_summary_inv in H6 as (E6 & _).
  apply clear_expired_inv in H7 as (_ & C7 & _). rewrite E6 in C7. apply tip_clock in C7 as [E7 _].
  apply update_witness_schedule_inv in H8 as [l ->].
  etrans; [exact E7|]. rewrite E5. cbn. rewrite E4, E3. unfold tip. by rewrite B2, I2, T2, C2.
Qed.
End Facts.

(** ** Properties *)

Section Properties.
Context `{FC : FcLib, !FcLaws FC, BL : BlockLib, KL : KeyLib, TL : TransactionLib, NE : NthElement, BO : BoostLib, PR : !ProcessedLib BL}.
Variables (schedule : database -> full_operation -> Z) (schedule_scale : database -> Z).
Abbreviation block := (signed_block processed_transaction).
Implicit Types (c : chain) (s : chain_state) (b : block) (db : database).

Abbreviation _apply_block := (_apply_block schedule schedule_scale).


(** A block leaves nothing expired.  Afterwards no transaction that is remembered, no
    proposal, no limit order and no withdrawal permission is past its time, whatever
    the transactions and the proposals of the block have created. *)
Theorem block_leaves_nothing_expired (skip : Z) (cps : gmap Z block_id_type) c b c' (n : Z) :
  _apply_block skip cps c b = Ok (c', n) -> fresh (ledger c').
Proof.
  intros (w & s1 & db1 & db2 & db3 & c4 & s5 & s6 & db7 & _ & _ & _ & _ & _ & _ & _ & H7 & H8 & ->)%apply_block_inv.
  apply clear_expired_inv in H7 as (_ & _ & _ & [F1 F2 F3 F4]). apply update_witness_schedule_inv in H8 as [l ->]. by split.
Qed.

(** A block that is applied extends the head and becomes it.  Its time is later; the
    maintenance takes place exactly when it is due, which the flag then says; and
    afterwards the next maintenance is in the future. *)
Theorem block_becomes_head (skip : Z) (cps : gmap Z block_id_type) c b c' (n : Z) :
  _apply_block skip cps c b = Ok (c', n) ->
  let h := signed_header b in
  let d := dgpo (chain_db (ledger c)) in
  let d' := dgpo (chain_db (ledger c')) in
  let interval := maintenance_interval (parameters (chain_db (ledger c'))) in
  previous (header h) = head_block_id d /\ time d < time d' /\
  tip d' = (block_num h, block_id h, timestamp (header h), witness (header h)) /\
  Z.testbit (dynamic_flags d') 0 = (next_maintenance_time d <=? time d') /\
  (time d' < next_maintenance_time d -> next_maintenance_time d' = next_maintenance_time d) /\
  (0 <= next_maintenance_time d -> 0 < interval -> time d' + interval < 2 ^ 32 -> time d' < next_maintenance_time d').
Proof.
  intros (w & s1 & db1 & db2 & db3 & c4 & s5 & s6 & db7 & Hw & H1 & H2 & H3 & H4 & H5 & H6 & H7 & H8 & ->)%apply_block_inv.
  cbv zeta. apply validate_block_header_time in Hw as Ht. unfold validate_block_header in Hw. cbv zeta in Hw.
  apply bind_Ok in Hw as (u & Hid%guard_or_Ok & _). apply bool_decide_eq_true in Hid.
  apply apply_transactions_inv in H1 as S1. pose proof (tip_clock _ _ (sched_clock _ _ S1)) as [_ N1].
  apply update_dynamic_inv in H2 as (_ & _ & _ & _ & N2 & I2 & B2 & T2 & C2).
  apply signing_witness_inv in H3 as (_ & E3 & N3 & _). apply last_irreversible_inv in H4 as (_ & E4 & N4 & _).
  pose proof (maintain_inv _ _ _ _ _ _ H5) as (_ & E5 & _ & _ & F5 & M5). cbn in E5, F5, M5.
  apply create_block_summary_inv in H6 as (E6 & _ & _). apply clear_expired_inv in H7 as (_ & C7 & Q7 & _). rewrite E6 in C7, Q7.
  pose proof (tip_clock _ _ C7) as [E7 N7]. apply update_witness_schedule_inv in H8 as [l ->].
  set (c' := c4 <| ledger := _ |>). set (d' := dgpo (chain_db (ledger c'))).
  assert (Hd : tip d' = tip (dgpo (chain_db s6)) /\ next_maintenance_time d' = next_maintenance_time (dgpo (chain_db s6)) /\
    parameters (chain_db (ledger c')) = parameters (chain_db s6)) by done. destruct Hd as (T9 & N9 & P9).
  assert (Etip : tip d' = (block_num (signed_header b), block_id (signed_header b), timestamp (header (signed_header b)), witness (header (signed_header b)))).
  { rewrite T9, E7, E5, E4, E3. unfold tip. by rewrite B2, I2, T2, C2. }
  assert (Etime : time d' = timestamp (header (signed_header b))) by (unfold tip in Etip; congruence).
  rewrite Etime. split; [done|]. split; [exact Ht|]. split; [exact Etip|]. split.
  { exact (maintenance_flag_bit _ _). }
  rewrite N9, N7. split.
  - intros Hlt. assert (maintenance_due (ledger c) b = false) as Hm by (unfold maintenance_due; apply Z.leb_gt; lia).
    rewrite (F5 Hm). cbn. lia.
  - intros H0 Hi Hb. destruct (maintenance_due (ledger c) b) eqn:Hm.
    + destruct (M5 eq_refl) as (db & Hrun & Edb). rewrite Edb in *. unfold maintenance_due in Hm. apply Z.leb_le in Hm.
      assert (T3 : head_block_time db3 = timestamp (header (signed_header b))).
      { unfold tip in E3, E4. unfold head_block_time. congruence. }
      pose proof (f_equal maintenance_interval Q7) as Qi. cbn in Qi. rewrite P9, Qi in Hi, Hb. rewrite <-T3 in Hrun.
      apply maintenance_next in Hrun as [Hn _]; [lia|unfold head_block_time in *; lia|done|lia].
    + rewrite (F5 eq_refl). cbn. unfold maintenance_due in Hm. apply Z.leb_gt in Hm. lia.
Qed.
End Properties.

(** ** Witnesses *)

(** Every transaction is the payment. *)
Definition processed_ref : ProcessedLib block_ref := Build_ProcessedLib block_ref (fun _ : Z => ex_signed).

(** The head of the chain. *)
Definition ex_parent : signed_block_header :=
  Signed_block_header (Block_header (Block_id (byte_swap_u32 999) [1; 2; 3; 4]) 1500000000 1 0) 0.

(** The chain of [ex_chain] with the summary that the block will replace, and an order
    and a proposal that expire with it. *)
Definition ex_ledger : chain_state :=
  ex_chain <| block_summaries ::= fun m => <[1001 := null_block_id]> (<[1002 := null_block_id]> m) |>
           <| chain_proposals := table_of [(0%N, ex_proposal [ex_proposed] 1500000003)] 1 |>
           <| chain_db ::= fun db => db <| limit_orders := table_of [(0%N, ex_maker <| Database.expiration := 1500000004 |>)] 1 |>
             <| dgpo ::= fun d => d <| head_block_id := block_id (BL := block_ref) ex_parent |> |> |>.
Definition ex_link : chain := Chain ex_ledger (Tally [] [] [] 0).

Definition ex_root : Z :=
  match calculate_merkle_root (BL := block_ref) (Signed_block (Signed_block_header (Block_header null_block_id 0 0 0) 0) [1]) with
  Ok r => r | Err _ => 0 end.
Definition ex_header : signed_block_header := seal (BL := block_ref) 0 (chain_db ex_ledger) 1500000005 2 80 ex_root.
Definition ex_new_block : signed_block Z := Signed_block ex_header [1].

Definition ex_schedule (db : database) (op : full_operation) : Z := 20.
Definition ex_schedule_scale (db : database) : Z := 10000.

Definition ex_applied := _apply_block (FC := fc_ref) (BL := block_ref) (KL := key_ref) (TL := transaction_ref)
  (NE := sorting_nth_element) (BO := boost_ref) (PR := processed_ref) ex_schedule ex_schedule_scale 0 ∅ ex_link ex_new_block.

Lemma ex_applied_ok : exists c' n, ex_applied = Ok (c', n).
Proof. destruct (result_ok_true ex_applied) as [[c' n] H]; [by vm_compute|]. by exists c', n. Qed.

Lemma ex_ledger_wf : wf_db (FC := fc_ref) (chain_db (ledger ex_link)).
Proof. apply db_check_ok. by vm_compute. Qed.

Lemma ex_proposed_steady : steady (FC := fc_ref) (NE := sorting_nth_element) ex_proposed.
Proof. apply steady_ordinary; [by vm_compute|]. intros db. exact I. Qed.

Lemma ex_ledger_steady : steady_proposals (FC := fc_ref) (NE := sorting_nth_element) (full_of (ledger ex_link)).
Proof.
  intros i p Hi. change (objs (proposals (full_of (ledger ex_link)))) with (list_to_map [(0%N, ex_proposal [ex_proposed] 1500000003)] : gmap N proposal_object) in Hi.
  apply elem_of_list_to_map_2, list_elem_of_singleton in Hi. injection Hi as -> ->. cbn. constructor; [exact ex_proposed_steady|constructor].
Qed.

Lemma ex_block_prepared : block_prepared (FC := fc_ref) (BL := block_ref) (KL := key_ref) (TL := transaction_ref)
  (NE := sorting_nth_element) (PR := processed_ref) 0 (ledger ex_link) (transactions ex_new_block).
Proof.
  assert (transactions ex_new_block = [1]) as -> by reflexivity.
  split; [|intros s _; exact I]. split; [|intros s _; exact I]. split; [by vm_compute|exact I].
Qed.


(** The order and the proposal are gone. *)
Lemma block_leaves_nothing_expired_witness :
  exists c' n, ex_applied = Ok (c', n) /\
    limit_expired ((chain_db ex_ledger) <| dgpo ::= fun d => d <| time := 1500000005 |> |>) = true /\ fresh (ledger c').
Proof.
  destruct ex_applied_ok as (c' & n & H). exists c', n. split; [exact H|]. split; [by vm_compute|].
  unfold ex_applied in H. exact (@block_leaves_nothing_expired fc_ref fc_ref_laws block_ref key_ref transaction_ref sorting_nth_element boost_ref processed_ref
    ex_schedule ex_schedule_scale 0 ∅ ex_link ex_new_block c' n H).
Defined.

Lemma block_becomes_head_witness :
  exists c' n, ex_applied = Ok (c', n) /\ head_block_number (dgpo (chain_db (ledger c'))) = 1001.
Proof.
  destruct ex_applied_ok as (c' & n & H). exists c', n. split; [exact H|].
  unfold ex_applied in H. destruct (@block_becomes_head fc_ref fc_ref_laws block_ref key_ref transaction_ref sorting_nth_element boost_ref processed_ref
    ex_schedule ex_schedule_scale 0 ∅ ex_link ex_new_block c' n H) as (_ & _ & T & _).
  etrans; [exact (f_equal (fun x => x.1.1.1) T)|by vm_compute].
Defined.
