(* ===== verification/Node.v ===== *)
(** * The node

    Models the rest of [libraries/chain/db_block.cpp]: [push_block] with the switch to
    another fork, [pop_block], the pending transactions that are taken out and put
    back ([db_with.hpp]), and the queries of known blocks and transactions.

    The state is the chain after the head block, the states to which its last blocks
    can be undone (what the undo database restores, see [Db.v]), the fork database, the
    block database, and the transactions that wait.  An exception leaves the changes
    that were made before it, so that an action returns a state in any case
    ([action]). *)

From S2P Require Import ForkDb BlockDb.
From S2P Require Import Prelude FcLib Block Asset Vesting Objects Database Ledger Market Trading Deflation Evaluator.
From S2P Require Import MarketOps Feeds AssetOps AssetFacts Capital Accounts Governance Operations Frames Clearing.
From S2P Require Import Authority Proposals Witness Transactions Election Budget Maintenance Chain.

Record node `{BL : BlockLib} := Node {
  head_state : chain;
  undo_stack : list chain_state;             (* the newest first *)
  undo_size : Z;                             (* undo_database::max_size *)
  fork_db : fork_database (signed_block processed_transaction);
  block_db : block_database;                 (* _block_id_to_block *)
  checkpoints : gmap Z block_id_type;
  pending_session : option chain_state;      (* the state with the pending transactions, which it lists *)
  popped_tx : list signed_transaction;
}.

#[export] Instance settable_node `{BL : BlockLib} : Settable node := fun n =>
  Node _ (head_state n) (undo_stack n) (undo_size n) (fork_db n) (block_db n) (checkpoints n) (pending_session n) (popped_tx n).

(** ** Actions *)

Section Actions.
Context `{BL : BlockLib}.

Definition action (A : Type) : Type := node -> result A * node.

Definition action_ret {A} (x : A) : action A := fun n => (Ok x, n).
Definition action_bind {A B} (m : action A) (f : A -> action B) : action B := fun n =>
  match m n with
  | (Ok x, n) => f x n
  | (Err e, n) => (Err e, n)
  end.

(** The state; a change of it; an exception; an operation of one part. *)
Definition get {A} (f : node -> A) : action A := fun n => (Ok (f n), n).
Definition change (f : node -> node) : action unit := fun n => (Ok tt, f n).
Definition raise {A} (r : result A) : action A := fun n => (r, n).
Definition attempt_change {A} (f : node -> result A) (set : A -> node -> node) : action unit := fun n =>
  match f n with Ok x => (Ok tt, set x n) | Err e => (Err e, n) end.

(** [try ... catch( const fc::exception& e )] *)
Definition try_catch {A} (m : action A) (handler : exn -> action A) : action A := fun n =>
  match m n with
  | (Ok x, n) => (Ok x, n)
  | (Err e, n) => if is_fc_exception e then handler e n else (Err e, n)
  end.

Fixpoint for_each {A} (f : A -> action unit) (l : list A) : action unit :=
  match l with
  | [] => action_ret tt
  | x :: l => action_bind (f x) (fun _ => for_each f l)
  end.

Fixpoint loop_while (cond : node -> bool) (body : action unit) (fuel : nat) : action unit := fun n =>
  if cond n then
    match fuel with
    | O => (Err out_of_fuel, n)
    | S fuel => action_bind body (fun _ => loop_while cond body fuel) n
    end
  else (Ok tt, n).
End Actions.

#[export] Instance action_mbind `{BL : BlockLib} : MBind action := fun A B f m => action_bind m f.

Section Node.
Context `{FC : FcLib, BL : BlockLib, KL : KeyLib, TL : TransactionLib, NE : NthElement, BO : BoostLib, PR : !ProcessedLib BL, PL : !PackLib BL}.
Variables (schedule : database -> full_operation -> Z) (schedule_scale : database -> Z).
(** What a block that fails leaves in the buffers of the tally. *)
Variable leftover : chain -> signed_block processed_transaction -> tally.
Abbreviation block := (signed_block processed_transaction).
Abbreviation item := (fork_item block).
Implicit Types (n : node) (b : block) (i : block_id_type) (it : item) (t : signed_transaction).

Definition dgpo_of n : dynamic_global_property_object := dgpo (chain_db (ledger (head_state n))).
Definition head_id n : block_id_type := head_block_id (dgpo_of n).
Definition head_num n : Z := head_block_number (dgpo_of n).

(** ** Queries *)

Definition is_known_block n i : bool := ForkDb.is_known_block (fork_db n) i || contains (block_db n) i.

Definition fetch_block_by_id n i : option block :=
  match fetch_block (fork_db n) i with
  | Some it => Some (data it)
  | None => fetch_optional (block_db n) i
  end.

Definition fetch_block_by_number n (num : Z) : option block :=
  match ForkDb.fetch_block_by_number (fork_db n) num with
  | [it] => Some (data it)
  | _ => fetch_by_number (block_db n) num
  end.

Definition get_block_id_for_num n (num : Z) : result block_id_type := fetch_block_id (block_db n) num.

(** [get_block_ids_on_fork] *)
Definition get_block_ids_on_fork n (head_of_fork : block_id_type) : result (list block_id_type) :=
  '(first, second) ← fetch_branch_from (fork_db n) (head_id n) head_of_fork;
  x ← of_option (last first) (undefined_behaviour "branches.first.back()");
  y ← of_option (last second) (undefined_behaviour "branches.second.back()");
  _ ← C_ASSERT (bool_decide (previous_id x = previous_id y))
        "branches.first.back()->previous_id() == branches.second.back()->previous_id()";
  Ok ((ForkDb.id <$> second) ++ [previous_id x]).

(** The state that a transaction meets: with those that are pending, which it lists. *)
Definition no_pending (s : chain_state) : chain_state := s <| pending_tx := [] |>.
Definition current n : chain_state := default (no_pending (ledger (head_state n))) (pending_session n).

Definition is_known_transaction n (i : Z) : bool := bool_decide (is_Some (recent (current n) !! i)).

Definition get_recent_transaction n (i : Z) : result signed_transaction :=
  of_option (recent (current n) !! i) (assert_exception "itr != index.end()").

(** ** Sessions *)

(** [start_undo_session]: older states than the size allows are forgotten; on an empty
    stack two states are put. *)
Definition start_session n : list chain_state :=
  let s := ledger (head_state n) in
  s :: match take (Z.to_nat (undo_size n)) (undo_stack n) with [] => [s] | l => l end.

(** The destructor of the session: the objects are as they were, the buffers are not
    objects. *)
Definition undo_session (s : chain_state) (t : tally) n : node :=
  n <| head_state := Chain s t |> <| undo_stack ::= tail |>.

(** A session in which the block is applied, stored under the id and committed.  The
    sizes of the databases change as soon as the head has moved. *)
Definition set_sizes (size : Z) n : node := n <| undo_size := size |> <| fork_db ::= fun f => set_max_size f size |>.

Definition apply_in_session (skip : Z) i b : action unit := fun n =>
  let c := head_state n in
  let cps := checkpoints n in
  let n := n <| undo_stack := start_session n |> in
  match (skip ← checked_skip skip cps b; apply_head skip cps (ledger c) b) with
  | Err e => (Err e, undo_session (ledger c) (buffers c) n)
  | Ok (w, s, size) =>
      let n := set_sizes size n in
      match apply_rest schedule schedule_scale w (maintenance_due (ledger c) b) (c <| ledger := s |>) b with
      | Err e => (Err e, undo_session (ledger c) (leftover c b) n)
      | Ok c => (Ok tt, n <| head_state := c |> <| block_db ::= fun d => BlockDb.store d i b |>)
      end
  end.

(** ** Popping a block *)

Definition pop_undo n : result (chain_state * list chain_state) :=
  match undo_stack n with
  | s :: l => Ok (s, l)
  | [] => Err (assert_exception "!_stack.empty()")
  end.

(** [pop_block]; the transactions of the block wait to be applied again. *)
Definition pop_block : action unit :=
  _ ← change (fun n => n <| pending_session := None |>);
  i ← get head_id;
  head_block ← get (fun n => fetch_block_by_id n i);
  b ← raise (of_option head_block (graphene_exception "pop_empty_chain"));
  _ ← attempt_change (fun n => ForkDb.pop_block (fork_db n)) (fun f n => n <| fork_db := f |>);
  _ ← attempt_change (fun n => BlockDb.remove (block_db n) i) (fun d n => n <| block_db := d |>);
  _ ← attempt_change pop_undo (fun sl n => n <| head_state ::= (fun c => c <| ledger := sl.1 |>) |> <| undo_stack := sl.2 |>);
  change (fun n => n <| popped_tx ::= fun l => map as_signed (transactions b) ++ l |>).

(** ** Switching to another fork *)

(** [while( head_block_id() != ancestor ) pop_block();] every turn takes a state from
    the stack. *)
Definition pop_until (ancestor : block_id_type) : action unit := fun n =>
  loop_while (fun n => negb (bool_decide (head_id n = ancestor))) pop_block (S (length (undo_stack n))) n.

Definition remove_item it : action unit :=
  change (fun n => n <| fork_db ::= fun f => ForkDb.remove f (block_id (signed_header (data it))) |>).

(** The blocks of the good fork, which are stored under the id of the new block. *)
Definition restore_fork (skip : Z) (new_id : block_id_type) (good : list item) : action unit :=
  for_each (fun it => apply_in_session skip new_id (data it)) good.

(** What follows the exception [e] of the first of the blocks [bad], which have not been
    applied; [front] is where the head of the good fork is. *)
Definition abandon_fork (skip : Z) (new_id ancestor : block_id_type) (front : option addr) (bad good : list item) (e : exn)
  : action unit :=
  _ ← for_each remove_item bad;
  _ ← change (fun n => n <| fork_db ::= fun f => set_head f front |>);
  _ ← pop_until ancestor;
  _ ← restore_fork skip new_id good;
  raise (Err e).

Fixpoint push_fork (skip : Z) (new_id ancestor : block_id_type) (front : option addr) (good todo : list item) : action unit :=
  match todo with
  | [] => action_ret tt
  | it :: rest =>
      failed ← try_catch (_ ← apply_in_session skip (ForkDb.id it) (data it); action_ret None) (fun e => action_ret (Some e));
      match failed with
      | None => push_fork skip new_id ancestor front good rest
      | Some e => abandon_fork skip new_id ancestor front todo good e
      end
  end.

Definition switch_fork (skip : Z) (new_id : block_id_type) (new_head : item) : action unit :=
  h ← get head_id;
  f ← get fork_db;
  '(first, second) ← raise (fetch_branch_from f (block_id (signed_header (data new_head))) h);
  last_common ← raise (of_option (last second) (undefined_behaviour "branches.second.back()"));
  let ancestor := previous_id last_common in
  front ← get (fun n => x ← head second; _index (fork_db n) !! ForkDb.id x);
  _ ← pop_until ancestor;
  push_fork skip new_id ancestor front (rev second) (rev first).

(** ** Pushing a block *)

(** The new block on top of the head. *)
Definition extend_head (skip : Z) b : action bool :=
  try_catch (_ ← apply_in_session skip (id_of b) b; action_ret false)
    (fun e => _ ← change (fun n => n <| fork_db ::= fun f => ForkDb.remove f (id_of b) |>); raise (Err e)).

Definition push_to_fork_db b : action item := fun n =>
  match ForkDb.push_block (fork_db n) b with
  | Ok (Some new_head, f) => (Ok new_head, n <| fork_db := f |>)
  | Ok (None, f) => (Err (undefined_behaviour "new_head"), n <| fork_db := f |>)
  | Err e => (Err e, n)
  end.

(** [_push_block]: whether the chain has switched to another fork. *)
Definition _push_block (skip : Z) b : action bool :=
  if skips skip skip_fork_db then extend_head skip b
  else
    new_head ← push_to_fork_db b;
    head ← get head_id;
    num ← get head_num;
    if bool_decide (previous_id new_head = head) then extend_head skip b
    else if num <? block_num (signed_header (data new_head)) then
      _ ← switch_fork skip (id_of b) new_head; action_ret true
    else action_ret false.

(** ** Pending transactions *)

Definition pending n : list signed_transaction := pending_tx (current n).

Definition clear_pending n : node := n <| pending_session := None |>.

(** [_push_transaction] in the session of the pending transactions, which it starts. *)
Definition _push_transaction (skip : Z) t : action unit := fun n =>
  match push_transaction skip (current n) t with
  | Ok s => (Ok tt, n <| pending_session := Some s |>)
  | Err e => (Err e, n <| pending_session := Some (current n) |>)
  end.

(** One transaction of the destructor of [pending_transactions_restorer]. *)
Definition push_again (skip : Z) t : action unit :=
  try_catch
    (known ← get (fun n => is_known_transaction n (transaction_id (trx t)));
     if known : bool then action_ret tt else _push_transaction skip t)
    (fun _ => action_ret tt).

Definition restore_pending (skip : Z) (pending : list signed_transaction) : action unit :=
  popped ← get popped_tx;
  _ ← for_each (push_again skip) popped;
  _ ← change (fun n => n <| popped_tx := [] |>);
  for_each (push_again skip) pending.

(** [push_block]: the restorer runs whatever happens. *)
Definition push_block (skip : Z) b : action bool := fun n =>
  let waiting := pending n in
  let '(r, n) := _push_block skip b (clear_pending n) in
  match restore_pending skip waiting n with
  | (Ok _, n) => (r, n)
  | (Err e, n) => (Err e, n)
  end.
End Node.

(** ** Facts *)

Section ActionFacts.
Context `{BL : BlockLib}.
Implicit Types (n : node).

Lemma action_bind_Ok {A B} (m : action A) (f : A -> action B) n y n' :
  (m ≫= f) n = (Ok y, n') <-> exists x n1, m n = (Ok x, n1) /\ f x n1 = (Ok y, n').
Proof.
  unfold mbind, action_mbind, action_bind. destruct (m n) as [[x|e] n1].
  - split; [eauto|]. by intros (x' & n2 & [= <- <-] & H).
  - split; [done|]. by intros (x' & n2 & ? & H).
Qed.

Lemma action_bind_Err {A B} (m : action A) (f : A -> action B) n e n' :
  (m ≫= f) n = (Err e, n') <-> m n = (Err e, n') \/ exists x n1, m n = (Ok x, n1) /\ f x n1 = (Err e, n').
Proof.
  unfold mbind, action_mbind, action_bind. destruct (m n) as [[x|e'] n1].
  - split; [eauto|]. intros [?|(x' & n2 & [= <- <-] & H)]; done.
  - split; [by left; congruence|]. by intros [[= <- <-]|(x' & n2 & ? & H)].
Qed.

Lemma attempt_change_Ok {A} (f : node -> result A) set n u n' :
  attempt_change f set n = (Ok u, n') <-> exists x, f n = Ok x /\ n' = set x n.
Proof.
  unfold attempt_change. destruct u, (f n) as [x|e]; (split; [|by intros (y & [= <-] & ->)]); [|done].
  intros [= <-]. eauto.
Qed.

Lemma try_catch_inv {A} (m : action A) h n r n' :
  try_catch m h n = (r, n') ->
  (exists x, r = Ok x /\ m n = (Ok x, n')) \/
  exists e n1, m n = (Err e, n1) /\
    (is_fc_exception e = true /\ h e n1 = (r, n') \/ is_fc_exception e = false /\ r = Err e /\ n' = n1).
Proof.
  unfold try_catch. destruct (m n) as [[x|e] n1]; [intros [= <- <-]; eauto|]. intros H. right. exists e, n1. split; [done|].
  destruct (is_fc_exception e); [by left|right]. by injection H as <- <-.
Qed.

(** *** What actions keep, whatever their result *)

Definition stable {A} (P : node -> Prop) (m : action A) : Prop := forall n r n', P n -> m n = (r, n') -> P n'.

Lemma stable_bind {A B} P (m : action A) (f : A -> action B) : stable P m -> (forall x, stable P (f x)) -> stable P (m ≫= f).
Proof.
  intros Hm Hf n r n' Hn H. unfold mbind, action_mbind, action_bind in H. destruct (m n) as [[x|e] n1] eqn:E.
  - exact (Hf x n1 r n' (Hm _ _ _ Hn E) H).
  - injection H as _ <-. exact (Hm _ _ _ Hn E).
Qed.

Lemma stable_get {A} P (f : node -> A) : stable P (get f).
Proof. by intros n r n' Hn [= _ <-]. Qed.
Lemma stable_ret {A} P (x : A) : stable P (action_ret x).
Proof. by intros n r n' Hn [= _ <-]. Qed.
Lemma stable_raise {A} P (x : result A) : stable P (raise x).
Proof. by intros n r n' Hn [= _ <-]. Qed.
Lemma stable_change (P : node -> Prop) f : (forall n, P n -> P (f n)) -> stable P (change f).
Proof. intros Hf n r n' Hn [= _ <-]. auto. Qed.
Lemma stable_attempt {A} (P : node -> Prop) (f : node -> result A) set : (forall x n, P n -> P (set x n)) -> stable P (attempt_change f set).
Proof. intros Hf n r n' Hn H. unfold attempt_change in H. destruct (f n); injection H as _ <-; auto. Qed.

Lemma stable_try {A} P (m : action A) h : stable P m -> (forall e, stable P (h e)) -> stable P (try_catch m h).
Proof.
  intros Hm Hh n r n' Hn H. unfold try_catch in H. destruct (m n) as [[x|e] n1] eqn:E; [injection H as _ <-; exact (Hm _ _ _ Hn E)|].
  destruct (is_fc_exception e); [exact (Hh e n1 r n' (Hm _ _ _ Hn E) H)|injection H as _ <-; exact (Hm _ _ _ Hn E)].
Qed.

Lemma stable_for_each {A} P (f : A -> action unit) l : (forall x, stable P (f x)) -> stable P (for_each f l).
Proof.
  intros Hf. induction l as [|x l IH]; cbn; [apply stable_ret|]. exact (stable_bind _ (f x) _ (Hf x) (fun _ => IH)).
Qed.

Lemma stable_loop P cond body fuel : stable P body -> stable P (loop_while cond body fuel).
Proof.
  intros Hb. induction fuel as [|fuel IH]; intros n r n' Hn H; cbn [loop_while] in H;
    (destruct (cond n); [|by injection H as _ <-]); [by injection H as _ <-|].
  exact (stable_bind P body (fun _ => loop_while cond body fuel) Hb (fun _ => IH) n r n' Hn H).
Qed.
End ActionFacts.

Create HintDb actions.
#[export] Hint Resolve stable_bind stable_get stable_ret stable_raise stable_change stable_attempt stable_try stable_for_each stable_loop : actions.
Ltac stable := repeat first [progress intros | apply stable_bind | apply stable_get | apply stable_ret | apply stable_raise
  | apply stable_change | apply stable_attempt | apply stable_try | apply stable_for_each | case_match].

Section Facts.
Context `{FC : FcLib, !FcLaws FC, BL : BlockLib, !BlockLaws BL, KL : KeyLib, TL : TransactionLib, NE : NthElement, BO : BoostLib,
  PR : !ProcessedLib BL, PL : !PackLib BL, !PackLaws PL}.
Variables (schedule : database -> full_operation -> Z) (schedule_scale : database -> Z)
  (leftover : chain -> signed_block processed_transaction -> tally).
Abbreviation block := (signed_block processed_transaction).
Abbreviation item := (fork_item block).
Implicit Types (n : node) (b : block) (i : block_id_type) (it : item) (t : signed_transaction).

Abbreviation apply_in_session := (apply_in_session schedule schedule_scale leftover).
Abbreviation apply_block := (Chain.apply_block schedule schedule_scale).

(** A session either applies the block and files it, or leaves the objects alone. *)
Lemma session_Ok skip i b n u n' :
  apply_in_session skip i b n = (Ok u, n') ->
  exists size, apply_block skip (checkpoints n) (head_state n) b = Ok (head_state n', size) /\ undo_size n' = size /\
    undo_stack n' = start_session n /\ fork_db n' = set_max_size (fork_db n) size /\
    block_db n' = BlockDb.store (block_db n) i b /\ checkpoints n' = checkpoints n /\
    pending_session n' = pending_session n /\ popped_tx n' = popped_tx n.
Proof.
  unfold Node.apply_in_session, Chain.apply_block, _apply_block. cbv zeta.
  destruct (checked_skip skip (checkpoints n) b) as [sk|e]; cbn [mbind result_bind]; [|done].
  destruct (apply_head _ _ _ _) as [[[w s] size]|e]; cbn [mbind result_bind]; [|done].
  destruct (apply_rest _ _ _ _ _ _) as [c|e] eqn:E; [|done]. intros [= <- <-]. exists size. by split_and!.
Qed.

Lemma session_Err skip i b n e n' :
  apply_in_session skip i b n = (Err e, n') ->
  ledger (head_state n') = ledger (head_state n) /\ block_db n' = block_db n /\ checkpoints n' = checkpoints n /\
  undo_stack n' = tail (start_session n) /\ pending_session n' = pending_session n /\ popped_tx n' = popped_tx n /\
  (fork_db n' = fork_db n \/ exists size, fork_db n' = set_max_size (fork_db n) size).
Proof.
  unfold Node.apply_in_session. cbv zeta. destruct (_ ≫= _) as [[[w s] size]|e'].
  - destruct (apply_rest _ _ _ _ _ _) as [c|e'']; [done|]. intros [= <- <-]. split_and!; try done. right. by exists size.
  - intros [= <- <-]. split_and!; try done. by left.
Qed.

(** *** Popping *)

Lemma pop_Ok n u n' :
  pop_block n = (Ok u, n') ->
  exists s b, undo_stack n = s :: undo_stack n' /\ head_state n' = (head_state n) <| ledger := s |> /\
    fetch_block_by_id n (head_id n) = Some b /\ ForkDb.pop_block (fork_db n) = Ok (fork_db n') /\
    BlockDb.remove (block_db n) (head_id n) = Ok (block_db n') /\
    popped_tx n' = map as_signed (transactions b) ++ popped_tx n /\ pending_session n' = None /\ checkpoints n' = checkpoints n.
Proof.
  unfold pop_block. intros H. apply action_bind_Ok in H as (u1 & n1 & [= <- <-] & H).
  apply action_bind_Ok in H as (i & n2 & [= <- <-] & H). apply action_bind_Ok in H as (hb & n3 & [= <- <-] & H).
  apply action_bind_Ok in H as (b & n4 & Hb & H). injection Hb as Hb <-. apply of_option_Ok in Hb.
  apply action_bind_Ok in H as (u2 & n5 & H1 & H). apply attempt_change_Ok in H1 as (f & Hf & ->).
  apply action_bind_Ok in H as (u3 & n6 & H1 & H). apply attempt_change_Ok in H1 as (d & Hd & ->).
  apply action_bind_Ok in H as (u4 & n7 & H1 & H). apply attempt_change_Ok in H1 as ([s l] & Hs & ->).
  injection H as _ <-. unfold pop_undo in Hs. cbn in *. destruct (undo_stack n) as [|s0 l0]; [done|]. injection Hs as -> ->.
  by exists s, b.
Qed.

(** [k] blocks have been popped. *)
Inductive pops : nat -> node -> node -> Prop :=
  | pops_none n : pops 0 n n
  | pops_more k n n1 n2 : pop_block n = (Ok tt, n1) -> pops k n1 n2 -> pops (S k) n n2.

Lemma pop_until_Ok ancestor n u n' : pop_until ancestor n = (Ok u, n') -> head_id n' = ancestor /\ exists k, pops k n n'.
Proof.
  unfold pop_until. generalize (S (length (undo_stack n))). intros fuel. revert n.
  induction fuel as [|fuel IH]; intros n H; cbn [loop_while] in H;
    (destruct (negb (bool_decide (head_id n = ancestor))) eqn:E;
      [|injection H as _ <-; apply negb_false_iff, bool_decide_eq_true in E; split; [done|exists 0%nat; constructor]]).
  - done.
  - apply (action_bind_Ok pop_block) in H as ([] & n1 & H1 & H). apply IH in H as [Ha [k Hk]]. split; [done|].
    exists (S k). by econstructor.
Qed.

(** The states that are passed are those of the undo database. *)
Lemma pops_states k n n' : pops k n n' ->
  undo_stack n' = drop k (undo_stack n) /\ buffers (head_state n') = buffers (head_state n) /\ checkpoints n' = checkpoints n /\
  Some (ledger (head_state n')) = (ledger (head_state n) :: undo_stack n) !! k.
Proof.
  induction 1 as [n|k n n1 n2 H _ (IH1 & IH2 & IH3 & IH4)]; [by split_and!|].
  apply pop_Ok in H as (s & b & Es & Eh & _ & _ & _ & _ & _ & Ec). rewrite Es. cbn. rewrite IH1, IH2, IH3, Ec, Eh.
  split_and!; [done..|]. rewrite IH4, Eh. by destruct k.
Qed.

(** Every pop takes the head of the fork database one block down. *)
Lemma fork_pop_head f f' : fork_ok f -> ForkDb.pop_block f = Ok f' ->
  fork_ok f' /\ exists h h', head_item f = Some h /\ head_item f' = Some h' /\ num h = num h' + 1.
Proof.
  intros Hf H. split; [by eapply fork_ok_pop_block|]. unfold ForkDb.pop_block in H. apply bind_Ok in H as (a & Ha%of_option_Ok & H).
  apply bind_Ok in H as (h & Hh%of_option_Ok & H). apply bind_Ok in H as (p & Hp%of_option_Ok & [= <-]).
  unfold lock in Hp. destruct (prev h) as [q|] eqn:Eq; [|done]. cbn in Hp. destruct (held f q); [|done]. injection Hp as ->.
  destruct (item_ok_prev _ _ (ok_item _ Hf _ _ Hh) _ Eq) as (h' & Hh' & _ & En). exists h, h'.
  unfold head_item. rewrite Ha. cbn. done.
Qed.

Lemma pops_fork k n n' h : pops k n n' -> fork_ok (fork_db n) -> head_item (fork_db n) = Some h ->
  fork_ok (fork_db n') /\ exists h', head_item (fork_db n') = Some h' /\ num h' = num h - Z.of_nat k.
Proof.
  intros H. revert h. induction H as [n|k n n1 n2 H _ IH]; intros h Hf Hh; [split; [done|exists h; split; [done|lia]]|].
  apply pop_Ok in H as (s & b & _ & _ & _ & Hp & _). destruct (fork_pop_head _ _ Hf Hp) as [Hf1 (x & h1 & Hx & H1 & En)].
  rewrite Hh in Hx. injection Hx as <-. destruct (IH h1 Hf1 H1) as [Hf2 (h2 & H2 & E2)]. split; [done|].
  exists h2. split; [done|]. lia.
Qed.

(** *** Switching *)

(** What applying blocks in sessions leaves of the fork database. *)
Lemma max_size_head (f : fork_database block) size : head_item (set_max_size f size) = head_item f.
Proof.
  unfold set_max_size. cbv zeta. case_match; reflexivity.
Qed.

Definition apply_all skip (cps : gmap Z block_id_type) (c : chain) (l : list block) : result chain :=
  foldM (fun c b => r ← apply_block skip cps c b; Ok r.1) c l.

Lemma abandon_fails skip new_id ancestor front bad good e n u n' :
  abandon_fork schedule schedule_scale leftover skip new_id ancestor front bad good e n <> (Ok u, n').
Proof.
  unfold abandon_fork. intros H. apply action_bind_Ok in H as (u1 & n1 & _ & H). apply action_bind_Ok in H as (u2 & n2 & _ & H).
  apply action_bind_Ok in H as (u3 & n3 & _ & H). by apply action_bind_Ok in H as (u4 & n4 & _ & H).
Qed.

Lemma push_fork_Ok skip new_id ancestor front good todo : forall n u n',
  push_fork schedule schedule_scale leftover skip new_id ancestor front good todo n = (Ok u, n') ->
  apply_all skip (checkpoints n) (head_state n) (map data todo) = Ok (head_state n') /\
  head_item (fork_db n') = head_item (fork_db n) /\ checkpoints n' = checkpoints n.
Proof.
  unfold apply_all. induction todo as [|it todo IH]; intros n u n' H; cbn [push_fork map foldM] in *; [by injection H as _ <-|].
  apply action_bind_Ok in H as (failed & n1 & H1 & H).
  apply try_catch_inv in H1 as [(o & [= <-] & E)|(e & n2 & _ & [[_ [= <- <-]]|(_ & ? & _)])]; [|by apply abandon_fails in H|done].
  apply action_bind_Ok in E as (u1 & n3 & Es & [= <- <-]).
  apply session_Ok in Es as (size & Ha & _ & _ & Ef & _ & Ec & _). rewrite Ha. cbn.
  apply IH in H as (H & Hh & Hc). rewrite Ec in H. split; [exact H|]. split; [|congruence]. rewrite Hh, Ef. apply max_size_head.
Qed.

Lemma restore_Ok skip new_id good : forall n u n',
  restore_fork schedule schedule_scale leftover skip new_id good n = (Ok u, n') ->
  apply_all skip (checkpoints n) (head_state n) (map data good) = Ok (head_state n') /\
  block_db n' = foldl (fun d it => BlockDb.store d new_id (data it)) (block_db n) good.
Proof.
  unfold restore_fork, apply_all. induction good as [|it good IH]; intros n u n' H; cbn [for_each map foldM foldl] in *; [by injection H as _ <-|].
  apply (action_bind_Ok (apply_in_session skip new_id (data it))) in H as (u1 & n1 & Hs & H).
  apply session_Ok in Hs as (size & Ha & _ & _ & _ & Eb & Ec & _). rewrite Ha. cbn. rewrite <-Eb, <-Ec. by eapply IH.
Qed.

(** *** The session of the pending transactions *)

Definition no_session n : Prop := pending_session n = None.

Lemma session_stable skip i b : stable no_session (apply_in_session skip i b).
Proof.
  intros n r n' Hn H. unfold no_session in *. destruct r as [u|e].
  - by apply session_Ok in H as (size & _ & _ & _ & _ & _ & _ & -> & _).
  - by apply session_Err in H as (_ & _ & _ & _ & -> & _).
Qed.

Lemma pop_stable : stable no_session pop_block.
Proof. unfold pop_block. stable; done. Qed.

Lemma pop_until_stable a : stable no_session (pop_until a).
Proof. intros n. exact (stable_loop _ _ _ _ pop_stable n). Qed.

Lemma push_fork_stable skip i a front good todo :
  stable no_session (push_fork schedule schedule_scale leftover skip i a front good todo).
Proof.
  induction todo as [|it todo IH]; cbn [push_fork]; [apply stable_ret|].
  apply stable_bind; [stable; apply session_stable|]. intros [e|]; [|exact IH].
  unfold abandon_fork, remove_item, restore_fork. stable; try done; [apply pop_until_stable|apply session_stable].
Qed.

Lemma push_block_stable skip b : stable no_session (_push_block schedule schedule_scale leftover skip b).
Proof.
  assert (E : stable no_session (extend_head schedule schedule_scale leftover skip b))
    by (unfold extend_head; stable; try done; apply session_stable).
  unfold _push_block. destruct (skips skip skip_fork_db); [exact E|].
  apply stable_bind.
  { intros n r n' Hn H. unfold push_to_fork_db in H. destruct (ForkDb.push_block _ _) as [[[it|] f]|e]; by injection H as _ <-. }
  intros it. apply stable_bind; [apply stable_get|]. intros h. apply stable_bind; [apply stable_get|]. intros num.
  destruct (bool_decide _); [exact E|]. destruct (_ <? _); [|apply stable_ret].
  apply stable_bind; [|intros; apply stable_ret]. unfold switch_fork.
  stable; [apply pop_until_stable|apply push_fork_stable].
Qed.

Lemma apply_transaction_pending skip s t s' : apply_transaction skip s t = Ok s' -> pending_tx s' = pending_tx s.
Proof. intros (_ & _ & _ & _ & f & _ & ->)%apply_transaction_inv. by destruct (skips skip _). Qed.

(** The session is what the pending transactions make of the head, and they are some of
    [l] in their order. *)
Record session_ok (skip : Z) (h : chain) (l : list signed_transaction) n : Prop := {
  ses_head : head_state n = h;
  ses_result : foldM (push_transaction skip) (no_pending (ledger h)) (pending n) = Ok (current n);
  ses_order : pending n `sublist_of` l;
}.

Lemma push_again_ok skip t h l n r n' :
  session_ok skip h l n -> push_again skip t n = (r, n') -> session_ok skip h (l ++ [t]) n'.
Proof.
  intros [Eh R O] H. assert (S0 : forall m, head_state m = h -> current m = current n -> session_ok skip h (l ++ [t]) m).
  { intros m E1 E2. split; [done|by unfold pending in *; rewrite E2|]. unfold pending in *. rewrite E2. by apply sublist_inserts_r. }
  assert (P : forall x m, (known ← get (fun n => is_known_transaction n (transaction_id (trx t)));
    if known : bool then action_ret tt else _push_transaction skip t) n = (x, m) -> session_ok skip h (l ++ [t]) m).
  { intros x m. unfold mbind, action_mbind, action_bind, get. destruct (is_known_transaction _ _); [intros [= _ <-]; by apply S0|].
    unfold _push_transaction. destruct (push_transaction skip (current n) t) as [s|e] eqn:E; intros [= _ <-]; [|by apply S0].
    assert (Ep : pending_tx s = pending n ++ [t]).
    { unfold push_transaction in E. apply bind_Ok in E as (s1 & E & [= <-]). apply apply_transaction_pending in E. cbn. by rewrite E. }
    split; [done| |]; unfold pending, current; cbn; rewrite Ep.
    - rewrite foldM_app, R. cbn. by rewrite E.
    - by apply sublist_app. }
  unfold push_again in H. apply try_catch_inv in H as [(x & _ & H)|(e & n1 & H & [[_ [= _ <-]]|(_ & _ & ->)])]; by eapply P.
Qed.

Lemma push_all_ok skip todo h : forall l n r n',
  session_ok skip h l n -> for_each (push_again skip) todo n = (r, n') -> session_ok skip h (l ++ todo) n'.
Proof.
  induction todo as [|t todo IH]; intros l n r n' S H; cbn [for_each] in H; [injection H as _ <-; by rewrite app_nil_r|].
  unfold action_bind in H. destruct (push_again skip t n) as [[u|e] n1] eqn:E; apply (push_again_ok _ _ _ _ _ _ _ S) in E.
  - rewrite (cons_middle t l todo), (assoc_L (++)). by eapply IH.
  - injection H as _ <-. destruct E as [E1 E2 E3]. split; [done..|]. etrans; [exact E3|]. apply sublist_app; [done|].
    apply sublist_skip, sublist_nil_l.
Qed.

Lemma restore_pending_ok skip waiting n r n' :
  no_session n -> restore_pending skip waiting n = (r, n') -> session_ok skip (head_state n) (popped_tx n ++ waiting) n'.
Proof.
  intros Hn H. assert (S : session_ok skip (head_state n) [] n).
  { unfold no_session in Hn. split; unfold pending, current; rewrite ?Hn; done. }
  unfold restore_pending, mbind, action_mbind, action_bind, get in H.
  destruct (for_each (push_again skip) (popped_tx n) n) as [[u|e] n1] eqn:E; apply (push_all_ok _ _ _ _ _ _ _ S) in E; cbn in E.
  - unfold change in H. apply push_all_ok with (h := head_state n) (l := popped_tx n) in H; [exact H|]. by destruct E.
  - injection H as _ <-. destruct E as [E1 E2 E3]. split; [done..|]. by apply sublist_inserts_r.
Qed.
End Facts.

(** ** Properties *)

Section Properties.
Context `{FC : FcLib, !FcLaws FC, BL : BlockLib, !BlockLaws BL, KL : KeyLib, TL : TransactionLib, NE : NthElement, BO : BoostLib,
  PR : !ProcessedLib BL, PL : !PackLib BL, !PackLaws PL}.
Variables (schedule : database -> full_operation -> Z) (schedule_scale : database -> Z)
  (leftover : chain -> signed_block processed_transaction -> tally).
Abbreviation block := (signed_block processed_transaction).
Abbreviation item := (fork_item block).
Implicit Types (n : node) (b : block) (i : block_id_type) (it : item) (t : signed_transaction).

(** C6: pushing a block on the head is atomic.  Either the block is applied and filed under
    its id, and the state before it can be undone; or nothing of the objects and of
    the block database has changed, and the fork database has forgotten the block. *)
Theorem extend_head_atomic (skip : Z) b n r n' :
  BlockDb.reachable (block_db n) -> fits b -> id_of b <> null_block_id ->
  extend_head schedule schedule_scale leftover skip b n = (r, n') ->
  (forall x, r = Ok x -> exists size, Chain.apply_block schedule schedule_scale skip (checkpoints n) (head_state n) b = Ok (head_state n', size) /\
     head (undo_stack n') = Some (ledger (head_state n)) /\ fetch_optional (block_db n') (id_of b) = Some b) /\
  (forall e, r = Err e -> ledger (head_state n') = ledger (head_state n) /\ block_db n' = block_db n /\
     (is_fc_exception e = true -> _index (fork_db n') !! id_of b = None)).
Proof.
  intros Hr Hf Hn H. apply try_catch_inv in H as [(x & -> & E)|(e & n1 & E & H)].
  - apply action_bind_Ok in E as (u & n2 & Hs & [= <- <-]). split; [|done]. intros _ _.
    apply session_Ok in Hs as (size & Ha & _ & Hu & _ & Hb & _). exists size. split; [exact Ha|]. rewrite Hu, Hb. split; [done|].
    apply fetch_optional_live; [by apply store_ok, BlockDb.reachable_db_ok|]. split; [|done].
    rewrite store_live by (done || by apply BlockDb.reachable_db_ok). unfold given_id.
    rewrite (decide_False (P := id_of b = null_block_id)) by done. by rewrite decide_True.
  - apply action_bind_Err in E as [Hs|(u & n2 & _ & Hx)]; [|done]. apply session_Err in Hs as (E1 & E2 & _).
    destruct H as [[He H]|(He & -> & ->)]; [injection H as <- <-|]; (split; [done|]; intros e' [= <-]; split_and!; [done..|]).
    + intros _. apply lookup_delete_eq.
    + congruence.
Qed.

(** C28: popping the head takes back what pushing it did: the objects are as they were
    before the block, the block is not in the block database any more, and, when the node
    finds it under its id, its transactions wait to be applied again. *)
Theorem pop_undoes_push (skip : Z) b n x n1 u n2 :
  BlockDb.reachable (block_db n) -> fits b -> id_of b <> null_block_id ->
  extend_head schedule schedule_scale leftover skip b n = (Ok x, n1) -> pop_block n1 = (Ok u, n2) ->
  ledger (head_state n2) = ledger (head_state n) /\ contains (block_db n2) (id_of b) = false /\
  (fetch_block_by_id n1 (id_of b) = Some b -> popped_tx n2 = map as_signed (transactions b) ++ popped_tx n).
Proof.
  intros Hr Hf Hn H Hp. apply try_catch_inv in H as [(y & _ & E)|(e & n3 & _ & [[_ H]|(_ & ? & _)])]; [|done..].
  apply action_bind_Ok in E as (u1 & n4 & Hs & [= <- <-]).
  apply session_Ok in Hs as (size & Ha & _ & Hu & _ & Hb & _ & _ & Hpop).
  assert (Hid : head_id n4 = id_of b).
  { unfold Chain.apply_block in Ha. apply bind_Ok in Ha as (sk & _ & Ha).
    apply apply_block_tip in Ha. exact (f_equal (fun x => x.1.1.2) Ha). }
  apply pop_Ok in Hp as (s & b' & Es & Eh & Ef & _ & Er & Ep & _). rewrite Hid in Ef, Er. split_and!.
  - rewrite Eh. cbn. rewrite Hu in Es. unfold start_session in Es. by injection Es as <- _.
  - apply not_true_iff_false. intros Hc. assert (Ok4 : db_ok (block_db n4)) by (rewrite Hb; by apply store_ok, BlockDb.reachable_db_ok).
    apply contains_live in Hc as [_ [b0 Hl]]; [|by eapply remove_ok]. rewrite (remove_live _ _ _ _ Ok4 Er) in Hl.
    destruct (live (block_db n4) _) as [[j bj]|]; [|done]. destruct (decide (j = id_of b)); [done|congruence].
  - intros Hx. rewrite Hx in Ef. injection Ef as <-. by rewrite Ep, Hpop.
Qed.

(** C27: switching to another fork.  When it succeeds, the chain is what the blocks of the
    new branch make of the state at the common ancestor, which was among those that
    can be undone.  The fork database however is left behind: its head, if it was
    the new head, goes down with every block that is popped and does not come back
    up. *)
Theorem switch_fork_spec (skip : Z) (new_id : block_id_type) (h : item) n u n' :
  switch_fork schedule schedule_scale leftover skip new_id h n = (Ok u, n') ->
  exists first second common k c, fetch_branch_from (fork_db n) (block_id (signed_header (data h))) (head_id n) = Ok (first, second) /\
    last second = Some common /\ (ledger (head_state n) :: undo_stack n) !! k = Some c /\
    head_block_id (dgpo (chain_db c)) = previous_id common /\
    apply_all schedule schedule_scale skip (checkpoints n) (Chain c (buffers (head_state n))) (map data (rev first)) = Ok (head_state n') /\
    (ForkDb.reachable (fork_db n) -> head_item (fork_db n) = Some h ->
     exists h', head_item (fork_db n') = Some h' /\ num h' = num h - Z.of_nat k).
Proof.
  unfold switch_fork. intros H. apply action_bind_Ok in H as (hid & n1 & [= <- <-] & H).
  apply action_bind_Ok in H as (f & n2 & [= <- <-] & H). apply action_bind_Ok in H as ([first second] & n3 & Hb & H).
  injection Hb as Hb <-. apply action_bind_Ok in H as (common & n4 & Hc & H). injection Hc as Hc%of_option_Ok <-. cbv zeta in H.
  apply action_bind_Ok in H as (front & n5 & [= <- <-] & H). apply action_bind_Ok in H as (u1 & n6 & Hp & H).
  apply pop_until_Ok in Hp as [Ha [k Hk]]. pose proof (pops_states _ _ _ Hk) as (_ & B & C & L).
  apply push_fork_Ok in H as (Happ & Hh & _). exists first, second, common, k, (ledger (head_state n6)).
  split; [done|]. split; [done|]. split; [done|]. split; [exact Ha|]. split.
  - rewrite C in Happ. rewrite <-B. by destruct (head_state n6).
  - intros Hr Hhead. rewrite Hh. by eapply pops_fork; [exact Hk|apply ForkDb.reachable_ok|].
Qed.

(** A failed switch does not give back the block database.  The blocks of the good
    fork, which were popped before, make the state again what they make of the
    ancestor; but they are all stored under the id of the new block: none is found
    under its own, and the database claims to contain the block that failed. *)
Theorem failed_switch_loses_blocks (skip : Z) (new_id : block_id_type) (good : list item) n u n' :
  BlockDb.reachable (block_db n) -> Forall (fun it => fits (data it)) good -> new_id <> null_block_id -> 0 <= num_from_id new_id ->
  restore_fork schedule schedule_scale leftover skip new_id good n = (Ok u, n') ->
  apply_all schedule schedule_scale skip (checkpoints n) (head_state n) (map data good) = Ok (head_state n') /\
  (forall i, contains (block_db n) i = false -> i <> new_id -> contains (block_db n') i = false) /\
  (forall it, last good = Some it -> id_of (data it) <> new_id ->
     contains (block_db n') new_id = true /\ fetch_optional (block_db n') new_id = None).
Proof.
  intros Hr Hf Hn H0 [Ha Eb]%restore_Ok. split; [exact Ha|]. rewrite Eb. clear Ha Eb. split.
  - intros i Hc Hi. revert Hr Hc. generalize (block_db n). induction Hf as [|it good Hit _ IH]; intros d Hr Hc; cbn [foldl]; [done|].
    apply IH; [by constructor|]. apply not_true_iff_false. intros Hd. apply not_true_iff_false in Hc. apply Hc.
    assert (Ok : db_ok d) by by apply BlockDb.reachable_db_ok. apply contains_live in Hd as [Hi0 [b Hl]]; [|by apply store_ok].
    apply contains_live; [done|]. split; [done|]. rewrite store_live in Hl by done. unfold given_id in Hl.
    rewrite (decide_False (P := new_id = null_block_id)) in Hl by done. case_decide; [congruence|eauto].
  - intros it Hl Hid. apply last_Some in Hl as [l ->]. rewrite foldl_app. cbn. apply Forall_app in Hf as [Hf Hit].
    apply Forall_cons in Hit as [Hit _]. assert (Hr1 : BlockDb.reachable (foldl (fun d it => BlockDb.store d new_id (data it)) (block_db n) l)).
    { clear -Hr Hf. revert Hr. generalize (block_db n). induction Hf as [|x l Hx _ IH]; intros d Hr; cbn; [done|]. apply IH. by constructor. }
    by destruct (misfiled _ new_id (data it) Hr1 Hit Hn Hid H0) as (C & F & _).
Qed.

(** C3: after a block has been pushed, whatever came of it, the pending session is the
    result of applying the pending transactions to the new head, one after the
    other; they are, in this order, some of those that were popped and of those that
    were pending. *)
Theorem pending_session_invariant (skip : Z) b n r n' :
  push_block schedule schedule_scale leftover skip b n = (r, n') ->
  foldM (push_transaction skip) (no_pending (ledger (head_state n'))) (pending n') = Ok (current n') /\
  exists r1 n1, _push_block schedule schedule_scale leftover skip b (clear_pending n) = (r1, n1) /\
    head_state n' = head_state n1 /\ pending n' `sublist_of` popped_tx n1 ++ pending n.
Proof.
  unfold push_block. cbv zeta. destruct (_push_block _ _ _ skip b (clear_pending n)) as [r1 n1] eqn:E. intros H.
  assert (S : session_ok skip (head_state n1) (popped_tx n1 ++ pending n) n').
  { apply push_block_stable in E; [|done]. destruct (restore_pending skip (pending n) n1) as [[v|e] n2] eqn:E2;
      injection H as _ <-; by eapply restore_pending_ok. }
  destruct S as [Eh R O]. rewrite Eh. split; [exact R|]. eauto 6.
Qed.
End Properties.

(** ** Witnesses *)

(** Blocks that only say who made them and when. *)
Definition ex_fork_block (previous : block_id_type) (when : Z) : signed_block Z :=
  Signed_block (Signed_block_header (Block_header previous when 1 0) 0) [].
Definition ex_alt_1 : signed_block Z := ex_fork_block (block_id (BL := block_ref) ex_parent) 1500000010.
Definition ex_alt_2 : signed_block Z := ex_fork_block (id_of (BL := block_ref) ex_alt_1) 1500000015.

Definition ex_leftover (c : chain) (b : signed_block Z) : tally := buffers c.

(** Signatures and the schedule are not checked. *)
Definition ex_skip : Z := 1025.

Definition ex_pushed (f : fork_database (signed_block Z)) (b : signed_block Z) : fork_database (signed_block Z) :=
  match ForkDb.push_block (BL := block_ref) f b with Ok (_, f) => f | Err _ => f end.
Definition ex_fork_0 : fork_database (signed_block Z) :=
  start_block (BL := block_ref) (empty_fork_database (BL := block_ref)) (Signed_block ex_parent []).

(** The head is the parent of the blocks. *)
Definition ex_node : @node block_ref :=
  @Node block_ref ex_link [ledger ex_link] 10 ex_fork_0 empty_block_database ∅ None [].

Definition ex_extend := extend_head (FC := fc_ref) (BL := block_ref) (KL := key_ref) (TL := transaction_ref)
  (NE := sorting_nth_element) (BO := boost_ref) (PR := processed_ref) (PL := pack_ref) ex_schedule ex_schedule_scale ex_leftover.

Definition with_fork (n : @node block_ref) (f : fork_database (signed_block Z)) : @node block_ref :=
  @Node block_ref (head_state n) (undo_stack n) (undo_size n) f (block_db n) (checkpoints n) (pending_session n) (popped_tx n).

(** The block is in the fork database before it is applied. *)
Definition ex_node_1 := with_fork ex_node (ex_pushed ex_fork_0 ex_new_block).
Definition ex_extended := ex_extend ex_skip ex_new_block ex_node_1.
Definition ex_popped := pop_block (BL := block_ref) (PR := processed_ref) (PL := pack_ref) (snd ex_extended).

(** Two blocks on the other branch. *)
Definition ex_node_2 := with_fork (snd ex_extended) (ex_pushed (ex_pushed (fork_db (snd ex_extended)) ex_alt_1) ex_alt_2).
Definition ex_new_head : fork_item (signed_block Z) :=
  default (make_item (BL := block_ref) (Signed_block ex_parent [])) (head_item (BL := block_ref) (fork_db ex_node_2)).
Definition ex_switched := switch_fork (FC := fc_ref) (BL := block_ref) (KL := key_ref) (TL := transaction_ref)
  (NE := sorting_nth_element) (BO := boost_ref) (PR := processed_ref) (PL := pack_ref) ex_schedule ex_schedule_scale ex_leftover
  ex_skip (id_of (BL := block_ref) ex_alt_2) ex_new_head ex_node_2.

(** The old branch is restored after the new one has failed. *)
Definition ex_restored := restore_fork (FC := fc_ref) (BL := block_ref) (KL := key_ref) (TL := transaction_ref)
  (NE := sorting_nth_element) (BO := boost_ref) (PR := processed_ref) (PL := pack_ref) ex_schedule ex_schedule_scale ex_leftover
  ex_skip (id_of (BL := block_ref) ex_alt_2) [make_item (BL := block_ref) ex_new_block] ex_node.

(** The second block of the other branch arrives. *)
Definition ex_node_3 := with_fork (snd ex_extended) (ex_pushed (fork_db (snd ex_extended)) ex_alt_1).
Definition ex_arrived := push_block (FC := fc_ref) (BL := block_ref) (KL := key_ref) (TL := transaction_ref)
  (NE := sorting_nth_element) (BO := boost_ref) (PR := processed_ref) (PL := pack_ref) ex_schedule ex_schedule_scale ex_leftover
  ex_skip ex_alt_2 ex_node_3.

Lemma ex_extended_run : exists n', ex_extended = (Ok false, n').
Proof.
  assert (E : bool_decide (fst ex_extended = Ok false) = true) by by vm_compute.
  apply bool_decide_eq_true in E. destruct ex_extended as [r n']. exists n'. by rewrite <-E.
Qed.

Lemma ex_new_fits : fits (BL := block_ref) (PL := pack_ref) ex_new_block.
Proof. done. Qed.

Lemma ex_new_id : id_of (BL := block_ref) ex_new_block <> null_block_id.
Proof. by vm_compute. Qed.

Lemma extend_head_atomic_witness :
  exists n', ex_extended = (Ok false, n') /\
    fetch_optional (BL := block_ref) (PL := pack_ref) (block_db n') (id_of (BL := block_ref) ex_new_block) = Some ex_new_block.
Proof.
  destruct ex_extended_run as [n' H]. exists n'. split; [exact H|]. unfold ex_extended, ex_extend in H.
  destruct (@extend_head_atomic fc_ref block_ref key_ref transaction_ref sorting_nth_element boost_ref processed_ref pack_ref
    pack_ref_laws ex_schedule ex_schedule_scale ex_leftover ex_skip ex_new_block ex_node_1 (Ok false) n'
    BlockDb.reach_empty ex_new_fits ex_new_id H) as [A _]. by destruct (A false eq_refl) as (_ & _ & _ & F).
Defined.

Lemma ex_popped_run n1 : ex_extended = (Ok false, n1) -> exists u n2, pop_block (BL := block_ref) (PR := processed_ref) (PL := pack_ref) n1 = (Ok u, n2).
Proof.
  intros H. assert (E : bool_decide (fst ex_popped = Ok tt) = true) by by vm_compute. apply bool_decide_eq_true in E.
  unfold ex_popped in E. rewrite H in E. cbn [snd] in E. destruct (pop_block n1) as [r n2]. exists tt, n2. cbn in E. by rewrite E.
Qed.

Lemma ex_new_fetched n1 : ex_extended = (Ok false, n1) ->
  fetch_block_by_id (BL := block_ref) (PL := pack_ref) n1 (id_of (BL := block_ref) ex_new_block) = Some ex_new_block.
Proof.
  intros H. assert (E : fetch_block_by_id (BL := block_ref) (PL := pack_ref) (snd ex_extended) (id_of (BL := block_ref) ex_new_block) = Some ex_new_block)
    by by vm_compute. by rewrite H in E.
Qed.

Lemma pop_undoes_push_witness :
  exists n1 u n2, ex_extended = (Ok false, n1) /\ pop_block (BL := block_ref) (PR := processed_ref) (PL := pack_ref) n1 = (Ok u, n2) /\
    ledger (head_state n2) = ex_ledger /\ popped_tx n2 = [ex_signed].
Proof.
  destruct ex_extended_run as [n1 H]. destruct (ex_popped_run n1 H) as (u & n2 & Hp). pose proof (ex_new_fetched n1 H) as Hx.
  exists n1, u, n2. split; [exact H|]. split; [exact Hp|]. unfold ex_extended, ex_extend in H.
  destruct (@pop_undoes_push fc_ref fc_ref_laws block_ref key_ref transaction_ref sorting_nth_element boost_ref processed_ref pack_ref
    pack_ref_laws ex_schedule ex_schedule_scale ex_leftover ex_skip ex_new_block ex_node_1 false n1 u n2
    BlockDb.reach_empty ex_new_fits ex_new_id H Hp) as (A & _ & B). split; [exact A|exact (B Hx)].
Defined.

Lemma ex_switched_run : exists u n', ex_switched = (Ok u, n').
Proof.
  assert (E : bool_decide (fst ex_switched = Ok tt) = true) by by vm_compute.
  apply bool_decide_eq_true in E. destruct ex_switched as [r n']. exists tt, n'. cbn in E. by rewrite <-E.
Qed.

Lemma ex_pushed_reachable f b : ForkDb.reachable (BL := block_ref) f -> ForkDb.reachable (BL := block_ref) (ex_pushed f b).
Proof.
  intros Hr. unfold ex_pushed. destruct (ForkDb.push_block f b) as [[o f']|e] eqn:H; [|done].
  eapply reach_step; [exact Hr|]. by eapply step_push.
Qed.

Lemma ex_node_2_reachable : ForkDb.reachable (BL := block_ref) (fork_db ex_node_2).
Proof.
  assert (E : fork_db (snd ex_extended) = set_max_size (BL := block_ref) (fork_db ex_node_1) (undo_size (snd ex_extended))) by (vm_compute; reflexivity).
  unfold ex_node_2, with_fork. cbn [fork_db]. rewrite E. do 2 apply ex_pushed_reachable. eapply reach_step; [|apply step_max_size].
  - apply ex_pushed_reachable. eapply reach_step; [apply ForkDb.reach_empty|]. apply step_start.
  - by vm_compute.
Qed.

Lemma ex_branches first second common :
  fetch_branch_from (BL := block_ref) (fork_db ex_node_2) (block_id (BL := block_ref) (signed_header (data ex_new_head)))
    (head_id (BL := block_ref) ex_node_2) = Ok (first, second) -> last second = Some common ->
  previous_id (BL := block_ref) common <> head_id (BL := block_ref) ex_node_2.
Proof.
  intros H Hl. assert (E : match fetch_branch_from (BL := block_ref) (fork_db ex_node_2) (block_id (BL := block_ref) (signed_header (data ex_new_head)))
    (head_id (BL := block_ref) ex_node_2) with Ok (_, second) => match last second with
      Some x => bool_decide (previous_id (BL := block_ref) x = head_id (BL := block_ref) ex_node_2) | None => true end | Err _ => true end = false)
    by by vm_compute.
  rewrite H, Hl in E. by apply bool_decide_eq_false in E.
Qed.

(** The chain has gone to block 1002; the head of the fork database is an older block. *)
Lemma switch_fork_spec_witness :
  exists u n', ex_switched = (Ok u, n') /\ num ex_new_head = 1002 /\ (exists h', head_item (BL := block_ref) (fork_db n') = Some h' /\ num h' < 1002).
Proof.
  assert (E : num ex_new_head = 1002) by by vm_compute. assert (Eh : head_item (BL := block_ref) (fork_db ex_node_2) = Some ex_new_head) by by vm_compute.
  destruct ex_switched_run as (u & n' & H). exists u, n'. split; [exact H|]. split; [exact E|]. unfold ex_switched in H.
  destruct (@switch_fork_spec fc_ref block_ref block_ref_laws key_ref transaction_ref sorting_nth_element boost_ref processed_ref pack_ref
    ex_schedule ex_schedule_scale ex_leftover ex_skip _ ex_new_head ex_node_2 u n' H) as (f & s & common & k & c & Hb & Hl & Hk & Hc & _ & A).
  destruct (A ex_node_2_reachable Eh) as (h' & A1 & A2). exists h'. split; [exact A1|]. destruct k as [|k].
  2: { assert (num h' = 1002 - Z.of_nat (S k)) as -> by exact (eq_trans A2 (f_equal (fun x => x - Z.of_nat (S k)) E)). lia. }
  apply (inj Some) in Hk. elim (ex_branches f s common Hb Hl). rewrite <-Hc. exact (f_equal (fun s => head_block_id (dgpo (chain_db s))) (eq_sym Hk)).
Defined.

Definition ex_good : list (fork_item (signed_block Z)) := [make_item (BL := block_ref) ex_new_block].

Lemma ex_restored_run : exists u n', ex_restored = (Ok u, n').
Proof.
  assert (E : bool_decide (fst ex_restored = Ok tt) = true) by by vm_compute.
  apply bool_decide_eq_true in E. destruct ex_restored as [r n']. exists tt, n'. cbn in E. by rewrite <-E.
Qed.

Lemma failed_switch_loses_blocks_witness :
  exists u n', ex_restored = (Ok u, n') /\
    contains (BL := block_ref) (block_db n') (id_of (BL := block_ref) ex_alt_2) = true /\
    fetch_optional (BL := block_ref) (PL := pack_ref) (block_db n') (id_of (BL := block_ref) ex_alt_2) = None.
Proof.
  destruct ex_restored_run as (u & n' & H). exists u, n'. split; [exact H|]. unfold ex_restored in H.
  destruct (@failed_switch_loses_blocks fc_ref block_ref key_ref transaction_ref sorting_nth_element boost_ref processed_ref pack_ref
    pack_ref_laws ex_schedule ex_schedule_scale ex_leftover ex_skip (id_of (BL := block_ref) ex_alt_2) ex_good ex_node u n'
    BlockDb.reach_empty) as (_ & _ & C); [constructor; [done|constructor]|by vm_compute|by vm_compute|exact H|].
  apply (C _ eq_refl). by vm_compute.
Defined.

Lemma ex_arrived_run : exists n', ex_arrived = (Ok true, n').
Proof.
  assert (E : bool_decide (fst ex_arrived = Ok true) = true) by by vm_compute.
  apply bool_decide_eq_true in E. destruct ex_arrived as [r n']. exists n'. by rewrite <-E.
Qed.

(** The payment of the block that was popped waits for the next one. *)
Lemma pending_session_invariant_witness :
  exists n', ex_arrived = (Ok true, n') /\ pending n' = [ex_signed] /\
    foldM (push_transaction (FC := fc_ref) (BL := block_ref) (KL := key_ref) (TL := transaction_ref) (NE := sorting_nth_element) ex_skip)
      (no_pending (ledger (head_state n'))) (pending n') = Ok (current n').
Proof.
  assert (E : pending (BL := block_ref) (snd ex_arrived) = [ex_signed]) by by vm_compute.
  destruct ex_arrived_run as [n' H]. exists n'. split; [exact H|]. split; [by rewrite H in E|]. clear E. unfold ex_arrived in H.
  by destruct (@pending_session_invariant fc_ref block_ref key_ref transaction_ref sorting_nth_element boost_ref processed_ref pack_ref
    ex_schedule ex_schedule_scale ex_leftover ex_skip ex_alt_2 ex_node_3 (Ok true) n' H) as [A _].
Defined.
