(* ===== verification/Produce.v ===== *)
(** * Producing a block

    Models [generate_block] of [libraries/chain/db_block.cpp], with the incentives
    ([db_incentive.cpp]) and the walk of a deflation ([db_deflation.cpp]) that a
    producer puts first, and the pending transactions.

    What the results of its operations make of a transaction, and the sizes of packed
    data, are parameters ([ProducerLib]). *)

From S2P Require Import ForkDb BlockDb.
From S2P Require Import Prelude FcLib Block Asset Vesting Objects Database Ledger Market Trading Deflation Walk Evaluator.
From S2P Require Import MarketOps Feeds AssetOps AssetFacts Capital Accounts Governance Operations Frames Clearing.
From S2P Require Import Authority Proposals Witness Transactions Election Budget Maintenance Chain Node.

(** A transaction with the results of its operations when it is applied in a state;
    [pack_size] of a pending transaction, of one in the block and of the block, and
    [max_block_header_size]. *)
Class ProducerLib `{BL : BlockLib} := {
  process : chain_state -> signed_transaction -> processed_transaction;
  pack_pending : signed_transaction -> Z;
  pack_processed : processed_transaction -> Z;
  pack_block : signed_block processed_transaction -> Z;
  max_block_header_size : Z;
}.

Class ProducerLaws `{BL : BlockLib} (PR : ProcessedLib BL) (PD : ProducerLib) : Prop := {
  as_signed_process s t : as_signed (process s t) = t;
}.

(** The block so far: the state in the pending session, the size, the transactions. *)
Record building `{BL : BlockLib} := Building {
  built : chain_state;
  total_block_size : Z;
  included : list processed_transaction;
}.
Arguments Building {BL} _ _ _.

Section Produce.
Context `{FC : FcLib, BL : BlockLib, KL : KeyLib, TL : TransactionLib, NE : NthElement, BO : BoostLib, PR : !ProcessedLib BL,
  PL : !PackLib BL, PD : !ProducerLib}.
Variables (schedule : database -> full_operation -> Z) (schedule_scale : database -> Z)
  (leftover : chain -> signed_block processed_transaction -> tally).
(** The orders of the two indices of the capitals; see [Capital.v]. *)
Variables (by_next_slot by_pending : database -> list N).
Implicit Types (n : node) (s : chain_state) (t : signed_transaction) (b : building) (ops : list operation).

(** ** Generated transactions *)

(** [set_reference_block( dyn_props.head_block_id )], [set_expiration( dyn_props.time + fc::seconds(30) )] *)
Definition generated s ops : signed_transaction :=
  let d := dgpo (chain_db s) in
  Signed_transaction
    (set_reference_block (Transaction 0 0 (wrap32 (time d + 30)) (map ordinary ops)) (head_block_id d)) [].

(** [apply_incentive] and [apply_deflation] *)
Definition apply_generated s ops : result chain_state :=
  f ← foldM (apply_full_operation (fees s) (fee_scale s) false) (full_of s) (map ordinary ops);
  Ok (with_full s f).

Definition include s t s' b : building :=
  let p := process s t in
  Building s' (total_block_size b + pack_processed p) (included b ++ [p]).

(** One of the two [try] blocks: nothing is put into the block when there are no
    operations, or when one fails. *)
Definition add_generated (gen : result (list operation)) b : result building :=
  match
    (ops ← gen;
     match ops with
     | [] => Ok b
     | _ => s ← apply_generated (built b) ops; Ok (include (built b) (generated (built b) ops) s b)
     end)
  with
  | Ok b => Ok b
  | Err e => if is_fc_exception e then Ok b else Err e
  end.

Definition incentive_operations s : result (list operation) :=
  let db := chain_db s in
  ops ← generate_incentive_operations db (by_next_slot db) (by_pending db);
  Ok (map incentive ops).

Definition deflation_operations s : result (list operation) :=
  ops ← generate_deflation_operations (chain_db s);
  Ok (map of_walk ops).

Definition add_incentives b : result building := add_generated (incentive_operations (built b)) b.

(** What generating says of the orders stays in the session. *)
Definition add_deflation b : result building :=
  let s := built b in
  add_generated (deflation_operations s)
    (Building (set_db s (pass_orders (chain_db s))) (total_block_size b) (included b)).

(** ** Pending transactions *)

(** Those that do not fit are postponed, those that fail are dropped. *)
Definition include_transaction (maximum_block_size skip : Z) b t : result building :=
  if maximum_block_size <=? total_block_size b + pack_pending t then Ok b
  else
    match apply_transaction skip (built b) t with
    | Ok s => Ok (include (built b) t s b)
    | Err e => if is_fc_exception e then Ok b else Err e
    end.

Definition assemble (maximum_block_size skip : Z) s (pending : list signed_transaction) : result building :=
  b ← add_incentives (Building s max_block_header_size []);
  b ← add_deflation b;
  foldM (include_transaction maximum_block_size skip) b pending.

(** ** The block *)

(** [_pending_tx_session.reset()]: the list of pending transactions stays; without a
    session the next transaction would start from the head. *)
Definition drop_session n : node :=
  n <| pending_session := Some ((ledger (head_state n)) <| pending_tx := pending n |>) |>.

(** The checks are made in the state with the pending transactions, the block is made
    on that of the head. *)
Definition _generate_block (skip when : Z) (witness_id : N) (k : private_key) : action (signed_block processed_transaction) :=
  db ← get (fun n => chain_db (current n));
  _ ← raise (check_producer skip db when witness_id k);
  _ ← change drop_session;
  s ← get (fun n => no_pending (ledger (head_state n)));
  waiting ← get pending;
  b ← raise (assemble (maximum_block_size (parameters db)) skip s waiting);
  let unsigned := Signed_block (Signed_block_header (Block_header null_block_id 0 0 0) 0) (included b) in
  root ← raise (calculate_merkle_root unsigned);
  let pending_block := Signed_block (seal skip (chain_db s) when witness_id k root) (included b) in
  _ ← raise (if skips skip skip_block_size_check then Ok tt
             else FC_ASSERT (pack_block pending_block <=? maximum_block_size (parameters (chain_db s)))
                    "fc::raw::pack_size(pending_block) <= get_global_properties().parameters.maximum_block_size");
  _ ← push_block schedule schedule_scale leftover skip pending_block;
  action_ret pending_block.
End Produce.

(** ** Facts *)

(** The fields of the temporary account are zero. *)
Definition temp_clear (db : database) : Prop := forall a, amount (get_balance db GRAPHENE_TEMP_ACCOUNT a) = 0.

(** The operations that are generated: they cost nothing, and they do not pay the
    temporary account. *)
Definition system_operation (op : operation) : Prop :=
  match op with
  | incentive o => in_fee o = no_fee
  | account_deflation o => ad_fee o = no_fee /\ ad_owner o <> GRAPHENE_TEMP_ACCOUNT
  | order_deflation o => od_fee o = no_fee
  | _ => False
  end.

Definition capitals_owned (db : database) : Prop :=
  forall i c, objs (construction_capitals db) !! i = Some c -> cc_owner c <> GRAPHENE_TEMP_ACCOUNT.

Section Operations.
Context `{FC : FcLib, !FcLaws FC, NE : NthElement}.
Implicit Types (db : database).

Lemma temp_clear_empty db : temp_clear db -> temp_account_empty db = true.
Proof.
  intros H. apply bool_decide_eq_true. intros [i a] b Hb Hi. cbn in Hi. subst i. specialize (H a).
  rewrite get_balance_lookup, Hb in H. exact H.
Qed.

Lemma temp_empty_clear db : temp_account_empty db = true -> temp_clear db.
Proof.
  intros H%bool_decide_eq_true a. rewrite get_balance_lookup.
  destruct (balances db !! (GRAPHENE_TEMP_ACCOUNT, a)) as [b|] eqn:E; [|done]. exact (H _ _ E eq_refl).
Qed.

Lemma adjust_balance_clear db i x db' :
  adjust_balance db i x = Ok db' -> temp_clear db -> i <> GRAPHENE_TEMP_ACCOUNT \/ amount x = 0 -> temp_clear db'.
Proof.
  intros (b & _ & G & _)%adjust_balance_inv H Hi a. rewrite G, H. case_decide as E; [|done].
  injection E as <- _. destruct Hi as [Hi|Hi]; [done|lia].
Qed.

Lemma clear_frame db db' : balances db' = balances db -> temp_clear db -> temp_clear db'.
Proof. intros E H a. specialize (H a). unfold get_balance in *. by rewrite E. Qed.

Ltac clears := match goal with T : temp_clear ?d |- temp_clear _ => exact (clear_frame d _ eq_refl T) end.

Lemma order_walk_clear db di order db' :
  order_deflation_do_apply db di order = Ok db' -> temp_clear db ->
  temp_clear db' /\ construction_capitals db' = construction_capitals db.
Proof.
  unfold order_deflation_do_apply, limit_at. intros H T. inv_result. destruct (negb _); [inv_result; split; [clears|done]|].
  destruct (match order_deflations db !! order with Some _ => _ | None => _ end) as [cleared frozen]. inv_results.
  match goal with H : (if 0 <? _ then _ else _) = Ok ?d |- _ => rename H into Hc; rename d into db1 end.
  enough (temp_clear db1 /\ construction_capitals db1 = construction_capitals db) as [T1 E1]
    by (split; [clears|done]).
  destruct (0 <? _); [|inv_result; split; [clears|done]].
  apply cut_order_frame in Hc as (_ & Eb & Ec). split; [exact (clear_frame db _ Eb T)|done].
Qed.

Lemma account_walk_clear db di owner db' :
  account_deflation_do_apply db di owner = Ok db' -> owner <> GRAPHENE_TEMP_ACCOUNT -> temp_clear db ->
  temp_clear db' /\ construction_capitals db' = construction_capitals db.
Proof.
  unfold account_deflation_do_apply. cbv zeta. intros H Ho T. inv_result.
  destruct (match account_deflations db !! owner with Some _ => _ | None => _ end) as [cleared frozen]. inv_result.
  match goal with H : (if 0 <? _ then _ else _) = Ok ?d |- _ => rename H into Hc; rename d into db1 end.
  enough (temp_clear db1 /\ construction_capitals db1 = construction_capitals db) as [T1 E1]
    by (split; [clears|done]).
  destruct (0 <? _); inv_result; [|split; [clears|done]].
  match goal with H : adjust_balance _ _ _ = _ |- _ => pose proof H as E; apply adjust_balance_inv in E as (b & -> & _);
    eapply adjust_balance_clear in H; [|clears|by left] end. done.
Qed.

Lemma incentive_clear db op db' :
  incentive_do_apply db op = Ok db' -> capitals_owned db -> temp_clear db ->
  temp_clear db' /\ capitals_owned db' /\ deflations db' = deflations db /\ limit_orders db' = limit_orders db.
Proof.
  unfold incentive_do_apply, tbl_find. cbv zeta. intros H Hc T. inv_result.
  match goal with H : objs (construction_capitals db) !! _ = Some ?c |- _ => rename H into Hi; rename c into c0 end.
  assert (Ho : cc_owner (released (reason op) c0) = cc_owner c0) by (unfold released; by destruct (reason op =? 0)).
  match goal with H : adjust_balance _ _ _ = Ok ?d |- _ => rename d into db1; pose proof H as E;
    apply adjust_balance_inv in E as (b & E & _);
    apply adjust_balance_clear in H; [|clears|left; rewrite Ho; by eapply Hc]; rename H into T1 end.
  assert (C1 : capitals_owned db1).
  { subst db1. intros i c. simpl. rewrite lookup_alter_Some. intros [(<- & c1 & Hc1 & ->)|[_ Hi']]; [|by eapply Hc].
    rewrite Ho. by eapply Hc. }
  assert (D1 : deflations db1 = deflations db /\ limit_orders db1 = limit_orders db) by by rewrite E.
  clear E. destruct (_ <=? _); inv_result; (split; [clears|]); (split; [|exact D1]); [|exact C1].
  intros i c. simpl. intros [_ Hi']%lookup_delete_Some. by eapply C1.
Qed.

Lemma capitals_frame db db' : construction_capitals db' = construction_capitals db -> capitals_owned db -> capitals_owned db'.
Proof. intros E H i c. rewrite E. apply H. Qed.

(** The fee of a generated operation changes nothing. *)
Lemma no_fee_run {Op} `{E : !Evaluator Op} ctx db (op : Op) db' :
  pay_fee (Op := Op) = generic_pay_fee -> (forall st st1, do_evaluate db st op = Ok st1 -> st1 = st) ->
  op_fee op = no_fee -> start_evaluate ctx db op = Ok db' -> temp_clear db -> capitals_owned db ->
  exists st db2 db3, db2 = db <| dynamic_data := dynamic_data db2 |> <| statistics := statistics db2 |> /\
    do_apply db2 st op = Ok db3 /\ temp_clear db2 /\ capitals_owned db2 /\
    (temp_clear db3 -> temp_clear db') /\ construction_capitals db' = construction_capitals db3 /\
    deflations db' = deflations db3 /\ limit_orders db' = limit_orders db3.
Proof.
  intros Hp He Hf (st & db2 & db3 & _ & F & _ & _ & Happ & Hadj)%generic_run T C; [|done..].
  exists st, db2, db3. split_and!; [done|done| | | |by apply adjust_balance_inv in Hadj as (b & -> & _)..].
  - apply (clear_frame db); [by rewrite F|done].
  - apply (capitals_frame db); [by rewrite F|done].
  - intros T3. refine (adjust_balance_clear _ _ _ _ Hadj T3 _). right. by rewrite Hf.
Qed.

Lemma system_operation_clear ctx db op db' :
  system_operation op -> apply_operation ctx db op = Ok db' -> temp_clear db -> capitals_owned db ->
  temp_clear db' /\ capitals_owned db' /\
  (match op with incentive _ => deflations db' = deflations db /\ limit_orders db' = limit_orders db | _ => True end).
Proof.
  destruct op; try done; cbn [system_operation apply_operation]; intros Ho H T C.
  - eapply no_fee_run in H as (st & db2 & db3 & F & Happ & T2 & C2 & T' & Ec & Ed & El); try done;
      [|intros ??; apply incentive_evaluate_keeps].
    cbn in Happ. apply incentive_clear in Happ as (T3 & C3 & D3 & L3); [|done..].
    split_and!; [by apply T'|by apply (capitals_frame db3)|by rewrite Ed, D3, F|by rewrite El, L3, F].
  - eapply no_fee_run in H as (st & db2 & db3 & F & Happ & T2 & C2 & T' & Ec & _); try done;
      [|intros ?? Hk; cbn in Hk; unfold keep in Hk; by inv_result|apply Ho].
    cbn in Happ. apply account_walk_clear in Happ as [T3 C3]; [|apply Ho|done].
    split_and!; [by apply T'|by apply (capitals_frame db2); [rewrite Ec|]|done].
  - eapply no_fee_run in H as (st & db2 & db3 & F & Happ & T2 & C2 & T' & Ec & _); try done;
      [|intros ?? Hk; cbn in Hk; unfold keep in Hk; by inv_result].
    cbn in Happ. apply order_walk_clear in Happ as [T3 C3]; [|done].
    split_and!; [by apply T'|by apply (capitals_frame db2); [rewrite Ec|]|done].
Qed.
End Operations.

(** The deflations begin behind the temporary account. *)
Definition cursors_ahead (db : database) : Prop :=
  forall i d, objs (deflations db) !! i = Some d -> (GRAPHENE_TEMP_ACCOUNT < account_cursor d)%N.

Section Generation.
Context `{FC : FcLib, !FcLaws FC, NE : NthElement}.
Implicit Types (db : database).

Lemma incentives_system db slots votes ops :
  generate_incentive_operations db slots votes = Ok ops -> Forall (fun op => in_fee op = no_fee) ops.
Proof.
  intros H. refine (foldM_inv _ (Forall (fun op => in_fee op = no_fee)) _ _ _ _ _ H); [|done].
  intros l o l' Hl _ Hg. unfold generate_op in Hg. destruct (_ <=? _); inv_result; [done|].
  apply Forall_app. split; [done|]. by repeat constructor.
Qed.

Lemma mapM_result_Forall {A B} (f : A -> result B) (P : B -> Prop) l : forall ys,
  (forall x y, x ∈ l -> f x = Ok y -> P y) -> mapM_result f l = Ok ys -> Forall P ys.
Proof.
  induction l as [|x l IH]; cbn [mapM_result]; intros ys Hf H; inv_result; [done|]. constructor.
  - eapply Hf; [by left|eassumption].
  - eapply IH; [|eassumption]. intros ???. apply Hf. by right.
Qed.

Lemma deflations_system db ops :
  cursors_ahead db -> generate_deflation_operations db = Ok ops -> Forall system_operation (map of_walk ops).
Proof.
  intros Hc H. unfold generate_deflation_operations in H. destruct (running_deflation db) as [[di d]|] eqn:E; [|by inv_result].
  inv_result. rewrite map_app. apply Forall_app. rewrite !Forall_map. split.
  - eapply mapM_result_Forall; [|eassumption]. intros i y _ Hy. unfold generate_order_operation in Hy. by inv_result.
  - eapply mapM_result_Forall; [|eassumption]. intros i y Hi Hy. unfold generate_account_operation in Hy. inv_result. split; [done|].
    apply subseteq_take in Hi. unfold accounts_ahead in Hi. destruct (balance_cleared d); [by apply elem_of_nil in Hi|].
    destruct (objs (accounts db) !! account_cursor d); [|by apply elem_of_nil in Hi].
    unfold ids_between in Hi. apply list_elem_of_filter in Hi as [[Hi _] _]. simpl.
    unfold running_deflation in E. destruct (tbl_last (deflations db)) as [[j e]|] eqn:El; [|done].
    destruct (order_cleared e && balance_cleared e); simplify_eq. apply tbl_last_Some in El. specialize (Hc _ _ El). lia.
Qed.
End Generation.

(** *** The transactions of the block, applied again *)

(** What a producer relies on in the state of the head: its block is the one that the
    summaries name under its number, transactions may live half a minute, nothing is in the
    temporary account or owned by it, and deflations begin behind it. *)
Record ready `{FC : FcLib, BL : BlockLib, KL : KeyLib} (s : chain_state) : Prop := {
  ready_summary : 0 < head_block_num (chain_db s) ->
    block_summaries s !! wrap16 (endian_reverse_u32 (hash_0 (head_block_id (dgpo (chain_db s))))) =
      Some (head_block_id (dgpo (chain_db s)));
  ready_expiration : wrap32 (time (dgpo (chain_db s)) + 30) = time (dgpo (chain_db s)) + 30 /\
    time (dgpo (chain_db s)) + 30 <=
      wrap32 (time (dgpo (chain_db s)) + maximum_time_until_expiration (parameters (chain_db s)));
  ready_temp : temp_clear (chain_db s);
  ready_capitals : capitals_owned (chain_db s);
  ready_cursors : cursors_ahead (chain_db s);
}.

Section Replay.
Context `{FC : FcLib, !FcLaws FC, BL : BlockLib, KL : KeyLib, TL : TransactionLib, NE : NthElement, BO : BoostLib,
  PR : !ProcessedLib BL, PL : !PackLib BL, PD : !ProducerLib, !ProducerLaws PR PD}.
Implicit Types (s : chain_state) (t : signed_transaction) (m : gmap Z signed_transaction).

(** The transactions remembered after [t] has been accepted. *)
Definition remember (skip : Z) t m : gmap Z signed_transaction :=
  if skips skip skip_transaction_dupe_check then m else <[transaction_id (trx t) := t]> m.

Definition unknown (skip : Z) t m : Prop :=
  skips skip skip_transaction_dupe_check = false -> m !! transaction_id (trx t) = None.

Definition with_recent s m : chain_state := s <| recent := m |>.

(** Which transactions are remembered matters for duplicates only. *)
Lemma apply_transaction_recent skip s t s' m :
  apply_transaction skip s t = Ok s' -> unknown skip t m ->
  apply_transaction skip (with_recent s m) t = Ok (with_recent s' (remember skip t m)).
Proof.
  unfold apply_transaction, unknown, remember, with_recent. intros H U. inv_result.
  match goal with H : full_transaction_validate _ = _ |- _ => rewrite H end. cbn [mbind result_bind].
  match goal with H : (if skips _ (Z.lor _ _) then _ else _) = Ok _ |- _ => rename H into Ha end.
  match goal with H : (if 0 <? _ then _ else _) = Ok _ |- _ => rename H into Hx end.
  match goal with H : apply_full_operations _ _ _ _ = Ok ?g |- _ => rename H into Hf; rename g into f end.
  change (check_authorities (s <| recent := m |>) t) with (check_authorities s t). rewrite Ha.
  change (check_tapos (s <| recent := m |>) t) with (check_tapos s t).
  change (check_expiration (s <| recent := m |>) t) with (check_expiration s t).
  change (chain_db (s <| recent := m |>)) with (chain_db s). rewrite Hx.
  assert (E : apply_full_operations (fees s) (fee_scale s) (full_of s) (operations (trx t)) = Ok f)
    by (by destruct (skips skip skip_transaction_dupe_check)).
  destruct (skips skip skip_transaction_dupe_check); cbn [negb orb mbind result_bind].
  - change (full_of (s <| recent := m |>)) with (full_of s). simpl. by rewrite E.
  - simpl (recent _). rewrite bool_decide_eq_true_2 by auto. cbn [mbind result_bind].
    change (full_of (s <| recent := m |> <| recent ::= <[transaction_id (trx t) := t]> |>)) with (full_of s).
    simpl. by rewrite E.
Qed.

Lemma system_payer op : system_operation op ->
  operation_fee_payer op = GRAPHENE_TEMP_ACCOUNT /\ operation_required_active op = [] /\
  operation_required_owner op = [] /\ operation_validate op = Ok tt.
Proof. by destruct op. Qed.

Lemma all_approved (get_active get_owner : N -> result (option authority)) depth (l : list N) : forall g : sign_state,
  GRAPHENE_TEMP_ACCOUNT ∈ approved_by g -> (forall i, i ∈ l -> i = GRAPHENE_TEMP_ACCOUNT) ->
  foldM (fun g id => require_auth "tx_missing_active_auth"
    (or_else (check_account get_active ∅ depth id g)
       (fun g => au ← get_owner id; check_authority get_active ∅ depth au g))) g l = Ok g.
Proof.
  induction l as [|i l IH]; [done|]. intros g Hg Hl. cbn [foldM].
  rewrite (Hl i) by by left.
  assert (check_account get_active ∅ depth GRAPHENE_TEMP_ACCOUNT g = Ok (true, g)) as ->
    by (unfold check_account; by rewrite decide_True).
  cbn [require_auth or_else mbind result_bind GRAPHENE_ASSERT]. apply IH; [done|]. intros j Hj. apply Hl. by right.
Qed.

(** No signature is needed for generated operations. *)
Lemma system_authorised get_active get_owner depth ops :
  Forall system_operation ops ->
  verify_required get_active get_owner (full_required (map ordinary ops)) ∅ depth false ∅ ∅ = Ok tt.
Proof.
  intros Hops. unfold verify_required, full_required. cbn [required_active required_owner other].
  assert (Ho : map ordinary ops ≫= full_required_owner = []).
  { induction Hops as [|op ops Hop _ IH]; [done|]. apply system_payer in Hop as (_ & _ & E & _). csimpl. by rewrite E, IH. }
  assert (Ht : map ordinary ops ≫= full_other = []) by (clear; induction ops as [|op ops IH]; [done|exact IH]).
  assert (Ha : forall i, i ∈ flat (map ordinary ops ≫= fun op => full_fee_payer op :: full_required_active op) -> i = GRAPHENE_TEMP_ACCOUNT).
  { intros i. rewrite flat_elem. clear Ho Ht. induction Hops as [|op ops Hop _ IH]; [by intros ?%elem_of_nil|].
    apply system_payer in Hop as (E & E' & _). csimpl. rewrite E, E'. simpl. rewrite elem_of_cons. by intros [->|?]; auto. }
  rewrite Ho, Ht, bool_decide_eq_false_2 by (by intros E%Ha).
  cbn [negb GRAPHENE_ASSERT mbind result_bind foldM]. rewrite all_approved; [done|simpl; set_solver|exact Ha].
Qed.

Definition is_incentive (op : operation) : bool := match op with incentive _ => true | _ => false end.

Lemma apply_generated_inv s ops s' :
  apply_generated s ops = Ok s' -> Forall system_operation ops -> temp_clear (chain_db s) -> capitals_owned (chain_db s) ->
  exists f, foldM (apply_full_operation (fees s) (fee_scale s) false) (full_of s) (map ordinary ops) = Ok f /\
    s' = with_full s f /\ temp_clear (base_db f) /\ capitals_owned (base_db f) /\
    same_schedule (chain_db s) (base_db f) /\
    (Forall is_incentive ops -> deflations (base_db f) = deflations (chain_db s) /\ limit_orders (base_db f) = limit_orders (chain_db s)).
Proof.
  intros (f & H & [= <-])%bind_Ok Hops T C. exists f. split; [exact H|]. split; [done|].
  refine (foldM_inv _ (fun g => temp_clear (base_db g) /\ capitals_owned (base_db g) /\ same_schedule (chain_db s) (base_db g) /\
    (Forall is_incentive ops -> deflations (base_db g) = deflations (chain_db s) /\ limit_orders (base_db g) = limit_orders (chain_db s)))
    _ _ _ _ _ H); [|by split_and!].
  intros g fop g' (T1 & C1 & S1 & D1) (op & -> & Hin)%list_elem_of_fmap Hg.
  apply bind_Ok in Hg as (db & Hdb & [= <-]).
  pose proof (apply_operation_schedule _ _ _ _ Hdb) as S2.
  apply system_operation_clear in Hdb as (T2 & C2 & D2); [|by eapply Forall_forall in Hops|done..].
  split_and!; [done|done|by etrans|]. intros Hi. destruct (D1 Hi) as [<- <-].
  eapply Forall_forall in Hi; [|exact Hin]. by destruct op.
Qed.

Lemma schedule_clock db db' : same_schedule db db' -> head_block_num db' = head_block_num db /\
  head_block_id (dgpo db') = head_block_id (dgpo db) /\ time (dgpo db') = time (dgpo db) /\
  maximum_time_until_expiration (parameters db') = maximum_time_until_expiration (parameters db).
Proof.
  intros [Hc Hp _ _ _]. split_and!; [exact (f_equal head_block_number Hc)|exact (f_equal head_block_id Hc)
    |exact (f_equal time Hc)|exact (f_equal maximum_time_until_expiration Hp)].
Qed.

(** Incentives leave the state ready for the deflation. *)
Lemma ready_after s ops s' :
  apply_generated s ops = Ok s' -> Forall system_operation ops -> Forall is_incentive ops -> ready s -> ready s'.
Proof.
  intros H Hops Hi [R1 R2 R3 R4 R5]. apply apply_generated_inv in H as (f & _ & -> & T & C & S & D); [|done..].
  destruct (D Hi) as [Ed _]. apply schedule_clock in S as (En & Ei & Et & Em).
  split; [|change (chain_db (with_full s f)) with (base_db f)..]; [|by rewrite Et, Em|done|done|].
  - change (chain_db (with_full s f)) with (base_db f). rewrite En, Ei. exact R1.
  - unfold cursors_ahead. by rewrite Ed.
Qed.

(** A generated transaction is one that every node accepts. *)
Lemma generated_applies skip s ops s' m :
  apply_generated s ops = Ok s' -> Forall system_operation ops -> ops <> [] -> ready s -> unknown skip (generated s ops) m ->
  apply_transaction skip (with_recent s m) (generated s ops) = Ok (with_recent s' (remember skip (generated s ops) m)).
Proof.
  intros H Hops Hne [R1 R2 R3 R4 R5] U. apply apply_generated_inv in H as (f & H & -> & T & _); [|done..].
  unfold apply_transaction. change (operations (trx (generated s ops))) with (map ordinary ops).
  assert (full_transaction_validate (map ordinary ops) = Ok tt) as ->.
  { unfold full_transaction_validate. destruct ops as [|op ops]; [done|]. rewrite (proj2 (Z.ltb_lt _ _)) by (simpl; lia).
    cbn [FC_ASSERT mbind result_bind]. clear -Hops. induction Hops as [|x l Hx _ IH]; [done|].
    apply system_payer in Hx as (_ & _ & _ & E). cbn [map foldM full_validate]. by rewrite E. }
  cbn [mbind result_bind]. set (t := generated s ops) in *.
  assert (Ea : check_authorities (with_recent s m) t = Ok tt).
  { unfold check_authorities. change (signatures t) with (@nil Z). cbn [get_signature_keys foldM mbind result_bind].
    change (operations (trx t)) with (map ordinary ops). by rewrite system_authorised. }
  assert (Et : 0 < head_block_num (chain_db s) -> check_tapos (with_recent s m) t = Ok tt).
  { intros Hn. unfold check_tapos. simpl. rewrite (R1 Hn). simpl. by rewrite Z.eqb_refl. }
  assert (Ex : check_expiration (with_recent s m) t = Ok tt).
  { unfold check_expiration. simpl. unfold head_block_time. destruct R2 as [-> R2].
    rewrite (proj2 (Z.leb_le _ _) R2). simpl. by rewrite (proj2 (Z.leb_le _ _)) by lia. }
  rewrite Ea, Ex. change (recent (with_recent s m)) with m. change (chain_db (with_recent s m)) with (chain_db s).
  assert (FC_ASSERT (negb (negb (skips skip skip_transaction_dupe_check)) ||
      bool_decide (m !! transaction_id (trx t) = None)) "find(trx_id) == end()" = Ok tt) as ->.
  { unfold unknown in U. destruct (skips skip skip_transaction_dupe_check); [done|]. by rewrite bool_decide_eq_true_2 by auto. }
  assert (forall A (x : A), (if skips skip (Z.lor skip_transaction_signatures skip_authority_check) then x else x) = x) as ->
    by (intros; by case_match).
  assert ((if 0 <? head_block_num (chain_db s) then _ ← (if skips skip skip_tapos_check then Ok tt
      else check_tapos (with_recent s m) t); Ok tt else Ok tt) = Ok tt) as ->.
  { destruct (Z.ltb_spec 0 (head_block_num (chain_db s))); [|done]. rewrite Et by done. by case_match. }
  cbn [mbind result_bind]. unfold remember.
  destruct (skips skip skip_transaction_dupe_check); unfold apply_full_operations; simpl;
    change (full_of _) with (full_of s); rewrite H; simpl; by rewrite (temp_clear_empty _ T).
Qed.
End Replay.

Section Assembly.
Context `{FC : FcLib, !FcLaws FC, BL : BlockLib, KL : KeyLib, TL : TransactionLib, NE : NthElement, BO : BoostLib,
  PR : !ProcessedLib BL, PL : !PackLib BL, PD : !ProducerLib, !ProducerLaws PR PD}.
Variables (by_next_slot by_pending : database -> list N).
Implicit Types (s : chain_state) (t : signed_transaction) (b : building) (l : list processed_transaction).

Definition ids_of l : list Z := (fun p => transaction_id (trx (as_signed p))) <$> l.

(** No two transactions have one id, and none has that of a remembered one. *)
Definition fresh_ids (skip : Z) s l : Prop :=
  skips skip skip_transaction_dupe_check = false -> NoDup (ids_of l) /\ forall i, i ∈ ids_of l -> recent s !! i = None.

Definition remembered (skip : Z) s l : gmap Z signed_transaction :=
  foldl (fun m p => remember skip (as_signed p) m) (recent s) l.

(** The transactions of the block make of [s], one after the other, what the producer
    has built. *)
Definition replays (skip : Z) s b : Prop :=
  fresh_ids skip s (included b) ->
  foldM (fun s p => apply_transaction skip s (as_signed p)) s (included b)
    = Ok (with_recent (built b) (remembered skip s (included b))).

Lemma remembered_elem skip s l i :
  is_Some (remembered skip s l !! i) -> is_Some (recent s !! i) \/ i ∈ ids_of l.
Proof.
  unfold remembered, ids_of. induction l as [|p l IH] using rev_ind; [by left|].
  rewrite foldl_app, fmap_app, elem_of_app. simpl. unfold remember at 1.
  destruct (skips skip skip_transaction_dupe_check); [naive_solver|].
  rewrite lookup_insert_is_Some. intros [<-|[_ H]]; [right; right; by left|]. apply IH in H. tauto.
Qed.

Lemma fresh_snoc skip s l p :
  fresh_ids skip s (l ++ [p]) -> fresh_ids skip s l /\ unknown skip (as_signed p) (remembered skip s l).
Proof.
  unfold fresh_ids, unknown, ids_of. rewrite fmap_app. intros H. split; intros E; destruct (H E) as [Hd Hn];
    apply NoDup_app in Hd as (Hd & Hx & _).
  - split; [done|]. intros i Hi. apply Hn, elem_of_app. by left.
  - apply eq_None_not_Some. intros [Hs|Hs]%remembered_elem.
    + rewrite Hn in Hs by (apply elem_of_app; right; by left). by destruct Hs.
    + apply (Hx _ Hs). by left.
Qed.

Lemma replays_include skip s b t s' :
  replays skip s b ->
  (forall m, unknown skip t m -> apply_transaction skip (with_recent (built b) m) t = Ok (with_recent s' (remember skip t m))) ->
  replays skip s (include (built b) t s' b).
Proof.
  intros Hb Ht. unfold replays, include. cbn [included built]. intros [F U]%fresh_snoc.
  rewrite foldM_app, (Hb F). cbn [foldM mbind result_bind]. rewrite as_signed_process in *. rewrite (Ht _ U). simpl.
  unfold remembered. rewrite foldl_app. simpl. by rewrite as_signed_process.
Qed.

(** Nothing, or one transaction more. *)
Lemma add_generated_inv gen b b' :
  add_generated gen b = Ok b' ->
  b' = b \/ exists ops s', gen = Ok ops /\ ops <> [] /\ apply_generated (built b) ops = Ok s' /\
    b' = include (built b) (generated (built b) ops) s' b.
Proof.
  unfold add_generated. intros H. destruct gen as [ops|e]; cbn [mbind result_bind] in H.
  - destruct ops as [|op ops]; [left; congruence|].
    destruct (apply_generated (built b) (op :: ops)) as [s'|e] eqn:E; cbn [mbind result_bind] in H.
    + right. exists (op :: ops), s'. split_and!; congruence.
    + destruct (is_fc_exception e); [left; congruence|done].
  - destruct (is_fc_exception e); [left; congruence|done].
Qed.

Lemma add_generated_replays skip s gen b b' :
  (forall ops, gen = Ok ops -> Forall system_operation ops) -> ready (built b) ->
  add_generated gen b = Ok b' -> replays skip s b -> replays skip s b'.
Proof.
  intros Hg R [->|(ops & s' & E & Hne & Ha & ->)]%add_generated_inv Hb; [done|].
  apply replays_include; [done|]. intros m U. apply generated_applies; try done. by apply Hg.
Qed.

Lemma include_transaction_inv max skip b t b' :
  include_transaction max skip b t = Ok b' ->
  b' = b \/ exists s', apply_transaction skip (built b) t = Ok s' /\ b' = include (built b) t s' b.
Proof.
  unfold include_transaction. intros H. destruct (_ <=? _); [left; congruence|].
  destruct (apply_transaction skip (built b) t) as [s'|e]; [right; exists s'; split; congruence|].
  destruct (is_fc_exception e); [left; congruence|done].
Qed.

(** Without orders to pass by, generating changes nothing. *)
Lemma pass_orders_frame db db' :
  deflations db' = deflations db -> limit_orders db' = limit_orders db -> pass_orders db = db -> pass_orders db' = db'.
Proof.
  intros Ed El. unfold pass_orders, running_deflation, orders_ahead. rewrite Ed, El.
  destruct (tbl_last (deflations db)) as [[di d]|]; [|done]. destruct (order_cleared d && balance_cleared d); [done|].
  destruct (negb (order_cleared d) && _); [|done]. intros H%(f_equal deflations). simpl in H.
  rewrite <-Ed in H. destruct db'. simpl in *. by rewrite H.
Qed.

(** A transaction that the chain makes of its own accord. *)
Definition system_transaction t : Prop :=
  signatures t = [] /\ exists ops, ops <> [] /\ Forall system_operation ops /\ operations (trx t) = map ordinary ops.

(** The transactions of a block: at most two generated ones, and some of those that
    waited, in their order. *)
Definition composed (waiting : list signed_transaction) l : Prop :=
  exists system packed, map as_signed l = system ++ packed /\ (length system <= 2)%nat /\
    Forall system_transaction system /\ packed `sublist_of` waiting.

Lemma add_generated_system gen b b' system :
  (forall ops, gen = Ok ops -> Forall system_operation ops) -> add_generated gen b = Ok b' ->
  map as_signed (included b) = system -> Forall system_transaction system ->
  exists system', map as_signed (included b') = system' /\ Forall system_transaction system' /\
    (length system' <= S (length system))%nat.
Proof.
  intros Hg [->|(ops & s' & E & Hne & Ha & ->)]%add_generated_inv Hb Hs; [by exists system; split_and!; [| |lia]|].
  eexists. split; [done|]. unfold include. cbn [included]. rewrite map_app, Hb. simpl. rewrite as_signed_process. split.
  - apply Forall_app. split; [done|]. apply Forall_singleton. split; [done|]. exists ops. split_and!; try done. by apply Hg.
  - rewrite length_app. simpl. lia.
Qed.

Lemma incentive_operations_system s ops :
  incentive_operations by_next_slot by_pending s = Ok ops -> Forall system_operation ops /\ Forall is_incentive ops.
Proof.
  unfold incentive_operations. intros H. inv_result. rewrite !Forall_map. split; [|by apply Forall_true].
  match goal with H : generate_incentive_operations _ _ _ = _ |- _ => by apply incentives_system in H end.
Qed.

Lemma deflation_operations_system s ops :
  ready s -> deflation_operations s = Ok ops -> Forall system_operation ops.
Proof.
  unfold deflation_operations. intros R H. inv_result. eapply deflations_system; [apply R|eassumption].
Qed.

Lemma include_transactions_ok max skip s pending : forall b b' waiting,
  foldM (include_transaction max skip) b pending = Ok b' -> replays skip s b -> composed waiting (included b) ->
  replays skip s b' /\ composed (waiting ++ pending) (included b').
Proof.
  induction pending as [|t pending IH]; intros b b' waiting H Hr Hc; cbn [foldM] in H.
  { inv_result. by rewrite app_nil_r. }
  apply bind_Ok in H as (b1 & Hb & H). destruct Hc as (system & packed & E & Hl & Hs & Hp).
  rewrite cons_middle, app_assoc. apply include_transaction_inv in Hb as [->|(s' & Ha & ->)].
  - apply (IH _ _ (waiting ++ [t])) in H; [done..|]. exists system, packed. split_and!; try done.
    by apply sublist_inserts_r.
  - apply (IH _ _ (waiting ++ [t])) in H; [done| |].
    + apply replays_include; [done|]. intros m U. by apply apply_transaction_recent.
    + exists system, (packed ++ [t]). unfold include. cbn [included]. rewrite map_app, E. simpl. rewrite as_signed_process, app_assoc.
      split_and!; try done. by apply sublist_app.
Qed.

Lemma assemble_ok max skip s pending b :
  ready s -> pass_orders (chain_db s) = chain_db s ->
  assemble by_next_slot by_pending max skip s pending = Ok b -> replays skip s b /\ composed pending (included b).
Proof.
  intros R Hp H. unfold assemble in H. apply bind_Ok in H as (b1 & H1 & H). apply bind_Ok in H as (b2 & H2 & H).
  set (b0 := Building s max_block_header_size []) in *. unfold add_incentives in H1. change (built b0) with s in H1.
  assert (G1 : forall ops, incentive_operations by_next_slot by_pending s = Ok ops -> Forall system_operation ops)
    by (intros ops Ho; exact (proj1 (incentive_operations_system _ _ Ho))).
  assert (R1 : ready (built b1) /\ pass_orders (chain_db (built b1)) = chain_db (built b1)).
  { apply add_generated_inv in H1 as [->|(ops & s' & E & Hne & Ha & ->)]; [done|].
    apply incentive_operations_system in E as [E1 E2]. split; [by eapply ready_after|].
    apply apply_generated_inv in Ha as (f & _ & -> & _ & _ & _ & D); [|done|apply R..]. destruct (D E2) as [Ed El].
    by apply (pass_orders_frame (chain_db s)). }
  destruct R1 as [R1 P1]. unfold add_deflation in H2. rewrite P1 in H2.
  replace (Building (set_db (built b1) (chain_db (built b1))) (total_block_size b1) (included b1)) with b1 in H2
    by (by destruct b1 as [[]]).
  assert (G2 : forall ops, deflation_operations (built b1) = Ok ops -> Forall system_operation ops)
    by (intros ops; by apply deflation_operations_system).
  assert (Q0 : replays skip s b0) by (intros _; simpl; by destruct s).
  pose proof (add_generated_replays skip s _ b0 b1 G1 R H1 Q0) as Q1.
  pose proof (add_generated_replays skip s _ b1 b2 G2 R1 H2 Q1) as Q2.
  destruct (add_generated_system _ _ _ [] G1 H1 eq_refl) as (l1 & E1 & F1 & L1); [done|].
  destruct (add_generated_system _ _ _ l1 G2 H2 E1 F1) as (l2 & E2 & F2 & L2).
  apply (include_transactions_ok _ _ s _ _ _ []) in H; [done..|]. exists l2, []. rewrite app_nil_r.
  split_and!; try done. simpl in *. lia.
Qed.
End Assembly.

(** ** Properties *)

Section Properties.
Context `{FC : FcLib, !FcLaws FC, BL : BlockLib, !BlockLaws BL, KL : KeyLib, TL : TransactionLib, NE : NthElement, BO : BoostLib,
  PR : !ProcessedLib BL, PL : !PackLib BL, PD : !ProducerLib, !ProducerLaws PR PD}.
Variables (schedule : database -> full_operation -> Z) (schedule_scale : database -> Z)
  (leftover : chain -> signed_block processed_transaction -> tally).
Variables (by_next_slot by_pending : database -> list N).
Implicit Types (n : node) (s : chain_state).

(** The parts of a block that was generated. *)
Lemma generate_block_inv skip when w k n blk n' :
  _generate_block schedule schedule_scale leftover by_next_slot by_pending skip when w k n = (Ok blk, n') ->
  let s := no_pending (ledger (head_state n)) in
  exists b root, check_producer skip (chain_db (current n)) when w k = Ok tt /\
    assemble by_next_slot by_pending (maximum_block_size (parameters (chain_db (current n)))) skip s (pending n) = Ok b /\
    calculate_merkle_root blk = Ok root /\ blk = Signed_block (seal skip (chain_db s) when w k root) (included b) /\
    (skips skip skip_block_size_check = false -> pack_block blk <= maximum_block_size (parameters (chain_db s))).
Proof.
  unfold _generate_block. intros (db & n1 & [= <- <-] & H)%action_bind_Ok. apply action_bind_Ok in H as ([] & n1 & [= Hc <-] & H).
  apply action_bind_Ok in H as (u & n1 & [= <- <-] & H). apply action_bind_Ok in H as (s & n1 & [= <- <-] & H).
  apply action_bind_Ok in H as (waiting & n1 & [= <- <-] & H). apply action_bind_Ok in H as (b & n1 & [= Hb <-] & H).
  apply action_bind_Ok in H as (root & n1 & [= Hr <-] & H). apply action_bind_Ok in H as (u' & n1 & [= Hs <-] & H).
  apply action_bind_Ok in H as (x & n1 & _ & [= <- <-]). exists b, root. split_and!; [exact Hc|exact Hb|exact Hr|done|].
  intros E. rewrite E in Hs. destruct u'. apply guard_or_Ok in Hs. by bool_to_prop.
Qed.

End Properties.

(** ** Witnesses *)

(** Blocks of signed transactions. *)
Definition signed_ref : BlockLib := {|
  processed_transaction := signed_transaction;
  merkle_digest t := mix [ref_block_num (trx t); ref_block_prefix (trx t); expiration (trx t)];
  endian_reverse_u32 := byte_swap_u32;
  sha224_hash := sha224_hash (BlockLib := block_ref);
  header_hash := header_hash (BlockLib := block_ref);
  pair_hash := pair_hash (BlockLib := block_ref);
  checksum_hash := checksum_hash (BlockLib := block_ref);
  private_key := Z;
  recover_key := recover_key (BlockLib := block_ref);
  sign_compact := sign_compact (BlockLib := block_ref);
  key_of := key_of (BlockLib := block_ref);
|}.

#[export] Instance signed_ref_laws : BlockLaws signed_ref.
Proof.
  split; [exact (endian_reverse_range (BL := block_ref))|exact (endian_reverse_involutive (BL := block_ref))
    |exact (sha224_words (BL := block_ref))|exact (recover_sign (BL := block_ref))].
Qed.

Definition same_ref : ProcessedLib signed_ref := Build_ProcessedLib signed_ref (fun t : signed_transaction => t).
Definition numbers_ref : PackLib signed_ref :=
  Build_PackLib signed_ref (fun b => [block_num (BL := signed_ref) (signed_header b)]) (fun _ => Err (library_exception "unpack")).
Definition sizes_ref : ProducerLib (BL := signed_ref) :=
  @Build_ProducerLib signed_ref (fun _ t => t) (fun t => 100 + Z.of_nat (length (operations (trx t))))
    (fun t : signed_transaction => 120 + Z.of_nat (length (operations (trx t))))
    (fun b => 90 + 200 * Z.of_nat (length (transactions b))) 94.

#[export] Instance sizes_ref_laws : ProducerLaws (BL := signed_ref) same_ref sizes_ref.
Proof. by split. Qed.

(** An incentive is due, and Alice's payment waits; what the chain makes itself costs
    nothing. *)
Definition ex_fees (op : full_operation) : Z :=
  match op with ordinary (incentive _ | account_deflation _ | order_deflation _) => 0 | _ => 20 end.
Definition ex_due_db : database :=
  (chain_db ex_chain) <| accounts ::= fun t => t <| objs ::= <[GRAPHENE_TEMP_ACCOUNT := ex_account "temp-account"]> |> |>
    <| statistics ::= <[GRAPHENE_TEMP_ACCOUNT := ex_statistics]> |>
    <| construction_capitals := table_of [(0%N, ex_capital 0)] 1 |>
    <| dgpo ::= fun d => d <| head_block_id := block_id (BL := signed_ref) ex_parent |> |>.
Definition ex_due : chain_state :=
  ex_chain <| chain_db := ex_due_db |> <| fees := ex_fees |>
    <| block_summaries ::= fun m => <[1000 := block_id (BL := signed_ref) ex_parent]> (<[1001 := null_block_id]> m) |>.

Definition ex_fork : fork_database (signed_block signed_transaction) :=
  start_block (BL := signed_ref) (empty_fork_database (BL := signed_ref)) (Signed_block ex_parent []).
Definition ex_waiting : @node signed_ref :=
  @Node signed_ref (Chain ex_due (Tally [] [] [] 0)) [ex_due] 10 ex_fork empty_block_database ∅
    (Some (ex_due <| pending_tx := [ex_signed] |>)) [].

Definition ex_generated := _generate_block (FC := fc_ref) (BL := signed_ref) (KL := key_ref) (TL := transaction_ref)
  (NE := sorting_nth_element) (BO := boost_ref) (PR := same_ref) (PL := numbers_ref) (PD := sizes_ref)
  (fun _ => ex_fees) ex_schedule_scale (fun c _ => buffers c) (fun _ => [0%N]) (fun _ => [0%N]) 0 1500000005 2 80 ex_waiting.

Lemma ex_generated_run : exists blk n', ex_generated = (Ok blk, n') /\ length (transactions blk) = 2%nat.
Proof.
  assert (E : match fst ex_generated with Ok b => Nat.eqb (length (transactions b)) 2 | Err _ => false end = true) by by vm_compute.
  destruct ex_generated as [[blk|e] n']; [|done]. exists blk, n'. split; [done|]. by apply Nat.eqb_eq.
Qed.

Lemma ex_due_ready : ready (FC := fc_ref) (BL := signed_ref) (KL := key_ref) (no_pending ex_due).
Proof.
  split.
  - intros _. by vm_compute.
  - ground.
  - apply temp_empty_clear. by vm_compute.
  - intros i c Hi. change (objs (construction_capitals (chain_db (no_pending ex_due))))
      with (list_to_map [(0%N, ex_capital 0)] : gmap N construction_capital_object) in Hi.
    apply elem_of_list_to_map_2, list_elem_of_singleton in Hi. by injection Hi as -> ->.
  - intros i d Hi. discriminate Hi.
Qed.

Lemma ex_generated_fresh blk n' : ex_generated = (Ok blk, n') ->
  fresh_ids (BL := signed_ref) (TL := transaction_ref) (PR := same_ref) 0 (no_pending ex_due) (transactions blk).
Proof.
  intros H _. assert (E : match fst ex_generated with
    | Ok b => bool_decide (NoDup (ids_of (BL := signed_ref) (TL := transaction_ref) (PR := same_ref) (transactions b)))
    | Err _ => false end = true) by by vm_compute.
  rewrite H in E. apply bool_decide_eq_true in E. split; [exact E|]. intros i _. exact (lookup_empty i).
Qed.

